(* ===== verification/_CoqProject ===== *)
-Q . S2P
Prelude.v
GoStrings.v
Interfaces.v
Tables.v
CacheDB.v
CacheFacts.v
HomeDir.v
UidGen.v
CacheAuth.v
CacheUpdate.v
CacheTheorems.v
CacheIter.v
CacheOpen.v
CacheLife.v
Clients.v
Configured.v
Typed.v
CacheSpec.v
CacheProgress.v
Atoms.v
Offline.v
Rely.v
Interleave.v
Config.v
Aad.v
User.v
Pam.v
NssBuffers.v
Nss.v
RustStd.v
RustCache.v
RustNss.v
RustFacts.v
RustService.v
RustSound.v
RustAgree.v
RustOrphans.v
RustOpens.v
Sessions.v
Progress.v
Listing.v
Lookups.v
RustRuns.v
CliUser.v
CliUserFacts.v
CliConfig.v
Decimal.v
EntryText.v
Format.v
Logger.v
LoggerFacts.v
CliApp.v
CliTree.v
PamGlue.v
TestDump.v
DumpLoad.v
FileKit.v
Generators.v
GeneratorsFacts.v
I18n.v
TestCoverage.v
CoverageFacts.v
TestHarness.v
