(* ===== verification/Prelude.v ===== *)
(** * A verification library for aad-auth

    aad-auth lets the users of an Azure AD tenant log in to a Linux machine.
    It has a PAM module (src/pam), a name service (src/nss in Rust, and
    src/internal/nss in Go), a command line (src/cmd/aad-cli) and, under all of
    them, a cache of users in two SQLite files (src/internal/cache). This
    library models these parts, in Go and in Rust, and proves what makes each of
    them correct, up to theorems on the whole machine.

    ** How the parts interact

    A login goes through pam_sm_authenticate (Pam), which reads the arguments
    of the module and calls Authenticate of internal/pam: the name is put in
    lower case (User), the configuration of its domain is loaded (Config), the
    identity provider is asked (Aad), and the cache is opened (CacheOpen). A
    verified password is recorded with Update; without a network the cache
    decides with CanAuthenticate (CacheAuth). Update creates a user at its
    first login, with a uid searched from a hash of its name (UidGen) and a
    home made from a pattern (HomeDir), through the SQL operations of CacheDB
    on the tables of Tables. The name service reads the same cache (Nss) and
    packs the entries in C buffers (NssBuffers). The one that is installed is in
    Rust: it opens the same files with its own checks and queries, and purges the
    users that are too old in its own way (RustCache, RustNss). aad-cli (CliTree,
    CliApp) reads and updates records, moves homes (CliUser) and edits the
    configuration (CliConfig). Around them are the C glue of the module (PamGlue), the loggers
    (Logger), the translations (I18n), the generators of the build (Generators)
    and the helpers of the test suites (TestDump, TestCoverage, TestHarness).

    ** How the code is modelled

    The model is a shallow embedding. A computation is a function [M S A], from
    a state to a result and a state; a result is a value, an error or a panic,
    and errors keep the chains that [errors.Is] walks (this file).

    - The state of SQL operations is [world] (CacheDB): the tables, a list of
      outcomes for the next calls of the driver (any call can fail), the clock
      and the source of randomness. A transaction that does not commit leaves
      the tables as they were.
    - The state of a process is [sys] (CacheOpen): the cache directories with
      their files, owners and modes, the outcomes of the next system calls, the
      clock, the registry [openedCaches], the heap of [*Cache] and the pending
      goroutines of Close. Handles are natural numbers, so two clients that
      share a cache share its entry in the heap.
    - [cli] (CliUser) adds the homes and what is printed, [pam_state] (Pam) the
      messages, [iter_state] (Nss) the global variable of an iteration, and
      [conf_env] (CliConfig) has the files that the configuration editor sees.
      [app_state] (CliApp) puts the commands together with what is logged.
    - What is logged is [log_io] (Logger): the lines that are written, with their
      destination and priority, and the outcomes of the next calls of syslog and
      of PAM. The files of the build and of the tests are [file_system]
      (FileKit), whose calls can all fail.
    - The Rust code is over the same states, in a monad [R S E A] (RustStd) with a
      typed error and the panics of unwrap and expect.
    - Integers are integers of Z with the conversions [u32], [u64] and [i64]
      written where the code has them; strings are strings of bytes, decoded
      and encoded as UTF-8 where the code ranges over them (GoStrings).
    - Third-party code is a parameter: bcrypt, the decoration of errors, the
      order of the rows of a SELECT, the ini and JSON decoders, the lower case
      and the printable runes of Unicode, the network client, /proc, mv, the
      editor, cobra, logrus, gettext, grcov and, for the Rust code, the crates
      users and faccess. What is assumed of them is the classes of Interfaces,
      [IniLib], [JsonCodes], [UnicodePrint], [UnicodeCase], [Cobra] and [MvLaw];
      each has a concrete instance on which the examples and witnesses run.

    ** The files

    - Prelude: integers, errors, results, the monad, frames, shared lemmas.
      GoStrings: the functions of strings, strconv, unicode/utf8 and filepath
      that the code calls. Interfaces: the classes.
    - Tables: src/internal/cache/db/*.sql and the statements run on them.
      CacheDB: cachedb.go, passwddb.go, groupdb.go, shadowdb.go, operation by
      operation. CacheFacts: what each operation does, as inversion lemmas, and
      the coherence of the four tables. CacheTheorems: insertion and lookup,
      purge, attributes, groups. CacheIter: the iterators. Typed: the types of
      the columns. CacheSpec: the specification of the package as one map from
      logins to accounts, and its refinement by the four tables. CacheProgress:
      when no call fails, what the specification allows is done. Atoms: the
      operations as trees of atomic steps, a statement or a transaction each.
    - HomeDir, UidGen, CacheAuth, CacheUpdate: parseHomeDir, generateUIDForUser,
      CanAuthenticate and Update of cache.go.
    - CacheOpen: options, initDB, New, Close and the teardown. CacheLife: the
      life of the handles as a step relation, with its invariant. Clients: the
      use of a handle by its clients. Configured: the options of New as they
      reach the operations. Offline: where a hash comes from, for any invariant
      of the tables that the operations keep (the class [TableInvariant]).
      Rely: rely and guarantee for the trees of atomic steps. Interleave: processes that work on the same files, interleaved at every
      atomic step.
    - Config, Aad, User, Pam: internal/config, internal/aad with its mock,
      internal/user, internal/pam and pam. NssBuffers and Nss: internal/nss.
      CliUser, CliUserFacts, CliConfig: cmd/aad-cli and conf. CliApp: the root
      command, the exit code and the handler of signals. CliTree: the commands
      with their flags, and what a command line can ask for.
    - RustStd: what the Rust code uses of its standard library. RustCache:
      src/nss/src/cache/mod.rs, the builder, the queries and the purge. RustNss:
      lib.rs, passwd, group, shadow and logs. RustFacts: what they change.
      RustService: the eight requests as one function, and when they panic.
      RustSound, RustAgree, RustOpens: where the entries come from, and the
      agreement with the Go packages. RustOrphans: what the purge leaves behind.
      RustRuns: concrete runs.
    - Decimal and Format: integers in decimal, and fmt.Sprintf with its flags,
      widths, verbs and errors. EntryText: the lines of the String methods of
      internal/nss, and what a reader of these lines gets back. Logger and LoggerFacts: internal/logger,
      internal/nss/logger.go, internal/pam/logger_c.go and msg_c.go. PamGlue:
      pam/utils_c.go, and pam_sm_authenticate from C strings with its messages.
    - FileKit: files and directories, and bufio.Scanner. Generators and
      GeneratorsFacts: internal/generators, internal/i18n/generate-locales.go
      and cmd/generate_completion_documentation.go. I18n: internal/i18n/i18n.go.
    - TestDump and DumpLoad: internal/testutils/db.go, the dumps and their
      loading. TestCoverage and CoverageFacts: coverage.go, rust.go, goldens.go.
      TestHarness: the caches and golden dumps of a test, and main of pam_c.go.
    - Sessions: the machine as a step relation: any number of processes, each
      with its own registry and handles, over shared directories, at any time
      and with any failure to come, with or without the name service in Rust.
      Progress: the logins that succeed on such a machine. Listing: what getent
      is given on it, from the start of an iteration to its end. Lookups: what
      its five lookups answer.

    ** What the theorems show

    - Security of the login: an offline login is accepted exactly under the
      conditions of CanAuthenticate, and on any reachable machine it is backed
      by an earlier online verification of the same user, recent enough for
      the configuration (Sessions, Configured, Offline, CacheAuth); the module
      answers success exactly when Authenticate does, and a refusal changes
      nothing; the user is told why an offline login is refused, and that a
      session is offline (Pam, Aad).
    - Progress: when no call fails, a verified login is recorded and accepted
      (Progress), and every operation of the cache whose conditions hold on the
      map of accounts succeeds (CacheProgress); an iteration of the name service
      gives every account once and then ends (Listing), and a lookup answers
      exactly the account or the group that it asks for (Lookups).
    - Interleavings: an operation is the run of its atomic steps (Atoms). When
      processes take turns at every step, the tables are right at every moment,
      and when the purges run between the logins, an offline login is backed by a
      verified password of the same user. With a purge between two steps of a
      login it is not: the password of one user can be written for another one
      (Interleave).
    - Data: whatever fails, the tables keep the schema, their coherence and the
      types of their columns (Sessions, Typed), without a NULL where a scan
      expects none unless an attribute update writes it, and implement one map from logins
      to accounts (CacheSpec); what Update, the purge and the attribute update do
      and do not change, and what is read back (CacheUpdate, CacheTheorems,
      CacheIter).
    - The two name services: for the same key they give the same answers on the
      same readable tables, and what the Go packages open the Rust library opens (RustAgree, RustOpens); its
      entries are those of the tables, its requests change nothing but a purge,
      and panic on no readable table (RustSound, RustService). Its purge leaves
      the groups, so that the tables keep a weaker coherence (Sessions) and the
      users that it removes can never log in again (RustOrphans).
    - Text: a line that a String method writes is read back to its entry, when its
      texts have no colon and its numbers are in range (EntryText).
    - Resources: a handle that a client holds is open, handles with the same
      options are shared, a cache that nobody uses is closed, and every client
      gives back what it took, on every path (CacheLife, Pam, Nss); files are
      created and accepted only with their owner and mode (CacheLife).
    - Functions against their specification: the home pattern, the search of
      the uid, the layers of the configuration, busy users, the C buffers read
      back by C (HomeDir, UidGen, Config, User, NssBuffers), with the 64-bit
      overflow of the retention period (CacheAuth).
    - aad-cli: a home moves for idle users only, with its record, and what a
      failed command leaves; the configuration is replaced by a valid one or
      not at all (CliUserFacts, CliConfig); what the flags of a command that runs
      can be (CliTree); the exit code tells the outcome, and
      the handler of signals always lets the command end (CliApp).
    - The edges of the module: the C entry point refines the one on Go strings,
      and crashes only for a transaction without a user (PamGlue); a message is
      logged once, as it is, unless it holds a percent sign, and logging never
      fails (LoggerFacts, over the general form of Sprintf in Format).
    - Build and tests: the creation dates of the translations survive their
      refresh, files are rewritten whole or not at all, nothing in the
      repository changes in install mode (GeneratorsFacts); a cache
      without an empty table that is dumped and loaded is the same, golden dumps do not depend on salts and
      times, profiles are merged line by line (DumpLoad, TestHarness,
      CoverageFacts).

    ** Fuel

    - The collision loop of generateUIDForUser: one more than the number of rows
      of passwd and groups. [UidGen.generateUID_first_free] shows that it is
      enough: the loop returns, as long as there are fewer than 2^32 rows.
    - The loop of doPrintf: one more than the length of the format
      ([Format.doPrintf_enough]).
    - The search of go.mod: one more than the length of the path
      ([CoverageFacts.fqdnToPath_ends]: the directory gets shorter at each turn).
    - The collision loop as a tree of steps (Atoms.find_uid_steps): any number.
      The rows change between its steps, so that no bound is enough; the theorems
      hold for every fuel, which is every run that is finished. With the fuel of
      UidGen and nobody else, it is the loop of UidGen (Atoms).
    - The parents of a directory (FileKit): the length of its path, which is more
      than it has parents.

    Every other recursion is on the structure of a list, a string or a tree.

    ** What is not modelled

    - The parsing of the command line, which is of cobra: a function with the
      laws of the class [Cobra]. The messages that Authenticate, the cache and
      the name services log in passing are not in the state of their models; the
      loggers that they would go through are.
    - In the Rust library, the macros of libnss that copy an entry to the buffers
      of C and keep the position of an enumeration, the redirection of the
      lookups of the integration tests (src/nss/src/db_override.c), the fixtures
      of its tests, and the connection of rusqlite, which is its directory, its
      mode and the outcomes of its calls.
    - In the tests' helpers, the pipe around stdout and the walks that only mark
      files for the test cache.
    - A call of os.RemoveAll or of the schema that fails half way may leave files
      (CacheOpen), but not a part of the tables: the statements on a table that is
      missing are calls of the driver that fail. A failure of access(2) on the new
      home counts as its absence, as in the code, but only happens then.
    - Concurrency: New, Close and the teardown hold the mutexes of the code from
      end to end, and are whole operations. The operations of a handle are whole
      operations in Sessions and Clients, and are cut at each statement and
      transaction in Atoms and Interleave, where the pool has Go processes and
      not the purge in Rust. A power loss between the two files of an attached
      database is not modelled, nor is the connection pool of database/sql.
    - Arguments of error messages are not kept, only their formats and chains. *)

From Stdlib Require Export ZArith Lia Ascii String.
From stdpp Require Export base list strings pretty sorting numbers option gmap.

#[export] Set Default Goal Selector "!".

(** ** Machine integers *)

(** [u32], [u64] and [i64] are the conversions to the Go types [uint32],
    [uint64] and [int64] (which is also [int] and [time.Duration] on the
    supported 64-bit platforms). *)
Definition u32 (z : Z) : Z := z mod 2 ^ 32.
Definition u64 (z : Z) : Z := z mod 2 ^ 64.
Definition i64 (z : Z) : Z := (z + 2 ^ 63) mod 2 ^ 64 - 2 ^ 63.

Lemma u32_range z : (0 <= u32 z < 2 ^ 32)%Z.
Proof. apply Z.mod_pos_bound. lia. Qed.

Lemma u64_range z : (0 <= u64 z < 2 ^ 64)%Z.
Proof. apply Z.mod_pos_bound. lia. Qed.

Lemma i64_range z : (- 2 ^ 63 <= i64 z < 2 ^ 63)%Z.
Proof. unfold i64. pose proof (Z.mod_pos_bound (z + 2 ^ 63) (2 ^ 64)). lia. Qed.

Lemma u32_small z : (0 <= z < 2 ^ 32)%Z -> u32 z = z.
Proof. apply Z.mod_small. Qed.

Lemma u64_small z : (0 <= z < 2 ^ 64)%Z -> u64 z = z.
Proof. apply Z.mod_small. Qed.

Lemma i64_small z : (- 2 ^ 63 <= z < 2 ^ 63)%Z -> i64 z = z.
Proof. intros. unfold i64. rewrite Z.mod_small; lia. Qed.

(** ** Go errors *)

(** The error variables that the packages export and compare against with
    [errors.Is]. They are distinct pointers in the program, hence distinct
    constructors here. *)
Inductive sentinel :=
  (* internal/cache *)
  | ErrNoEnt | ErrOfflineCredentialsExpired | ErrOfflineAuthDisabled
  (* internal/aad *)
  | ErrNoNetwork | ErrDeny
  (* internal/pam *)
  | ErrPamSystem | ErrPamAuth | ErrPamIgnore
  (* internal/nss *)
  | ErrTryAgainEAgain | ErrTryAgainERange | ErrUnavailableENoEnt
  | ErrNotFoundENoEnt | ErrNotFoundSuccess
  (* database/sql and os *)
  | SqlErrNoRows | OsErrNotExist.

#[export] Instance sentinel_eq_dec : EqDecision sentinel.
Proof. solve_decision. Defined.

(** An error value: an exported variable, an anonymous [errors.New] or driver
    error, an [fmt.Errorf] with a [%w] verb, or the [nssError] pair of
    internal/nss/errors.go. Texts are the format strings of the source; the
    arguments expanded into them are not kept. *)
Inductive gerror :=
  | Sentinel (s : sentinel)
  | Opaque (msg : string)
  | Wrapped (fmt : string) (inner : gerror)
  | NssError (origErr apiErr : gerror).

#[export] Instance gerror_eq_dec : EqDecision gerror.
Proof. solve_decision. Defined.

(** [errors.Is err target] for a [target] that is one of the variables above:
    walk the [Unwrap] chain. [nssError.Unwrap] returns the API error only. *)
Fixpoint errors_is (e : gerror) (target : sentinel) : bool :=
  match e with
  | Sentinel s => bool_decide (s = target)
  | Opaque _ => false
  | Wrapped _ inner => errors_is inner target
  | NssError _ api => errors_is api target
  end.

(** A linear unwrap chain ends in at most one exported variable. *)
Lemma errors_is_functional e s t :
  errors_is e s = true -> errors_is e t = true -> s = t.
Proof.
  induction e; simpl; try done.
  intros ->%bool_decide_eq_true_1 ->%bool_decide_eq_true_1. done.
Qed.

(** ** Results and the state monad *)

(** What a call returns: a value, a non-nil error, or a run-time panic (an
    index out of range, a failed slice expression). *)
Inductive result (A : Type) :=
  | Ok (a : A)
  | Err (e : gerror)
  | Panic (why : string).
Arguments Ok {A} a.
Arguments Err {A} e.
Arguments Panic {A} why.

#[export] Instance result_eq_dec {A} `{EqDecision A} : EqDecision (result A).
Proof. solve_decision. Defined.

#[export] Instance result_ret : MRet result := fun A a => Ok a.
#[export] Instance result_bind : MBind result := fun A B f m =>
  match m with Ok a => f a | Err e => Err e | Panic p => Panic p end.

Definition is_ok {A} (r : result A) : bool :=
  match r with Ok _ => true | _ => false end.

(** Transform the error of a result ([defer] handlers and [%w]). *)
Definition res_err {A} (f : gerror -> gerror) (r : result A) : result A :=
  match r with Ok a => Ok a | Err e => Err (f e) | Panic p => Panic p end.

Lemma res_err_Ok {A} f (r : result A) a : res_err f r = Ok a <-> r = Ok a.
Proof. by destruct r. Qed.

Lemma res_bind_Ok {A B} (r : result A) (f : A -> result B) b :
  (r ≫= f) = Ok b <-> exists a, r = Ok a /\ f a = Ok b.
Proof.
  unfold mbind, result_bind. destruct r as [a|e|p]; split; try done;
    try (by intros (? & [=] & _)); [by eauto|]. by intros (? & [= <-] & ?).
Qed.

(** State passing: a computation over the state [S] returns a result and the
    state it leaves behind, also on its error paths. *)
Definition M (S A : Type) : Type := S -> result A * S.

#[export] Instance M_ret {S} : MRet (M S) := fun A a s => (Ok a, s).
#[export] Instance M_bind {S} : MBind (M S) := fun A B f m s =>
  match m s with
  | (Ok a, s') => f a s'
  | (Err e, s') => (Err e, s')
  | (Panic p, s') => (Panic p, s')
  end.

Definition fail {S A} (e : gerror) : M S A := fun s => (Err e, s).
Definition lift {S A} (r : result A) : M S A := fun s => (r, s).
Definition get {S} : M S S := fun s => (Ok s, s).
Definition step {S A} (f : S -> result A * S) : M S A := f.

(** [v, err := m] where the caller inspects [err] itself. *)
Definition attempt {S A} (m : M S A) : M S (A + gerror) := fun s =>
  match m s with
  | (Ok a, s') => (Ok (inl a), s')
  | (Err e, s') => (Ok (inr e), s')
  | (Panic p, s') => (Panic p, s')
  end.

(** Run on a component of the state. *)
Definition zoom {S T A} (get : S -> T) (put : T -> S -> S) (m : M T A) : M S A :=
  fun s => let '(r, t) := m (get s) in (r, put t s).

(** A [defer]: run on the state that any outcome leaves. *)
Definition defer {S A} (f : S -> S) (m : M S A) : M S A := fun s =>
  let '(r, s') := m s in (r, f s').

(** Transform the error that a call returns ([defer] handlers). *)
Definition map_err {S A} (f : gerror -> gerror) (m : M S A) : M S A := fun s =>
  match m s with
  | (Err e, s') => (Err (f e), s')
  | r => r
  end.

(** ** Automation *)

Create HintDb aad.

(** Split the matches and conditionals of a computation that is known to
    have returned, keeping the equations. *)
Ltac break_match_in H :=
  match type of H with
  | context [match ?x with _ => _ end] =>
      lazymatch x with
      | context [match _ with _ => _ end] => fail
      | _ => destruct x eqn:?
      end
  end.

Ltac break_goal :=
  match goal with
  | |- context [match ?x with _ => _ end] =>
      lazymatch x with
      | context [match _ with _ => _ end] => fail
      | _ => destruct x eqn:?
      end
  end.

(** Unfold the monad combinators. *)
Ltac unfold_m :=
  unfold mbind, M_bind, mret, M_ret, fail, lift, get, step, attempt, map_err, zoom,
    result_bind, result_ret in *.

(** What a sequence that returned has done. *)
Lemma bind_Ok {S A B} (m : M S A) (f : A -> M S B) s b s'' :
  (m ≫= f) s = (Ok b, s'') <-> exists a s', m s = (Ok a, s') /\ f a s' = (Ok b, s'').
Proof.
  unfold mbind, M_bind. destruct (m s) as [[a|e|p] s']; split;
    try (by intros (? & ? & [=] & _)); try done; [by eauto|].
  by intros (? & ? & [= <- <-] & ?).
Qed.

Lemma attempt_Ok {S A} (m : M S A) s r s' :
  attempt m s = (Ok r, s') <->
  (exists a, m s = (Ok a, s') /\ r = inl a) \/ (exists e, m s = (Err e, s') /\ r = inr e).
Proof.
  unfold attempt. destruct (m s) as [[a|e|p] t]; split;
    try (by intros [= <- <-]; eauto); try (by intros [=]);
    by intros [(? & [=] & ->)|(? & [=] & ->)]; subst.
Qed.

Lemma map_err_Ok {S A} f (m : M S A) s a s' : map_err f m s = (Ok a, s') <-> m s = (Ok a, s').
Proof. unfold map_err. by destruct (m s) as [[]]. Qed.

Lemma map_err_snd {S A} f (m : M S A) s : (map_err f m s).2 = (m s).2.
Proof. unfold map_err. by destruct (m s) as [[]]. Qed.

Lemma map_err_Err {S A} f (m : M S A) s e s' :
  map_err f m s = (Err e, s') <-> exists e0, m s = (Err e0, s') /\ e = f e0.
Proof.
  unfold map_err. destruct (m s) as [[a|e0|p] t]; split; try done;
    try (by intros (? & [=] & _)); [by intros [= <- <-]; eauto|].
  by intros (? & [= <- <-] & ->).
Qed.

(** A computation that cannot panic. *)
Definition no_panic {S A} (m : M S A) : Prop := forall s why, (m s).1 <> Panic why.

Lemma no_panic_ret {S A} (a : A) : no_panic (mret a : M S A).
Proof. done. Qed.
Lemma no_panic_fail {S A} e : no_panic (fail e : M S A).
Proof. done. Qed.
Lemma no_panic_get {S} : no_panic (get : M S S).
Proof. done. Qed.
Lemma no_panic_bind {S A B} (m : M S A) (f : A -> M S B) :
  no_panic m -> (forall a, no_panic (f a)) -> no_panic (m ≫= f).
Proof.
  intros Hm Hf s why. unfold mbind, M_bind. specialize (Hm s).
  destruct (m s) as [[a|e|p] s']; simpl in *; [apply Hf|done|by specialize (Hm p)].
Qed.
Lemma no_panic_map_err {S A} f (m : M S A) : no_panic m -> no_panic (map_err f m).
Proof. intros Hm s why. unfold map_err. specialize (Hm s why). by destruct (m s) as [[]]. Qed.
Lemma no_panic_attempt {S A} (m : M S A) : no_panic m -> no_panic (attempt m).
Proof.
  intros Hm s why. unfold attempt. specialize (Hm s). destruct (m s) as [[]]; [done..|].
  by specialize (Hm why0).
Qed.

#[export] Hint Resolve no_panic_ret no_panic_fail no_panic_get no_panic_bind no_panic_map_err
  no_panic_attempt : aad.

(** What a computation keeps of the state on every path, as a relation
    between the state before and the state after. *)
Section Frames.
Context {S : Type} (R : S -> S -> Prop) `{!PreOrder R}.

Definition frames {A} (m : M S A) : Prop := forall s, R s (m s).2.

Lemma frames_ret {A} (a : A) : frames (mret a).
Proof. intros s. simpl. reflexivity. Qed.
Lemma frames_fail {A} e : frames (@fail S A e).
Proof. intros s. simpl. reflexivity. Qed.
Lemma frames_lift {A} (r : result A) : frames (lift r).
Proof. intros s. simpl. reflexivity. Qed.
Lemma frames_get : frames get.
Proof. intros s. simpl. reflexivity. Qed.
Lemma frames_bind {A B} (m : M S A) (f : A -> M S B) :
  frames m -> (forall a, frames (f a)) -> frames (m ≫= f).
Proof.
  intros Hm Hf s. unfold mbind, M_bind. specialize (Hm s).
  destruct (m s) as [[a|e|p] s']; simpl in *; [|done..]. etrans; [done|apply Hf].
Qed.
Lemma frames_map_err {A} f (m : M S A) : frames m -> frames (map_err f m).
Proof. intros Hm s. rewrite map_err_snd. apply Hm. Qed.
Lemma frames_attempt {A} (m : M S A) : frames m -> frames (attempt m).
Proof. intros Hm s. unfold attempt. specialize (Hm s). by destruct (m s) as [[]]. Qed.
Lemma frames_if {A} (b : bool) (m1 m2 : M S A) : frames m1 -> frames m2 -> frames (if b then m1 else m2).
Proof. by destruct b. Qed.
End Frames.

(** A frame, on a run. *)
Lemma frames_run {S A} (R : S -> S -> Prop) (m : M S A) s r s' : frames R m -> m s = (r, s') -> R s s'.
Proof. intros Hm E. specialize (Hm s). by rewrite E in Hm. Qed.

Create HintDb frames.
#[export] Hint Resolve frames_ret frames_fail frames_lift frames_get frames_bind frames_map_err
  frames_attempt frames_if : frames.

(** ** Shared list lemmas *)

Lemma NoDup_fmap_filter {A B} (f : A -> B) (P : A -> Prop) `{!forall x, Decision (P x)} (l : list A) :
  NoDup (f <$> l) -> NoDup (f <$> filter P l).
Proof.
  induction l as [|x l IH]; csimpl; [done|].
  intros [Hx Hl]%NoDup_cons. rewrite filter_cons. case_decide; csimpl; [|by apply IH].
  apply NoDup_cons; split; [|by apply IH].
  intros (y & Heq & Hy)%list_elem_of_fmap. apply Hx.
  apply list_elem_of_fmap. exists y. split; [done|].
  by apply list_elem_of_filter in Hy as [_ ?].
Qed.

Lemma NoDup_fmap_inj {A B} (f : A -> B) (l : list A) x y :
  NoDup (f <$> l) -> x ∈ l -> y ∈ l -> f x = f y -> x = y.
Proof.
  induction l as [|z l IH]; csimpl; [by intros _ ?%elem_of_nil|].
  intros [Hz Hl]%NoDup_cons.
  intros [->|Hx]%elem_of_cons [->|Hy]%elem_of_cons; intros Heq; auto.
  - exfalso. apply Hz. rewrite Heq. by apply list_elem_of_fmap_2.
  - exfalso. apply Hz. rewrite <- Heq. by apply list_elem_of_fmap_2.
Qed.

Lemma fmap_id_where {A} (f : A -> A) (P : A -> Prop) (l : list A) :
  (forall x, x ∈ l -> P x -> f x = x) -> Forall P l -> f <$> l = l.
Proof.
  intros Hf HP. induction HP as [|x l Hx HP IH]; csimpl; [done|].
  rewrite Hf; [|by constructor|done]. f_equal. apply IH.
  intros y Hy. apply Hf. by constructor.
Qed.

Lemma filter_none {A} (P : A -> Prop) `{!forall x, Decision (P x)} (l : list A) :
  (forall x, x ∈ l -> ~ P x) -> filter P l = [].
Proof.
  induction l as [|x l IH]; [done|]. intros Hl. rewrite filter_cons.
  rewrite decide_False by (apply Hl; by constructor). apply IH. intros y Hy. apply Hl. by constructor.
Qed.

Lemma filter_all {A} (P : A -> Prop) `{!forall x, Decision (P x)} (l : list A) :
  (forall x, x ∈ l -> P x) -> filter P l = l.
Proof.
  induction l as [|x l IH]; [done|]. intros Hl. rewrite filter_cons.
  rewrite decide_True by (apply Hl; by constructor). f_equal. apply IH. intros y Hy. apply Hl. by constructor.
Qed.

(** The single row that carries a unique key. *)
Lemma filter_unique {A B} (f : A -> B) (x : A) (l : list A) (P : A -> Prop) `{!forall x, Decision (P x)} :
  (forall y, P y <-> f y = f x) -> NoDup (f <$> l) -> x ∈ l -> filter P l = [x].
Proof.
  intros HP Hl Hx. induction l as [|y l IH]; [by apply elem_of_nil in Hx|].
  csimpl in Hl. apply NoDup_cons in Hl as [Hy Hl]. rewrite filter_cons.
  apply elem_of_cons in Hx as [->|Hx].
  - rewrite decide_True by by apply HP. f_equal. apply filter_none.
    intros z Hz HPz%HP. apply Hy. apply list_elem_of_fmap. by exists z.
  - rewrite decide_False; [by apply IH|]. intros HPy%HP. apply Hy. apply list_elem_of_fmap. by exists x.
Qed.

Lemma filter_ext_in {A} (P Q : A -> Prop) `{!forall x, Decision (P x)} `{!forall x, Decision (Q x)} (l : list A) :
  (forall x, x ∈ l -> P x <-> Q x) -> filter P l = filter Q l.
Proof.
  induction l as [|x l IH]; [done|]. intros Hl. rewrite !filter_cons.
  rewrite IH by (intros y Hy; apply Hl; by constructor).
  assert (P x <-> Q x) as Hx by (apply Hl; by constructor).
  repeat case_decide; tauto.
Qed.
