(* ===== verification/GoStrings.v ===== *)
(** * The parts of Go's strings, unicode/utf8 and strconv that the program uses

    Strings are byte strings ([String.string] over [ascii]), as in Go. *)

From S2P Require Import Prelude.
Open Scope Z_scope.

(** ** UTF-8, as [range] over a string and [string(rune)] do it *)

Definition byteZ (a : ascii) : Z := Z.of_N (N_of_ascii a).
Definition chr (z : Z) : ascii := ascii_of_N (Z.to_N z).

Definition RuneError : Z := 0xFFFD.

Definition in_rng (lo hi z : Z) : bool := (lo <=? z) && (z <=? hi).

(** The acceptance ranges of the first and second byte of an encoding. *)
Definition two_ok (b0 b1 : Z) : bool := in_rng 0xC2 0xDF b0 && in_rng 0x80 0xBF b1.
Definition three_ok (b0 b1 b2 : Z) : bool :=
  in_rng 0xE0 0xEF b0
  && in_rng (if b0 =? 0xE0 then 0xA0 else 0x80) (if b0 =? 0xED then 0x9F else 0xBF) b1
  && in_rng 0x80 0xBF b2.
Definition four_ok (b0 b1 b2 b3 : Z) : bool :=
  in_rng 0xF0 0xF4 b0
  && in_rng (if b0 =? 0xF0 then 0x90 else 0x80) (if b0 =? 0xF4 then 0x8F else 0xBF) b1
  && in_rng 0x80 0xBF b2 && in_rng 0x80 0xBF b3.

Definition str1 (a : ascii) : string := String a EmptyString.

(** The runes of a string with the bytes each was read from; an invalid byte
    is the rune U+FFFD of width one. *)
Fixpoint decode (s : string) : list (Z * string) :=
  match s with
  | EmptyString => []
  | String a0 r1 =>
      let b0 := byteZ a0 in
      if b0 <? 0x80 then (b0, str1 a0) :: decode r1
      else match r1 with
      | EmptyString => (RuneError, str1 a0) :: decode r1
      | String a1 r2 =>
          let b1 := byteZ a1 in
          if two_ok b0 b1
          then ((b0 - 0xC0) * 64 + (b1 - 0x80), String a0 (str1 a1)) :: decode r2
          else match r2 with
          | EmptyString => (RuneError, str1 a0) :: decode r1
          | String a2 r3 =>
              let b2 := byteZ a2 in
              if three_ok b0 b1 b2
              then ((b0 - 0xE0) * 4096 + (b1 - 0x80) * 64 + (b2 - 0x80),
                    String a0 (String a1 (str1 a2))) :: decode r3
              else match r3 with
              | EmptyString => (RuneError, str1 a0) :: decode r1
              | String a3 r4 =>
                  let b3 := byteZ a3 in
                  if four_ok b0 b1 b2 b3
                  then ((b0 - 0xF0) * 262144 + (b1 - 0x80) * 4096
                         + (b2 - 0x80) * 64 + (b3 - 0x80),
                        String a0 (String a1 (String a2 (str1 a3)))) :: decode r4
                  else (RuneError, str1 a0) :: decode r1
              end
          end
      end
  end.

Definition runes (s : string) : list Z := (decode s).*1.

(** A code point that has an encoding. *)
Definition valid_rune (r : Z) : bool := in_rng 0 0xD7FF r || in_rng 0xE000 0x10FFFF r.

(** [string(r)] for a rune [r]. *)
Definition encode_rune (r0 : Z) : string :=
  let r := if valid_rune r0 then r0 else RuneError in
  if r <? 0x80 then str1 (chr r)
  else if r <? 0x800 then String (chr (0xC0 + r / 64)) (str1 (chr (0x80 + r mod 64)))
  else if r <? 0x10000 then
    String (chr (0xE0 + r / 4096)) (String (chr (0x80 + r / 64 mod 64)) (str1 (chr (0x80 + r mod 64))))
  else
    String (chr (0xF0 + r / 262144)) (String (chr (0x80 + r / 4096 mod 64))
      (String (chr (0x80 + r / 64 mod 64)) (str1 (chr (0x80 + r mod 64))))).

Fixpoint concat_str (l : list string) : string :=
  match l with [] => EmptyString | s :: l => s +:+ concat_str l end.

Definition encode (rs : list Z) : string := concat_str (encode_rune <$> rs).

Lemma byteZ_range a : 0 <= byteZ a < 256.
Proof. unfold byteZ. pose proof (N_ascii_bounded a). lia. Qed.

Lemma byteZ_chr z : 0 <= z < 256 -> byteZ (chr z) = z.
Proof. intros. unfold byteZ, chr. rewrite N_ascii_embedding; lia. Qed.

Lemma chr_byteZ a : chr (byteZ a) = a.
Proof. unfold byteZ, chr. rewrite N2Z.id. apply ascii_N_embedding. Qed.

(** Concatenation; stdpp keeps [String.append] folded under [simpl]. *)
Lemma append_cons a s t : String a s +:+ t = String a (s +:+ t).
Proof. reflexivity. Qed.

Lemma append_nil_l s : EmptyString +:+ s = s.
Proof. reflexivity. Qed.

Lemma append_nil_r s : s +:+ EmptyString = s.
Proof. induction s; [done|]. rewrite append_cons. by f_equal. Qed.

Lemma append_assoc s1 s2 s3 : (s1 +:+ s2) +:+ s3 = s1 +:+ (s2 +:+ s3).
Proof. induction s1; [done|]. rewrite !append_cons. by f_equal. Qed.

Lemma length_append s t : String.length (s +:+ t) = (String.length s + String.length t)%nat.
Proof. induction s; [done|]. rewrite append_cons. simpl. by f_equal. Qed.

Lemma append_inj_l s t1 t2 : s +:+ t1 = s +:+ t2 -> t1 = t2.
Proof. induction s; [done|]. rewrite !append_cons. intros [=]; auto. Qed.

Lemma concat_str_app l1 l2 : concat_str (l1 ++ l2) = concat_str l1 +:+ concat_str l2.
Proof. induction l1 as [|s l1 IH]; [done|]. simpl. by rewrite IH, append_assoc. Qed.

(** Induction on the length of a string, for decoders that consume several
    bytes at a time. *)
Lemma string_length_ind (P : string -> Prop) :
  (forall s, (forall t, (String.length t < String.length s)%nat -> P t) -> P s) ->
  forall s, P s.
Proof.
  intros H s. remember (String.length s) as n eqn:Hn.
  revert s Hn. induction (lt_wf n) as [n _ IH]. intros s ->. apply H.
  intros t Ht. by apply (IH _ Ht).
Qed.

(** What [decode] does at the head of a non-empty string: it either reads an
    encoding of two to four bytes, or one byte (an ASCII byte or a bad one). *)
Lemma decode_step s : s <> EmptyString ->
  exists r b t, s = b +:+ t /\ decode s = (r, b) :: decode t /\ b <> EmptyString.
Proof.
  destruct s as [|a0 r1]; [done|]. intros _. cbn [decode].
  destruct (byteZ a0 <? 0x80); [by eexists _, (str1 a0), r1|].
  destruct r1 as [|a1 r2]; [by eexists _, (str1 a0), _|].
  destruct (two_ok _ _); [by eexists _, (String a0 (str1 a1)), r2|].
  destruct r2 as [|a2 r3]; [by eexists _, (str1 a0), _|].
  destruct (three_ok _ _ _); [by eexists _, (String a0 (String a1 (str1 a2))), r3|].
  destruct r3 as [|a3 r4]; [by eexists _, (str1 a0), _|].
  destruct (four_ok _ _ _ _); [|by eexists _, (str1 a0), _].
  by eexists _, (String a0 (String a1 (String a2 (str1 a3)))), r4.
Qed.

Lemma decode_bytes s : concat_str (decode s).*2 = s.
Proof.
  induction s as [s IH] using string_length_ind.
  destruct (decide (s = EmptyString)) as [->|Hs]; [done|].
  destruct (decode_step s Hs) as (r & b & t & -> & -> & Hb). csimpl.
  rewrite IH; [done|]. rewrite length_append. destruct b; [done|]. simpl. lia.
Qed.

Ltac solve_rng :=
  unfold two_ok, three_ok, four_ok, in_rng;
  repeat match goal with
  | |- context [?a =? ?b] => destruct (Z.eqb_spec a b)
  | |- context [?a <=? ?b] => destruct (Z.leb_spec a b); [|try (exfalso; lia)]
  end; try done; exfalso; lia.

Lemma valid_rune_range r : valid_rune r = true ->
  0 <= r <= 0x10FFFF /\ ~ (0xD800 <= r <= 0xDFFF).
Proof.
  unfold valid_rune, in_rng. intros H.
  apply orb_true_iff in H as [[?%Z.leb_le ?%Z.leb_le]%andb_true_iff|[?%Z.leb_le ?%Z.leb_le]%andb_true_iff]; lia.
Qed.

(** The base-64 digits that an encoding spreads over its bytes. *)
Lemma digits2 r : exists a b, r = a * 64 + b /\ 0 <= b < 64 /\ r / 64 = a /\ r mod 64 = b.
Proof.
  exists (r / 64), (r mod 64). pose proof (Z.div_mod r 64). pose proof (Z.mod_pos_bound r 64).
  repeat split; lia.
Qed.

Lemma digits3 r : exists a b c, r = a * 4096 + b * 64 + c /\ 0 <= b < 64 /\ 0 <= c < 64
  /\ r / 4096 = a /\ r / 64 mod 64 = b /\ r mod 64 = c.
Proof.
  destruct (digits2 r) as (q & c & Hr & Hc & Hq & Hm), (digits2 q) as (a & b & Hq' & Hb & Ha & Hb').
  exists a, b, c. change 4096 with (64 * 64) at 2. rewrite <- Z.div_div, Hq by lia.
  repeat split; lia.
Qed.

Lemma digits4 r : exists a b c d, r = a * 262144 + b * 4096 + c * 64 + d
  /\ 0 <= b < 64 /\ 0 <= c < 64 /\ 0 <= d < 64
  /\ r / 262144 = a /\ r / 4096 mod 64 = b /\ r / 64 mod 64 = c /\ r mod 64 = d.
Proof.
  destruct (digits2 r) as (q & d & Hr & Hd & Hq & Hm), (digits3 q) as (a & b & c & Hq' & Hb & Hc & Ha & Hb' & Hc').
  exists a, b, c, d. change 262144 with (64 * 4096) at 2. change 4096 with (64 * 64) at 3.
  rewrite <- !Z.div_div, !Hq by lia. repeat split; lia.
Qed.

(** Reading an encoded code point gives it back, whatever follows. *)
Lemma decode_encode r t : valid_rune r = true ->
  decode (encode_rune r +:+ t) = (r, encode_rune r) :: decode t.
Proof.
  intros Hv. destruct (valid_rune_range r Hv) as [Hr Hs].
  unfold encode_rune. rewrite Hv.
  destruct (Z.ltb_spec r 0x80); [|destruct (Z.ltb_spec r 0x800); [|destruct (Z.ltb_spec r 0x10000)]];
    unfold str1; rewrite ?append_cons, append_nil_l; cbn [decode]; unfold str1.
  - rewrite byteZ_chr, (proj2 (Z.ltb_lt _ _)) by lia. done.
  - destruct (digits2 r) as (a & b & Heq & ? & -> & ->). rewrite !byteZ_chr by lia.
    rewrite (proj2 (Z.ltb_ge _ _)) by lia.
    replace (two_ok _ _) with true; [|solve_rng].
    do 2 f_equal. lia.
  - destruct (digits3 r) as (a & b & c & Heq & ? & ? & -> & -> & ->). rewrite !byteZ_chr by lia.
    rewrite (proj2 (Z.ltb_ge _ _)) by lia.
    replace (two_ok _ _) with false; [|solve_rng].
    replace (three_ok _ _ _) with true; [|solve_rng].
    do 2 f_equal. lia.
  - destruct (digits4 r) as (a & b & c & d & Heq & ? & ? & ? & -> & -> & -> & ->).
    rewrite !byteZ_chr by lia. rewrite (proj2 (Z.ltb_ge _ _)) by lia.
    replace (two_ok _ _) with false; [|solve_rng].
    replace (three_ok _ _ _) with false; [|solve_rng].
    replace (four_ok _ _ _ _) with true; [|solve_rng].
    do 2 f_equal. lia.
Qed.

Lemma runes_encode rs : Forall (fun r => valid_rune r = true) rs -> runes (encode rs) = rs.
Proof.
  unfold runes, encode. induction 1 as [|r rs Hr _ IH]; [done|].
  csimpl. rewrite decode_encode by done. csimpl. by rewrite IH.
Qed.

(** An ASCII string is its bytes. *)
Fixpoint bytes (s : string) : list Z :=
  match s with EmptyString => [] | String a s => byteZ a :: bytes s end.

Definition ascii_only (s : string) : bool := forallb (fun b => b <? 0x80) (bytes s).

Lemma decode_ascii_cons a s : byteZ a < 0x80 -> decode (String a s) = (byteZ a, str1 a) :: decode s.
Proof. intros H. cbn [decode]. by rewrite (proj2 (Z.ltb_lt _ _) H). Qed.

Lemma runes_ascii s : ascii_only s = true -> runes s = bytes s.
Proof.
  unfold runes, ascii_only. induction s as [|a s IH]; [done|].
  cbn [bytes forallb]. intros [Ha%Z.ltb_lt Hs]%andb_true_iff.
  rewrite decode_ascii_cons by done. csimpl. by rewrite IH.
Qed.

(** ** strings *)

(** [strings.ToLower]: unicode.ToLower is the Unicode table beyond ASCII. *)
Class UnicodeLower := unicode_lower : Z -> Z.

Definition lower_rune `{UnicodeLower} (r : Z) : Z :=
  if r <? 0x80 then (if in_rng 65 90 r then r + 32 else r) else unicode_lower r.

Definition ToLower `{UnicodeLower} (s : string) : string := encode (lower_rune <$> runes s).

(** [strings.Cut(s, c)] for a one-byte separator. *)
Fixpoint Cut (c : ascii) (s : string) : string * string * bool :=
  match s with
  | EmptyString => (EmptyString, EmptyString, false)
  | String a s' =>
      if bool_decide (a = c) then (EmptyString, s', true)
      else let '(before, after, found) := Cut c s' in (String a before, after, found)
  end.

(** [strings.Split(s, c)] for a one-byte separator: never the empty list. *)
Fixpoint Split (c : ascii) (s : string) : list string :=
  match s with
  | EmptyString => [EmptyString]
  | String a s' =>
      if bool_decide (a = c) then EmptyString :: Split c s'
      else match Split c s' with
           | [] => [str1 a]
           | x :: l => String a x :: l
           end
  end.

(** [strings.Join]. *)
Fixpoint Join (sep : string) (l : list string) : string :=
  match l with
  | [] => EmptyString
  | [s] => s
  | s :: l => s +:+ sep +:+ Join sep l
  end.

Definition HasPrefix (s p : string) : bool := String.prefix p s.

(** [unicode.IsSpace]. *)
Definition is_space (r : Z) : bool :=
  in_rng 9 13 r || (r =? 32) || (r =? 0x85) || (r =? 0xA0) || (r =? 0x1680)
  || in_rng 0x2000 0x200A r || (r =? 0x2028) || (r =? 0x2029) || (r =? 0x202F)
  || (r =? 0x205F) || (r =? 0x3000).

Fixpoint fields_aux (cur : option string) (l : list (Z * string)) : list string :=
  match l with
  | [] => option_list cur
  | (r, b) :: l =>
      if is_space r then option_list cur ++ fields_aux None l
      else fields_aux (Some (default EmptyString cur +:+ b)) l
  end.

(** [strings.Fields]. *)
Definition Fields (s : string) : list string := fields_aux None (decode s).

Fixpoint drop_space (l : list (Z * string)) : list (Z * string) :=
  match l with
  | (r, b) :: l' => if is_space r then drop_space l' else l
  | [] => []
  end.

(** [strings.TrimSpace]. *)
Definition TrimSpace (s : string) : string :=
  concat_str (rev (drop_space (rev (drop_space (decode s))))).*2.

Definition no_byte (c : ascii) (s : string) : Prop := c ∉ String.list_ascii_of_string s.

#[export] Instance no_byte_dec c s : Decision (no_byte c s).
Proof. unfold no_byte. apply _. Defined.

Lemma no_byte_cons c a s : no_byte c (String a s) <-> a <> c /\ no_byte c s.
Proof. unfold no_byte. simpl. rewrite not_elem_of_cons. intuition congruence. Qed.

Lemma Cut_found c s t : no_byte c s -> Cut c (s +:+ String c t) = (s, t, true).
Proof.
  induction s as [|a s IH]; intros H.
  - rewrite append_nil_l. simpl. by rewrite bool_decide_eq_true_2.
  - apply no_byte_cons in H as [Ha Hs]. rewrite append_cons. simpl.
    by rewrite bool_decide_eq_false_2, IH.
Qed.

Lemma Cut_not_found c s : no_byte c s -> Cut c s = (s, EmptyString, false).
Proof.
  induction s as [|a s IH]; [done|].
  intros [Ha Hs]%no_byte_cons. simpl. by rewrite bool_decide_eq_false_2, IH.
Qed.

Lemma Split_no_byte c s : no_byte c s -> Split c s = [s].
Proof.
  induction s as [|a s IH]; [done|].
  intros [Ha Hs]%no_byte_cons. simpl. by rewrite bool_decide_eq_false_2, IH.
Qed.

Lemma Split_app c s t : no_byte c s -> Split c (s +:+ String c t) = s :: Split c t.
Proof.
  induction s as [|a s IH]; intros H.
  - rewrite append_nil_l. simpl. by rewrite bool_decide_eq_true_2.
  - apply no_byte_cons in H as [Ha Hs]. rewrite append_cons. simpl.
    by rewrite bool_decide_eq_false_2, IH.
Qed.

(** Splitting a joined non-empty list gives it back when no element contains
    the separator. *)
Lemma Split_Join c l : l <> [] -> Forall (no_byte c) l -> Split c (Join (str1 c) l) = l.
Proof.
  intros Hl H. induction H as [|s l Hs Hls IH]; [done|].
  destruct l as [|s' l]; [by apply Split_no_byte|].
  change (Join (str1 c) (s :: s' :: l)) with (s +:+ str1 c +:+ Join (str1 c) (s' :: l)).
  unfold str1 at 1. rewrite append_cons, append_nil_l.
  rewrite Split_app by done. by rewrite IH.
Qed.

(** ** strconv *)

(** The value of a run of decimal digits after those already read. *)
Fixpoint digits_value (acc : Z) (s : string) : option Z :=
  match s with
  | EmptyString => Some acc
  | String a s => if in_rng 48 57 (byteZ a) then digits_value (acc * 10 + (byteZ a - 48)) s else None
  end.

(** [strconv.Atoi]: an optional sign, digits, and the range of int64. *)
Definition Atoi (s : string) : result Z :=
  let '(negative, ds) :=
    match s with
    | String a s' => if bool_decide (a = "-"%char) then (true, s')
                     else if bool_decide (a = "+"%char) then (false, s') else (false, s)
    | EmptyString => (false, s)
    end in
  match ds with
  | EmptyString => Err (Opaque "strconv.Atoi: parsing %q: invalid syntax"%string)
  | _ => match digits_value 0 ds with
         | None => Err (Opaque "strconv.Atoi: parsing %q: invalid syntax"%string)
         | Some z => let v := if negative : bool then - z else z in
                     if (- 2 ^ 63 <=? v) && (v <? 2 ^ 63) then Ok v
                     else Err (Opaque "strconv.Atoi: parsing %q: value out of range"%string)
         end
  end.

Example Atoi_42 : Atoi "42"%string = Ok 42.
Proof. reflexivity. Qed.
Example Atoi_neg : Atoi "-1"%string = Ok (-1).
Proof. reflexivity. Qed.
Example Atoi_bad : is_ok (Atoi "4 2"%string) = false.
Proof. reflexivity. Qed.
Example Atoi_range : is_ok (Atoi "9223372036854775808"%string) = false.
Proof. reflexivity. Qed.

(** ** path/filepath on Unix *)

(** The stack of [filepath.Clean], innermost component first. *)
Definition clean_step (rooted : bool) (stack : list string) (c : string) : list string :=
  if bool_decide (c = EmptyString \/ c = "."%string) then stack
  else if bool_decide (c = ".."%string) then
    match stack with
    | top :: stack' => if bool_decide (top = ".."%string) then c :: stack else stack'
    | [] => if rooted then [] else [c]
    end
  else c :: stack.

Definition slash : ascii := "/"%char.

Definition Clean (p : string) : string :=
  match p with
  | EmptyString => "."%string
  | String a _ =>
      let rooted := bool_decide (a = slash) in
      let body := Join (str1 slash) (rev (fold_left (clean_step rooted) (Split slash p) [])) in
      if rooted then String slash body
      else match body with EmptyString => "."%string | _ => body end
  end.

(** [filepath.Join]: empty elements are ignored. *)
Definition Join_path (elems : list string) : string :=
  match filter (fun e => e <> EmptyString) elems with
  | [] => EmptyString
  | es => Clean (Join (str1 slash) es)
  end.

(** The directory part and the last element, before cleaning. *)
Fixpoint last_slash (s : string) : option (string * string) :=
  match s with
  | EmptyString => None
  | String a s' =>
      match last_slash s' with
      | Some (d, f) => Some (String a d, f)
      | None => if bool_decide (a = slash) then Some (str1 slash, s') else None
      end
  end.

(** [filepath.Dir]. *)
Definition Dir_path (p : string) : string :=
  match last_slash p with Some (d, _) => Clean d | None => "."%string end.

Fixpoint drop_slashes (s : list ascii) : list ascii :=
  match s with
  | a :: s' => if bool_decide (a = slash) then drop_slashes s' else s
  | [] => []
  end.

(** [filepath.Base]. *)
Definition Base_path (p : string) : string :=
  match p with
  | EmptyString => "."%string
  | _ =>
      let t := String.string_of_list_ascii (rev (drop_slashes (rev (String.list_ascii_of_string p)))) in
      match t with
      | EmptyString => str1 slash
      | _ => match last_slash t with Some (_, f) => f | None => t end
      end
  end.

Example Base_path_1 : Base_path "/proc/42"%string = "42"%string.
Proof. reflexivity. Qed.
Example Base_path_2 : Base_path "/proc/42//"%string = "42"%string.
Proof. reflexivity. Qed.

Example Clean_1 : Clean "/home//x/../y/./%f"%string = "/home/y/%f"%string.
Proof. reflexivity. Qed.
Example Clean_2 : Clean "../a/../../b"%string = "../../b"%string.
Proof. reflexivity. Qed.
Example Clean_3 : Clean "/.."%string = "/"%string.
Proof. reflexivity. Qed.
Example Join_path_1 : Join_path ["/home/users/"%string; "%f"%string] = "/home/users/%f"%string.
Proof. reflexivity. Qed.
Example Dir_path_1 : Dir_path "/etc/aad.conf"%string = "/etc"%string.
Proof. reflexivity. Qed.
Example Dir_path_2 : Dir_path "aad.conf"%string = "."%string.
Proof. reflexivity. Qed.
