(* ===== verification/Interfaces.v ===== *)
(** * What the program relies on and does not define

    The third-party packages and the services that the sources call appear in
    the model only through the classes of this file: their operations, and as
    laws the documented behaviour that the code relies on. The instances at
    the end are simple concrete functions that satisfy the laws; the examples
    and witnesses of the library run on them. *)

From S2P Require Import Prelude GoStrings.
Open Scope Z_scope.

(** github.com/ubuntu/decorate: [defer decorate.OnError(&err, format, ...)]
    prefixes a non-nil error, wrapping it with [%w]. *)
Class Decorator := {
  OnError : string -> gerror -> gerror;
  OnError_is fmt e t : errors_is (OnError fmt e) t = errors_is e t;
}.

(** golang.org/x/crypto/bcrypt. Generating a hash draws a random salt, which
    is the first argument; [bcrypt_compare] is [CompareHashAndPassword], where
    [None] is a nil error. *)
Class Bcrypt := {
  bcrypt_generate : nat -> string -> result string;
  bcrypt_compare : string -> string -> option gerror;
  bcrypt_no_panic salt pw why : bcrypt_generate salt pw <> Panic why;
  bcrypt_generate_compare salt pw h :
    bcrypt_generate salt pw = Ok h -> bcrypt_compare h pw = None;
  (* ErrHashTooShort *)
  bcrypt_empty_hash pw : bcrypt_compare EmptyString pw <> None;
  (* its errors are its own *)
  bcrypt_compare_fresh h pw e t : bcrypt_compare h pw = Some e -> errors_is e t = false;
}.

(** SQLite returns the rows of a SELECT without ORDER BY in an order of its
    choice, and concatenates the values of a group in such an order. *)
Class RowOrder := {
  row_order : forall {A : Type}, list A -> list A;
  row_order_perm {A} (l : list A) : row_order l ≡ₚ l;
}.

Section RowOrderFacts.
Context `{RowOrder}.

Lemma elem_of_row_order {A} (l : list A) x : x ∈ row_order l <-> x ∈ l.
Proof. by rewrite row_order_perm. Qed.

Lemma row_order_nil {A} : row_order (@nil A) = [].
Proof. apply Permutation_nil. by rewrite row_order_perm. Qed.

Lemma row_order_singleton {A} (x : A) : row_order [x] = [x].
Proof.
  apply Permutation_length_1_inv. by rewrite row_order_perm.
Qed.

Lemma row_order_nonempty {A} (l : list A) : row_order l = [] -> l = [].
Proof. intros E. apply Permutation_nil. by rewrite <- (row_order_perm l), E. Qed.
End RowOrderFacts.

(** ** Concrete instances *)
Module Concrete.
#[global, program] Instance decorator : Decorator := {| OnError := Wrapped |}.
Next Obligation. done. Qed.

(** A hash that carries the password in clear. *)
Definition toy_generate (salt : nat) (pw : string) : result string :=
  if (72 <? Z.of_nat (String.length pw)) then Err (Opaque "bcrypt: password length exceeds 72 bytes")
  else Ok ("$2a$" +:+ pw).

Definition toy_compare (h pw : string) : option gerror :=
  if bool_decide (h = "$2a$" +:+ pw) then None else Some (Opaque "bcrypt: hashedPassword is not the hash of the given password").

#[global, program] Instance bcrypt : Bcrypt :=
  {| bcrypt_generate := toy_generate; bcrypt_compare := toy_compare |}.
Next Obligation. intros salt pw why. unfold toy_generate. by destruct (_ <? _). Qed.
Next Obligation.
  intros salt pw h. unfold toy_generate, toy_compare. destruct (_ <? _); [done|].
  intros [= <-]. by rewrite bool_decide_eq_true_2.
Qed.
Next Obligation. intros pw. unfold toy_compare. by rewrite bool_decide_eq_false_2. Qed.
Next Obligation.
  intros h pw e t. unfold toy_compare. case_bool_decide; [done|]. by intros [= <-].
Qed.

#[global, program] Instance row_order_id : RowOrder := {| row_order := fun A l => l |}.
Next Obligation. done. Qed.

(** Latin-1 only: the upper case letters of U+00C0 to U+00DE. *)
#[global] Instance latin1_lower : UnicodeLower := fun r =>
  if in_rng 0xC0 0xDE r && negb (r =? 0xD7) then r + 32 else r.
End Concrete.
