(* ===== verification/Tables.v ===== *)
(** * The tables of the cache and the SQL statements that run on them

    The schema of internal/cache/db/passwd.sql and shadow.sql, and each SQL
    statement of internal/cache as a function on the tables. A table is the
    list of its rows in insertion order; NULL is [None]. *)

From S2P Require Import Prelude GoStrings Interfaces.
Open Scope Z_scope.

(** ** Schema *)

Record passwd_row := PasswdRow {
  p_login : string;
  p_password : option string;
  p_uid : Z;
  p_gid : Z;
  p_gecos : option string;
  p_home : option string;
  p_shell : option string;
  p_last_online_auth : option Z;
}.

Record group_row := GroupRow {
  g_name : string;
  g_password : option string;
  g_gid : Z;
}.

Record uid_gid_row := UidGidRow { ug_uid : Z; ug_gid : Z }.

Record shadow_row := ShadowRow {
  s_uid : Z;
  s_password : string;
  s_last_pwd_change : Z;
  s_min_pwd_age : Z;
  s_max_pwd_age : Z;
  s_pwd_warn_period : Z;
  s_pwd_inactivity : Z;
  s_expiration_date : Z;
}.

Record database := Database {
  t_passwd : list passwd_row;
  t_groups : list group_row;
  t_uid_gid : list uid_gid_row;
  t_shadow : list shadow_row;
}.

Definition empty_db : database := Database [] [] [] [].

#[export] Instance passwd_row_eq_dec : EqDecision passwd_row.
Proof. solve_decision. Defined.
#[export] Instance group_row_eq_dec : EqDecision group_row.
Proof. solve_decision. Defined.
#[export] Instance uid_gid_row_eq_dec : EqDecision uid_gid_row.
Proof. solve_decision. Defined.
#[export] Instance shadow_row_eq_dec : EqDecision shadow_row.
Proof. solve_decision. Defined.
#[export] Instance database_eq_dec : EqDecision database.
Proof. solve_decision. Defined.

(** The UNIQUE and PRIMARY KEY constraints of the schema. *)
Record db_wf (d : database) : Prop := {
  wf_login : NoDup (p_login <$> t_passwd d);
  wf_uid : NoDup (p_uid <$> t_passwd d);
  wf_name : NoDup (g_name <$> t_groups d);
  wf_gid : NoDup (g_gid <$> t_groups d);
  wf_uid_gid : NoDup (t_uid_gid d);
  wf_shadow : NoDup (s_uid <$> t_shadow d);
}.

(** ** INSERT *)

Definition constraint_failed {A} : result A := Err (Opaque "UNIQUE constraint failed").

Definition unique {A} `{EqDecision A} (x : A) (l : list A) : bool := bool_decide (x ∉ l).

(** Columns without a value take their DEFAULT: 'x' and the empty gecos. *)
Definition insert_passwd (login : string) (uid gid : Z) (home shell : string) (last : Z)
    (d : database) : result (unit * database) :=
  if unique login (p_login <$> t_passwd d) && unique uid (p_uid <$> t_passwd d) then
    Ok (tt, Database
      (t_passwd d ++ [PasswdRow login (Some "x"%string) uid gid (Some EmptyString)
                        (Some home) (Some shell) (Some last)])
      (t_groups d) (t_uid_gid d) (t_shadow d))
  else constraint_failed.

Definition insert_shadow (uid : Z) (password : string) (d : database) : result (unit * database) :=
  if unique uid (s_uid <$> t_shadow d) then
    Ok (tt, Database (t_passwd d) (t_groups d) (t_uid_gid d)
      (t_shadow d ++ [ShadowRow uid password (-1) (-1) (-1) (-1) (-1) (-1)]))
  else constraint_failed.

Definition insert_group (name : string) (gid : Z) (d : database) : result (unit * database) :=
  if unique name (g_name <$> t_groups d) && unique gid (g_gid <$> t_groups d) then
    Ok (tt, Database (t_passwd d) (t_groups d ++ [GroupRow name (Some "x"%string) gid])
      (t_uid_gid d) (t_shadow d))
  else constraint_failed.

Definition insert_uid_gid (uid gid : Z) (d : database) : result (unit * database) :=
  if unique (UidGidRow uid gid) (t_uid_gid d) then
    Ok (tt, Database (t_passwd d) (t_groups d) (t_uid_gid d ++ [UidGidRow uid gid]) (t_shadow d))
  else constraint_failed.

(** ** UPDATE *)

Definition set_last_online_auth (t : Z) (r : passwd_row) : passwd_row :=
  PasswdRow (p_login r) (p_password r) (p_uid r) (p_gid r) (p_gecos r) (p_home r) (p_shell r) (Some t).

Definition set_shadow_password (pw : string) (r : shadow_row) : shadow_row :=
  ShadowRow (s_uid r) pw (s_last_pwd_change r) (s_min_pwd_age r) (s_max_pwd_age r)
    (s_pwd_warn_period r) (s_pwd_inactivity r) (s_expiration_date r).

(** [UPDATE passwd SET last_online_auth = t WHERE uid = uid]. *)
Definition update_last_online_auth (t uid : Z) (d : database) : database :=
  Database ((fun r => if p_uid r =? uid then set_last_online_auth t r else r) <$> t_passwd d)
    (t_groups d) (t_uid_gid d) (t_shadow d).

(** [UPDATE shadow.shadow SET password = pw WHERE uid = uid]. *)
Definition update_shadow_password (pw : string) (uid : Z) (d : database) : database :=
  Database (t_passwd d) (t_groups d) (t_uid_gid d)
    ((fun r => if s_uid r =? uid then set_shadow_password pw r else r) <$> t_shadow d).

(** Values bound to a statement or read back as [any]. *)
Inductive sqlval := VNull | VInt (z : Z) | VText (s : string).

#[export] Instance sqlval_eq_dec : EqDecision sqlval.
Proof. solve_decision. Defined.

(** The TEXT affinity of a column: an integer is stored as its decimal text. *)
Definition text_affinity (v : sqlval) : option string :=
  match v with VNull => None | VInt z => Some (pretty z) | VText s => Some s end.

(** [UPDATE passwd SET attr = v] on one row, for the columns that the program
    updates this way; the statement does not exist for other names. *)
Definition set_attr (attr : string) (v : option string) (r : passwd_row) : option passwd_row :=
  if bool_decide (attr = "gecos"%string) then
    Some (PasswdRow (p_login r) (p_password r) (p_uid r) (p_gid r) v (p_home r) (p_shell r) (p_last_online_auth r))
  else if bool_decide (attr = "home"%string) then
    Some (PasswdRow (p_login r) (p_password r) (p_uid r) (p_gid r) (p_gecos r) v (p_shell r) (p_last_online_auth r))
  else if bool_decide (attr = "shell"%string) then
    Some (PasswdRow (p_login r) (p_password r) (p_uid r) (p_gid r) (p_gecos r) (p_home r) v (p_last_online_auth r))
  else None.

(** [UPDATE passwd SET attr = v WHERE login = login]. *)
Definition update_attr (attr : string) (v : sqlval) (login : string) (d : database)
    : result (unit * database) :=
  match mapM (fun r => if bool_decide (p_login r = login)
                       then set_attr attr (text_affinity v) r else Some r) (t_passwd d) with
  | Some rows => Ok (tt, Database rows (t_groups d) (t_uid_gid d) (t_shadow d))
  | None => Err (Opaque "no such column")
  end.

(** ** DELETE *)

(** [last_online_auth < t], which is not true of a NULL. *)
Definition older (t : Z) (r : passwd_row) : Prop :=
  match p_last_online_auth r with Some l => l < t | None => False end.

#[export] Instance older_dec t r : Decision (older t r).
Proof. unfold older. destruct (p_last_online_auth r); apply _. Defined.

(** [SELECT uid FROM passwd WHERE last_online_auth < t]. *)
Definition old_uids (t : Z) (d : database) : list Z :=
  p_uid <$> filter (older t) (t_passwd d).

Definition delete_old_shadow (t : Z) (d : database) : database :=
  Database (t_passwd d) (t_groups d) (t_uid_gid d)
    (filter (fun r => s_uid r ∉ old_uids t d) (t_shadow d)).

Definition delete_old_uid_gid (t : Z) (d : database) : database :=
  Database (t_passwd d) (t_groups d)
    (filter (fun r => ug_uid r ∉ old_uids t d) (t_uid_gid d)) (t_shadow d).

Definition delete_old_passwd (t : Z) (d : database) : database :=
  Database (filter (fun r => ~ older t r) (t_passwd d)) (t_groups d) (t_uid_gid d) (t_shadow d).

(** [DELETE FROM groups WHERE gid NOT IN (SELECT DISTINCT gid FROM uid_gid)]. *)
Definition delete_empty_groups (d : database) : database :=
  Database (t_passwd d) (filter (fun r => g_gid r ∈ (ug_gid <$> t_uid_gid d)) (t_groups d))
    (t_uid_gid d) (t_shadow d).

(** ** SELECT *)

(** The rows of passwd joined with shadow on the uid. *)
Definition join_shadow (ps : list passwd_row) (ss : list shadow_row) : list (passwd_row * shadow_row) :=
  p ← ps; s ← ss; if p_uid p =? s_uid s then [(p, s)] else [].

(** [FROM groups g, uid_gid u, passwd p WHERE u.gid = g.gid AND p.uid = u.uid]
    for one group: the logins of its members. *)
Definition members_of (d : database) (gid : Z) : list string :=
  u ← t_uid_gid d; p ← t_passwd d;
  if (ug_gid u =? gid) && (p_uid p =? ug_uid u) then [p_login p] else [].

Lemma elem_of_join_shadow ps ss p s :
  (p, s) ∈ join_shadow ps ss <-> p ∈ ps /\ s ∈ ss /\ p_uid p = s_uid s.
Proof.
  unfold join_shadow. rewrite list_elem_of_bind. setoid_rewrite list_elem_of_bind. split.
  - intros (p' & (s' & Hin & Hs) & Hp). destruct (Z.eqb_spec (p_uid p') (s_uid s')).
    + apply list_elem_of_singleton in Hin as [= -> ->]. done.
    + by apply elem_of_nil in Hin.
  - intros (Hp & Hs & Heq). exists p. split; [|done]. exists s. split; [|done].
    rewrite (proj2 (Z.eqb_eq _ _)) by done. by apply list_elem_of_singleton.
Qed.

Lemma elem_of_members_of d gid l :
  l ∈ members_of d gid <->
  exists p u, p ∈ t_passwd d /\ u ∈ t_uid_gid d /\ ug_gid u = gid /\ ug_uid u = p_uid p /\ l = p_login p.
Proof.
  unfold members_of. rewrite list_elem_of_bind. setoid_rewrite list_elem_of_bind. split.
  - intros (u & (p & Hin & Hp) & Hu).
    destruct (Z.eqb_spec (ug_gid u) gid), (Z.eqb_spec (p_uid p) (ug_uid u)); simpl in Hin;
      [|by apply elem_of_nil in Hin..].
    apply list_elem_of_singleton in Hin as ->. by exists p, u.
  - intros (p & u & Hp & Hu & <- & Hug & ->). exists u. split; [|done]. exists p. split; [|done].
    rewrite !(proj2 (Z.eqb_eq _ _)) by done. by apply list_elem_of_singleton.
Qed.

(** ** Constraints are preserved by every statement *)

Lemma NoDup_snoc {A} (x : A) l : x ∉ l -> NoDup l -> NoDup (l ++ [x]).
Proof.
  intros Hx Hl. apply NoDup_app. split; [done|]. split; [|by apply NoDup_singleton].
  intros y Hy ->%list_elem_of_singleton. done.
Qed.

Ltac solve_wf :=
  match goal with
  | H : db_wf _ |- db_wf _ => destruct H; split; simpl; try done
  end.

Lemma insert_passwd_wf login uid gid home shell last d d' :
  insert_passwd login uid gid home shell last d = Ok (tt, d') -> db_wf d -> db_wf d'.
Proof.
  unfold insert_passwd, unique. intros H Hwf. repeat case_bool_decide; simplify_eq/=.
  solve_wf; rewrite fmap_app; by apply NoDup_snoc.
Qed.

Lemma insert_shadow_wf uid pw d d' : insert_shadow uid pw d = Ok (tt, d') -> db_wf d -> db_wf d'.
Proof.
  unfold insert_shadow, unique. intros H Hwf. repeat case_bool_decide; simplify_eq/=.
  solve_wf. rewrite fmap_app; by apply NoDup_snoc.
Qed.

Lemma insert_group_wf name gid d d' : insert_group name gid d = Ok (tt, d') -> db_wf d -> db_wf d'.
Proof.
  unfold insert_group, unique. intros H Hwf. repeat case_bool_decide; simplify_eq/=.
  solve_wf; rewrite fmap_app; by apply NoDup_snoc.
Qed.

Lemma insert_uid_gid_wf uid gid d d' : insert_uid_gid uid gid d = Ok (tt, d') -> db_wf d -> db_wf d'.
Proof.
  unfold insert_uid_gid, unique. intros H Hwf. repeat case_bool_decide; simplify_eq/=.
  solve_wf. by apply NoDup_snoc.
Qed.

(** A projection that an update does not touch. *)
Lemma fmap_cond_preserve {A B} (f : A -> B) (P : A -> bool) (g : A -> A) (l : list A) :
  (forall x, f (g x) = f x) -> f <$> ((fun x => if P x then g x else x) <$> l) = f <$> l.
Proof.
  intros Hf. rewrite <- list_fmap_compose. apply list_fmap_ext. intros i x _. simpl. by destruct (P x).
Qed.

Lemma update_last_online_auth_wf t uid d : db_wf d -> db_wf (update_last_online_auth t uid d).
Proof. intros Hwf. solve_wf; by rewrite fmap_cond_preserve. Qed.

Lemma update_shadow_password_wf pw uid d : db_wf d -> db_wf (update_shadow_password pw uid d).
Proof. intros Hwf. solve_wf; by rewrite fmap_cond_preserve. Qed.

Lemma set_attr_key attr v r r' : set_attr attr v r = Some r' ->
  p_login r' = p_login r /\ p_uid r' = p_uid r /\ p_gid r' = p_gid r
  /\ p_password r' = p_password r /\ p_last_online_auth r' = p_last_online_auth r.
Proof. unfold set_attr. intros. repeat case_bool_decide; by simplify_eq. Qed.

Lemma update_attr_inv attr v login d d' : update_attr attr v login d = Ok (tt, d') ->
  t_groups d' = t_groups d /\ t_uid_gid d' = t_uid_gid d /\ t_shadow d' = t_shadow d /\
  Forall2 (fun r r' =>
    (if bool_decide (p_login r = login) then set_attr attr (text_affinity v) r else Some r) = Some r')
    (t_passwd d) (t_passwd d').
Proof.
  unfold update_attr. destruct (mapM _ _) as [rows|] eqn:E; [|done].
  intros [= <-]. apply mapM_Some in E. simpl. split_and!; done.
Qed.

Lemma update_attr_wf attr v login d d' :
  update_attr attr v login d = Ok (tt, d') -> db_wf d -> db_wf d'.
Proof.
  intros (Eg & Eu & Es & H)%update_attr_inv Hwf.
  assert (p_login <$> t_passwd d' = p_login <$> t_passwd d /\ p_uid <$> t_passwd d' = p_uid <$> t_passwd d)
    as [El Eid].
  { induction H as [|r r' l l' Hr _ [IH1 IH2]]; [done|]. csimpl. rewrite IH1, IH2.
    case_bool_decide; simplify_eq; [|done].
    by apply set_attr_key in Hr as (-> & -> & _). }
  destruct Hwf; split; by rewrite ?El, ?Eid, ?Eg, ?Eu, ?Es.
Qed.

Lemma delete_old_shadow_wf t d : db_wf d -> db_wf (delete_old_shadow t d).
Proof. intros Hwf. solve_wf. by apply NoDup_fmap_filter. Qed.

Lemma delete_old_uid_gid_wf t d : db_wf d -> db_wf (delete_old_uid_gid t d).
Proof. intros Hwf. solve_wf. by apply NoDup_filter. Qed.

Lemma delete_old_passwd_wf t d : db_wf d -> db_wf (delete_old_passwd t d).
Proof. intros Hwf. solve_wf; by apply NoDup_fmap_filter. Qed.

Lemma delete_empty_groups_wf d : db_wf d -> db_wf (delete_empty_groups d).
Proof. intros Hwf. solve_wf; by apply NoDup_fmap_filter. Qed.

#[export] Hint Resolve update_last_online_auth_wf update_shadow_password_wf delete_old_shadow_wf
  delete_old_uid_gid_wf delete_old_passwd_wf delete_empty_groups_wf : aad.
#[export] Hint Resolve insert_passwd_wf insert_shadow_wf insert_group_wf insert_uid_gid_wf
  update_attr_wf : aad.
