(* ===== verification/CacheDB.v ===== *)
(** * internal/cache: the database operations of a cache handle

    The state is the [world]: the tables, a schedule of driver failures, the
    clock and the randomness that bcrypt draws. Every call of database/sql
    consumes one entry of the schedule and fails when that entry is a failure,
    so the error paths of each operation are the program's. *)

From S2P Require Import Prelude GoStrings Interfaces Tables.
Open Scope string_scope.
Open Scope list_scope.
Open Scope Z_scope.

(** ** State *)

Record world := World {
  w_db : database;
  w_faults : list (option string);
  w_now : Z;          (* time.Now(), in nanoseconds since the Unix epoch *)
  w_entropy : nat;
}.

Definition set_db (d : database) (w : world) : world := World d (w_faults w) (w_now w) (w_entropy w).
Definition set_faults (f : list (option string)) (w : world) : world :=
  World (w_db w) f (w_now w) (w_entropy w).
Definition set_entropy (n : nat) (w : world) : world := World (w_db w) (w_faults w) (w_now w) n.

(** type options, the key of the map of opened caches *)
Record options := Options {
  o_cacheDir : string;
  o_rootUID : Z;
  o_rootGID : Z;
  o_shadowGID : Z;
  o_forceShadowMode : Z;
  o_passwdPermission : Z;
  o_shadowPermission : Z;
  o_teardownDuration : Z;
  o_offlineCredentialsExpiration : Z;
}.

#[export] Instance options_eq_dec : EqDecision options.
Proof. solve_decision. Defined.

Definition shadowNotAvailableMode : Z := 0.
Definition shadowROMode : Z := 1.
Definition shadowRWMode : Z := 2.

Definition defaultCredentialsExpiration : Z := 90.
Definition expirationPurgeMultiplier : Z := 2.

(** time.Hour, time.Second *)
Definition Second : Z := 1000000000.
Definition Hour : Z := 3600 * Second.

(** [t.Unix()] and [time.Unix(s, 0)] on instants in nanoseconds. *)
Definition Unix (t : Z) : Z := t / Second.
Definition timeUnix (s : Z) : Z := s * Second.
Definition zeroTime : Z := timeUnix (-62135596800).

(** The columns that a row request of passwd yields. *)
Record user_cols := UserCols {
  uc_login : option string;
  uc_password : option string;
  uc_uid : option Z;
  uc_gid : option Z;
  uc_gecos : option string;
  uc_home : option string;
  uc_shell : option string;
  uc_last_online_auth : option Z;
  uc_shadow_password : option string;
}.

Record UserRecord := MkUserRecord {
  Name : string;
  Passwd : string;
  UID : Z;
  GID : Z;
  Gecos : string;
  Home : string;
  Shell : string;
  LastOnlineAuth : Z;
  ShadowPasswd : string;
}.

#[export] Instance UserRecord_eq_dec : EqDecision UserRecord.
Proof. solve_decision. Defined.

Record GroupRecord := MkGroupRecord {
  gName : string;
  gGID : Z;
  gPassword : string;
  gMembers : list string;
}.

Record ShadowRecord := MkShadowRecord {
  swName : string;
  swPassword : string;
  swLastPwdChange : Z;
  swMaxPwdAge : Z;
  swPwdWarnPeriod : Z;
  swPwdInactivity : Z;
  swMinPwdAge : Z;
  swExpirationDate : Z;
}.

Record group_cols := GroupCols {
  gc_name : option string;
  gc_password : option string;
  gc_gid : option Z;
  gc_members : option string;
}.

(** *sql.Rows: the rows still to be read and whether it is closed. *)
Record sql_rows (A : Type) := SqlRows { rows_left : list A; rows_closed : bool }.
Arguments SqlRows {A} _ _.
Arguments rows_left {A} _.
Arguments rows_closed {A} _.

(** type Cache. The mutex is not a field: operations are atomic steps. *)
Record Cache := MkCache {
  shadowMode : Z;
  offlineCredentialsExpiration : Z;
  cursorPasswd : option (sql_rows user_cols);
  cursorGroup : option (sql_rows group_cols);
  cursorShadow : option (sql_rows (passwd_row * shadow_row));
  usedBy : Z;
  teardownDuration : Z;
  sig : options;
}.

(** ** database/sql *)

(** One call to the driver. *)
Definition driver : M world unit := fun w =>
  match w_faults w with
  | [] => (Ok tt, w)
  | None :: fs => (Ok tt, set_faults fs w)
  | Some msg :: fs => (Err (Opaque msg), set_faults fs w)
  end.

Definition exec (stmt : database -> result (unit * database)) : M world unit :=
  driver ;; step (fun w =>
    match stmt (w_db w) with
    | Ok (_, d) => (Ok tt, set_db d w)
    | Err e => (Err e, w)
    | Panic p => (Panic p, w)
    end).

(** A statement that no constraint can refuse. *)
Definition exec_ok (stmt : database -> database) : M world unit :=
  exec (fun d => Ok (tt, stmt d)).

Definition query {A} (q : database -> A) : M world A :=
  driver ;; step (fun w => (Ok (q (w_db w)), w)).

(** [db.QueryRow(...)] followed by [Scan]: the first row. *)
Definition query_row {A} (q : database -> list A) : M world A :=
  rows ← query q;
  match rows with
  | [] => fail (Sentinel SqlErrNoRows)
  | r :: _ => mret r
  end.

(** [tx, err := db.Begin(); defer tx.Rollback(); ...; return tx.Commit()]:
    the tables are those of the start unless the commit succeeds. *)
Definition transaction (body : M world unit) : M world unit := fun w =>
  match driver w with
  | (Ok _, w1) =>
      match (body ;; driver) w1 with
      | (Ok _, w2) => (Ok tt, w2)
      | (r, w2) => (r, set_db (w_db w1) w2)
      end
  | (r, w1) => (r, w1)
  end.

(** Scanning a column into a Go string or integer. *)
Definition scan_text (v : option string) : result string :=
  match v with Some s => Ok s | None => Err (Opaque "converting NULL to string is unsupported") end.
Definition scan_int (v : option Z) : result Z :=
  match v with Some z => Ok z | None => Err (Opaque "converting NULL to int64 is unsupported") end.

(** The order of ORDER BY: bytewise. *)
Definition string_le (s t : string) : Prop := String.leb s t = true.
#[export] Instance string_le_dec s t : Decision (string_le s t).
Proof. unfold string_le. apply _. Defined.

Definition login_le (p q : passwd_row) : Prop := string_le (p_login p) (p_login q).
#[export] Instance login_le_dec p q : Decision (login_le p q).
Proof. unfold login_le. apply _. Defined.

Section CacheDB.
Context `{Decorator} `{RowOrder}.

Definition on_error {S A} (fmt : string) (m : M S A) : M S A := map_err (OnError fmt) m.
Definition errorf {S A} (fmt : string) (m : M S A) : M S A := map_err (Wrapped fmt) m.

(** ** passwddb.go *)

Definition PasswdQueryAttributes : list string :=
  ["login"; "password"; "uid"; "gid"; "gecos"; "home"; "shell"; "last_online_auth"].

Definition PasswdUpdateAttributes : list string := ["gecos"; "home"; "shell"].

Definition scan_user (c : user_cols) : result UserRecord :=
  name ← scan_text (uc_login c);
  passwd ← scan_text (uc_password c);
  uid ← scan_int (uc_uid c);
  gid ← scan_int (uc_gid c);
  gecos ← scan_text (uc_gecos c);
  home ← scan_text (uc_home c);
  shell ← scan_text (uc_shell c);
  lastlogin ← scan_int (uc_last_online_auth c);
  shadow ← scan_text (uc_shadow_password c);
  mret (MkUserRecord name passwd uid gid gecos home shell (timeUnix lastlogin) shadow).

Definition no_rows_to_noent (e : gerror) : gerror :=
  if errors_is e SqlErrNoRows then Sentinel ErrNoEnt else e.

(** [r] is the row scanner: what [r.Scan] reads or the error it returns. *)
Definition newUserFromScanner {S} (r : M S user_cols) : M S UserRecord :=
  map_err no_rows_to_noent (c ← r; lift (scan_user c)).

Definition user_cols_of (shadow : option string) (p : passwd_row) : user_cols :=
  UserCols (Some (p_login p)) (p_password p) (Some (p_uid p)) (Some (p_gid p))
    (p_gecos p) (p_home p) (p_shell p) (p_last_online_auth p) shadow.

(** The query is extended with the shadow table when it is attached. *)
Definition select_users (c : Cache) (where_ : passwd_row -> bool) (d : database) : list user_cols :=
  row_order
    (if shadowNotAvailableMode <? shadowMode c then
       (fun ps => user_cols_of (Some (s_password ps.2)) ps.1)
         <$> join_shadow (filter (fun p => where_ p = true) (t_passwd d)) (t_shadow d)
     else user_cols_of (Some "") <$> filter (fun p => where_ p = true) (t_passwd d)).

Definition GetUserByName (c : Cache) (username : string) : M world UserRecord :=
  errorf "error when getting user %q from cache: %w"
    (newUserFromScanner (query_row (select_users c (fun p => bool_decide (p_login p = username))))).

Definition GetUserByUID (c : Cache) (uid : Z) : M world UserRecord :=
  errorf "error when getting uid %d from cache: %w"
    (newUserFromScanner (query_row (select_users c (fun p => p_uid p =? uid)))).

(** Next() and the row that it makes current; a failure of Next is read as
    the end of the rows, as no caller looks at [rows.Err()]. *)
Definition rows_next {A} (r : sql_rows A) : M world (option A * sql_rows A) :=
  if rows_closed r then mret (None, r)
  else
    f ← attempt driver;
    match f, rows_left r with
    | inl _, x :: l => mret (Some x, SqlRows l false)
    | _, _ => mret (None, SqlRows [] true)
    end.

(** Close() of rows that may be closed already. *)
Definition rows_close {A} (r : sql_rows A) : M world unit :=
  if rows_closed r then mret tt else driver.

Fixpoint scan_names (rows : list string) : M world (list string) :=
  match rows with
  | [] => fun w => (* the Next call that returns false *)
      match driver w with (_, w') => (Ok [], w') end
  | name :: rows =>
      f ← attempt driver;
      match f with
      | inl _ => names ← scan_names rows; mret (name :: names)
      | inr _ => mret []
      end
  end.

Definition GetAllUserNames : M world (list string) :=
  rows ← errorf "error when getting all users from cache: %w"
           (query (fun d => row_order (p_login <$> t_passwd d)));
  scan_names rows.

(** uidOrGidExists: the columns of the UNION are the name and constants. *)
Definition union_rows (id : Z) (d : database) : list user_cols :=
  (fun name => UserCols (Some name) (Some "") (Some (-1)) (Some (-1)) (Some "-1") (Some "-1")
                 (Some "-1") (Some (-1)) (Some "-1"))
    <$> row_order (remove_dups (
          (p_login <$> filter (fun p => p_uid p = id) (t_passwd d))
          ++ (g_name <$> filter (fun g => g_gid g = id) (t_groups d)))).

Definition uidOrGidExists (id : Z) (username : string) : M world bool :=
  u ← attempt (newUserFromScanner (query_row (union_rows id)));
  match u with
  | inr e => if errors_is e ErrNoEnt then mret false
             else fail (Wrapped "failed to verify that %d is unique: %w" e)
  | inl u => if bool_decide (Name u = username) then fail (Opaque "user already exists in cache")
             else mret true
  end.

(** ** cachedb.go *)

Definition insertUser (c : Cache) (newUser : UserRecord) : M world unit :=
  on_error "failed to insert user %q in local cache"
    (if negb (shadowMode c =? shadowRWMode) then
       fail (Opaque "shadow database is not accessible for writing: %v")
     else transaction (
       exec (insert_passwd (Name newUser) (UID newUser) (GID newUser) (Home newUser)
               (Shell newUser) (Unix (LastOnlineAuth newUser))) ;;
       exec (insert_shadow (UID newUser) (ShadowPasswd newUser)) ;;
       exec (insert_group (Name newUser) (GID newUser)) ;;
       exec (insert_uid_gid (UID newUser) (GID newUser)))).

Definition userExists (login : string) : M world bool :=
  errorf "failed to check if %q exists: %w"
    (query (fun d => bool_decide (login ∈ (p_login <$> t_passwd d)))).

Definition updateOnlineAuthAndPassword (c : Cache) (uid : Z) (username shadowPasswd : string)
    : M world unit :=
  on_error "failed to update user %q in local cache"
    (if negb (shadowMode c =? shadowRWMode) then
       fail (Opaque "shadow database is not accessible for writing: %v")
     else transaction (
       w ← get;
       exec_ok (update_last_online_auth (Unix (w_now w)) uid) ;;
       exec_ok (update_shadow_password shadowPasswd uid))).

(** [time.Now().Add(-maxCacheEntryDuration)]: a Duration is an int64. *)
Definition cleanUpDB (maxCacheEntryDuration : Z) : M world unit :=
  transaction (
    w ← get;
    let entryPurgeTime := Unix (w_now w + i64 (- maxCacheEntryDuration)) in
    exec_ok (delete_old_shadow entryPurgeTime) ;;
    exec_ok (delete_old_uid_gid entryPurgeTime) ;;
    exec_ok (delete_old_passwd entryPurgeTime) ;;
    exec_ok delete_empty_groups).

(** [if b, err := userExists(...); !b]: an error comes with [b] false. *)
Definition user_must_exist (login : string) : M world unit :=
  b ← attempt (userExists login);
  match b with
  | inl true => mret tt
  | inl false | inr _ => fail (Opaque "user does not exist")
  end.

Definition UpdateUserAttribute (login attr : string) (value : sqlval) : M world unit :=
  on_error "could not update %s for %s"
    (if bool_decide (attr ∉ PasswdUpdateAttributes) then fail (Opaque "invalid attribute")
     else
       user_must_exist login ;;
       transaction (exec (update_attr attr value login))).

(** The column that [SELECT attr] reads. *)
Definition get_attr (attr : string) (p : passwd_row) : option sqlval :=
  let text v := match v with Some s => VText s | None => VNull end in
  let int v := match v with Some z => VInt z | None => VNull end in
  if bool_decide (attr = "login") then Some (VText (p_login p))
  else if bool_decide (attr = "password") then Some (text (p_password p))
  else if bool_decide (attr = "uid") then Some (VInt (p_uid p))
  else if bool_decide (attr = "gid") then Some (VInt (p_gid p))
  else if bool_decide (attr = "gecos") then Some (text (p_gecos p))
  else if bool_decide (attr = "home") then Some (text (p_home p))
  else if bool_decide (attr = "shell") then Some (text (p_shell p))
  else if bool_decide (attr = "last_online_auth") then Some (int (p_last_online_auth p))
  else None.

Definition select_attr (attr login : string) (d : database) : list sqlval :=
  row_order (omap (get_attr attr) (filter (fun p => p_login p = login) (t_passwd d))).

Definition QueryPasswdAttribute (login attr : string) : M world sqlval :=
  on_error "could not query %s for %s"
    (if bool_decide (attr ∉ PasswdQueryAttributes) then fail (Opaque "invalid attribute")
     else
       user_must_exist login ;;
       errorf "cannot scan value: %w" (query_row (select_attr attr login))).

(** ** groupdb.go *)

Definition scan_group (c : group_cols) : result GroupRecord :=
  name ← scan_text (gc_name c);
  password ← scan_text (gc_password c);
  gid ← scan_int (gc_gid c);
  members ← scan_text (gc_members c);
  mret (MkGroupRecord name gid password (Split "," members)).

Definition newGroupFromScanner {S} (r : M S group_cols) : M S GroupRecord :=
  map_err no_rows_to_noent (c ← r; lift (scan_group c)).

(** The rows of the three-way join for the groups that [where_] selects. *)
Definition group_rows (where_ : group_row -> bool) (d : database) : list (group_row * string) :=
  g ← filter (fun g => where_ g = true) (t_groups d);
  (fun m => (g, m)) <$> members_of d (g_gid g).

(** Aggregation with group_concat, of which [WHERE name IS NOT NULL] drops
    the all-NULL row that an empty join gives. *)
Definition concat_group (rows : list (group_row * string)) : list group_cols :=
  match rows with
  | [] => []
  | (g, _) :: _ => [GroupCols (Some (g_name g)) (g_password g) (Some (g_gid g)) (Some (Join "," rows.*2))]
  end.

Definition select_group (where_ : group_row -> bool) (d : database) : list group_cols :=
  concat_group (row_order (group_rows where_ d)).

Definition GetGroupByName (groupname : string) : M world GroupRecord :=
  errorf "error when getting group %q from cache: %w"
    (newGroupFromScanner (query_row (select_group (fun g => bool_decide (g_name g = groupname))))).

Definition GetGroupByGID (gid : Z) : M world GroupRecord :=
  errorf "error when getting gid %d from cache: %w"
    (newGroupFromScanner (query_row (select_group (fun g => g_gid g =? gid)))).

Definition select_all_groups (d : database) : list group_cols :=
  name ← merge_sort string_le (remove_dups (g_name <$> t_groups d));
  select_group (fun g => bool_decide (g_name g = name)) d.

(** ** shadowdb.go *)

Definition scan_shadow (c : passwd_row * shadow_row) : result ShadowRecord :=
  let '(p, s) := c in
  Ok (MkShadowRecord (p_login p) (s_password s) (s_last_pwd_change s) (s_max_pwd_age s)
        (s_pwd_warn_period s) (s_pwd_inactivity s) (s_min_pwd_age s) (s_expiration_date s)).

Definition newShadowFromScanner {S} (r : M S (passwd_row * shadow_row)) : M S ShadowRecord :=
  map_err no_rows_to_noent (c ← r; lift (scan_shadow c)).

Definition GetShadowByName (c : Cache) (username : string) : M world ShadowRecord :=
  if shadowMode c <? shadowROMode then
    fail (Opaque "need shadow to be accessible to query on it, current access is: %d")
  else
    errorf "error when getting shadow matching %q from cache: %w"
      (newShadowFromScanner (query_row (fun d =>
         row_order (join_shadow (filter (fun p => p_login p = username) (t_passwd d)) (t_shadow d))))).

(** ShadowReadable *)
Definition ShadowReadable (c : Cache) : bool := shadowNotAvailableMode <? shadowMode c.

(** ** The three iterators: NextPasswdEntry, NextGroupEntry, NextShadowEntry *)

Definition on_world {A} (m : M world A) : M (Cache * world) A :=
  zoom snd (fun w s => (s.1, w)) m.

Section Iterator.
Context {Row Rec : Type}.
Variable cursor : Cache -> option (sql_rows Row).
Variable set_cursor : option (sql_rows Row) -> Cache -> Cache.
Variable run_query : Cache -> M world (list Row).
Variable scan : M (Cache * world) Row -> M (Cache * world) Rec.
Variables read_failed close_failed : string.

Definition put_cursor (r : option (sql_rows Row)) : M (Cache * world) unit :=
  step (fun s => (Ok tt, (set_cursor r s.1, s.2))).

(** The cursor, opened by the query of the first call. *)
Definition open_cursor : M (Cache * world) (sql_rows Row) :=
  s ← get;
  match cursor s.1 with
  | Some r => mret r
  | None =>
      rows ← on_world (run_query s.1);
      put_cursor (Some (SqlRows rows false)) ;;
      mret (SqlRows rows false)
  end.

Definition next_entry : M (Cache * world) Rec :=
  map_err (fun e => if errors_is e ErrNoEnt then e else Wrapped read_failed e)
    (r ← open_cursor;
     n ← on_world (rows_next r);
     put_cursor (Some n.2) ;;
     match n.1 with
     | Some row => scan (mret row)
     | None =>
         on_world (rows_close n.2) ;;
         put_cursor None ;;
         fail (Sentinel ErrNoEnt)
     end).

Definition close_iterator : M (Cache * world) unit :=
  s ← get;
  match cursor s.1 with
  | None => mret tt
  | Some r =>
      res ← attempt (on_world (rows_close r));
      put_cursor None ;;
      match res with
      | inl _ => mret tt
      | inr e => fail (Wrapped close_failed e)
      end
  end.
End Iterator.

Definition set_cursorPasswd r (c : Cache) : Cache :=
  MkCache (shadowMode c) (offlineCredentialsExpiration c) r (cursorGroup c) (cursorShadow c)
    (usedBy c) (teardownDuration c) (sig c).
Definition set_cursorGroup r (c : Cache) : Cache :=
  MkCache (shadowMode c) (offlineCredentialsExpiration c) (cursorPasswd c) r (cursorShadow c)
    (usedBy c) (teardownDuration c) (sig c).
Definition set_cursorShadow r (c : Cache) : Cache :=
  MkCache (shadowMode c) (offlineCredentialsExpiration c) (cursorPasswd c) (cursorGroup c) r
    (usedBy c) (teardownDuration c) (sig c).

(** [SELECT ..., '' FROM passwd ORDER BY login]. *)
Definition select_all_passwd (d : database) : list user_cols :=
  user_cols_of (Some "") <$> merge_sort login_le (t_passwd d).

Definition NextPasswdEntry : M (Cache * world) UserRecord :=
  next_entry cursorPasswd set_cursorPasswd (fun _ => query select_all_passwd)
    newUserFromScanner "failed to read passwd entry in db: %w".

Definition ClosePasswdIterator : M (Cache * world) unit :=
  close_iterator cursorPasswd set_cursorPasswd "failed to close passwd iterator in db: %w".

Definition NextGroupEntry : M (Cache * world) GroupRecord :=
  next_entry cursorGroup set_cursorGroup (fun _ => query select_all_groups)
    newGroupFromScanner "failed to read group entry in db: %w".

Definition CloseGroupIterator : M (Cache * world) unit :=
  close_iterator cursorGroup set_cursorGroup "failed to close group iterator in db: %w".

(** Without the attached database the query has no shadow table. *)
Definition query_all_shadow (c : Cache) : M world (list (passwd_row * shadow_row)) :=
  if shadowNotAvailableMode <? shadowMode c then
    query (fun d => row_order (join_shadow (t_passwd d) (t_shadow d)))
  else driver ;; fail (Opaque "no such table: shadow.shadow").

Definition NextShadowEntry : M (Cache * world) ShadowRecord :=
  next_entry cursorShadow set_cursorShadow query_all_shadow
    newShadowFromScanner "failed to read shadow entry in db: %w".

Definition CloseShadowIterator : M (Cache * world) unit :=
  close_iterator cursorShadow set_cursorShadow "failed to close shadow iterator in db: %w".
End CacheDB.
