(* ===== verification/CacheFacts.v ===== *)
(** * Theorems on the database operations of a cache handle

    Frames (what an operation cannot change), atomicity of the transactions
    under driver failures, the schema constraints and the coherence of the
    four tables as invariants, and the functional behaviour of insertion,
    lookup, update, purge and iteration. *)

From S2P Require Import Prelude GoStrings Interfaces Tables CacheDB.
Open Scope string_scope.
Open Scope list_scope.
Open Scope Z_scope.

(** ** Frames *)

(** Everything but the schedule of failures. *)
Definition same_data (w w' : world) : Prop :=
  w_db w' = w_db w /\ w_now w' = w_now w /\ w_entropy w' = w_entropy w.

#[export] Instance same_data_preorder : PreOrder same_data.
Proof.
  split; [done|]. intros w1 w2 w3 (E1 & E2 & E3) (F1 & F2 & F3).
  unfold same_data. by rewrite F1, F2, F3.
Qed.

(** A computation that only reads, whatever it returns. *)
Definition readonly {A} (m : M world A) : Prop := frames same_data m.

Create HintDb ro.

Lemma ro_ret {A} (a : A) : readonly (mret a).
Proof. apply frames_ret, _. Qed.
Lemma ro_fail {A} e : readonly (@fail world A e).
Proof. apply frames_fail, _. Qed.
Lemma ro_lift {A} (r : result A) : readonly (lift r).
Proof. apply frames_lift, _. Qed.
Lemma ro_get : readonly get.
Proof. apply frames_get, _. Qed.
Lemma ro_bind {A B} (m : M world A) (f : A -> M world B) :
  readonly m -> (forall a, readonly (f a)) -> readonly (m ≫= f).
Proof. apply frames_bind, _. Qed.
Lemma ro_map_err {A} f (m : M world A) : readonly m -> readonly (map_err f m).
Proof. apply frames_map_err. Qed.
Lemma ro_attempt {A} (m : M world A) : readonly m -> readonly (attempt m).
Proof. apply frames_attempt. Qed.
Lemma ro_driver : readonly driver.
Proof. intros w. unfold driver. by destruct (w_faults w) as [|[]]. Qed.
Lemma ro_query {A} (q : database -> A) : readonly (query q).
Proof. apply ro_bind; [apply ro_driver|]. by intros [] w. Qed.
Lemma ro_query_row {A} (q : database -> list A) : readonly (query_row q).
Proof. apply ro_bind; [apply ro_query|]. intros []; [apply ro_fail|apply ro_ret]. Qed.

(** A computation that moves neither the clock nor the randomness. *)
Definition stable {A} (m : M world A) : Prop :=
  forall w, w_now (m w).2 = w_now w /\ w_entropy (m w).2 = w_entropy w.

Lemma stable_ro {A} (m : M world A) : readonly m -> stable m.
Proof. intros Hm w. by destruct (Hm w) as (_ & ? & ?). Qed.
Lemma stable_bind {A B} (m : M world A) (f : A -> M world B) :
  stable m -> (forall a, stable (f a)) -> stable (m ≫= f).
Proof.
  intros Hm Hf w. unfold mbind, M_bind. specialize (Hm w).
  destruct (m w) as [[a|e|p] w']; simpl in *; [|done..].
  destruct Hm as [<- <-]. apply Hf.
Qed.
Lemma stable_map_err {A} f (m : M world A) : stable m -> stable (map_err f m).
Proof. intros Hm w. rewrite map_err_snd. apply Hm. Qed.

#[export] Hint Resolve ro_ret ro_fail ro_lift ro_get ro_bind ro_map_err ro_attempt ro_driver
  ro_query ro_query_row : ro.

Lemma np_driver : no_panic driver.
Proof. intros w why. unfold driver. by destruct (w_faults w) as [|[]]. Qed.
Lemma np_query {A} (q : database -> A) : no_panic (query q).
Proof. apply no_panic_bind; [apply np_driver|]. by intros [] w. Qed.
Lemma np_query_row {A} (q : database -> list A) : no_panic (query_row q).
Proof. apply no_panic_bind; [apply np_query|]. by intros []. Qed.
#[export] Hint Resolve np_driver np_query np_query_row : aad.

Lemma driver_Err w e w' : driver w = (Err e, w') -> exists msg, e = Opaque msg.
Proof. unfold driver. destruct (w_faults w) as [|[msg|] fs]; intros [=]; eauto. Qed.

(** A world in which no driver call fails from now on. *)
Definition calm (w : world) : Prop := w_faults w = [].

Lemma driver_calm w : calm w -> driver w = (Ok tt, w).
Proof. unfold calm, driver. by intros ->. Qed.

Lemma exec_calm stmt w : calm w ->
  exec stmt w = match stmt (w_db w) with
                | Ok (_, d) => (Ok tt, set_db d w)
                | Err e => (Err e, w)
                | Panic p => (Panic p, w)
                end.
Proof. intros Hw. unfold exec, mbind, M_bind. by rewrite driver_calm. Qed.

Lemma query_calm {A} (q : database -> A) w : calm w -> query q w = (Ok (q (w_db w)), w).
Proof. intros Hw. unfold query, mbind, M_bind. by rewrite driver_calm. Qed.

Lemma query_row_calm {A} (q : database -> list A) w : calm w ->
  query_row q w = (match q (w_db w) with [] => Err (Sentinel SqlErrNoRows) | r :: _ => Ok r end, w).
Proof.
  intros Hw. unfold query_row, mbind, M_bind. rewrite query_calm by done. by destruct (q _).
Qed.

Lemma calm_set_db d w : calm w -> calm (set_db d w).
Proof. done. Qed.
#[export] Hint Resolve calm_set_db : aad.

(** What a successful call of the driver saw. *)
Lemma exec_Ok stmt w w' : exec stmt w = (Ok tt, w') ->
  stmt (w_db w) = Ok (tt, w_db w') /\ w_now w' = w_now w /\ w_entropy w' = w_entropy w.
Proof.
  unfold exec. intros ([] & w1 & Hd & H)%bind_Ok.
  pose proof (ro_driver w) as (E1 & E2 & E3). rewrite Hd in E1, E2, E3. simpl in *.
  unfold step in H. rewrite <- E1, <- E2, <- E3.
  destruct (stmt (w_db w1)) as [[[] d]|e|p] eqn:Es; simplify_eq. done.
Qed.

Lemma exec_frame stmt w : w_now (exec stmt w).2 = w_now w /\ w_entropy (exec stmt w).2 = w_entropy w.
Proof.
  unfold exec, mbind, M_bind, step. pose proof (ro_driver w) as (_ & E2 & E3).
  destruct (driver w) as [[]]; simpl in *; [|done..]. by destruct (stmt _) as [[]| |].
Qed.

Lemma stable_exec stmt : stable (exec stmt).
Proof. intros w. apply exec_frame. Qed.

Lemma query_Ok {A} (q : database -> A) w a w' : query q w = (Ok a, w') -> a = q (w_db w).
Proof.
  unfold query. intros ([] & w1 & Hd & H)%bind_Ok.
  pose proof (ro_driver w) as (E1 & _). rewrite Hd in E1. simpl in E1.
  unfold step in H. rewrite <- E1. by simplify_eq.
Qed.

Lemma query_row_Ok {A} (q : database -> list A) w a w' :
  query_row q w = (Ok a, w') -> a ∈ q (w_db w).
Proof.
  unfold query_row. intros (l & w1 & Hq & H)%bind_Ok.
  apply query_Ok in Hq as <-. destruct l; [done|].
  unfold mret, M_ret in H. simplify_eq. by constructor.
Qed.

Lemma query_row_Err {A} (q : database -> list A) w e w' : query_row q w = (Err e, w') ->
  (q (w_db w) = [] /\ e = Sentinel SqlErrNoRows) \/ exists msg, e = Opaque msg.
Proof.
  unfold query_row, query, mbind, M_bind, step. pose proof (ro_driver w) as (E & _).
  pose proof (np_driver w) as Hp. destruct (driver w) as [[[]|e0|p] w1] eqn:Ed; simpl in *.
  - rewrite <- E. destruct (q (w_db w1)) eqn:Eq; [|done]. intros [= <- _]. auto.
  - intros [= <- _]. right. by eapply driver_Err.
  - by destruct (Hp p).
Qed.

(** ** Transactions *)

(** A transaction commits its body or leaves the tables alone. *)
Lemma transaction_inv body w r w' : transaction body w = (r, w') ->
  (r = Ok tt /\ exists w1 w2, same_data w w1 /\ body w1 = (Ok tt, w2) /\ same_data w2 w')
  \/ (r <> Ok tt /\ w_db w' = w_db w).
Proof.
  unfold transaction. pose proof (ro_driver w) as H1.
  destruct (driver w) as [[[]|e|p] w1] eqn:E1; simpl in *;
    [|intros [= <- <-]; right; split; [done|apply H1]..].
  destruct ((body ;; driver) w1) as [[[]|e|p] w2] eqn:E2; intros [= <- <-];
    [|right; split; [done|apply H1]..].
  left. split; [done|]. apply bind_Ok in E2 as ([] & w3 & Hb & Hd).
  exists w1, w3. split_and!; [done..|]. pose proof (ro_driver w3) as H3. by rewrite Hd in H3.
Qed.

Lemma stable_transaction body : stable body -> stable (transaction body).
Proof.
  intros Hb w. unfold transaction. pose proof (ro_driver w) as (_ & E1 & E2).
  destruct (driver w) as [[[]|e|p] w1]; simpl in *; [|done..].
  assert (stable (body ;; driver)) as Hs by (apply stable_bind; [done|]; intros _; apply stable_ro, ro_driver).
  rewrite <- E1, <- E2. destruct (Hs w1) as [F1 F2].
  by destruct ((body ;; driver) w1) as [[[]|e|p] w2].
Qed.

Lemma transaction_calm_Ok body w w' : calm w -> body w = (Ok tt, w') -> calm w' ->
  transaction body w = (Ok tt, w').
Proof.
  intros Hw Hb Hw'. unfold transaction, mbind, M_bind. by rewrite driver_calm, Hb, driver_calm.
Qed.

Lemma np_transaction body : no_panic body -> no_panic (transaction body).
Proof.
  intros Hb w why. unfold transaction. pose proof (np_driver w) as Hd.
  destruct (driver w) as [[]]; simpl in *; [|done|by specialize (Hd why0)].
  assert (no_panic (body ;; driver)) as Hn by auto with aad.
  specialize (Hn w0). destruct ((body ;; driver) w0) as [[]]; [done..|]. by specialize (Hn why0).
Qed.

Lemma np_exec stmt : (forall d why, stmt d <> Panic why) -> no_panic (exec stmt).
Proof.
  intros H. apply no_panic_bind; [auto with aad|]. intros [] w why. unfold step.
  specialize (H (w_db w)). destruct (stmt (w_db w)) as [[]| |]; [done..|]. by specialize (H why0).
Qed.

Lemma np_exec_ok stmt : no_panic (exec_ok stmt).
Proof. by apply np_exec. Qed.

#[export] Hint Resolve np_transaction np_exec_ok : aad.

(** ** Insertion *)

Definition user_inserted (u : UserRecord) (d : database) : database :=
  Database
    (t_passwd d ++ [PasswdRow (Name u) (Some "x") (UID u) (GID u) (Some "") (Some (Home u))
                      (Some (Shell u)) (Some (Unix (LastOnlineAuth u)))])
    (t_groups d ++ [GroupRow (Name u) (Some "x") (GID u)])
    (t_uid_gid d ++ [UidGidRow (UID u) (GID u)])
    (t_shadow d ++ [ShadowRow (UID u) (ShadowPasswd u) (-1) (-1) (-1) (-1) (-1) (-1)]).

(** No constraint of the schema refuses the rows of [u]. *)
Record fresh_user (u : UserRecord) (d : database) : Prop := {
  fresh_login : Name u ∉ p_login <$> t_passwd d;
  fresh_uid : UID u ∉ p_uid <$> t_passwd d;
  fresh_shadow : UID u ∉ s_uid <$> t_shadow d;
  fresh_name : Name u ∉ g_name <$> t_groups d;
  fresh_gid : GID u ∉ g_gid <$> t_groups d;
  fresh_uid_gid : UidGidRow (UID u) (GID u) ∉ t_uid_gid d;
}.

Definition insert_body (u : UserRecord) : M world unit :=
  exec (insert_passwd (Name u) (UID u) (GID u) (Home u) (Shell u) (Unix (LastOnlineAuth u))) ;;
  exec (insert_shadow (UID u) (ShadowPasswd u)) ;;
  exec (insert_group (Name u) (GID u)) ;;
  exec (insert_uid_gid (UID u) (GID u)).

Lemma insert_body_Ok u w w' : insert_body u w = (Ok tt, w') ->
  fresh_user u (w_db w) /\ w_db w' = user_inserted u (w_db w)
  /\ w_now w' = w_now w /\ w_entropy w' = w_entropy w.
Proof.
  unfold insert_body.
  intros ([] & w1 & (H1 & N1 & E1)%exec_Ok & ([] & w2 & (H2 & N2 & E2)%exec_Ok
    & ([] & w3 & (H3 & N3 & E3)%exec_Ok & (H4 & N4 & E4)%exec_Ok)%bind_Ok)%bind_Ok)%bind_Ok.
  destruct (w_db w) as [ps gs ugs ss].
  unfold insert_passwd, insert_shadow, insert_group, insert_uid_gid, unique in *; simpl in *.
  repeat case_bool_decide; simplify_eq/=.
  destruct (w_db w1), (w_db w2), (w_db w3). simplify_eq/=.
  split; [by constructor|]. split_and!; [done|congruence..].
Qed.

Lemma insert_body_calm u w : calm w -> fresh_user u (w_db w) ->
  insert_body u w = (Ok tt, set_db (user_inserted u (w_db w)) w).
Proof.
  intros Hw []. unfold insert_body, mbind, M_bind.
  rewrite exec_calm by done. unfold insert_passwd, unique. rewrite !bool_decide_eq_true_2 by done. simpl.
  rewrite exec_calm by done. unfold insert_shadow, unique. simpl. rewrite !bool_decide_eq_true_2 by done.
  rewrite exec_calm by done. unfold insert_group, unique. simpl. rewrite !bool_decide_eq_true_2 by done. simpl.
  rewrite exec_calm by done. unfold insert_uid_gid, unique. simpl. by rewrite !bool_decide_eq_true_2 by done.
Qed.

Lemma user_inserted_wf u d : fresh_user u d -> db_wf d -> db_wf (user_inserted u d).
Proof.
  intros [] []. split; simpl; rewrite ?fmap_app; by apply NoDup_snoc.
Qed.

Section Facts.
Context `{Decorator} `{RowOrder}.

Lemma insertUser_inv c u w r w' : insertUser c u w = (r, w') ->
  (r = Ok tt /\ shadowMode c = shadowRWMode /\ fresh_user u (w_db w)
   /\ w_db w' = user_inserted u (w_db w))
  \/ (r <> Ok tt /\ w_db w' = w_db w).
Proof.
  unfold insertUser, on_error. destruct (Z.eqb_spec (shadowMode c) shadowRWMode) as [Hm|]; simpl.
  - unfold map_err. destruct (transaction _ w) as [r0 w0] eqn:Et. intros E.
    apply transaction_inv in Et as [(-> & w1 & w2 & S1 & Hb & S2)|[Hr Hd]].
    + simplify_eq. left. change (insert_body u w1 = (Ok tt, w2)) in Hb.
      apply insert_body_Ok in Hb as (Hf & Hd & _). destruct S1 as (Ed & _), S2 as (Ed2 & _).
      rewrite Ed2, Hd, Ed in *. done.
    + right. destruct r0 as [[]| |]; by simplify_eq.
  - intros [= <- <-]. by right.
Qed.

Lemma insertUser_calm c u w : calm w -> shadowMode c = shadowRWMode -> fresh_user u (w_db w) ->
  insertUser c u w = (Ok tt, set_db (user_inserted u (w_db w)) w).
Proof.
  intros Hw Hm Hf. unfold insertUser, on_error, map_err. rewrite Hm. simpl.
  erewrite transaction_calm_Ok; [done|done| |]; [by apply insert_body_calm|done].
Qed.

Lemma np_insert_body u : no_panic (insert_body u).
Proof.
  unfold insert_body.
  repeat first [apply np_exec; intros d why | apply no_panic_bind; [|intros _]];
    unfold insert_passwd, insert_shadow, insert_group, insert_uid_gid;
    destruct (unique _ _); by try destruct (unique _ _).
Qed.

Lemma np_insertUser c u : no_panic (insertUser c u).
Proof.
  unfold insertUser, on_error. apply no_panic_map_err. destruct (negb _); [done|].
  apply np_transaction, np_insert_body.
Qed.

(** ** Lookup *)

Lemma stable_insertUser c u : stable (insertUser c u).
Proof.
  unfold insertUser, on_error. apply stable_map_err. destruct (negb _); [apply stable_ro; auto with ro|].
  apply stable_transaction. repeat first [apply stable_exec|apply stable_bind; [|intros _]].
Qed.

(** ** Lookup *)

Lemma scan_user_Ok cols u : scan_user cols = Ok u ->
  uc_login cols = Some (Name u) /\ uc_password cols = Some (Passwd u) /\ uc_uid cols = Some (UID u)
  /\ uc_gid cols = Some (GID u) /\ uc_gecos cols = Some (Gecos u) /\ uc_home cols = Some (Home u)
  /\ uc_shell cols = Some (Shell u) /\ uc_shadow_password cols = Some (ShadowPasswd u)
  /\ exists l, uc_last_online_auth cols = Some l /\ LastOnlineAuth u = timeUnix l.
Proof.
  destruct cols as [[] [] [] [] [] [] [] [] []]; unfold scan_user; simpl; try done.
  unfold result_bind, mret, result_ret. intros [= <-]. simpl. by eauto 20.
Qed.

Lemma newUserFromScanner_Ok {S} (r : M S user_cols) s u s' :
  newUserFromScanner r s = (Ok u, s') -> exists cols, r s = (Ok cols, s') /\ scan_user cols = Ok u.
Proof.
  unfold newUserFromScanner. rewrite map_err_Ok, bind_Ok.
  intros (cols & s1 & Hr & Hl). unfold lift in Hl. simplify_eq. eauto.
Qed.

(** The shadow password that a lookup through [c] reports for a row. *)
Definition shadow_seen (c : Cache) (d : database) (p : passwd_row) (pw : string) : Prop :=
  if shadowNotAvailableMode <? shadowMode c
  then exists s, s ∈ t_shadow d /\ s_uid s = p_uid p /\ s_password s = pw
  else pw = "".

Lemma elem_of_select_users c where_ d cols : cols ∈ select_users c where_ d <->
  exists p pw, cols = user_cols_of (Some pw) p /\ p ∈ t_passwd d /\ where_ p = true /\ shadow_seen c d p pw.
Proof.
  unfold select_users, shadow_seen. rewrite elem_of_row_order.
  destruct (_ <? _); rewrite list_elem_of_fmap.
  - split.
    + intros ([p s] & -> & ((Hw & Hp)%list_elem_of_filter & Hs & Hu)%elem_of_join_shadow).
      exists p, (s_password s). split_and!; [done..|]. by exists s.
    + intros (p & pw & -> & Hp & Hw & s & Hs & Hu & <-). exists (p, s). split; [done|].
      apply elem_of_join_shadow. split_and!; [by apply list_elem_of_filter|done|done].
  - split.
    + intros (p & -> & [Hw Hp]%list_elem_of_filter). by exists p, "".
    + intros (p & pw & -> & Hp & Hw & ->). exists p. split; [done|]. by apply list_elem_of_filter.
Qed.

Lemma GetUserByName_Ok c n w u w' : GetUserByName c n w = (Ok u, w') ->
  exists p pw, p ∈ t_passwd (w_db w) /\ p_login p = n /\ shadow_seen c (w_db w) p pw
    /\ scan_user (user_cols_of (Some pw) p) = Ok u.
Proof.
  unfold GetUserByName, errorf. rewrite map_err_Ok.
  intros (cols & Hq%query_row_Ok & Hs)%newUserFromScanner_Ok.
  apply elem_of_select_users in Hq as (p & pw & -> & Hp & Hw%bool_decide_eq_true_1 & Hsh).
  by exists p, pw.
Qed.

Lemma select_users_one c d where_ p pw : db_wf d -> p ∈ t_passwd d ->
  (forall q, q ∈ t_passwd d -> where_ q = true <-> q = p) -> shadow_seen c d p pw ->
  select_users c where_ d = [user_cols_of (Some pw) p].
Proof.
  intros Hwf Hp Hw. unfold select_users, shadow_seen.
  assert (filter (fun q => where_ q = true) (t_passwd d) = [p]) as ->.
  { rewrite (filter_ext_in _ (fun q => p_uid q = p_uid p)).
    - apply (filter_unique p_uid); [done|apply Hwf|done].
    - intros q Hq. rewrite Hw by done. split; [by intros ->|].
      intros E. by eapply (NoDup_fmap_inj p_uid); [apply Hwf|..]. }
  destruct (_ <? _); [|intros ->; apply row_order_singleton].
  intros (s & Hs & Hu & <-). rewrite <- (row_order_singleton (user_cols_of _ _)). f_equal.
  unfold join_shadow. csimpl. rewrite app_nil_r.
  assert (forall l, NoDup (s_uid <$> l) -> s ∈ l ->
    (l ≫= fun s0 => if p_uid p =? s_uid s0 then [(p, s0)] else []) = [(p, s)]) as Hjoin.
  { induction l as [|s0 l IH]; [by intros _ ?%elem_of_nil|].
    csimpl. intros [Hn Hl]%NoDup_cons [->|Hin]%elem_of_cons.
    - rewrite (proj2 (Z.eqb_eq _ _)) by done. simpl. f_equal.
      clear IH Hl. induction l as [|s1 l IH]; [done|]. csimpl in *.
      apply not_elem_of_cons in Hn as [Hn1 Hn2].
      rewrite (proj2 (Z.eqb_neq _ _)) by congruence. simpl. by apply IH.
    - rewrite (proj2 (Z.eqb_neq _ _)); [simpl; by apply IH|].
      intros E. apply Hn. apply list_elem_of_fmap. exists s. split; [congruence|done]. }
  rewrite Hjoin; [done|apply Hwf|done].
Qed.

(** Without failures, a lookup by name finds the row of that name. *)
Lemma GetUserByName_calm c w p pw : calm w -> db_wf (w_db w) -> p ∈ t_passwd (w_db w) ->
  shadow_seen c (w_db w) p pw ->
  forall u, scan_user (user_cols_of (Some pw) p) = Ok u -> GetUserByName c (p_login p) w = (Ok u, w).
Proof.
  intros Hw Hwf Hp Hs u Hu. unfold GetUserByName, errorf, newUserFromScanner, map_err, mbind, M_bind.
  rewrite query_row_calm by done. erewrite select_users_one; [|done|done| |done].
  - unfold lift. by rewrite Hu.
  - intros q Hq. rewrite bool_decide_eq_true. split; [|by intros ->].
    intros E. by eapply (NoDup_fmap_inj p_login); [apply Hwf|..].
Qed.

Lemma GetUserByUID_calm c w p pw : calm w -> db_wf (w_db w) -> p ∈ t_passwd (w_db w) ->
  shadow_seen c (w_db w) p pw ->
  forall u, scan_user (user_cols_of (Some pw) p) = Ok u -> GetUserByUID c (p_uid p) w = (Ok u, w).
Proof.
  intros Hw Hwf Hp Hs u Hu. unfold GetUserByUID, errorf, newUserFromScanner, map_err, mbind, M_bind.
  rewrite query_row_calm by done. erewrite select_users_one; [|done|done| |done].
  - unfold lift. by rewrite Hu.
  - intros q Hq. rewrite Z.eqb_eq. split; [|by intros ->].
    intros E. by eapply (NoDup_fmap_inj p_uid); [apply Hwf|..].
Qed.

(** A name that is not in the table is ErrNoEnt. *)
Lemma GetUserByName_noent c w n : calm w -> n ∉ p_login <$> t_passwd (w_db w) ->
  exists e, GetUserByName c n w = (Err e, w) /\ errors_is e ErrNoEnt = true.
Proof.
  intros Hw Hn. unfold GetUserByName, errorf, newUserFromScanner, map_err, mbind, M_bind.
  rewrite query_row_calm by done.
  destruct (select_users _ _ _) as [|cols l] eqn:E; [by eauto|exfalso].
  assert (cols ∈ select_users c (fun p => bool_decide (p_login p = n)) (w_db w)) as Hin
    by (rewrite E; by constructor).
  apply elem_of_select_users in Hin as (p & pw & _ & Hp & <-%bool_decide_eq_true_1 & _).
  by apply Hn, list_elem_of_fmap_2.
Qed.

Lemma GetUserByName_ro c n : readonly (GetUserByName c n).
Proof. unfold GetUserByName, errorf, newUserFromScanner. auto 10 with ro. Qed.

Lemma np_lift_scan_user {S} cols : no_panic (@lift S _ (scan_user cols)).
Proof. intros s why. by destruct cols as [[] [] [] [] [] [] [] [] []]. Qed.

Lemma np_GetUserByName c n : no_panic (GetUserByName c n).
Proof.
  unfold GetUserByName, errorf, newUserFromScanner.
  auto 10 using np_lift_scan_user with aad.
Qed.

(** ** Refresh, purge and attributes: what a call leaves in the tables *)

Definition refreshed (now uid : Z) (pw : string) (d : database) : database :=
  update_shadow_password pw uid (update_last_online_auth (Unix now) uid d).

Lemma exec_ok_Ok stmt w w' : exec_ok stmt w = (Ok tt, w') ->
  w_db w' = stmt (w_db w) /\ w_now w' = w_now w /\ w_entropy w' = w_entropy w.
Proof. unfold exec_ok. intros (Hd & Hn & He)%exec_Ok. by simplify_eq. Qed.

Lemma updateOnlineAuthAndPassword_inv c uid n pw w r w' :
  updateOnlineAuthAndPassword c uid n pw w = (r, w') ->
  (r = Ok tt /\ shadowMode c = shadowRWMode /\ w_db w' = refreshed (w_now w) uid pw (w_db w))
  \/ (r <> Ok tt /\ w_db w' = w_db w).
Proof.
  unfold updateOnlineAuthAndPassword, on_error, map_err.
  destruct (Z.eqb_spec (shadowMode c) shadowRWMode) as [Hm|]; simpl; [|by intros [= <- <-]; right].
  destruct (transaction _ w) as [r0 w0] eqn:Et. intros E.
  apply transaction_inv in Et as [(-> & w1 & w2 & S1 & Hb & S2)|[Hr Hd]].
  - simplify_eq. left.
    apply bind_Ok in Hb as (w3 & w4 & Hg & ([] & w5 & (H1 & N1 & _)%exec_ok_Ok & (H2 & N2 & _)%exec_ok_Ok)%bind_Ok).
    unfold get in Hg. simplify_eq. destruct S1 as (E1 & E2 & _), S2 as (E3 & _).
    unfold refreshed. by rewrite E3, H2, H1, E1, E2.
  - right. destruct r0 as [[]| |]; by simplify_eq.
Qed.

Definition purge_time (now d : Z) : Z := Unix (now + i64 (- d)).

Definition purged (t : Z) (d : database) : database :=
  delete_empty_groups (delete_old_passwd t (delete_old_uid_gid t (delete_old_shadow t d))).

Lemma cleanUpDB_inv dur w r w' : cleanUpDB dur w = (r, w') ->
  (r = Ok tt /\ w_db w' = purged (purge_time (w_now w) dur) (w_db w))
  \/ (r <> Ok tt /\ w_db w' = w_db w).
Proof.
  unfold cleanUpDB. intros [(-> & w1 & w2 & S1 & Hb & S2)|?]%transaction_inv; [|by right].
  left. split; [done|].
  apply bind_Ok in Hb as (w3 & w4 & Hg & ([] & w5 & (H1 & _)%exec_ok_Ok & ([] & w6 & (H2 & _)%exec_ok_Ok
    & ([] & w7 & (H3 & _)%exec_ok_Ok & (H4 & _)%exec_ok_Ok)%bind_Ok)%bind_Ok)%bind_Ok).
  unfold get in Hg. simplify_eq. destruct S1 as (E1 & E2 & _), S2 as (E3 & _).
  unfold purged, purge_time. by rewrite E3, H4, H3, H2, H1, E1, E2.
Qed.

Lemma user_must_exist_Ok login w w' : user_must_exist login w = (Ok tt, w') ->
  login ∈ p_login <$> t_passwd (w_db w).
Proof.
  unfold user_must_exist. intros (b & w1 & [(b0 & Hq & ->)|(e & _ & ->)]%attempt_Ok & H1)%bind_Ok; [|done].
  unfold userExists, errorf in Hq. apply map_err_Ok, query_Ok in Hq. destruct b0; [|done].
  symmetry in Hq. by apply bool_decide_eq_true_1 in Hq.
Qed.

Lemma user_must_exist_ro login : readonly (user_must_exist login).
Proof.
  unfold user_must_exist, userExists, errorf. apply ro_bind; [auto with ro|].
  intros [[]|]; auto with ro.
Qed.

Lemma UpdateUserAttribute_inv login attr v w r w' :
  UpdateUserAttribute login attr v w = (r, w') ->
  (r = Ok tt /\ attr ∈ PasswdUpdateAttributes /\ login ∈ p_login <$> t_passwd (w_db w)
    /\ update_attr attr v login (w_db w) = Ok (tt, w_db w'))
  \/ (r <> Ok tt /\ w_db w' = w_db w).
Proof.
  unfold UpdateUserAttribute, on_error, map_err. case_bool_decide as Ha; [by intros [= <- <-]; right|].
  destruct ((user_must_exist login ;; _) w) as [r0 w0] eqn:E. intros Hr.
  unfold mbind, M_bind in E. pose proof (user_must_exist_ro login w) as Hro.
  destruct (user_must_exist login w) as [[[]|e|p] w1] eqn:Eu; simpl in Hro;
    [|by right; simplify_eq; destruct Hro..].
  apply user_must_exist_Ok in Eu. destruct Hro as (Ed & _).
  apply transaction_inv in E as [(-> & w2 & w3 & S1 & (Hb & _)%exec_Ok & S2)|[Hn Hd]].
  - left. simplify_eq. destruct S1 as (E1 & _), S2 as (E2 & _). by rewrite E2, <- Hb, E1, Ed.
  - right. destruct r0 as [[]| |]; simplify_eq; split; congruence.
Qed.

Lemma np_update_attr attr v login d why : update_attr attr v login d <> Panic why.
Proof. unfold update_attr. by destruct (mapM _ _). Qed.

Lemma np_cleanUpDB dur : no_panic (cleanUpDB dur).
Proof. unfold cleanUpDB. auto 10 with aad. Qed.

Lemma np_updateOnlineAuthAndPassword c uid n pw : no_panic (updateOnlineAuthAndPassword c uid n pw).
Proof.
  unfold updateOnlineAuthAndPassword, on_error. apply no_panic_map_err.
  destruct (negb _); auto 10 with aad.
Qed.

Lemma refreshed_wf now uid pw d : db_wf d -> db_wf (refreshed now uid pw d).
Proof. unfold refreshed. auto with aad. Qed.

Lemma purged_wf t d : db_wf d -> db_wf (purged t d).
Proof. unfold purged. auto 10 with aad. Qed.

(** ** Coherence of the four tables

    What the operations of the program keep true of the tables beyond the
    schema: every user has its shadow row, its own group, of the same
    number, and the row that links the two; and nothing else is there. *)
Record coherent (d : database) : Prop := {
  co_gid p : p ∈ t_passwd d -> p_gid p = p_uid p;
  co_shadow i : i ∈ s_uid <$> t_shadow d <-> i ∈ p_uid <$> t_passwd d;
  co_group n i : (exists g, g ∈ t_groups d /\ g_name g = n /\ g_gid g = i)
    <-> (exists p, p ∈ t_passwd d /\ p_login p = n /\ p_gid p = i);
  co_link u : u ∈ t_uid_gid d <-> exists p, p ∈ t_passwd d /\ u = UidGidRow (p_uid p) (p_gid p);
}.

Lemma coherent_empty : coherent empty_db.
Proof.
  split; simpl.
  - by intros p ?%elem_of_nil.
  - done.
  - intros n i. split; intros (? & ?%elem_of_nil & _); done.
  - intros u. split; [by intros ?%elem_of_nil|]. by intros (? & ?%elem_of_nil & _).
Qed.

Lemma coherent_inserted u d : GID u = UID u -> coherent d -> coherent (user_inserted u d).
Proof.
  intros Hg [C1 C2 C3 C4]. split; simpl.
  - intros p [Hp| ->%list_elem_of_singleton]%elem_of_app; [by apply C1|done].
  - intros i. rewrite !fmap_app, !elem_of_app, C2. done.
  - intros n i. setoid_rewrite elem_of_app. setoid_rewrite list_elem_of_singleton.
    split.
    + intros (g & [Hin| ->] & <- & <-).
      * destruct (proj1 (C3 (g_name g) (g_gid g))) as (p & Hp & ? & ?); [by eauto|]. exists p. auto.
      * eexists. split; [by right|done].
    + intros (p & [Hin| ->] & <- & <-).
      * destruct (proj2 (C3 (p_login p) (p_gid p))) as (g & Hp & ? & ?); [by eauto|]. exists g. auto.
      * eexists. split; [by right|done].
  - intros ug. setoid_rewrite elem_of_app. setoid_rewrite list_elem_of_singleton. rewrite C4. split.
    + intros [(p & Hp & ->)| ->]; [by exists p; auto|]. eexists. split; [by right|done].
    + intros (p & [Hp| ->] & ->); [by left; exists p|by right].
Qed.

(** Only projections that [f] keeps matter to coherence. *)
Lemma coherent_same_keys d d' :
  (fun p => (p_login p, p_uid p, p_gid p)) <$> t_passwd d' = (fun p => (p_login p, p_uid p, p_gid p)) <$> t_passwd d ->
  t_groups d' = t_groups d -> t_uid_gid d' = t_uid_gid d -> s_uid <$> t_shadow d' = s_uid <$> t_shadow d ->
  coherent d -> coherent d'.
Proof.
  intros Ep Eg Eu Es [C1 C2 C3 C4].
  set (keys := fun p => (p_login p, p_uid p, p_gid p)) in *.
  assert (Hin : forall k, (exists p, p ∈ t_passwd d' /\ keys p = k) <-> (exists p, p ∈ t_passwd d /\ keys p = k)).
  { intros k. assert (k ∈ keys <$> t_passwd d' <-> k ∈ keys <$> t_passwd d) as Hk by by rewrite Ep.
    rewrite !list_elem_of_fmap in Hk. split; intros (p & Hp & <-);
      [destruct (proj1 Hk) as (q & -> & ?)|destruct (proj2 Hk) as (q & -> & ?)]; eauto. }
  assert (Hfwd : forall p, p ∈ t_passwd d' -> exists q, q ∈ t_passwd d /\ keys q = keys p).
  { intros p Hp. apply Hin. eauto. }
  assert (Hbwd : forall p, p ∈ t_passwd d -> exists q, q ∈ t_passwd d' /\ keys q = keys p).
  { intros p Hp. apply Hin. eauto. }
  clear Hin. unfold keys in *. split.
  - intros p (q & Hq & [= _ E1 E2])%Hfwd. rewrite <- E1, <- E2. by apply C1.
  - intros i. rewrite Es, C2, !list_elem_of_fmap. split.
    + intros (p & -> & (q & Hq & [= _ E _])%Hbwd). eauto.
    + intros (p & -> & (q & Hq & [= _ E _])%Hfwd). eauto.
  - intros n i. rewrite Eg, C3. split.
    + intros (p & (q & Hq & [= E1 _ E2])%Hbwd & <- & <-). eauto.
    + intros (p & (q & Hq & [= E1 _ E2])%Hfwd & <- & <-). eauto.
  - intros u. rewrite Eu, C4. split.
    + intros (p & (q & Hq & [= _ E1 E2])%Hbwd & ->). rewrite <- E1, <- E2. eauto.
    + intros (p & (q & Hq & [= _ E1 E2])%Hfwd & ->). rewrite <- E1, <- E2. eauto.
Qed.

Lemma coherent_refreshed now uid pw d : coherent d -> coherent (refreshed now uid pw d).
Proof.
  apply coherent_same_keys; simpl; try done; by rewrite fmap_cond_preserve.
Qed.

Lemma update_attr_keys attr v login d d' : update_attr attr v login d = Ok (tt, d') ->
  (fun p => (p_login p, p_uid p, p_gid p)) <$> t_passwd d' = (fun p => (p_login p, p_uid p, p_gid p)) <$> t_passwd d.
Proof.
  intros (_ & _ & _ & Hf)%update_attr_inv. induction Hf as [|r r' l l' Hr _ IH]; [done|]. csimpl.
  f_equal; [|done]. case_bool_decide; simplify_eq; [|done]. by apply set_attr_key in Hr as (-> & -> & -> & _).
Qed.

Lemma coherent_update_attr attr v login d d' :
  update_attr attr v login d = Ok (tt, d') -> coherent d -> coherent d'.
Proof.
  intros Hu. pose proof (update_attr_inv _ _ _ _ _ Hu) as (E1 & E2 & E3 & _).
  apply coherent_same_keys; [by eapply update_attr_keys|done..|by rewrite E3].
Qed.

Lemma not_old_uid t d p : db_wf d -> p ∈ t_passwd d -> p_uid p ∉ old_uids t d <-> ~ older t p.
Proof.
  intros Hwf Hp. unfold old_uids. split.
  - intros Hn Ho. apply Hn, list_elem_of_fmap_2. by apply list_elem_of_filter.
  - intros Ho (q & E & [Hq Hin]%list_elem_of_filter)%list_elem_of_fmap. apply Ho.
    assert (p = q) as ->; [|done]. by eapply (NoDup_fmap_inj p_uid); [apply Hwf|..].
Qed.

Lemma elem_of_purged_passwd t d p : p ∈ t_passwd (purged t d) <-> p ∈ t_passwd d /\ ~ older t p.
Proof. simpl. rewrite list_elem_of_filter. tauto. Qed.

Lemma elem_of_purged_shadow t d s : s ∈ t_shadow (purged t d) <-> s ∈ t_shadow d /\ s_uid s ∉ old_uids t d.
Proof. simpl. rewrite list_elem_of_filter. tauto. Qed.

Lemma elem_of_purged_link t d u : u ∈ t_uid_gid (purged t d) <-> u ∈ t_uid_gid d /\ ug_uid u ∉ old_uids t d.
Proof. simpl. rewrite list_elem_of_filter. tauto. Qed.

Lemma elem_of_purged_group t d g : g ∈ t_groups (purged t d) <->
  g ∈ t_groups d /\ exists u, u ∈ t_uid_gid (purged t d) /\ ug_gid u = g_gid g.
Proof.
  unfold purged at 1. simpl. rewrite list_elem_of_filter, list_elem_of_fmap.
  split; [intros [(u & ? & ?) ?]|intros [? (u & ? & ?)]]; split; eauto.
Qed.

(** The group of a purged user goes, the group of a kept user stays. *)
Lemma purged_group_of t d p g : db_wf d -> coherent d -> p ∈ t_passwd d -> g ∈ t_groups d ->
  g_gid g = p_gid p -> g ∈ t_groups (purged t d) <-> ~ older t p.
Proof.
  intros Hwf [C1 C2 C3 C4] Hp Hg Egid. rewrite elem_of_purged_group.
  setoid_rewrite elem_of_purged_link. split.
  - intros [_ (u & [(q & Hq & ->)%C4 Hn] & E)]. simpl in *.
    assert (q = p) as ->; [|by apply not_old_uid in Hn].
    apply (NoDup_fmap_inj p_uid (t_passwd d)); [apply Hwf|done..|].
    rewrite <- !C1 by done. congruence.
  - intros Ho. split; [done|]. exists (UidGidRow (p_uid p) (p_gid p)). split; [split|done].
    + apply C4. by exists p.
    + simpl. by apply not_old_uid.
Qed.

Lemma coherent_purged t d : db_wf d -> coherent d -> coherent (purged t d).
Proof.
  intros Hwf Hco. pose proof Hco as [C1 C2 C3 C4]. split.
  - intros p [Hp _]%elem_of_purged_passwd. by apply C1.
  - intros i. rewrite !list_elem_of_fmap. split.
    + intros (s & -> & [Hs Hn]%elem_of_purged_shadow).
      assert (s_uid s ∈ p_uid <$> t_passwd d) as (p & Ep & Hp)%list_elem_of_fmap
        by by apply C2, list_elem_of_fmap_2.
      exists p. split; [done|]. apply elem_of_purged_passwd. split; [done|].
      rewrite Ep in Hn. by apply not_old_uid in Hn.
    + intros (p & -> & [Hp Ho]%elem_of_purged_passwd).
      assert (p_uid p ∈ s_uid <$> t_shadow d) as (s & Es & Hs)%list_elem_of_fmap
        by by apply C2, list_elem_of_fmap_2.
      exists s. split; [done|]. apply elem_of_purged_shadow. split; [done|].
      rewrite <- Es. by apply not_old_uid.
  - intros n i. split.
    + intros (g & Hg & <- & <-). pose proof Hg as [Hg0 _]%elem_of_purged_group.
      destruct (proj1 (C3 (g_name g) (g_gid g))) as (p & Hp & En & Eg); [by eauto|].
      exists p. split_and!; [|done..]. apply elem_of_purged_passwd. split; [done|].
      by apply (purged_group_of t d p g).
    + intros (p & [Hp Ho]%elem_of_purged_passwd & <- & <-).
      destruct (proj2 (C3 (p_login p) (p_gid p))) as (g & Hg & En & Eg); [by eauto|].
      exists g. split_and!; [|done..]. by apply (purged_group_of t d p g).
  - intros u. rewrite elem_of_purged_link, C4. split.
    + intros [(p & Hp & ->) Hn]. exists p. split; [|done]. apply elem_of_purged_passwd.
      split; [done|]. by apply not_old_uid in Hn.
    + intros (p & [Hp Ho]%elem_of_purged_passwd & ->). split; [by exists p|]. by apply not_old_uid.
Qed.

(** The only ErrNoEnt of a row request is that of an empty answer. *)
Lemma scan_user_Err cols e : scan_user cols = Err e -> exists msg, e = Opaque msg.
Proof.
  destruct cols as [[] [] [] [] [] [] [] [] []]; unfold scan_user, scan_text, scan_int; simpl;
    unfold result_bind; intros [=]; eauto.
Qed.

Lemma newUserFromScanner_noent q w e w' : newUserFromScanner (query_row q) w = (Err e, w') ->
  errors_is e ErrNoEnt = true -> q (w_db w) = [].
Proof.
  unfold newUserFromScanner. intros (e0 & Hb & ->)%map_err_Err He.
  unfold mbind, M_bind in Hb. destruct (query_row q w) as [[cols|e1|] w1] eqn:Eq.
  - unfold lift in Hb. simplify_eq. destruct (scan_user cols) eqn:Es; simplify_eq.
    apply scan_user_Err in Es as [msg ->]. done.
  - simplify_eq. by apply query_row_Err in Eq as [[? _]|[msg ->]].
  - done.
Qed.
End Facts.
