(* ===== verification/HomeDir.v ===== *)
(** * internal/cache/cache.go: home directory patterns

    parseHomeDir and parseHomeDirPattern, and the language of patterns that
    the README documents as their specification. *)

From S2P Require Import Prelude GoStrings Interfaces.
Open Scope string_scope.
Open Scope list_scope.
Open Scope Z_scope.

Definition percent : Z := 37.

(** [username[0]] is a byte, and [string(username[0])] the encoding of the
    code point of that number. *)
Definition first_char (username : string) : result string :=
  match username with
  | EmptyString => Panic "index out of range [0] with length 0"
  | String a _ => Ok (encode_rune (byteZ a))
  end.

Definition parseHomeDirPattern (pattern username uid : string) : result string :=
  if bool_decide (pattern = "f") then Ok username
  else if bool_decide (pattern = "U") then Ok uid
  else if bool_decide (pattern = "l") then first_char username
  else if bool_decide (pattern = "u" \/ pattern = "d") then
    let '(user, domain, _) := Cut "@" username in
    if bool_decide (pattern = "u") then Ok user else Ok domain
  else Err (Opaque "%%%s is not a valid pattern").

(** The loop over the runes of the pattern. *)
Fixpoint parse_loop (rs : list Z) (afterModifier : bool) (home username uid : string) : result string :=
  match rs with
  | [] => Ok home
  | c :: rs =>
      if (c =? percent) && negb afterModifier then parse_loop rs true home username uid
      else
        let afterModifier := if (c =? percent) && afterModifier then false else afterModifier in
        if afterModifier then
          s ← parseHomeDirPattern (encode_rune c) username uid;
          parse_loop rs false (home +:+ s) username uid
        else parse_loop rs false (home +:+ encode_rune c) username uid
  end.

Definition parseHomeDir `{Decorator} (homeDirPattern username uid : string) : result string :=
  match parse_loop (runes homeDirPattern) false "" username uid with
  | Err e => Err (OnError "couldn't parse home directory" e)
  | r => r
  end.

(** ** The pattern language *)

Inductive modifier := FullName | Uid | FirstChar | UserPart | Domain.

Inductive token := Lit (r : Z) | Mod (m : modifier).

Definition letter (m : modifier) : Z :=
  match m with FullName => 102 | Uid => 85 | FirstChar => 108 | UserPart => 117 | Domain => 100 end.

(** How a token is written: a percent sign is doubled. *)
Definition write (t : token) : list Z :=
  match t with
  | Lit r => if r =? percent then [percent; percent] else [r]
  | Mod m => [percent; letter m]
  end.

(** What a token stands for. *)
Definition meaning (username uid : string) (m : modifier) : string :=
  match m with
  | FullName => username
  | Uid => uid
  | FirstChar => match username with EmptyString => "" | String a _ => encode_rune (byteZ a) end
  | UserPart => (Cut "@" username).1.1
  | Domain => (Cut "@" username).1.2
  end.

Definition render (username uid : string) (t : token) : string :=
  match t with Lit r => encode_rune r | Mod m => meaning username uid m end.

Definition render_all (username uid : string) (ts : list token) : string :=
  concat_str (render username uid <$> ts).

(** A pattern means a list of tokens when it is their writing, possibly with
    a lone percent sign at the end, which is dropped. *)
Definition denotes (rs : list Z) (ts : list token) : Prop :=
  exists tail, rs = concat (write <$> ts) ++ tail /\ (tail = [] \/ tail = [percent]).

Lemma pattern_letter m username uid : username <> "" ->
  parseHomeDirPattern (encode_rune (letter m)) username uid = Ok (meaning username uid m).
Proof.
  intros Hu. destruct m; [reflexivity..| | |].
  - by destruct username.
  - trans (let '(user, _, _) := Cut "@" username in Ok user); [reflexivity|].
    unfold meaning. by destruct (Cut _ _) as [[]].
  - trans (let '(_, domain, _) := Cut "@" username in Ok domain); [reflexivity|].
    unfold meaning. by destruct (Cut _ _) as [[]].
Qed.

(** One-byte encodings are those of ASCII. *)
Lemma encode_rune_ascii r a : encode_rune r = str1 a -> r = byteZ a.
Proof.
  unfold encode_rune. destruct (valid_rune r) eqn:Hv; [|done].
  apply valid_rune_range in Hv. destruct (Z.ltb_spec r 0x80).
  - intros [= <-]. rewrite byteZ_chr; lia.
  - destruct (_ <? 0x800); [done|]. by destruct (_ <? 0x10000).
Qed.

Lemma pattern_letter_inv c username uid s :
  parseHomeDirPattern (encode_rune c) username uid = Ok s -> exists m, c = letter m.
Proof.
  unfold parseHomeDirPattern. intros Hs.
  case_bool_decide as H1; [exists FullName; by rewrite (encode_rune_ascii c "f" H1)|].
  case_bool_decide as H2; [exists Uid; by rewrite (encode_rune_ascii c "U" H2)|].
  case_bool_decide as H3; [exists FirstChar; by rewrite (encode_rune_ascii c "l" H3)|].
  case_bool_decide as H4; [|done]. destruct H4 as [H4|H4].
  - exists UserPart. by rewrite (encode_rune_ascii c "u" H4).
  - exists Domain. by rewrite (encode_rune_ascii c "d" H4).
Qed.

Lemma letter_not_percent m : letter m <> percent.
Proof. by destruct m. Qed.

(** Reading a token in the initial state of the loop. *)
Lemma parse_loop_token t rs home username uid : username <> "" ->
  parse_loop (write t ++ rs) false home username uid =
  parse_loop rs false (home +:+ render username uid t) username uid.
Proof.
  intros Hu. destruct t as [r|m]; simpl.
  - destruct (Z.eqb_spec r percent) as [->|Hr]; [done|]. simpl. by rewrite (proj2 (Z.eqb_neq _ _) Hr).
  - rewrite (proj2 (Z.eqb_neq _ _) (letter_not_percent m)). simpl.
    by rewrite pattern_letter.
Qed.

Lemma parse_loop_tokens ts rs home username uid : username <> "" ->
  parse_loop (concat (write <$> ts) ++ rs) false home username uid =
  parse_loop rs false (home +:+ render_all username uid ts) username uid.
Proof.
  intros Hu. revert home. induction ts as [|t ts IH]; intros home; unfold render_all; csimpl.
  - by rewrite append_nil_r.
  - rewrite <- (assoc_L (++)), parse_loop_token, IH by done. unfold render_all. by rewrite append_assoc.
Qed.

(** A successful run reads a token at a time. *)
Lemma parse_loop_step c rs home username uid h :
  parse_loop (c :: rs) false home username uid = Ok h ->
  (rs = [] /\ c = percent) \/ exists t rs', c :: rs = write t ++ rs'.
Proof.
  simpl. rewrite andb_true_r. destruct (Z.eqb_spec c percent) as [->|Hc].
  - destruct rs as [|c' rs]; [by left|]. simpl. rewrite andb_false_r.
    destruct (Z.eqb_spec c' percent) as [->|Hc']; simpl; [by intros _; right; exists (Lit percent), rs|].
    unfold mbind, result_bind. destruct (parseHomeDirPattern _ _ _) as [s| |] eqn:E; [|done..].
    intros _. apply pattern_letter_inv in E as [m ->]. right. by exists (Mod m), rs.
  - simpl. intros _. right. exists (Lit c), rs. simpl. by rewrite (proj2 (Z.eqb_neq _ _) Hc).
Qed.

Lemma denotes_cons t rs ts : denotes rs ts -> denotes (write t ++ rs) (t :: ts).
Proof. intros (tail & -> & Ht). exists tail. csimpl. by rewrite (assoc_L (++)). Qed.

Lemma length_write t : (0 < length (write t))%nat.
Proof. destruct t as [r|m]; simpl; [destruct (r =? percent); simpl|]; lia. Qed.

Lemma parse_loop_denotes n rs home username uid h : username <> "" -> (length rs <= n)%nat ->
  parse_loop rs false home username uid = Ok h -> exists ts, denotes rs ts.
Proof.
  intros Hu. revert rs home. induction n as [|n IH]; intros rs home Hn H.
  - destruct rs; [|simpl in Hn; lia]. exists [], []. auto.
  - destruct rs as [|c rs]; [exists [], []; auto|].
    destruct (parse_loop_step _ _ _ _ _ _ H) as [[-> ->]|(t & rs' & E)]; [exists [], [percent]; auto|].
    rewrite E in *. rewrite parse_loop_token in H by done.
    apply IH in H as (ts & Hts); [by eauto using denotes_cons|].
    rewrite length_app in Hn. pose proof (length_write t). lia.
Qed.

Lemma parse_loop_Ok rs username uid h : username <> "" ->
  parse_loop rs false "" username uid = Ok h <->
  exists ts, denotes rs ts /\ h = render_all username uid ts.
Proof.
  intros Hu.
  assert (forall ts, denotes rs ts -> parse_loop rs false "" username uid = Ok (render_all username uid ts)) as Hf.
  { intros ts (tail & -> & Ht). rewrite parse_loop_tokens, append_nil_l by done. by destruct Ht as [-> | ->]. }
  split.
  - intros H. destruct (parse_loop_denotes (length rs) rs "" username uid h Hu (le_n _) H) as [ts Hts].
    exists ts. split; [done|]. rewrite (Hf ts Hts) in H. by simplify_eq.
  - intros (ts & Hts & ->). by apply Hf.
Qed.

(** The loop panics only on an empty user name. *)
Lemma parse_loop_no_panic rs a home username uid why : username <> "" ->
  parse_loop rs a home username uid <> Panic why.
Proof.
  intros Hu. revert a home. induction rs as [|c rs IH]; intros a home; simpl; [done|].
  destruct (_ && _); [apply IH|]. destruct (if _ && _ then _ else _); [|apply IH].
  unfold mbind, result_bind. destruct (parseHomeDirPattern _ _ _) as [s|e|p] eqn:E; [apply IH|done|].
  exfalso. revert E. unfold parseHomeDirPattern. repeat case_bool_decide; try done.
  - by destruct username.
  - by destruct (Cut _ _) as [[]].
  - by destruct (Cut _ _) as [[]].
Qed.

Section Properties.
Context `{Decorator}.

(** C30: a pattern is accepted exactly when it is written in the documented
    language (%f, %U, %l, %u, %d, %% and plain characters, with a lone final
    percent sign ignored), the result is then the concatenation of what its
    tokens stand for, and any other pattern is an error. *)
Theorem parseHomeDir_spec pattern username uid : username <> "" ->
  (forall h, parseHomeDir pattern username uid = Ok h <->
     exists ts, denotes (runes pattern) ts /\ h = render_all username uid ts)
  /\ ((exists e, parseHomeDir pattern username uid = Err e) <->
      ~ exists ts, denotes (runes pattern) ts).
Proof.
  intros Hu. pose proof (fun h => parse_loop_Ok (runes pattern) username uid h Hu) as Hok.
  pose proof (fun why => parse_loop_no_panic (runes pattern) false "" username uid why Hu) as Hnp.
  unfold parseHomeDir. destruct (parse_loop _ _ _ _ _) as [h0|e|p]; [| |by destruct (Hnp p)].
  - split; [exact Hok|]. split; [by intros [e [=]]|]. intros Hn. exfalso. apply Hn.
    destruct (proj1 (Hok h0) eq_refl) as (ts & Hts & _). eauto.
  - split.
    + intros h. split; [done|]. intros (ts & Hts & ->).
      assert (Err e = Ok (render_all username uid ts)) by (apply Hok; eauto). done.
    + split; [|by eauto]. intros _ (ts & Hts).
      assert (Err e = Ok (render_all username uid ts)) by (apply Hok; eauto). done.
Qed.

(** A pattern that a token list writes is read back as its rendering. *)
Lemma parseHomeDir_tokens ts username uid : username <> "" ->
  Forall (fun r => valid_rune r = true) (concat (write <$> ts)) ->
  parseHomeDir (encode (concat (write <$> ts))) username uid = Ok (render_all username uid ts).
Proof.
  intros Hu Hv. apply parseHomeDir_spec; [done|]. exists ts. split; [|done].
  rewrite runes_encode by done. exists []. rewrite app_nil_r. auto.
Qed.
End Properties.

Import Concrete.

Lemma parseHomeDir_spec_witness :
  "user1@test.com" <> "" /\
  (parseHomeDir "/home/%d/%l/%u%U" "user1@test.com" "42" = Ok "/home/test.com/u/user142" <->
   exists ts, denotes (runes "/home/%d/%l/%u%U") ts
     /\ "/home/test.com/u/user142" = render_all "user1@test.com" "42" ts).
Proof. split; [done|]. by apply (parseHomeDir_spec "/home/%d/%l/%u%U" "user1@test.com" "42"). Defined.

(** The cases of the package's own test, and an empty user name. *)
Example parse_f : parseHomeDir "/home/%f" "user1@test.com" "42" = Ok "/home/user1@test.com".
Proof. reflexivity. Qed.
Example parse_percent : parseHomeDir "/home/user%%test.com" "user1@test.com" "42" = Ok "/home/user%test.com".
Proof. reflexivity. Qed.
Example parse_bad : is_ok (parseHomeDir "/home/%a" "user1@test.com" "42") = false.
Proof. reflexivity. Qed.
Example parse_trailing : parseHomeDir "/home/50%" "user1@test.com" "42" = Ok "/home/50".
Proof. reflexivity. Qed.
Example parse_empty_user : exists why, parseHomeDir "/home/%l" "" "42" = Panic why.
Proof. by eexists. Qed.

(** [%l] of a name whose first character is not ASCII is not that character:
    for U+00E9 (bytes C3 A9) it is U+00C3. *)
Example percent_l_latin1 :
  parseHomeDir "%l" (encode [0xE9; 0x72]) "42" = Ok (encode [0xC3]).
Proof. reflexivity. Qed.
