(* ===== verification/UidGen.v ===== *)
(** * internal/cache/cache.go: choosing the uid of a new user

    generateUIDForUser hashes the name on 32 bits and then looks for the first
    number that is neither a uid of passwd nor a gid of groups. *)

From S2P Require Import Prelude GoStrings Interfaces Tables CacheDB CacheFacts.
Open Scope string_scope.
Open Scope list_scope.
Open Scope Z_scope.

Definition MaxUint32 : Z := 2 ^ 32 - 1.
Definition offset : Z := 100000.

(** [uid = (uid * uint32(c)) % math.MaxUint32], in uint32. *)
Definition hash_rune (uid c : Z) : Z := u32 (uid * u32 c) mod MaxUint32.

Definition base_uid (username : string) : Z :=
  u32 (fold_left hash_rune (runes username) 1 mod (MaxUint32 - offset) + offset).

Section UidGen.
Context `{Decorator} `{RowOrder}.

(** The collision loop; running out of fuel is reported as a panic. *)
Fixpoint find_uid (fuel : nat) (uid : Z) (username : string) : M world Z :=
  match fuel with
  | O => lift (Panic "out of fuel")
  | S fuel =>
      exists_ ← uidOrGidExists uid username;
      if exists_ : bool then find_uid fuel (u32 (uid + 1)) username else mret uid
  end.

(** One more turn than there are numbers taken. *)
Definition uid_fuel (d : database) : nat := S (length (t_passwd d) + length (t_groups d)).

Definition generateUIDForUser (username : string) : M world Z :=
  on_error "failed to generate uid for user %q"
    (w ← get; find_uid (uid_fuel (w_db w)) (base_uid username) username).
End UidGen.

(** ** The hash *)

Lemma hash_rune_range uid c : 0 <= hash_rune uid c < MaxUint32.
Proof. apply Z.mod_pos_bound. unfold MaxUint32. lia. Qed.

(** The first candidate is at least 100000 and below the last two values
    of a uid_t, for every user name. *)
Theorem base_uid_range username : offset <= base_uid username <= MaxUint32 - 1.
Proof.
  unfold base_uid. set (h := fold_left _ _ _).
  pose proof (Z.mod_pos_bound h (MaxUint32 - offset)) as Hb.
  unfold MaxUint32, offset in *. rewrite u32_small; lia.
Qed.

(** The product of the runes of a name. *)
Definition rune_product (rs : list Z) : Z := fold_left Z.mul rs 1.

Lemma fold_left_mul rs a : fold_left Z.mul rs a = a * rune_product rs.
Proof.
  unfold rune_product. revert a. induction rs as [|r rs IH]; intros a; cbn [fold_left]; [lia|].
  rewrite (IH (a * r)), (IH (1 * r)). lia.
Qed.

Lemma rune_product_cons r rs : rune_product (r :: rs) = r * rune_product rs.
Proof. unfold rune_product at 1. cbn [fold_left]. rewrite Z.mul_1_l. apply fold_left_mul. Qed.

Lemma hash_zero rs : fold_left hash_rune rs 0 = 0.
Proof. by induction rs. Qed.

(** Reduction modulo 2^32-1 only replaces 2^32-1 by 0. *)
Lemma hash_rune_cases uid c : hash_rune uid c = u32 (uid * c) \/ hash_rune uid c = 0.
Proof.
  unfold hash_rune. assert (u32 (uid * u32 c) = u32 (uid * c)) as ->.
  { unfold u32. by rewrite Z.mul_mod_idemp_r by lia. }
  pose proof (u32_range (uid * c)) as Hr. unfold MaxUint32.
  destruct (decide (u32 (uid * c) = 2 ^ 32 - 1)) as [E|].
  - right. by rewrite E, Z.mod_same by lia.
  - left. apply Z.mod_small. lia.
Qed.

Lemma hash_divisible rs a : (2 ^ 32 | a * rune_product rs) -> 0 <= a < 2 ^ 32 -> fold_left hash_rune rs a = 0.
Proof.
  revert a. induction rs as [|r rs IH]; intros a Hd Ha; cbn [fold_left].
  - change (rune_product []) with 1 in Hd. rewrite Z.mul_1_r in Hd. destruct Hd as [k Hk]. lia.
  - destruct (hash_rune_cases a r) as [E|E]; rewrite E; [|apply hash_zero].
    apply IH; [|apply u32_range].
    apply Z.mod_divide; [lia|]. unfold u32. rewrite Z.mul_mod_idemp_l by lia.
    rewrite rune_product_cons, Z.mul_assoc in Hd. by apply Z.mod_divide in Hd; [|lia].
Qed.

(** The hash is a product on 32 bits, so every name whose runes have
    thirty-two factors of two between them starts at the same number, 100000:
    the uid of such a user depends on who logged in before, not on the name. *)
Theorem base_uid_collapse username : (2 ^ 32 | rune_product (runes username)) -> base_uid username = offset.
Proof.
  intros Hd. unfold base_uid. rewrite hash_divisible; [done| |lia]. by rewrite Z.mul_1_l.
Qed.

Lemma base_uid_collapse_witness :
  base_uid "philip.philipson@philips.com" = offset /\ base_uid "phillip.lippold@dolphin.example.com" = offset.
Proof.
  split; apply base_uid_collapse, (proj1 (Z.mod_divide _ (2 ^ 32) ltac:(lia))); vm_compute; reflexivity.
Defined.

(** ** The collision loop *)

Section Search.
Context `{Decorator} `{RowOrder}.

Definition taken (d : database) (id : Z) : Prop :=
  id ∈ p_uid <$> t_passwd d \/ id ∈ g_gid <$> t_groups d.

Lemma elem_of_union_rows id d : (exists cols, cols ∈ union_rows id d) <-> taken d id.
Proof.
  unfold union_rows, taken. rewrite !list_elem_of_fmap. setoid_rewrite list_elem_of_fmap.
  setoid_rewrite elem_of_row_order. setoid_rewrite elem_of_remove_dups.
  setoid_rewrite elem_of_app. setoid_rewrite list_elem_of_fmap. setoid_rewrite list_elem_of_filter.
  split.
  - intros (cols & n & -> & [(p & -> & <- & ?)|(g & -> & <- & ?)]); eauto.
  - intros [(p & -> & ?)|(g & -> & ?)]; do 2 eexists; (split; [done|]); eauto.
Qed.

Lemma uidOrGidExists_ro id n : readonly (uidOrGidExists id n).
Proof.
  unfold uidOrGidExists. apply ro_bind; [unfold newUserFromScanner; auto 10 with ro|].
  intros [u|e]; [case_bool_decide|destruct (errors_is _ _)]; auto with ro.
Qed.

Lemma uidOrGidExists_Ok id n w b w' : uidOrGidExists id n w = (Ok b, w') -> b = true <-> taken (w_db w) id.
Proof.
  unfold uidOrGidExists. rewrite <- elem_of_union_rows.
  intros (r & w1 & [(u & Hq & ->)|(e & Hq & ->)]%attempt_Ok & Hr)%bind_Ok.
  - apply newUserFromScanner_Ok in Hq as (cols & Hq%query_row_Ok & _).
    case_bool_decide; [done|]. unfold mret, M_ret in Hr. simplify_eq. split; eauto.
  - destruct (errors_is e ErrNoEnt) eqn:He; [|done]. unfold mret, M_ret in Hr. simplify_eq.
    apply newUserFromScanner_noent in Hq; [|done]. rewrite Hq. split; [done|].
    by intros (cols & ?%elem_of_nil).
Qed.

Lemma np_uidOrGidExists id n : no_panic (uidOrGidExists id n).
Proof.
  unfold uidOrGidExists. apply no_panic_bind.
  - unfold newUserFromScanner. auto 10 using np_lift_scan_user with aad.
  - intros [u|e]; [case_bool_decide|destruct (errors_is _ _)]; auto with aad.
Qed.

Lemma u32_add_l a b : u32 (u32 a + b) = u32 (a + b).
Proof. unfold u32. apply Z.add_mod_idemp_l. lia. Qed.

(** A run of the loop: what it returned, or all it saw when out of fuel. *)
Lemma find_uid_spec fuel uid n w r w' : find_uid fuel uid n w = (r, w') -> 0 <= uid < 2 ^ 32 ->
  match r with
  | Ok id => exists k, (k < fuel)%nat /\ id = u32 (uid + Z.of_nat k) /\ ~ taken (w_db w) id
               /\ forall j, (j < k)%nat -> taken (w_db w) (u32 (uid + Z.of_nat j))
  | Err _ => True
  | Panic _ => forall j, (j < fuel)%nat -> taken (w_db w) (u32 (uid + Z.of_nat j))
  end.
Proof.
  revert uid w. induction fuel as [|fuel IH]; intros uid w; cbn [find_uid].
  { intros [= <- <-] _ j ?. lia. }
  intros Hrun Hu. assert (u32 (uid + Z.of_nat 0) = uid) as Hu0 by (rewrite Z.add_0_r; by apply u32_small).
  unfold mbind, M_bind in Hrun. pose proof (uidOrGidExists_ro uid n w) as (Ed & _).
  pose proof (np_uidOrGidExists uid n w) as Hnp.
  destruct (uidOrGidExists uid n w) as [[b|e|p] w1] eqn:Ee; simpl in *;
    [|by simplify_eq|by destruct (Hnp p)].
  apply uidOrGidExists_Ok in Ee. destruct b; [|].
  - assert (taken (w_db w) uid) as Ht by by apply Ee.
    apply IH in Hrun; [|apply u32_range]. rewrite Ed in Hrun.
    assert (Hshift : forall j, u32 (u32 (uid + 1) + Z.of_nat j) = u32 (uid + Z.of_nat (S j))).
    { intros j. rewrite u32_add_l. f_equal. lia. }
    destruct r as [id|e|p]; [| done|].
    + destruct Hrun as (k & Hk & -> & Hn & Hj). exists (S k). rewrite <- Hshift.
      split_and!; [lia|done|done|]. intros [|j] ?; [by rewrite Hu0|]. rewrite <- Hshift. apply Hj. lia.
    + intros [|j] ?; [by rewrite Hu0|]. rewrite <- Hshift. apply Hrun. lia.
  - unfold mret, M_ret in Hrun. simplify_eq. exists 0%nat. split_and!; [lia|done| |lia].
    intros Ht. by apply Ee in Ht.
Qed.

(** What generateUIDForUser returns is a uint32. *)
Lemma generateUID_range n w id w' : generateUIDForUser n w = (Ok id, w') -> 0 <= id < 2 ^ 32.
Proof.
  unfold generateUIDForUser, on_error, map_err. unfold mbind at 1, M_bind at 1, get.
  destruct (find_uid _ _ _ w) as [r0 w0] eqn:Ef.
  pose proof (base_uid_range n) as Hb. unfold offset, MaxUint32 in Hb.
  apply find_uid_spec in Ef; [|lia]. destruct r0; [|done..]. intros [= <- <-].
  destruct Ef as (k & _ & -> & _). apply u32_range.
Qed.

(** Among [S n] consecutive numbers one is free when [n] are taken. *)
Lemma some_free d uid : Z.of_nat (uid_fuel d) <= 2 ^ 32 ->
  ~ forall j, (j < uid_fuel d)%nat -> taken d (u32 (uid + Z.of_nat j)).
Proof.
  intros Hlt Hall.
  set (ids := (fun j => u32 (uid + Z.of_nat j)) <$> seq 0 (uid_fuel d)).
  set (all := (p_uid <$> t_passwd d) ++ (g_gid <$> t_groups d)).
  assert (NoDup ids) as Hnd.
  { apply NoDup_fmap_2_strong; [|apply NoDup_seq].
    intros i j [_ Hi]%elem_of_seq [_ Hj]%elem_of_seq E. unfold u32 in E.
    assert ((uid + Z.of_nat i - (uid + Z.of_nat j)) mod 2 ^ 32 = 0) as Hm
      by (rewrite Zminus_mod, E, Z.sub_diag; done).
    apply Z.mod_divide in Hm as [k Hk]; [|lia]. assert (k = 0) by nia. lia. }
  assert (ids ⊆+ all) as Hsub.
  { apply NoDup_submseteq; [done|]. intros x (j & -> & [_ Hj]%elem_of_seq)%list_elem_of_fmap.
    apply elem_of_app. apply Hall. lia. }
  apply submseteq_length in Hsub. unfold ids, all, uid_fuel in Hsub.
  rewrite length_app, !length_fmap, length_seq in Hsub. lia.
Qed.

(** C31: the number that generateUIDForUser returns is the first one, from
    the hash of the name upwards and modulo 2^32, that is neither a uid nor
    a gid of the tables; the loop ends for any tables that do not fill the
    32-bit space, and it changes nothing. *)
Theorem generateUID_first_free username w r w' :
  generateUIDForUser username w = (r, w') ->
  Z.of_nat (length (t_passwd (w_db w)) + length (t_groups (w_db w))) < 2 ^ 32 ->
  w_db w' = w_db w /\ (forall why, r <> Panic why) /\
  (forall uid, r = Ok uid -> exists k, uid = u32 (base_uid username + Z.of_nat k)
     /\ ~ taken (w_db w) uid
     /\ forall j, (j < k)%nat -> taken (w_db w) (u32 (base_uid username + Z.of_nat j))).
Proof.
  unfold generateUIDForUser, on_error, map_err. intros Hrun Hlt.
  unfold mbind at 1, M_bind at 1, get in Hrun.
  destruct (find_uid _ _ _ w) as [r0 w0] eqn:Ef.
  assert (readonly (find_uid (uid_fuel (w_db w)) (base_uid username) username)) as Hro.
  { clear. generalize (base_uid username), (uid_fuel (w_db w)). intros uid fuel. revert uid.
    induction fuel as [|fuel IH]; intros uid; cbn [find_uid]; [apply ro_lift|].
    apply ro_bind; [apply uidOrGidExists_ro|]. intros []; [apply IH|apply ro_ret]. }
  pose proof (Hro w) as (Ed & _). rewrite Ef in Ed. simpl in Ed.
  pose proof (base_uid_range username) as Hb. unfold offset, MaxUint32 in Hb.
  apply find_uid_spec in Ef; [|lia]. destruct r0 as [id|e|p]; simplify_eq.
  - split_and!; [done..|]. intros ? [= <-]. destruct Ef as (k & _ & -> & Hn & Hj). eauto.
  - done.
  - exfalso. apply (some_free (w_db w) (base_uid username)); [|done].
    unfold uid_fuel. lia.
Qed.
End Search.

Definition two_users_db : database :=
  Database [PasswdRow "a" (Some "x") 9448096 9448096 (Some "") (Some "/home/a") (Some "/bin/bash") (Some 0);
            PasswdRow "b" (Some "x") 9448097 9448097 (Some "") (Some "/home/b") (Some "/bin/bash") (Some 0)]
    [GroupRow "a" (Some "x") 9448096; GroupRow "b" (Some "x") 9448097]
    [UidGidRow 9448096 9448096; UidGidRow 9448097 9448097] [].

Import Concrete.

Lemma generateUID_first_free_witness :
  (generateUIDForUser "success@domain.com" (World two_users_db [] 0 0)).1 = Ok 9448098 /\
  exists k, 9448098 = u32 (base_uid "success@domain.com" + Z.of_nat k)
    /\ ~ taken two_users_db 9448098
    /\ forall j, (j < k)%nat -> taken two_users_db (u32 (base_uid "success@domain.com" + Z.of_nat j)).
Proof.
  split; [vm_compute; reflexivity|].
  apply (generateUID_first_free "success@domain.com" (World two_users_db [] 0 0)
           (Ok 9448098) (World two_users_db [] 0 0)); [vm_compute; reflexivity|vm_compute; reflexivity|reflexivity].
Defined.

(** The search wraps around: past the largest uint32 comes 0, the uid of
    root. The first number of this name is 2^32-2. *)
Definition full_top_db : database :=
  Database [PasswdRow "a" (Some "x") 4294967294 4294967294 (Some "") (Some "") (Some "") (Some 0);
            PasswdRow "b" (Some "x") 4294967295 4294967295 (Some "") (Some "") (Some "") (Some 0)] [] [] [].

Example uid_wraps_to_root :
  (generateUIDForUser "jo959owkow9mq3sqgw3kw" (World full_top_db [] 0 0)).1 = Ok 0.
Proof. vm_compute. reflexivity. Qed.

(** The numbers of the recorded test databases. *)
Example base_uid_success : base_uid "success@domain.com" = 9448096.
Proof. reflexivity. Qed.
Example base_uid_myuser : base_uid "myuser@domain.com" = 1929326240.
Proof. reflexivity. Qed.
Example base_uid_otheruser : base_uid "otheruser@domain.com" = 165119648.
Proof. reflexivity. Qed.
Example base_uid_anagram : base_uid "firstuser@domain.com" = base_uid "userfirst@domain.com".
Proof. reflexivity. Qed.
