(* ===== verification/CacheAuth.v ===== *)
(** * internal/cache/cache.go: offline authentication and the online update

    CanAuthenticate, encryptPassword and Update, with the 64-bit durations
    that decide when cached credentials expire and when they are purged. *)

From S2P Require Import Prelude GoStrings Interfaces Tables CacheDB CacheFacts HomeDir UidGen.
Open Scope string_scope.
Open Scope list_scope.
Open Scope Z_scope.

(** [time.Duration(uint64(days) * 24 * uint64(time.Hour))]. *)
Definition days_to_duration (days : Z) : Z := i64 (u64 (u64 (u64 days * 24) * Hour)).

(** The retention that New computes from the setting: [days := uint64(d) *
    expirationPurgeMultiplier], and the default number of days when offline
    authentication is disabled. *)
Definition maxCacheEntryDuration (offlineCredentialsExpiration : Z) : Z :=
  let d := if offlineCredentialsExpiration <? 0 then defaultCredentialsExpiration
           else offlineCredentialsExpiration in
  days_to_duration (u64 (u64 d * expirationPurgeMultiplier)).

Section CacheAuth.
Context `{Decorator} `{Bcrypt} `{RowOrder}.

Definition CanAuthenticate (c : Cache) (username password : string) : M world unit :=
  on_error "authenticating user %q from cache failed"
    (if shadowMode c <? shadowROMode then
       fail (Opaque "shadow database is not available for reading")
     else if offlineCredentialsExpiration c <? 0 then
       fail (Sentinel ErrOfflineAuthDisabled)
     else
       user ← GetUserByName c username;
       w ← get;
       if (0 <? offlineCredentialsExpiration c)
          && (LastOnlineAuth user + days_to_duration (offlineCredentialsExpiration c) <? w_now w)
       then fail (Sentinel ErrOfflineCredentialsExpired)
       else match bcrypt_compare (ShadowPasswd user) password with
            | Some e => fail (Wrapped "password does not match: %w" e)
            | None => mret tt
            end).

Definition encryptPassword (username password : string) : M world string :=
  errorf "failed to encrypt password: %w"
    (w ← get;
     step (fun w => (Ok tt, set_entropy (S (w_entropy w)) w)) ;;
     lift (bcrypt_generate (w_entropy w) password)).

(** The record of a user that logs in for the first time. *)
Definition new_user (username home shell : string) (id : Z) : UserRecord :=
  MkUserRecord username "" (i64 id) (i64 id) "" home shell zeroTime "".

(** The branch of Update that creates the user. *)
Definition create_user (c : Cache) (username homeDirPattern shell : string) : M world UserRecord :=
  id ← generateUIDForUser username;
  home ← lift (parseHomeDir homeDirPattern username (pretty id));
  let user := new_user username home shell id in
  insertUser c user ;;
  mret user.

Definition find_or_create (c : Cache) (username homeDirPattern shell : string) : M world UserRecord :=
  r ← attempt (GetUserByName c username);
  match r with
  | inl user => mret user
  | inr e => if errors_is e ErrNoEnt then create_user c username homeDirPattern shell else fail e
  end.

Definition Update (c : Cache) (username password homeDirPattern shell : string) : M world unit :=
  on_error "couldn't create/open cache for nss database"
    (user ← find_or_create c username homeDirPattern shell;
     encryptedPassword ← encryptPassword username password;
     updateOnlineAuthAndPassword c (UID user) username encryptedPassword).
End CacheAuth.

(** ** Durations *)

Lemma days_to_duration_exact d : 0 <= d <= 106751 -> days_to_duration d = d * 24 * Hour.
Proof.
  intros Hd. unfold days_to_duration, Hour, Second.
  rewrite (u64_small d), (u64_small (d * 24)), u64_small, i64_small by lia. lia.
Qed.

Lemma maxCacheEntryDuration_exact d : 0 <= d <= 53375 -> maxCacheEntryDuration d = 2 * d * 24 * Hour.
Proof.
  intros Hd. unfold maxCacheEntryDuration, expirationPurgeMultiplier.
  rewrite (proj2 (Z.ltb_ge _ _)), (u64_small d), (u64_small (d * 2)) by lia.
  rewrite days_to_duration_exact by lia. lia.
Qed.

Lemma maxCacheEntryDuration_negative d : d < 0 -> maxCacheEntryDuration d = 180 * 24 * Hour.
Proof. intros Hd. unfold maxCacheEntryDuration. by rewrite (proj2 (Z.ltb_lt _ _) Hd). Qed.

(** C32: from 53376 days on, the retention overflows int64 and is negative, and
    the purge that New runs then takes every user that logged in until now
    for expired. *)
Theorem retention_overflow d now p l : 53376 <= d <= 106751 ->
  p_last_online_auth p = Some l -> l <= Unix now ->
  maxCacheEntryDuration d < 0 /\ older (purge_time now (maxCacheEntryDuration d)) p.
Proof.
  intros Hd Hp Hl.
  assert (maxCacheEntryDuration d = d * 2 * 24 * Hour - 2 ^ 64) as E.
  { unfold maxCacheEntryDuration, expirationPurgeMultiplier, days_to_duration, Hour, Second.
    rewrite (proj2 (Z.ltb_ge _ _)), (u64_small d), !(u64_small (d * 2)), (u64_small (d * 2 * 24)) by lia.
    rewrite u64_small by lia. unfold i64.
    set (x := d * 2 * 24 * _). assert (x + 2 ^ 63 = x - 2 ^ 63 + 1 * 2 ^ 64) as -> by lia.
    rewrite Z.mod_add, Z.mod_small by lia. lia. }
  unfold Hour, Second in E. split; [lia|].
  unfold older, purge_time, Unix in *. rewrite Hp.
  rewrite i64_small by lia.
  assert (now / Second + 1 <= (now + - maxCacheEntryDuration d) / Second); [|lia].
  rewrite <- Z.div_add by done. apply Z.div_le_mono; [done|]. unfold Second. lia.
Qed.

Lemma retention_overflow_witness :
  maxCacheEntryDuration 60000 < 0 /\
  older (purge_time (1700000000 * Second) (maxCacheEntryDuration 60000))
    (PasswdRow "u" (Some "x") 1 1 (Some "") (Some "") (Some "") (Some 1700000000)).
Proof.
  apply (retention_overflow 60000 (1700000000 * Second)
    (PasswdRow "u" (Some "x") 1 1 (Some "") (Some "") (Some "") (Some 1700000000)) 1700000000);
    [lia|reflexivity|vm_compute; discriminate].
Defined.

Section Properties.
Context `{Decorator} `{Bcrypt} `{RowOrder}.

Definition recent_enough (c : Cache) (u : UserRecord) (now : Z) : Prop :=
  offlineCredentialsExpiration c = 0 \/
  now <= LastOnlineAuth u + days_to_duration (offlineCredentialsExpiration c).

Lemma CanAuthenticate_inv c username password w w' :
  CanAuthenticate c username password w = (Ok tt, w') ->
  shadowROMode <= shadowMode c /\ 0 <= offlineCredentialsExpiration c /\
  exists u, GetUserByName c username w = (Ok u, w') /\ recent_enough c u (w_now w)
    /\ bcrypt_compare (ShadowPasswd u) password = None.
Proof.
  unfold CanAuthenticate, on_error. rewrite map_err_Ok.
  destruct (Z.ltb_spec (shadowMode c) shadowROMode); [done|].
  destruct (Z.ltb_spec (offlineCredentialsExpiration c) 0); [done|].
  rewrite bind_Ok. pose proof (GetUserByName_ro c username w) as (_ & En & _).
  intros (u & w1 & Hu & (w2 & w3 & Hg & Hr)%bind_Ok). unfold get in Hg. injection Hg as <- <-.
  rewrite Hu in En. simpl in En. split_and!; [done..|]. exists u. unfold recent_enough.
  destruct (Z.ltb_spec 0 (offlineCredentialsExpiration c)),
    (Z.ltb_spec (LastOnlineAuth u + days_to_duration (offlineCredentialsExpiration c)) (w_now w1));
    simpl in Hr; try done;
    (destruct (bcrypt_compare _ _) eqn:Eb; [done|]; unfold mret, M_ret in Hr; simplify_eq;
     split_and!; [done|lia|done]).
Qed.

Lemma CanAuthenticate_intro c username password w u w' :
  shadowROMode <= shadowMode c -> 0 <= offlineCredentialsExpiration c ->
  GetUserByName c username w = (Ok u, w') -> recent_enough c u (w_now w) ->
  bcrypt_compare (ShadowPasswd u) password = None ->
  CanAuthenticate c username password w = (Ok tt, w').
Proof.
  intros Hm Hd Hu Ht Hb. unfold CanAuthenticate, on_error. apply map_err_Ok.
  rewrite (proj2 (Z.ltb_ge _ _) Hm), (proj2 (Z.ltb_ge _ _) Hd), bind_Ok. exists u, w'. split; [done|].
  pose proof (GetUserByName_ro c username w) as (_ & En & _).
  rewrite Hu in En. simpl in En. unfold mbind, M_bind, get. rewrite Hb.
  replace (_ && _) with false; [done|]. symmetry. apply andb_false_iff.
  destruct Ht as [->|Ht]; [by left|]. right. apply Z.ltb_ge. by rewrite En.
Qed.

(** C4: CanAuthenticate accepts exactly when the shadow database is
    readable, offline authentication is not disabled, the user is found,
    the last online login is recent enough (or expiration is off) and the
    stored hash is that of the password. *)
Theorem CanAuthenticate_iff c username password w w' :
  CanAuthenticate c username password w = (Ok tt, w') <->
  shadowROMode <= shadowMode c /\ 0 <= offlineCredentialsExpiration c /\
  exists u, GetUserByName c username w = (Ok u, w') /\ recent_enough c u (w_now w)
    /\ bcrypt_compare (ShadowPasswd u) password = None.
Proof.
  split; [apply CanAuthenticate_inv|].
  intros (Hm & Hd & u & Hu & Ht & Hb). by eapply CanAuthenticate_intro.
Qed.

(** Errors of a lookup are not the two that carry a message to the user. *)
Lemma GetUserByName_errors c n w e w' t : GetUserByName c n w = (Err e, w') ->
  t <> ErrNoEnt -> t <> SqlErrNoRows -> errors_is e t = false.
Proof.
  unfold GetUserByName, errorf. intros (e0 & Hs & ->)%map_err_Err Ht1 Ht2. simpl.
  unfold newUserFromScanner in Hs. apply map_err_Err in Hs as (e1 & Hb & ->).
  assert (errors_is e1 t = false) as He.
  { unfold mbind, M_bind in Hb. destruct (query_row _ w) as [[cols|e2|] w1] eqn:Eq.
    - unfold lift in Hb. simplify_eq. destruct (scan_user cols) eqn:Es; simplify_eq.
      by apply scan_user_Err in Es as [msg ->].
    - simplify_eq. apply query_row_Err in Eq as [[_ ->]|[msg ->]]; [|done].
      by apply bool_decide_eq_false_2.
    - done. }
  unfold no_rows_to_noent. destruct (errors_is e1 SqlErrNoRows); [|done].
  by apply bool_decide_eq_false_2.
Qed.

(** The two refusals that are announced to the user are told apart from
    every other failure: ErrOfflineAuthDisabled exactly when the shadow
    database is readable and the setting is negative, and
    ErrOfflineCredentialsExpired exactly when the user is found, the setting
    is positive and the last online login is too old. *)
Theorem CanAuthenticate_refusals c username password w e w' :
  CanAuthenticate c username password w = (Err e, w') ->
  (errors_is e ErrOfflineAuthDisabled = true <->
     shadowROMode <= shadowMode c /\ offlineCredentialsExpiration c < 0) /\
  (errors_is e ErrOfflineCredentialsExpired = true <->
     shadowROMode <= shadowMode c /\ 0 < offlineCredentialsExpiration c /\
     exists u, GetUserByName c username w = (Ok u, w') /\
       LastOnlineAuth u + days_to_duration (offlineCredentialsExpiration c) < w_now w).
Proof.
  unfold CanAuthenticate, on_error. intros (e0 & Hr & ->)%map_err_Err. rewrite !OnError_is.
  destruct (Z.ltb_spec (shadowMode c) shadowROMode).
  { injection Hr as <- _. split; (split; [done|]); lia. }
  destruct (Z.ltb_spec (offlineCredentialsExpiration c) 0).
  { injection Hr as <- _. split; [split; [done|reflexivity]|]. split; [done|]. lia. }
  assert (Hdis : ~ (shadowROMode <= shadowMode c /\ offlineCredentialsExpiration c < 0)) by lia.
  unfold mbind at 1, M_bind at 1 in Hr. pose proof (GetUserByName_ro c username w) as (_ & En & _).
  destruct (GetUserByName c username w) as [[u|e1|p] w1] eqn:Eu; [| |done]; simpl in En.
  2: { simplify_eq. pose proof (GetUserByName_errors _ _ _ _ _ ErrOfflineAuthDisabled Eu) as E1.
       pose proof (GetUserByName_errors _ _ _ _ _ ErrOfflineCredentialsExpired Eu) as E2.
       rewrite E1, E2 by done. split; (split; [done|]); [tauto|]. by intros (_ & _ & ? & [=] & _). }
  unfold mbind, M_bind, get in Hr.
  destruct (Z.ltb_spec 0 (offlineCredentialsExpiration c)) as [Hp|Hp];
    destruct (Z.ltb_spec (LastOnlineAuth u + days_to_duration (offlineCredentialsExpiration c)) (w_now w1)) as [Hl|Hl];
    simpl in Hr.
  - injection Hr as <- <-. rewrite En in Hl. split; [split; [done|tauto]|].
    split; [intros _|done]. split_and!; [done..|]. by exists u.
  - destruct (bcrypt_compare _ _) eqn:Eb; [|done]. injection Hr as <- <-. simpl.
    rewrite !(bcrypt_compare_fresh _ _ _ _ Eb). split; (split; [done|]); [tauto|].
    intros (_ & _ & ? & [= <-] & ?). lia.
  - destruct (bcrypt_compare _ _) eqn:Eb; [|done]. injection Hr as <- <-. simpl.
    rewrite !(bcrypt_compare_fresh _ _ _ _ Eb). split; (split; [done|]); [tauto|]. lia.
  - destruct (bcrypt_compare _ _) eqn:Eb; [|done]. injection Hr as <- <-. simpl.
    rewrite !(bcrypt_compare_fresh _ _ _ _ Eb). split; (split; [done|]); [tauto|]. lia.
Qed.

(** ** Update *)

Lemma ro_find_uid fuel uid n : readonly (find_uid fuel uid n).
Proof.
  revert uid. induction fuel as [|fuel IH]; intros uid; cbn [find_uid]; [apply ro_lift|].
  apply ro_bind; [apply uidOrGidExists_ro|]. intros []; [apply IH|apply ro_ret].
Qed.

Lemma CanAuthenticate_ro c n pw : readonly (CanAuthenticate c n pw).
Proof.
  unfold CanAuthenticate, on_error. apply ro_map_err. destruct (_ <? _); [auto with ro|].
  destruct (_ <? 0); [auto with ro|]. apply ro_bind; [apply GetUserByName_ro|]. intros u.
  apply ro_bind; [auto with ro|]. intros w. destruct (_ && _); [auto with ro|].
  destruct (bcrypt_compare _ _); auto with ro.
Qed.

Lemma ro_generateUID n : readonly (generateUIDForUser n).
Proof. unfold generateUIDForUser, on_error. apply ro_map_err, ro_bind; [apply ro_get|]. intros w. apply ro_find_uid. Qed.

Lemma ro_lift' {A} (r : result A) : readonly (lift r).
Proof. apply ro_lift. Qed.

(** What the creation branch leaves behind. *)
Lemma create_user_inv c n pat sh w r w' : create_user c n pat sh w = (r, w') ->
  w_now w' = w_now w /\ w_entropy w' = w_entropy w /\
  ((exists u id home, r = Ok u /\ u = new_user n home sh id /\ shadowMode c = shadowRWMode
      /\ (fresh_user u (w_db w) /\ 0 <= id < 2 ^ 32 /\ parseHomeDir pat n (pretty id) = Ok home) /\ w_db w' = user_inserted u (w_db w))
   \/ ((forall u, r <> Ok u) /\ w_db w' = w_db w)).
Proof.
  unfold create_user, mbind, M_bind. pose proof (ro_generateUID n w) as (E1 & E2 & E3).
  pose proof (fun id w1 => generateUID_range n w id w1) as Hid.
  destruct (generateUIDForUser n w) as [[id|e|p] w1]; simpl in E1, E2, E3;
    [|intros [= <- <-]; split_and!; [done..|by right]..].
  unfold lift. destruct (parseHomeDir pat n (pretty id)) as [home|e|p] eqn:Eh;
    [|intros [= <- <-]; split_and!; [done..|by right]..].
  pose proof (stable_insertUser c (new_user n home sh id) w1) as [F2 F3].
  destruct (insertUser c (new_user n home sh id) w1) as [r2 w2] eqn:Ei; simpl in F2, F3.
  rewrite E2 in F2. rewrite E3 in F3. apply insertUser_inv in Ei.
  destruct Ei as [(-> & Hm & Hf & Hd)|[Hn Hd]]; rewrite E1 in *.
  - intros [= <- <-]. split_and!; [done..|]. left. exists (new_user n home sh id), id, home. specialize (Hid _ _ eq_refl) as []. by split_and!.
  - destruct r2 as [[]|e|p]; [done|..]; intros [= <- <-]; (split_and!; [done..|by right]).
Qed.

Lemma find_or_create_inv c n pat sh w r w' : find_or_create c n pat sh w = (r, w') ->
  w_now w' = w_now w /\ w_entropy w' = w_entropy w /\
  ((exists u, r = Ok u /\ w_db w' = w_db w /\ exists p pw, p ∈ t_passwd (w_db w) /\ p_login p = n
      /\ shadow_seen c (w_db w) p pw /\ scan_user (user_cols_of (Some pw) p) = Ok u)
   \/ (exists u id home, r = Ok u /\ u = new_user n home sh id /\ shadowMode c = shadowRWMode
      /\ (fresh_user u (w_db w) /\ 0 <= id < 2 ^ 32 /\ parseHomeDir pat n (pretty id) = Ok home) /\ w_db w' = user_inserted u (w_db w))
   \/ ((forall u, r <> Ok u) /\ w_db w' = w_db w)).
Proof.
  unfold find_or_create, mbind at 1, M_bind at 1, attempt.
  pose proof (GetUserByName_ro c n w) as (E1 & E2 & E3).
  destruct (GetUserByName c n w) as [[u|e|p] w1] eqn:Eg; simpl in E1, E2, E3.
  - intros [= <- <-]. split_and!; [done..|]. left. exists u. split_and!; [done..|].
    by apply GetUserByName_Ok in Eg.
  - destruct (errors_is e ErrNoEnt).
    + intros (F2 & F3 & Hc)%create_user_inv. rewrite E2 in F2. rewrite E3 in F3. rewrite E1 in Hc.
      split_and!; [done..|by right].
    + intros [= <- <-]. split_and!; [done..|]. by right; right.
  - intros [= <- <-]. split_and!; [done..|]. by right; right.
Qed.
End Properties.

Import Concrete.

(** A cache opened read-write with the given expiration. *)
Definition rw_cache (expiration : Z) : Cache :=
  MkCache shadowRWMode expiration None None None 1 30000000000
    (Options "/var/lib/aad/cache" 0 0 (-1) (-1) 420 416 30000000000 expiration).

(** One user, whose last online login is the second 1000. *)
Definition one_user_db : database :=
  Database [PasswdRow "u@d" (Some "x") 4242 4242 (Some "") (Some "/home/u@d") (Some "/bin/bash") (Some 1000)]
    [GroupRow "u@d" (Some "x") 4242] [UidGidRow 4242 4242]
    [ShadowRow 4242 "$2a$secret" (-1) (-1) (-1) (-1) (-1) (-1)].

(** Ten days of expiration, eleven days later. *)
Lemma CanAuthenticate_refusals_witness :
  let w := World one_user_db [] (1000 * Second + 11 * 24 * Hour) 0 in
  exists e, CanAuthenticate (rw_cache 10) "u@d" "secret" w = (Err e, w)
    /\ errors_is e ErrOfflineCredentialsExpired = true.
Proof.
  intros w. eexists. split; [reflexivity|].
  pose proof (CanAuthenticate_refusals (rw_cache 10) "u@d" "secret" w _ w eq_refl) as [_ [_ Hexp]].
  apply Hexp. split; [done|]. split; [done|]. eexists. split; reflexivity.
Defined.
