(* ===== verification/CacheUpdate.v ===== *)
(** * internal/cache/cache.go: what an online verification records

    Update finds the user or creates it, hashes the password and stores the
    hash with the current time. The theorems say what a successful call
    leaves in the tables, that it entitles the user to the offline login, and
    what can remain of a call that failed. *)

From S2P Require Import Prelude GoStrings Interfaces Tables CacheDB CacheFacts HomeDir UidGen CacheAuth.
Open Scope string_scope.
Open Scope list_scope.
Open Scope Z_scope.

Section Update.
Context `{Decorator} `{Bcrypt} `{RowOrder}.

Lemma encryptPassword_inv n pw w r w' : encryptPassword n pw w = (r, w') ->
  w_db w' = w_db w /\ w_now w' = w_now w /\ w_faults w' = w_faults w /\ w_entropy w' = S (w_entropy w) /\
  match r with
  | Ok h => bcrypt_generate (w_entropy w) pw = Ok h
  | Err _ => True
  | Panic _ => False
  end.
Proof.
  unfold encryptPassword, errorf, map_err, mbind, M_bind, get, step, lift.
  destruct (bcrypt_generate (w_entropy w) pw) as [h|e|p] eqn:Eb; intros [= <- <-]; simpl; auto.
  by apply bcrypt_no_panic in Eb.
Qed.

(** The row that Update works on: found, or just inserted. *)
Definition subject (n pat sh : string) (uid : Z) (d0 d1 : database) : Prop :=
  (d1 = d0 /\ exists p pw u, p ∈ t_passwd d0 /\ p_login p = n /\ p_uid p = uid
     /\ (exists s, s ∈ t_shadow d0 /\ s_uid s = uid /\ s_password s = pw)
     /\ scan_user (user_cols_of (Some pw) p) = Ok u)
  \/ (exists id home, uid = i64 id /\ (fresh_user (new_user n home sh id) d0 /\ 0 <= id < 2 ^ 32 /\ parseHomeDir pat n (pretty id) = Ok home)
     /\ d1 = user_inserted (new_user n home sh id) d0).

Lemma stable_updateOnlineAuth c uid n h : stable (updateOnlineAuthAndPassword c uid n h).
Proof.
  unfold updateOnlineAuthAndPassword, on_error. apply stable_map_err.
  destruct (negb _); [apply stable_ro; auto with ro|].
  apply stable_transaction, stable_bind; [apply stable_ro; auto with ro|]. intros w.
  apply stable_bind; [apply stable_exec|intros _; apply stable_exec].
Qed.

Lemma Update_inv c n pw pat sh w r w' : Update c n pw pat sh w = (r, w') ->
  w_now w' = w_now w /\
  ((r = Ok tt /\ shadowMode c = shadowRWMode /\ exists uid hash d1,
      subject n pat sh uid (w_db w) d1 /\ bcrypt_generate (w_entropy w) pw = Ok hash
      /\ w_db w' = refreshed (w_now w) uid hash d1)
   \/ (r <> Ok tt /\ (w_db w' = w_db w \/ exists id home, shadowMode c = shadowRWMode
         /\ (fresh_user (new_user n home sh id) (w_db w) /\ 0 <= id < 2 ^ 32 /\ parseHomeDir pat n (pretty id) = Ok home)
         /\ w_db w' = user_inserted (new_user n home sh id) (w_db w)))).
Proof.
  unfold Update, on_error, map_err, mbind, M_bind.
  destruct (find_or_create c n pat sh w) as [r1 w1] eqn:E1.
  apply find_or_create_inv in E1 as (N1 & S1 & C1).
  destruct r1 as [u|e|p].
  2,3: intros [= <- <-]; split; [done|]; right; split; [done|]; left;
       destruct C1 as [(?&?&_)|[(?&?&?&?&_)|[_ ?]]]; done.
  destruct (encryptPassword n pw w1) as [r2 w2] eqn:E2.
  apply encryptPassword_inv in E2 as (D2 & N2 & _ & S2 & B2).
  assert (Hkeep : w_db w1 = w_db w \/ exists id home, shadowMode c = shadowRWMode
      /\ (fresh_user (new_user n home sh id) (w_db w) /\ 0 <= id < 2 ^ 32 /\ parseHomeDir pat n (pretty id) = Ok home) /\ w_db w1 = user_inserted (new_user n home sh id) (w_db w)).
  { destruct C1 as [(?&_&?&_)|[(?&id&home&_&->&?&?&?)|[Hn _]]]; [by left|right; by exists id, home|].
    by destruct (Hn u). }
  destruct r2 as [h|e|p]; [| |done].
  2: { intros [= <- <-]. split; [congruence|]. right. split; [done|]. by rewrite D2. }
  pose proof (stable_updateOnlineAuth c (UID u) n h w2) as [N3 _].
  destruct (updateOnlineAuthAndPassword c (UID u) n h w2) as [r3 w3] eqn:E3. simpl in N3.
  apply updateOnlineAuthAndPassword_inv in E3 as [(-> & Hm & Hd)|[Hr Hd]].
  - intros [= <- <-]. split; [congruence|]. left. split_and!; [done..|].
    exists (UID u), h, (w_db w1). split_and!.
    + destruct C1 as [(u' & [= <-] & Ed & p & spw & Hp & Hl & Hs & Hu)|[(u' & id & home & [= <-] & -> & _ & Hf & Ed)|[Hn _]]];
        [| |by destruct (Hn u)].
      * left. split; [done|]. exists p, spw, u.
        unfold shadow_seen in Hs. rewrite Hm in Hs. simpl in Hs. destruct Hs as (s & Hs & Es & Ep).
        pose proof (scan_user_Ok _ _ Hu) as (_ & _ & Eu & _). simpl in Eu. injection Eu as <-. by eauto 10.
      * right. exists id, home. done.
    + by rewrite <- S1.
    + rewrite Hd, N2, N1, D2. done.
  - destruct r3 as [[]|e|p]; [done|..]; intros [= <- <-]; (split; [congruence|]);
      right; (split; [done|]); by rewrite Hd, D2.
Qed.

(** ** The row after the refresh *)

Lemma elem_of_refreshed_passwd now uid h d q : q ∈ t_passwd (refreshed now uid h d) <->
  exists q0, q0 ∈ t_passwd d /\
    q = if p_uid q0 =? uid then set_last_online_auth (Unix now) q0 else q0.
Proof. simpl. rewrite list_elem_of_fmap. split; intros (q0 & ? & ?); eauto. Qed.

Lemma elem_of_refreshed_shadow now uid h d t : t ∈ t_shadow (refreshed now uid h d) <->
  exists t0, t0 ∈ t_shadow d /\ t = if s_uid t0 =? uid then set_shadow_password h t0 else t0.
Proof. simpl. rewrite list_elem_of_fmap. split; intros (t0 & ? & ?); eauto. Qed.

(** The subject has a readable passwd row and a shadow row in [d1]. *)
Lemma subject_row n pat sh uid d0 d1 : subject n pat sh uid d0 d1 ->
  exists p s u, p ∈ t_passwd d1 /\ p_login p = n /\ p_uid p = uid /\ s ∈ t_shadow d1 /\ s_uid s = uid
    /\ scan_user (user_cols_of (Some (s_password s)) p) = Ok u.
Proof.
  intros [(-> & p & pw & u & Hp & Hl & Hu & (s & Hs & Es & <-) & Hsc)|(id & home & -> & _ & ->)].
  - by exists p, s, u.
  - unfold user_inserted, new_user. simpl. do 3 eexists. rewrite !elem_of_app, !list_elem_of_singleton.
    split_and!; [by right|done..|by right|done|reflexivity].
Qed.

Lemma subject_wf n pat sh uid d0 d1 : subject n pat sh uid d0 d1 -> db_wf d0 -> db_wf d1.
Proof. intros [[-> _]|(id & home & _ & [? _] & ->)]; [done|]. by apply user_inserted_wf. Qed.

(** A readable row stays readable, with the new hash and time. *)
Lemma scan_user_refreshed p pw u now h : scan_user (user_cols_of (Some pw) p) = Ok u ->
  scan_user (user_cols_of (Some h) (set_last_online_auth now p)) =
  Ok (MkUserRecord (Name u) (Passwd u) (UID u) (GID u) (Gecos u) (Home u) (Shell u) (timeUnix now) h).
Proof.
  intros (E1 & E2 & E3 & E4 & E5 & E6 & E7 & _)%scan_user_Ok. simpl in *.
  injection E1 as E1. injection E3 as E3. injection E4 as E4.
  unfold user_cols_of. simpl. by rewrite E2, E5, E6, E7, E1, E3, E4.
Qed.

(** What a lookup reads after a successful Update. *)
Lemma Update_lookup c n pw pat sh w w' c2 w2 :
  db_wf (w_db w) -> Update c n pw pat sh w = (Ok tt, w') ->
  w_db w2 = w_db w' -> calm w2 -> shadowROMode <= shadowMode c2 ->
  exists u h, GetUserByName c2 n w2 = (Ok u, w2) /\ bcrypt_generate (w_entropy w) pw = Ok h
    /\ ShadowPasswd u = h /\ LastOnlineAuth u = timeUnix (Unix (w_now w)).
Proof.
  intros Hwf [_ [(_ & _ & uid & h & d1 & Hs & Hb & Hd)|[Hn _]]]%Update_inv E2 Hc Hm; [|by destruct Hn].
  destruct (subject_row _ _ _ _ _ _ Hs) as (p & s & u & Hp & <- & Hpu & Hsh & Hsu & Hsc).
  eexists _, h. split; [|split; [done|]].
  - apply (GetUserByName_calm c2 w2 (set_last_online_auth (Unix (w_now w)) p) h); [done|..].
    + rewrite E2, Hd. apply refreshed_wf. by eapply subject_wf.
    + rewrite E2, Hd, elem_of_refreshed_passwd. exists p. split; [done|].
      by rewrite (proj2 (Z.eqb_eq _ _) Hpu).
    + unfold shadow_seen, shadowNotAvailableMode, shadowROMode in *.
      rewrite (proj2 (Z.ltb_lt 0 (shadowMode c2))) by lia. exists (set_shadow_password h s).
      split_and!; [|simpl; congruence|done]. rewrite E2, Hd, elem_of_refreshed_shadow. exists s. split; [done|].
      by rewrite (proj2 (Z.eqb_eq _ _) Hsu).
    + by eapply scan_user_refreshed.
  - done.
Qed.

(** ** Properties *)

(** After a successful Update the user has a row whose last online login
    is now and a shadow row whose hash is that of the password; every other
    user's row and every other shadow row is what it was. *)
Theorem Update_effect c n pw pat sh w w' :
  db_wf (w_db w) -> Update c n pw pat sh w = (Ok tt, w') ->
  shadowMode c = shadowRWMode /\ exists p s,
    p ∈ t_passwd (w_db w') /\ p_login p = n /\ p_last_online_auth p = Some (Unix (w_now w))
    /\ s ∈ t_shadow (w_db w') /\ s_uid s = p_uid p /\ bcrypt_compare (s_password s) pw = None
    /\ (forall q, p_login q <> n -> q ∈ t_passwd (w_db w') <-> q ∈ t_passwd (w_db w))
    /\ (forall t, s_uid t <> p_uid p -> t ∈ t_shadow (w_db w') <-> t ∈ t_shadow (w_db w)).
Proof.
  intros Hwf [_ [(_ & Hm & uid & h & d1 & Hs & Hb & Hd)|[Hn _]]]%Update_inv; [|by destruct Hn].
  split; [done|]. destruct (subject_row _ _ _ _ _ _ Hs) as (p & s & u & Hp & Hl & Hpu & Hsh & Hsu & Hsc).
  pose proof (subject_wf _ _ _ _ _ _ Hs Hwf) as Hwf1.
  exists (set_last_online_auth (Unix (w_now w)) p), (set_shadow_password h s). rewrite Hd.
  setoid_rewrite elem_of_refreshed_passwd. setoid_rewrite elem_of_refreshed_shadow.
  split_and!; [exists p; by rewrite (proj2 (Z.eqb_eq _ _) Hpu)|done|done
    |exists s; by rewrite (proj2 (Z.eqb_eq _ _) Hsu)|simpl; congruence|by eapply bcrypt_generate_compare| |].
  - intros q Hq.
    assert (q ∈ t_passwd d1 <-> q ∈ t_passwd (w_db w)) as <-.
    { destruct Hs as [[-> _]|(id & home & _ & _ & ->)]; [done|]. simpl.
      rewrite elem_of_app, list_elem_of_singleton. split; [|by left]. by intros [?| ->]. }
    assert (Hsame : forall q0, q0 ∈ t_passwd d1 -> p_uid q0 = uid -> q0 = p).
    { intros q0 Hin E0. apply (NoDup_fmap_inj p_uid (t_passwd d1)); [apply Hwf1|done..|congruence]. }
    split.
    + intros (q0 & Hin & ->). destruct (Z.eqb_spec (p_uid q0) uid) as [E0|]; [|done].
      rewrite (Hsame q0 Hin E0) in Hq. by simpl in Hq.
    + intros Hin. exists q. split; [done|]. destruct (Z.eqb_spec (p_uid q) uid) as [E0|]; [|done].
      by rewrite (Hsame q Hin E0) in Hq.
  - simpl. rewrite Hpu. intros t Ht.
    assert (t ∈ t_shadow d1 <-> t ∈ t_shadow (w_db w)) as <-.
    { destruct Hs as [[-> _]|(id & home & -> & _ & ->)]; [done|]. simpl.
      rewrite elem_of_app, list_elem_of_singleton. split; [|by left]. by intros [?| ->]. }
    split.
    + intros (t0 & Hin & ->). by destruct (Z.eqb_spec (s_uid t0) uid).
    + intros Hin. exists t. split; [done|]. by rewrite (proj2 (Z.eqb_neq _ _) Ht).
Qed.

(** C14: an online verification entitles the user to log in offline with the
    same password through any cache that can read the shadow database, at
    any time within the expiration counted from the second of the Update,
    as long as the tables are not changed. *)
Theorem online_then_offline c n pw pat sh w w' c2 w2 :
  db_wf (w_db w) -> Update c n pw pat sh w = (Ok tt, w') ->
  w_db w2 = w_db w' -> calm w2 ->
  shadowROMode <= shadowMode c2 -> 0 <= offlineCredentialsExpiration c2 <= 106751 ->
  (offlineCredentialsExpiration c2 = 0
   \/ w_now w2 <= Unix (w_now w) * Second + offlineCredentialsExpiration c2 * 24 * Hour) ->
  CanAuthenticate c2 n pw w2 = (Ok tt, w2).
Proof.
  intros Hwf Hu E2 Hc Hm Hd Ht.
  destruct (Update_lookup _ _ _ _ _ _ _ c2 w2 Hwf Hu E2 Hc Hm) as (u & h & Hg & Hb & Eh & El).
  eapply CanAuthenticate_intro; [done|lia|done| |rewrite Eh; by eapply bcrypt_generate_compare].
  unfold recent_enough. rewrite days_to_duration_exact, El by lia. unfold timeUnix. tauto.
Qed.

(** A failed Update leaves the tables as they were, or with the row of a
    user that did not exist and that no password opens: the hash that such
    a creation stores matches nothing. *)
Theorem Update_failure c n pw pat sh w r w' :
  Update c n pw pat sh w = (r, w') -> r <> Ok tt ->
  w_db w' = w_db w \/
  ((n ∉ p_login <$> t_passwd (w_db w)) /\ n ∈ (p_login <$> t_passwd (w_db w')) /\
   forall c2 pw2 w2 w3, w_db w2 = w_db w' -> CanAuthenticate c2 n pw2 w2 <> (Ok tt, w3)).
Proof.
  intros [_ [[-> _]|[_ [Hd|(id & home & _ & [Hf _] & Hd)]]]]%Update_inv Hr; [done|by left|]. right.
  rewrite Hd. split_and!; [apply Hf|simpl; rewrite fmap_app, elem_of_app; right; by constructor|].
  intros c2 pw2 w2 w3 E2 (Hm & _ & u & Hg & _ & Hb)%CanAuthenticate_inv.
  apply GetUserByName_Ok in Hg as (p & spw & Hp & Hl & Hs & Hu). rewrite E2 in Hp, Hs.
  unfold shadow_seen, shadowNotAvailableMode, shadowROMode in *.
  rewrite (proj2 (Z.ltb_lt 0 (shadowMode c2))) in Hs by lia. destruct Hs as (s & Hs & Es & <-).
  assert (p_uid p = i64 id) as Ep.
  { simpl in Hp. apply elem_of_app in Hp as [Hp|Hp%list_elem_of_singleton]; [|by subst p].
    exfalso. apply (fresh_login _ _ Hf). simpl. rewrite <- Hl. by apply list_elem_of_fmap_2. }
  simpl in Hs. apply elem_of_app in Hs as [Hs|Hs%list_elem_of_singleton].
  { apply (fresh_shadow _ _ Hf). simpl. rewrite <- Ep, <- Es. by apply list_elem_of_fmap_2. }
  pose proof (scan_user_Ok _ _ Hu) as (_ & _ & _ & _ & _ & _ & _ & E & _). simpl in E. injection E as E.
  rewrite <- E, Hs in Hb. simpl in Hb. by apply bcrypt_empty_hash in Hb.
Qed.
End Update.

Import Concrete.

(** A first login at the second 5000, then offline ten days later. *)
Definition first_login : world := World empty_db [] (5000 * Second + 7) 0.

Definition after_first_login : database :=
  Database [PasswdRow "u@d" (Some "x") 848800 848800 (Some "") (Some "/home/d/u") (Some "/bin/bash") (Some 5000)]
    [GroupRow "u@d" (Some "x") 848800] [UidGidRow 848800 848800]
    [ShadowRow 848800 "$2a$secret" (-1) (-1) (-1) (-1) (-1) (-1)].

Lemma empty_wf : db_wf empty_db.
Proof. split; simpl; constructor. Qed.

Lemma first_login_runs :
  Update (rw_cache 90) "u@d" "secret" "/home/%d/%u" "/bin/bash" first_login
  = (Ok tt, World after_first_login [] (5000 * Second + 7) 1).
Proof. vm_compute. reflexivity. Qed.

Lemma Update_effect_witness : exists p s,
  p ∈ t_passwd after_first_login /\ p_last_online_auth p = Some 5000
  /\ s ∈ t_shadow after_first_login /\ bcrypt_compare (s_password s) "secret" = None.
Proof.
  destruct (Update_effect (rw_cache 90) "u@d" "secret" "/home/%d/%u" "/bin/bash" first_login
    (World after_first_login [] (5000 * Second + 7) 1) empty_wf first_login_runs)
    as (_ & p & s & Hp & _ & Hl & Hs & _ & Hb & _).
  exists p, s. split; [exact Hp|]. split; [exact Hl|]. split; [exact Hs|exact Hb].
Defined.

Lemma online_then_offline_witness :
  let later := World after_first_login [] ((5000 + 10 * 86400) * Second) 1 in
  CanAuthenticate (rw_cache 10) "u@d" "secret" later = (Ok tt, later).
Proof.
  intros later.
  apply (online_then_offline (rw_cache 90) "u@d" "secret" "/home/%d/%u" "/bin/bash" first_login
    (World after_first_login [] (5000 * Second + 7) 1) (rw_cache 10) later empty_wf first_login_runs);
    [reflexivity|reflexivity|done|done|right; vm_compute; discriminate].
Defined.

(** The second transaction cannot begin: the user has been created, and no
    password opens it. *)
Definition failing_login : world :=
  World empty_db (repeat None 11 ++ [Some "disk I/O error"]) 5 0.

Definition half_created : database :=
  Database [PasswdRow "u@d" (Some "x") 848800 848800 (Some "") (Some "/home/d/u") (Some "/bin/bash")
              (Some (-62135596800))]
    [GroupRow "u@d" (Some "x") 848800] [UidGidRow 848800 848800]
    [ShadowRow 848800 "" (-1) (-1) (-1) (-1) (-1) (-1)].

Definition begin_failed : gerror :=
  Wrapped "couldn't create/open cache for nss database"
    (Wrapped "failed to update user %q in local cache" (Opaque "disk I/O error")).

Lemma failing_login_runs :
  Update (rw_cache 90) "u@d" "secret" "/home/%d/%u" "/bin/bash" failing_login
  = (Err begin_failed, World half_created [] 5 1).
Proof. vm_compute. reflexivity. Qed.

Lemma Update_failure_witness :
  half_created = empty_db \/
    ((("u@d" ∉ p_login <$> t_passwd empty_db)) /\ ("u@d" ∈ p_login <$> t_passwd half_created) /\
     forall c2 pw2 w2 w3, w_db w2 = half_created -> CanAuthenticate c2 "u@d" pw2 w2 <> (Ok tt, w3)).
Proof.
  refine (Update_failure (rw_cache 90) "u@d" "secret" "/home/%d/%u" "/bin/bash" failing_login _ _
    failing_login_runs _).
  discriminate.
Defined.
