(* ===== verification/CacheTheorems.v ===== *)
(** * internal/cache: the promises of a cache handle

    The theorems on insertion, lookup, purge, attributes, groups and iteration
    that clients of the package rely on. The last online login and the
    password are the subject of CacheAuth and CacheUpdate. *)

From S2P Require Import Prelude GoStrings Interfaces Tables CacheDB CacheFacts.
Open Scope string_scope.
Open Scope list_scope.
Open Scope Z_scope.

(** ** Insertion and lookup *)

(** What is read back of an inserted record: the password column takes its
    default and the last login keeps its second. *)
Definition stored (shadow_visible : bool) (u : UserRecord) : UserRecord :=
  MkUserRecord (Name u) "x" (UID u) (GID u) "" (Home u) (Shell u)
    (timeUnix (Unix (LastOnlineAuth u))) (if shadow_visible then ShadowPasswd u else "").

Section Theorems.
Context `{Decorator} `{RowOrder}.

Lemma inserted_lookup_row c2 u d : shadow_seen c2 (user_inserted u d)
  (PasswdRow (Name u) (Some "x") (UID u) (GID u) (Some "") (Some (Home u)) (Some (Shell u))
     (Some (Unix (LastOnlineAuth u))))
  (if ShadowReadable c2 then ShadowPasswd u else "").
Proof.
  unfold shadow_seen, ShadowReadable. destruct (_ <? _); [|done].
  eexists. split; [simpl; rewrite elem_of_app, list_elem_of_singleton; by right|]. done.
Qed.

(** A user that has been inserted is found by name and by uid, with the
    fields it was given, through any cache; the hash is visible only where
    the shadow database is readable. *)
Theorem insertUser_lookup c c2 u w :
  calm w -> db_wf (w_db w) -> shadowMode c = shadowRWMode -> fresh_user u (w_db w) ->
  let w' := set_db (user_inserted u (w_db w)) w in
  insertUser c u w = (Ok tt, w')
  /\ GetUserByName c2 (Name u) w' = (Ok (stored (ShadowReadable c2) u), w')
  /\ GetUserByUID c2 (UID u) w' = (Ok (stored (ShadowReadable c2) u), w').
Proof.
  intros Hc Hwf Hm Hf w'. split; [by apply insertUser_calm|].
  set (p := PasswdRow (Name u) (Some "x") (UID u) (GID u) (Some "") (Some (Home u)) (Some (Shell u))
     (Some (Unix (LastOnlineAuth u)))).
  assert (p ∈ t_passwd (w_db w')) as Hp by (simpl; rewrite elem_of_app, list_elem_of_singleton; by right).
  assert (db_wf (w_db w')) as Hwf' by by apply user_inserted_wf.
  pose proof (inserted_lookup_row c2 u (w_db w)) as Hs.
  split; [eapply (GetUserByName_calm c2 w' p)|eapply (GetUserByUID_calm c2 w' p)]; done.
Qed.

(** ** Purge *)

(** C24: on tables that are well formed and coherent a purge removes, for
    each user whose last online login is before the limit, its passwd row,
    its shadow row, its membership and its group together, and keeps all
    four of every other user; a purge that fails removes nothing. *)
Theorem cleanUpDB_effect dur w r w' :
  cleanUpDB dur w = (r, w') -> db_wf (w_db w) -> coherent (w_db w) ->
  (r <> Ok tt /\ w_db w' = w_db w) \/
  (r = Ok tt /\ db_wf (w_db w') /\ coherent (w_db w') /\
   forall p, p ∈ t_passwd (w_db w) ->
     (p ∈ t_passwd (w_db w') <-> ~ older (purge_time (w_now w) dur) p) /\
     (p_uid p ∈ (s_uid <$> t_shadow (w_db w')) <-> ~ older (purge_time (w_now w) dur) p) /\
     (UidGidRow (p_uid p) (p_gid p) ∈ t_uid_gid (w_db w') <-> ~ older (purge_time (w_now w) dur) p) /\
     (forall g, g ∈ t_groups (w_db w) -> g_gid g = p_gid p ->
        (g ∈ t_groups (w_db w') <-> ~ older (purge_time (w_now w) dur) p))).
Proof.
  intros [[-> Hd]|?]%cleanUpDB_inv Hwf Hco; [right|by left].
  rewrite Hd. split_and!; [done|by apply purged_wf|by apply coherent_purged|].
  intros p Hp. split_and!.
  - rewrite elem_of_purged_passwd. tauto.
  - rewrite list_elem_of_fmap. setoid_rewrite elem_of_purged_shadow. rewrite <- (not_old_uid _ (w_db w)) by done. split.
    + by intros (s & -> & _ & ?).
    + intros Hn. assert (p_uid p ∈ s_uid <$> t_shadow (w_db w)) as (s & Es & Hs)%list_elem_of_fmap
        by by apply (co_shadow _ Hco), list_elem_of_fmap_2.
      exists s. by rewrite <- Es.
  - rewrite elem_of_purged_link. simpl. rewrite <- (not_old_uid _ (w_db w)) by done.
    rewrite (co_link _ Hco). split; [by intros [_ ?]|]. intros Hn. split; [by exists p|done].
  - intros g Hg Eg. by apply purged_group_of.
Qed.

(** ** Attributes *)

(** The part of a row that the attribute name selects, as it is read. *)
Lemma get_set_attr attr v p p' : set_attr attr v p = Some p' ->
  get_attr attr p' = Some (match v with Some s => VText s | None => VNull end).
Proof.
  unfold set_attr, get_attr. intros Hp.
  repeat (case_bool_decide; [by subst; simplify_eq|]). done.
Qed.

Lemma update_attr_row attr v login d d' p : update_attr attr v login d = Ok (tt, d') ->
  p ∈ t_passwd d -> p_login p = login ->
  exists p', p' ∈ t_passwd d' /\ p_login p' = login /\ set_attr attr (text_affinity v) p = Some p'.
Proof.
  intros (_ & _ & _ & Hf)%update_attr_inv Hp Hl.
  apply list_elem_of_lookup in Hp as [i Hi].
  destruct (Forall2_lookup_l _ _ _ _ _ Hf Hi) as (p' & Hi' & E).
  rewrite bool_decide_eq_true_2 in E by done. exists p'. split; [by eapply list_elem_of_lookup_2|].
  split; [|done]. apply set_attr_key in E as (-> & _). done.
Qed.

Lemma update_attr_other attr v login d d' q : update_attr attr v login d = Ok (tt, d') ->
  p_login q <> login -> q ∈ t_passwd d' <-> q ∈ t_passwd d.
Proof.
  intros (_ & _ & _ & Hf)%update_attr_inv Hq. rewrite !list_elem_of_lookup. split; intros [i Hi]; exists i.
  - destruct (Forall2_lookup_r _ _ _ _ _ Hf Hi) as (q0 & Hi0 & E).
    case_bool_decide as Hl; [|by simplify_eq].
    apply set_attr_key in E as (E & _). congruence.
  - destruct (Forall2_lookup_l _ _ _ _ _ Hf Hi) as (q0 & Hi0 & E).
    rewrite bool_decide_eq_false_2 in E by done. by simplify_eq.
Qed.

(** The read of an attribute of the only row of a login. *)
Lemma select_attr_one attr d p v : db_wf d -> p ∈ t_passwd d -> get_attr attr p = Some v ->
  select_attr attr (p_login p) d = [v].
Proof.
  intros Hwf Hp Hv. unfold select_attr.
  rewrite (filter_unique p_login p) by (done || apply Hwf). simpl. rewrite Hv. apply row_order_singleton.
Qed.

Lemma QueryPasswdAttribute_calm attr w p v : calm w -> db_wf (w_db w) -> p ∈ t_passwd (w_db w) ->
  attr ∈ PasswdQueryAttributes -> get_attr attr p = Some v ->
  QueryPasswdAttribute (p_login p) attr w = (Ok v, w).
Proof.
  intros Hc Hwf Hp Ha Hv. unfold QueryPasswdAttribute, on_error. apply map_err_Ok.
  rewrite bool_decide_eq_false_2 by by intros ?.
  unfold user_must_exist, userExists, errorf, attempt, map_err, mbind, M_bind.
  rewrite query_calm, bool_decide_eq_true_2 by first [done | by apply list_elem_of_fmap_2].
  unfold mret, M_ret. by rewrite query_row_calm, (select_attr_one attr _ p v) by done.
Qed.

(** UpdateUserAttribute changes gecos, home and shell only, and for an
    existing user only: it succeeds for no other attribute, it leaves every
    other row and the other tables alone, and what it wrote is what
    QueryPasswdAttribute reads from then on. A failed call changes nothing. *)
Theorem UpdateUserAttribute_effect login attr s w r w' :
  UpdateUserAttribute login attr (VText s) w = (r, w') -> db_wf (w_db w) ->
  (r <> Ok tt /\ w_db w' = w_db w) \/
  (r = Ok tt /\ attr ∈ PasswdUpdateAttributes /\ login ∈ (p_login <$> t_passwd (w_db w))
   /\ (forall q, p_login q <> login -> q ∈ t_passwd (w_db w') <-> q ∈ t_passwd (w_db w))
   /\ t_groups (w_db w') = t_groups (w_db w) /\ t_uid_gid (w_db w') = t_uid_gid (w_db w)
   /\ t_shadow (w_db w') = t_shadow (w_db w)
   /\ forall w2, w_db w2 = w_db w' -> calm w2 -> QueryPasswdAttribute login attr w2 = (Ok (VText s), w2)).
Proof.
  intros [(-> & Ha & Hl & Hu)|?]%UpdateUserAttribute_inv Hwf; [right|by left].
  pose proof (update_attr_inv _ _ _ _ _ Hu) as (E1 & E2 & E3 & _).
  split_and!; [done..| |done|done|done|].
  - intros q. by eapply update_attr_other.
  - intros w2 Ed Hc. apply list_elem_of_fmap in Hl as (p & -> & Hp).
    destruct (update_attr_row _ _ _ _ _ p Hu Hp eq_refl) as (p' & Hp' & <- & Hset).
    apply QueryPasswdAttribute_calm; rewrite ?Ed; [done|by eapply update_attr_wf|done| |].
    + revert Ha. unfold PasswdUpdateAttributes, PasswdQueryAttributes. rewrite !elem_of_cons. tauto.
    + by apply get_set_attr in Hset.
Qed.

(** ** Groups *)

(** The concatenated rows of one group are its row and its members. *)
Lemma select_group_one where_ d g : filter (fun g' => where_ g' = true) (t_groups d) = [g] ->
  members_of d (g_gid g) <> [] ->
  exists ms, ms ≡ₚ members_of d (g_gid g) /\
    select_group where_ d = [GroupCols (Some (g_name g)) (g_password g) (Some (g_gid g)) (Some (Join "," ms))].
Proof.
  intros Hf Hm. unfold select_group, group_rows. rewrite Hf. csimpl. rewrite app_nil_r.
  set (rows := row_order _). exists rows.*2.
  assert (rows ≡ₚ (fun m => (g, m)) <$> members_of d (g_gid g)) as Hp by apply row_order_perm.
  split; [rewrite Hp, <- list_fmap_compose; by rewrite list_fmap_id|].
  assert (forall x, x ∈ rows -> x.1 = g) as Hg.
  { intros x Hx. rewrite Hp in Hx. by apply list_elem_of_fmap in Hx as (m & -> & _). }
  destruct rows as [|[g0 m] rows]; [|by rewrite <- (Hg (g0, m)) by by constructor].
  exfalso. apply Hm, (fmap_nil_inv (fun m => (g, m))). by apply Permutation_nil.
Qed.

Lemma scan_group_members w (q : database -> list group_cols) g pw ms : calm w ->
  q (w_db w) = [GroupCols (Some (g_name g)) (Some pw) (Some (g_gid g)) (Some (Join "," ms))] ->
  ms <> [] -> Forall (no_byte ",") ms ->
  newGroupFromScanner (query_row q) w = (Ok (MkGroupRecord (g_name g) (g_gid g) pw ms), w).
Proof.
  intros Hc Hq Hne Hms. unfold newGroupFromScanner. apply map_err_Ok, bind_Ok.
  rewrite query_row_calm, Hq by done. do 2 eexists. split; [done|].
  unfold lift, scan_group, mbind, result_bind. simpl.
  change "," with (str1 ","). rewrite Split_Join by done. done.
Qed.

Lemma members_no_comma d gid : Forall (fun p => no_byte "," (p_login p)) (t_passwd d) ->
  Forall (no_byte ",") (members_of d gid).
Proof.
  rewrite !Forall_forall. intros Hl m (p & _ & Hp & _ & _ & _ & ->)%elem_of_members_of. by apply Hl.
Qed.

(** The members of a group travel through SQL as one string joined with
    commas; as long as no login contains a comma, asking for a group by its
    name or by its gid gives back exactly the logins that the tables link to
    it, each once per link, in some order. *)
Theorem GetGroup_members w g pw :
  calm w -> db_wf (w_db w) -> g ∈ t_groups (w_db w) -> g_password g = Some pw ->
  members_of (w_db w) (g_gid g) <> [] ->
  Forall (fun p => no_byte "," (p_login p)) (t_passwd (w_db w)) ->
  (exists ms, ms ≡ₚ members_of (w_db w) (g_gid g) /\
     GetGroupByName (g_name g) w = (Ok (MkGroupRecord (g_name g) (g_gid g) pw ms), w)) /\
  (exists ms, ms ≡ₚ members_of (w_db w) (g_gid g) /\
     GetGroupByGID (g_gid g) w = (Ok (MkGroupRecord (g_name g) (g_gid g) pw ms), w)).
Proof.
  intros Hc Hwf Hg Hpw Hne Hcomma.
  assert (forall where_, filter (fun g' => where_ g' = true) (t_groups (w_db w)) = [g] ->
    exists ms, ms ≡ₚ members_of (w_db w) (g_gid g) /\
      newGroupFromScanner (query_row (select_group where_)) w
      = (Ok (MkGroupRecord (g_name g) (g_gid g) pw ms), w)) as Hone.
  { intros where_ Hf. destruct (select_group_one _ _ _ Hf Hne) as (ms & Hp & Hs).
    exists ms. split; [done|]. rewrite Hpw in Hs. eapply scan_group_members; [done..| |].
    - intros ->. by apply Hne, Permutation_nil.
    - rewrite Hp. by apply members_no_comma. }
  split; [destruct (Hone (fun g' => bool_decide (g_name g' = g_name g))) as (ms & Hp & Hs)
         |destruct (Hone (fun g' => g_gid g' =? g_gid g)) as (ms & Hp & Hs)].
  - apply (filter_unique g_name); [|apply Hwf|done]. intros y. by rewrite bool_decide_eq_true.
  - exists ms. split; [done|]. by apply map_err_Ok.
  - apply (filter_unique g_gid); [|apply Hwf|done]. intros y. by rewrite Z.eqb_eq.
  - exists ms. split; [done|]. by apply map_err_Ok.
Qed.
End Theorems.

(** ** Concrete runs *)

Import Concrete.

(** Two users in a database and a cache that opened it read-write. *)
Definition cache_rw : Cache :=
  MkCache shadowRWMode 90 None None None 1 30000000000
    (Options "/var/lib/aad/cache" 0 0 (-1) (-1) 420 416 30000000000 90).

Definition alice : UserRecord :=
  MkUserRecord "alice@d" "" 200000 200000 "" "/home/alice" "/bin/sh" (Second * 1000) "h1".
Definition bob : UserRecord :=
  MkUserRecord "bob@d" "" 300000 300000 "" "/home/bob" "/bin/sh" (Second * 9000000000) "h2".

Definition two_db : database := user_inserted bob (user_inserted alice empty_db).

Lemma empty_db_wf : db_wf empty_db.
Proof. split; simpl; constructor. Qed.

Lemma alice_fresh : fresh_user alice empty_db.
Proof. split; by apply (bool_decide_unpack _); vm_compute. Qed.

Lemma bob_fresh : fresh_user bob (user_inserted alice empty_db).
Proof. split; by apply (bool_decide_unpack _); vm_compute. Qed.

Lemma two_db_wf : db_wf two_db.
Proof. apply user_inserted_wf, user_inserted_wf, empty_db_wf; [apply bob_fresh|apply alice_fresh]. Qed.

Lemma two_db_coherent : coherent two_db.
Proof. apply coherent_inserted, coherent_inserted, coherent_empty; done. Qed.

(** The last of the four statements fails: nothing is written. *)
Example insertUser_rolled_back : exists e,
  insertUser cache_rw alice (World empty_db [None; None; None; None; Some "disk full"] 0 0)
    = (Err e, World empty_db [] 0 0).
Proof. eexists. vm_compute. reflexivity. Qed.

Lemma insertUser_lookup_witness :
  GetUserByName cache_rw "bob@d" (World two_db [] 0 0)
  = (Ok (MkUserRecord "bob@d" "x" 300000 300000 "" "/home/bob" "/bin/sh" (Second * 9000000000) "h2"),
     World two_db [] 0 0).
Proof.
  exact (proj1 (proj2 (insertUser_lookup cache_rw cache_rw bob (World (user_inserted alice empty_db) [] 0 0)
    eq_refl (user_inserted_wf _ _ alice_fresh empty_db_wf) eq_refl bob_fresh))).
Defined.

(** Ninety days kept twice: alice is purged, bob is not. *)
Definition purge_instant : Z := 9000000000 * Second.
Definition purged_two_db : database := purged (purge_time purge_instant (2 * 90 * 24 * Hour)) two_db.

Lemma cleanUpDB_effect_witness :
  cleanUpDB (2 * 90 * 24 * Hour) (World two_db [] purge_instant 0) = (Ok tt, World purged_two_db [] purge_instant 0)
  /\ coherent purged_two_db /\ length (t_passwd purged_two_db) = 1%nat.
Proof.
  assert (cleanUpDB (2 * 90 * 24 * Hour) (World two_db [] purge_instant 0)
    = (Ok tt, World purged_two_db [] purge_instant 0)) as E by (vm_compute; reflexivity).
  split; [exact E|].
  destruct (cleanUpDB_effect _ (World two_db [] purge_instant 0) _ _ E two_db_wf two_db_coherent)
    as [[H _]|(_ & _ & Hco & _)]; [by destruct H|].
  split; [exact Hco|vm_compute; reflexivity].
Defined.

Lemma UpdateUserAttribute_effect_witness : exists w',
  UpdateUserAttribute "bob@d" "shell" (VText "/bin/zsh") (World two_db [] 0 0) = (Ok tt, w')
  /\ QueryPasswdAttribute "bob@d" "shell" w' = (Ok (VText "/bin/zsh"), w').
Proof.
  destruct (UpdateUserAttribute "bob@d" "shell" (VText "/bin/zsh") (World two_db [] 0 0)) as [r w'] eqn:E.
  exists w'. assert (r = Ok tt /\ w_faults w' = []) as [-> Hc].
  { revert E. vm_compute. by intros [= <- <-]. }
  split; [done|].
  destruct (UpdateUserAttribute_effect "bob@d" "shell" "/bin/zsh" _ _ _ E two_db_wf)
    as [[H _]|(_ & _ & _ & _ & _ & _ & _ & Hq)]; [by destruct H|].
  by apply Hq.
Defined.

Lemma GetGroup_members_witness : exists ms,
  GetGroupByName "bob@d" (World two_db [] 0 0) = (Ok (MkGroupRecord "bob@d" 300000 "x" ms), World two_db [] 0 0)
  /\ ms ≡ₚ ["bob@d"].
Proof.
  destruct (GetGroup_members (World two_db [] 0 0) (GroupRow "bob@d" (Some "x") 300000) "x") as [(ms & Hp & E) _].
  - reflexivity.
  - exact two_db_wf.
  - apply (bool_decide_unpack _). vm_compute. done.
  - reflexivity.
  - vm_compute. discriminate.
  - repeat constructor; apply (bool_decide_unpack _); vm_compute; done.
  - exists ms. split; [exact E|exact Hp].
Defined.
