(* ===== verification/CacheIter.v ===== *)
(** * internal/cache: the three iterators over a cache handle

    NextPasswdEntry, NextGroupEntry and NextShadowEntry share their protocol:
    the first call opens a cursor, each call returns a row, the call after the
    last one returns ErrNoEnt and closes the cursor, so that the next call
    starts again. *)

From S2P Require Import Prelude GoStrings Interfaces Tables CacheDB CacheFacts CacheTheorems.
Open Scope string_scope.
Open Scope list_scope.
Open Scope Z_scope.

(** ** The order of ORDER BY *)

Lemma ascii_compare_lt_trans a b c :
  Ascii.compare a b = Lt -> Ascii.compare b c = Lt -> Ascii.compare a c = Lt.
Proof. unfold Ascii.compare. rewrite !N.compare_lt_iff. lia. Qed.

Lemma string_compare_trans s t u : String.compare s t <> Gt -> String.compare t u <> Gt ->
  String.compare s u <> Gt.
Proof.
  revert t u. induction s as [|a s IH]; intros [|b t] [|c u]; try done. simpl.
  destruct (Ascii.compare a b) eqn:E1; [|intros _|done].
  - apply Ascii.compare_eq_iff in E1 as ->. destruct (Ascii.compare b c); [apply IH|done..].
  - destruct (Ascii.compare b c) eqn:E2; [|intros _|done].
    + apply Ascii.compare_eq_iff in E2 as ->. by rewrite E1.
    + by rewrite (ascii_compare_lt_trans _ _ _ E1 E2).
Qed.

Lemma string_leb_iff s t : String.leb s t = true <-> String.compare s t <> Gt.
Proof. unfold String.leb. by destruct (String.compare s t). Qed.

#[export] Instance string_le_trans : Transitive string_le.
Proof. intros s t u. unfold string_le. rewrite !string_leb_iff. apply string_compare_trans. Qed.

#[export] Instance login_le_trans : Transitive login_le.
Proof. intros p q r. unfold login_le. apply string_le_trans. Qed.

#[export] Instance login_le_total : Total login_le.
Proof. intros p q. apply String.leb_total. Qed.

#[export] Instance string_le_total : Total string_le.
Proof. intros p q. apply String.leb_total. Qed.

(** ** Draining an iterator *)

(** A loop that asks for entries until it is told that there are none, by
    the error [stop]. *)
Fixpoint drain_until {S Rec} (stop : sentinel) (next : M S Rec) (fuel : nat) : M S (list Rec) :=
  match fuel with
  | O => lift (Panic "out of fuel")
  | Datatypes.S fuel =>
      r ← attempt next;
      match r with
      | inl x => xs ← drain_until stop next fuel; mret (x :: xs)
      | inr e => if errors_is e stop then mret [] else fail e
      end
  end.

Lemma drain_row {S Rec} stop (next : M S Rec) n s x s' : next s = (Ok x, s') ->
  drain_until stop next (Datatypes.S n) s = (xs ← drain_until stop next n; mret (x :: xs)) s'.
Proof. intros E. cbn [drain_until]. unfold mbind at 1, M_bind, attempt. by rewrite E. Qed.

Lemma drain_end {S Rec} stop (next : M S Rec) n s e s' : next s = (Err e, s') -> errors_is e stop = true ->
  drain_until stop next (Datatypes.S n) s = (Ok [], s').
Proof. intros E He. cbn [drain_until]. unfold mbind, M_bind, attempt. by rewrite E, He. Qed.

(** Of the cache. *)
Abbreviation drain := (drain_until ErrNoEnt).

Section Iteration.
Context {Row Rec : Type}.
Variable cursor : Cache -> option (sql_rows Row).
Variable set_cursor : option (sql_rows Row) -> Cache -> Cache.
Variable run_query : Cache -> M world (list Row).
Variable scan : M (Cache * world) Row -> M (Cache * world) Rec.
Variables read_failed close_failed : string.

Hypothesis get_set : forall r c, cursor (set_cursor r c) = r.
Hypothesis set_set : forall r r' c, set_cursor r (set_cursor r' c) = set_cursor r c.
Hypothesis set_get : forall c, set_cursor (cursor c) c = c.

Abbreviation next := (next_entry cursor set_cursor run_query scan read_failed).
Abbreviation close := (close_iterator cursor set_cursor close_failed).

(** [scan] reads the row [x] as the record [y]. *)
Definition reads (x : Row) (y : Rec) : Prop := forall s, scan (mret x) s = (Ok y, s).

Lemma next_row x l y c w : calm w -> cursor c = Some (SqlRows (x :: l) false) -> reads x y ->
  next (c, w) = (Ok y, (set_cursor (Some (SqlRows l false)) c, w)).
Proof.
  intros Hw Hc Hy. unfold next_entry, open_cursor, on_world, put_cursor, rows_next. unfold_m. simpl.
  rewrite Hc. simpl. rewrite driver_calm by done. simpl. unfold reads, mret, M_ret in Hy. by rewrite Hy.
Qed.

Lemma next_end c w : calm w -> cursor c = Some (SqlRows [] false) ->
  next (c, w) = (Err (Sentinel ErrNoEnt), (set_cursor None c, w)).
Proof.
  intros Hw Hc. unfold next_entry, open_cursor, on_world, put_cursor, rows_next, rows_close. unfold_m. simpl.
  rewrite Hc. simpl. rewrite driver_calm by done. simpl. by rewrite set_set.
Qed.

(** The first call opens the cursor. *)
Lemma next_first rows c w : cursor c = None -> run_query c w = (Ok rows, w) ->
  next (c, w) = next (set_cursor (Some (SqlRows rows false)) c, w).
Proof.
  intros Hc Hq. unfold next_entry, open_cursor, on_world, put_cursor. unfold_m. simpl.
  rewrite Hc. simpl. rewrite Hq. simpl. rewrite get_set. simpl. done.
Qed.

Lemma drain_open l ys c w : calm w -> cursor c = Some (SqlRows l false) -> Forall2 reads l ys ->
  drain next (S (length ys)) (c, w) = (Ok ys, (set_cursor None c, w)).
Proof.
  intros Hw Hc Hl. revert c Hc. induction Hl as [|x y l ys Hy Hl IH]; intros c Hc.
  - eapply drain_end; [by apply next_end|done].
  - cbn [length]. erewrite drain_row by by apply (next_row x l y).
    unfold mbind, M_bind. rewrite IH by apply get_set. unfold mret, M_ret. by rewrite set_set.
Qed.

(** From a closed cursor: all rows, then the cursor is closed again. *)
Lemma drain_all rows ys c w : calm w -> cursor c = None -> run_query c w = (Ok rows, w) ->
  Forall2 reads rows ys -> drain next (S (length ys)) (c, w) = (Ok ys, (c, w)).
Proof.
  intros Hw Hc Hq Hl.
  assert (drain next (S (length ys)) (c, w)
    = drain next (S (length ys)) (set_cursor (Some (SqlRows rows false)) c, w)) as ->.
  { cbn [drain_until]. unfold attempt, mbind, M_bind. by rewrite (next_first rows). }
  rewrite (drain_open rows) by first [done | apply get_set]. by rewrite set_set, <- Hc, set_get.
Qed.

(** A failure of the driver while the rows are read ends the iteration as
    if there were no more rows. *)
Lemma next_fault x l msg fs c w : w_faults w = Some msg :: fs -> cursor c = Some (SqlRows (x :: l) false) ->
  next (c, w) = (Err (Sentinel ErrNoEnt), (set_cursor None c, set_faults fs w)).
Proof.
  intros Hw Hc. unfold next_entry, open_cursor, on_world, put_cursor, rows_next, rows_close, driver.
  unfold_m. simpl. rewrite Hc. simpl. rewrite Hw. simpl. by rewrite set_set.
Qed.

(** Close leaves no cursor, whether the driver accepts or not. *)
Lemma close_resets c w : cursor (close (c, w)).2.1 = None.
Proof.
  unfold close_iterator, on_world, put_cursor, rows_close. unfold_m. simpl.
  destruct (cursor c) as [[l []]|] eqn:E; simpl; [apply get_set| |done].
  destruct (driver w) as [[] w'] eqn:Ed; simpl; try apply get_set.
  exfalso. eapply np_driver. by rewrite Ed.
Qed.
End Iteration.

(** ** The iterators of the package *)

Section Iterators.
Context `{Decorator} `{RowOrder}.

Definition user_of_row (p : passwd_row) (u : UserRecord) : Prop :=
  scan_user (user_cols_of (Some "") p) = Ok u.

Lemma reads_user p u : user_of_row p u -> reads newUserFromScanner (user_cols_of (Some "") p) u.
Proof.
  intros Hu s. unfold newUserFromScanner, map_err, lift, mbind, M_bind, mret, M_ret.
  unfold user_of_row in Hu. by rewrite Hu.
Qed.

(** The records of rows that can all be read. *)
Lemma readable_records (ps : list passwd_row) :
  Forall (fun p => is_ok (scan_user (user_cols_of (Some "") p)) = true) ps ->
  exists us, Forall2 user_of_row ps us.
Proof.
  induction 1 as [|p ps Hp _ [us Hus]]; [by exists []|].
  destruct (scan_user (user_cols_of (Some "") p)) as [u| |] eqn:E; [|done..].
  exists (u :: us). by constructor.
Qed.

Lemma records_names ps us : Forall2 user_of_row ps us -> Name <$> us = p_login <$> ps.
Proof.
  induction 1 as [|p u ps us Hu _ IH]; [done|]. csimpl. rewrite IH. f_equal.
  apply scan_user_Ok in Hu as (E & _). simpl in E. congruence.
Qed.

Lemma sorted_logins d : StronglySorted string_le (p_login <$> merge_sort login_le (t_passwd d)).
Proof.
  assert (StronglySorted login_le (merge_sort login_le (t_passwd d))) as Hs
    by (apply (StronglySorted_merge_sort login_le)).
  induction Hs as [|p ps _ IH Hp]; csimpl; constructor; [done|].
  apply Forall_fmap. by eapply Forall_impl.
Qed.

(** From a closed iterator, asking for entries until ErrNoEnt yields the
    record of every passwd row once, in the order of the logins, and leaves
    the handle as it was, ready to start again. *)
Theorem NextPasswdEntry_all c w :
  calm w -> cursorPasswd c = None ->
  Forall (fun p => is_ok (scan_user (user_cols_of (Some "") p)) = true) (t_passwd (w_db w)) ->
  exists us ps, drain NextPasswdEntry (S (length us)) (c, w) = (Ok us, (c, w))
    /\ ps ≡ₚ t_passwd (w_db w) /\ Forall2 user_of_row ps us /\ StronglySorted string_le (Name <$> us).
Proof.
  intros Hw Hc Hr. set (ps := merge_sort login_le (t_passwd (w_db w))).
  assert (ps ≡ₚ t_passwd (w_db w)) as Hp by apply merge_sort_Permutation.
  destruct (readable_records ps) as [us Hus]; [by rewrite Hp|].
  exists us, ps. split_and!; [|done|done|].
  - apply (drain_all cursorPasswd set_cursorPasswd) with (rows := user_cols_of (Some "") <$> ps);
      [done|done|by intros []|done|done|by rewrite query_calm|].
    apply Forall2_fmap_l. eapply Forall2_impl; [done|]. apply reads_user.
  - rewrite (records_names ps us) by done. apply sorted_logins.
Qed.

(** When a driver call fails while the rows are read, NextPasswdEntry
    reports ErrNoEnt, exactly as at the end of the table: the caller takes a
    truncated listing for a complete one. *)
Theorem NextPasswdEntry_fault c w row rows msg faults :
  w_faults w = Some msg :: faults -> cursorPasswd c = Some (SqlRows (row :: rows) false) ->
  NextPasswdEntry (c, w) = (Err (Sentinel ErrNoEnt), (set_cursorPasswd None c, set_faults faults w)).
Proof. intros Hw Hc. by eapply (next_fault cursorPasswd set_cursorPasswd). Qed.

(** ** Groups *)

(** The record of a group, with its members in some order. *)
Definition group_of_row (d : database) (g : group_row) (r : GroupRecord) : Prop :=
  exists pw ms, g_password g = Some pw /\ ms ≡ₚ members_of d (g_gid g)
    /\ r = MkGroupRecord (g_name g) (g_gid g) pw ms.

Lemma reads_group (cols : group_cols) r : scan_group cols = Ok r -> reads newGroupFromScanner cols r.
Proof.
  intros Hr s. unfold newGroupFromScanner, map_err, lift, mbind, M_bind, mret, M_ret. by rewrite Hr.
Qed.

(** One row of the listing per name. *)
Lemma select_group_name d g pw : db_wf d -> g ∈ t_groups d -> g_password g = Some pw ->
  members_of d (g_gid g) <> [] -> Forall (fun p => no_byte "," (p_login p)) (t_passwd d) ->
  exists cols r, select_group (fun g' => bool_decide (g_name g' = g_name g)) d = [cols]
    /\ scan_group cols = Ok r /\ group_of_row d g r.
Proof.
  intros Hwf Hg Hpw Hne Hcomma.
  destruct (select_group_one (fun g' => bool_decide (g_name g' = g_name g)) d g) as (ms & Hp & Hs); [|done|].
  { apply (filter_unique g_name); [|apply Hwf|done]. intros y. by rewrite bool_decide_eq_true. }
  rewrite Hpw in Hs. eexists _, (MkGroupRecord (g_name g) (g_gid g) pw ms).
  split; [done|]. split; [|by exists pw, ms].
  unfold scan_group, mbind, result_bind. simpl. change "," with (str1 ",").
  rewrite Split_Join; [done|by intros ->; apply Hne, Permutation_nil|].
  rewrite Hp. by apply members_no_comma.
Qed.

Lemma all_groups_rows d names : db_wf d -> names ⊆ g_name <$> t_groups d ->
  Forall (fun g => is_Some (g_password g) /\ members_of d (g_gid g) <> []) (t_groups d) ->
  Forall (fun p => no_byte "," (p_login p)) (t_passwd d) ->
  exists rs, Forall2 (reads newGroupFromScanner)
      (names ≫= fun name => select_group (fun g => bool_decide (g_name g = name)) d) rs
    /\ Forall (fun r => exists g, g ∈ t_groups d /\ group_of_row d g r) rs /\ gName <$> rs = names.
Proof.
  intros Hwf Hsub Hall Hcomma. induction names as [|name names IH]; [exists []; by repeat constructor|].
  destruct IH as (rs & Hrs & Hgs & Hn); [by intros x Hx; apply Hsub; constructor|].
  assert (name ∈ g_name <$> t_groups d) as (g & -> & Hg)%list_elem_of_fmap by (apply Hsub; by constructor).
  rewrite Forall_forall in Hall. destruct (Hall g Hg) as [[pw Hpw] Hne].
  destruct (select_group_name d g pw) as (cols & r & Hs & Hr & Hgr); [done..|].
  exists (r :: rs). csimpl. rewrite Hs. split_and!.
  - constructor; [by apply reads_group|done].
  - constructor; [by exists g|done].
  - rewrite Hn. f_equal. by destruct Hgr as (? & ? & _ & _ & ->).
Qed.

(** From a closed iterator, asking for group entries until ErrNoEnt
    yields every group that has a member once, in the order of the names,
    each with the logins that the tables link to it. *)
Theorem NextGroupEntry_all c w :
  calm w -> db_wf (w_db w) -> cursorGroup c = None ->
  Forall (fun g => is_Some (g_password g) /\ members_of (w_db w) (g_gid g) <> []) (t_groups (w_db w)) ->
  Forall (fun p => no_byte "," (p_login p)) (t_passwd (w_db w)) ->
  exists rs, drain NextGroupEntry (S (length rs)) (c, w) = (Ok rs, (c, w))
    /\ (gName <$> rs) ≡ₚ (g_name <$> t_groups (w_db w)) /\ StronglySorted string_le (gName <$> rs)
    /\ Forall (fun r => exists g, g ∈ t_groups (w_db w) /\ group_of_row (w_db w) g r) rs.
Proof.
  intros Hw Hwf Hc Hall Hcomma.
  set (names := merge_sort string_le (remove_dups (g_name <$> t_groups (w_db w)))).
  assert (names ≡ₚ g_name <$> t_groups (w_db w)) as Hp.
  { unfold names. rewrite merge_sort_Permutation. apply NoDup_Permutation; [apply NoDup_remove_dups|apply Hwf|].
    intros x. apply elem_of_remove_dups. }
  destruct (all_groups_rows (w_db w) names) as (rs & Hrs & Hgs & Hn); [done|by intros x; rewrite Hp|done..|].
  exists rs. rewrite Hn. split_and!; [|done| |done].
  - apply (drain_all cursorGroup set_cursorGroup) with (rows := select_all_groups (w_db w));
      [done|done|by intros []|done|done|by rewrite query_calm|exact Hrs].
  - apply StronglySorted_merge_sort; apply _.
Qed.

(** ** Shadow *)

Definition shadow_of_rows (ps : passwd_row * shadow_row) : ShadowRecord :=
  let '(p, s) := ps in
  MkShadowRecord (p_login p) (s_password s) (s_last_pwd_change s) (s_max_pwd_age s)
    (s_pwd_warn_period s) (s_pwd_inactivity s) (s_min_pwd_age s) (s_expiration_date s).

(** From a closed iterator of a handle that can read the shadow
    database, asking for shadow entries until ErrNoEnt yields one record per
    pair of a passwd row and its shadow row; without that access the first
    call is an error that is not ErrNoEnt. *)
Theorem NextShadowEntry_all c w : calm w -> cursorShadow c = None ->
  (ShadowReadable c = true -> exists rows, rows ≡ₚ join_shadow (t_passwd (w_db w)) (t_shadow (w_db w)) /\
     drain NextShadowEntry (S (length rows)) (c, w) = (Ok (shadow_of_rows <$> rows), (c, w))) /\
  (ShadowReadable c = false -> exists e, NextShadowEntry (c, w) = (Err e, (c, w)) /\ errors_is e ErrNoEnt = false).
Proof.
  intros Hw Hc. unfold ShadowReadable. split; intros Hm.
  - set (rows := row_order (join_shadow (t_passwd (w_db w)) (t_shadow (w_db w)))).
    exists rows. split; [apply row_order_perm|].
    rewrite <- (length_fmap shadow_of_rows rows).
    apply (drain_all cursorShadow set_cursorShadow) with (rows := rows); [done|done|by intros []|done|done| |].
    + unfold query_all_shadow. rewrite Hm. by rewrite query_calm.
    + clear. induction rows as [|[p s] rows IH]; csimpl; constructor; [by intros ?|done].
  - eexists. split.
    + unfold NextShadowEntry, next_entry, open_cursor, on_world, query_all_shadow. unfold_m. simpl.
      rewrite Hc. simpl. rewrite Hm. by rewrite driver_calm.
    + done.
Qed.
End Iterators.

(** ** Concrete runs *)

Import Concrete.

Lemma NextPasswdEntry_all_witness : exists us,
  drain NextPasswdEntry (S (length us)) (cache_rw, World two_db [] 0 0) = (Ok us, (cache_rw, World two_db [] 0 0))
  /\ StronglySorted string_le (Name <$> us).
Proof.
  destruct (NextPasswdEntry_all cache_rw (World two_db [] 0 0)) as (us & ps & E & _ & _ & Hs).
  - reflexivity.
  - reflexivity.
  - repeat constructor.
  - exists us. split; [exact E|exact Hs].
Defined.

Lemma NextPasswdEntry_fault_witness : exists c',
  NextPasswdEntry (set_cursorPasswd (Some (SqlRows (select_all_passwd two_db) false)) cache_rw,
                   World two_db [Some "disk I/O error"] 0 0)
  = (Err (Sentinel ErrNoEnt), (c', World two_db [] 0 0)).
Proof.
  eexists. exact (NextPasswdEntry_fault
    (set_cursorPasswd (Some (SqlRows (select_all_passwd two_db) false)) cache_rw)
    (World two_db [Some "disk I/O error"] 0 0) _ _ "disk I/O error" [] eq_refl eq_refl).
Defined.

Lemma NextGroupEntry_all_witness : exists rs,
  drain NextGroupEntry (S (length rs)) (cache_rw, World two_db [] 0 0) = (Ok rs, (cache_rw, World two_db [] 0 0))
  /\ (gName <$> rs) ≡ₚ ["alice@d"; "bob@d"].
Proof.
  destruct (NextGroupEntry_all cache_rw (World two_db [] 0 0)) as (rs & E & Hp & _ & _).
  - reflexivity.
  - exact two_db_wf.
  - reflexivity.
  - repeat constructor; try (by eexists); vm_compute; discriminate.
  - repeat constructor; apply (bool_decide_unpack _); vm_compute; done.
  - exists rs. split; [exact E|exact Hp].
Defined.

Lemma NextShadowEntry_all_witness : exists rows,
  drain NextShadowEntry (S (length rows)) (cache_rw, World two_db [] 0 0)
    = (Ok (shadow_of_rows <$> rows), (cache_rw, World two_db [] 0 0))
  /\ length rows = 2%nat.
Proof.
  destruct (proj1 (NextShadowEntry_all cache_rw (World two_db [] 0 0) eq_refl eq_refl) eq_refl) as (rows & Hp & E).
  exists rows. split; [exact E|]. by rewrite Hp.
Defined.
