(* ===== verification/CacheOpen.v ===== *)
(** * internal/cache: opening a cache

    The options, initDB with its checks of ownership and permission, New and
    Close with the registry of opened caches and the delayed teardown. The
    state is that of the process and of the cache directories it sees. *)

From S2P Require Import Prelude GoStrings Interfaces Tables CacheDB CacheFacts HomeDir UidGen CacheAuth.
Open Scope string_scope.
Open Scope list_scope.
Open Scope Z_scope.

(** ** Options *)

#[export] Instance options_countable : Countable options.
Proof.
  refine (inj_countable'
    (fun o => (o_cacheDir o, (o_rootUID o, o_rootGID o, o_shadowGID o, o_forceShadowMode o,
               o_passwdPermission o, o_shadowPermission o, o_teardownDuration o, o_offlineCredentialsExpiration o)))
    (fun '(d, (a, b, c, e, f, g, h, i)) => Options d a b c e f g h i) _).
  by intros [].
Defined.

Definition Option : Type := options -> result options.

Definition WithCacheDir (p : string) : Option := fun o =>
  Ok (Options p (o_rootUID o) (o_rootGID o) (o_shadowGID o) (o_forceShadowMode o) (o_passwdPermission o)
        (o_shadowPermission o) (o_teardownDuration o) (o_offlineCredentialsExpiration o)).
Definition WithRootUID (uid : Z) : Option := fun o =>
  Ok (Options (o_cacheDir o) uid (o_rootGID o) (o_shadowGID o) (o_forceShadowMode o) (o_passwdPermission o)
        (o_shadowPermission o) (o_teardownDuration o) (o_offlineCredentialsExpiration o)).
Definition WithRootGID (gid : Z) : Option := fun o =>
  Ok (Options (o_cacheDir o) (o_rootUID o) gid (o_shadowGID o) (o_forceShadowMode o) (o_passwdPermission o)
        (o_shadowPermission o) (o_teardownDuration o) (o_offlineCredentialsExpiration o)).
Definition WithShadowGID (shadowGID : Z) : Option := fun o =>
  Ok (Options (o_cacheDir o) (o_rootUID o) (o_rootGID o) shadowGID (o_forceShadowMode o) (o_passwdPermission o)
        (o_shadowPermission o) (o_teardownDuration o) (o_offlineCredentialsExpiration o)).
Definition WithShadowMode (mode : Z) : Option := fun o =>
  Ok (Options (o_cacheDir o) (o_rootUID o) (o_rootGID o) (o_shadowGID o) mode (o_passwdPermission o)
        (o_shadowPermission o) (o_teardownDuration o) (o_offlineCredentialsExpiration o)).
Definition WithTeardownDuration (d : Z) : Option := fun o =>
  Ok (Options (o_cacheDir o) (o_rootUID o) (o_rootGID o) (o_shadowGID o) (o_forceShadowMode o)
        (o_passwdPermission o) (o_shadowPermission o) d (o_offlineCredentialsExpiration o)).
Definition WithOfflineCredentialsExpiration (days : Z) : Option := fun o =>
  Ok (Options (o_cacheDir o) (o_rootUID o) (o_rootGID o) (o_shadowGID o) (o_forceShadowMode o)
        (o_passwdPermission o) (o_shadowPermission o) (o_teardownDuration o) days).

(** 0644, 0640, 0755 *)
Definition perm_0644 : Z := 420.
Definition perm_0640 : Z := 416.

Definition defaultCachePath : string := "/var/lib/aad/cache".

Definition default_options : options :=
  Options defaultCachePath 0 0 (-1) (-1) perm_0644 perm_0640 (30 * Second) defaultCredentialsExpiration.

Fixpoint apply_options (opts : list Option) (o : options) : result options :=
  match opts with
  | [] => Ok o
  | opt :: opts => o ← opt o; apply_options opts o
  end.

(** ** The process and the files *)

Record file_meta := FileMeta { f_mode : Z; f_uid : Z; f_gid : Z }.

Inductive db_file := PasswdDB | ShadowDB.

(** A cache directory: its two files and the tables that they hold. *)
Record dir := Dir {
  d_passwd : option file_meta;
  d_shadow : option file_meta;
  d_tables : database;
}.

Definition no_dir : dir := Dir None None empty_db.

(** A *Cache and whether its database is still open. *)
Record handle := Handle { h_cache : Cache; h_open : bool }.

Record sys := Sys {
  s_dirs : gmap string dir;
  s_faults : list (option string);
  s_now : Z;
  s_entropy : nat;
  s_opened : gmap options nat;   (* openedCaches *)
  s_handles : gmap nat handle;   (* the heap of *Cache *)
  s_timers : list nat;           (* pending goroutines of Close *)
}.

Definition set_dirs (d : gmap string dir) (s : sys) : sys :=
  Sys d (s_faults s) (s_now s) (s_entropy s) (s_opened s) (s_handles s) (s_timers s).
Definition set_sfaults (f : list (option string)) (s : sys) : sys :=
  Sys (s_dirs s) f (s_now s) (s_entropy s) (s_opened s) (s_handles s) (s_timers s).
Definition set_opened (o : gmap options nat) (s : sys) : sys :=
  Sys (s_dirs s) (s_faults s) (s_now s) (s_entropy s) o (s_handles s) (s_timers s).
Definition set_handles (h : gmap nat handle) (s : sys) : sys :=
  Sys (s_dirs s) (s_faults s) (s_now s) (s_entropy s) (s_opened s) h (s_timers s).
Definition set_timers (t : list nat) (s : sys) : sys :=
  Sys (s_dirs s) (s_faults s) (s_now s) (s_entropy s) (s_opened s) (s_handles s) t.

(** A call to the operating system or to the database driver. *)
Definition syscall : M sys unit := fun s =>
  match s_faults s with
  | [] => (Ok tt, s)
  | None :: fs => (Ok tt, set_sfaults fs s)
  | Some msg :: fs => (Err (Opaque msg), set_sfaults fs s)
  end.

(** A call that may fail in the middle of its work: what is done then depends on
    the entropy. *)
Definition syscall_partly (partial : nat -> M sys unit) : M sys unit := fun s =>
  match syscall s with
  | (Err e, s') => (Err e, (partial (s_entropy s') s').2)
  | rs => rs
  end.

Definition dir_of (cacheDir : string) (s : sys) : dir := default no_dir (s_dirs s !! cacheDir).

Definition meta (f : db_file) (d : dir) : option file_meta :=
  match f with PasswdDB => d_passwd d | ShadowDB => d_shadow d end.

Definition set_meta (f : db_file) (m : option file_meta) (d : dir) : dir :=
  match f with
  | PasswdDB => Dir m (d_shadow d) (d_tables d)
  | ShadowDB => Dir (d_passwd d) m (d_tables d)
  end.

Definition on_dir (cacheDir : string) (g : dir -> dir) : M sys unit := fun s =>
  (Ok tt, set_dirs (<[cacheDir := g (dir_of cacheDir s)]> (s_dirs s)) s).

(** The tables of a directory as the state of an operation, and back. *)
Definition world_of (cacheDir : string) (s : sys) : world :=
  World (d_tables (dir_of cacheDir s)) (s_faults s) (s_now s) (s_entropy s).

Definition put_world (cacheDir : string) (w : world) (s : sys) : sys :=
  let d := dir_of cacheDir s in
  Sys (<[cacheDir := Dir (d_passwd d) (d_shadow d) (w_db w)]> (s_dirs s))
    (w_faults w) (s_now s) (w_entropy w) (s_opened s) (s_handles s) (s_timers s).

(** os.Stat *)
Definition stat (cacheDir : string) (f : db_file) : M sys file_meta :=
  syscall ;;
  step (fun s => match meta f (dir_of cacheDir s) with
                 | Some m => (Ok m, s)
                 | None => (Err (Sentinel OsErrNotExist), s)
                 end).

(** Permission of a process: bit 2 to read, bit 1 to write. *)
Definition may_access (euid : Z) (groups : list Z) (bit : Z) (m : file_meta) : bool :=
  (euid =? 0)
  || (let class := if f_uid m =? euid then 6
                   else if bool_decide (f_gid m ∈ groups) then 3 else 0 in
      Z.testbit (f_mode m) (class + bit)).

Section Open.
Context `{Decorator}.
(* the credentials of the process, and the group database *)
Variables euid egid : Z.
Variable groups : list Z.
Variable LookupGroup : string -> result string.
(* which file the n-th range over the map of files visits first *)
Variable passwd_first : nat -> bool.

Definition range_files (loop : nat) : list db_file :=
  if passwd_first loop then [PasswdDB; ShadowDB] else [ShadowDB; PasswdDB].

(** fileGOwner and filePermission; fileOwner is rootUID for both *)
Definition gowner (rootGID shadowGID : Z) (f : db_file) : Z :=
  match f with PasswdDB => rootGID | ShadowDB => shadowGID end.
Definition permission (passwdPermission shadowPermission : Z) (f : db_file) : Z :=
  match f with PasswdDB => passwdPermission | ShadowDB => shadowPermission end.

Definition checkFilePermission (cacheDir : string) (f : db_file) (owner gOwner perm : Z) : M sys unit :=
  on_error "failed checking file permission for %s"
    (info ← stat cacheDir f;
     if negb (f_mode info =? perm) then fail (Opaque "invalid file permission: %s instead of %s")
     else if negb ((owner =? f_uid info) && (gOwner =? f_gid info))
     then fail (Opaque "invalid ownership: %d:%d instead of %d:%d")
     else mret tt).

(** The first loop: a file is missing only if Stat says so. *)
Definition is_missing (cacheDir : string) (f : db_file) : M sys bool :=
  r ← attempt (stat cacheDir f);
  match r with
  | inl _ => mret false
  | inr e => mret (errors_is e OsErrNotExist)
  end.

Fixpoint needs_create (cacheDir : string) (fs : list db_file) : M sys bool :=
  match fs with
  | [] => mret false
  | f :: fs => b ← is_missing cacheDir f; b' ← needs_create cacheDir fs; mret (b || b')
  end.

(** os.RemoveAll: when it fails, it may have removed any of the two files. The rows
    of a file that is gone are not read any more: to open the directory, both
    files must be there, or it is removed first. *)
Definition some_removed (n : nat) (d : dir) : dir :=
  let d := if Nat.testbit n 0 then set_meta PasswdDB None d else d in
  if Nat.testbit n 1 then set_meta ShadowDB None d else d.

Definition removeAll (cacheDir : string) : M sys unit :=
  syscall_partly (fun n => on_dir cacheDir (some_removed n)) ;;
  on_dir cacheDir (fun _ => no_dir).

(** The first statement of the schema makes the file. When the schema fails the
    file may be there, with a part of its tables: the statements on those that
    are missing are calls of the driver that fail. *)
Definition made (f : db_file) : dir -> dir := set_meta f (Some (FileMeta perm_0644 euid egid)).

Definition exec_schema (cacheDir : string) (f : db_file) : M sys unit :=
  syscall_partly (fun n => if Nat.testbit n 0 then on_dir cacheDir (made f) else mret tt) ;;
  on_dir cacheDir (made f).

(** One turn of the creating loop: sql.Open, the schema, Chown, Chmod. *)
Definition create_file (cacheDir : string) (owner gOwner perm : Z) (f : db_file) : M sys unit :=
  syscall ;;
  errorf "failed to create table: %w" (exec_schema cacheDir f) ;;
  errorf "fixing ownership failed: %w" syscall ;;
  on_dir cacheDir (fun d => set_meta f ((fun m => FileMeta (f_mode m) owner gOwner) <$> meta f d) d) ;;
  errorf "fixing permission failed: %w" syscall ;;
  on_dir cacheDir (fun d => set_meta f ((fun m => FileMeta perm (f_uid m) (f_gid m)) <$> meta f d) d).

Fixpoint each_file (body : db_file -> M sys unit) (fs : list db_file) : M sys unit :=
  match fs with [] => mret tt | f :: fs => body f ;; each_file body fs end.

(** unix.Faccessat(..., AT_EACCESS) == nil *)
Definition accessible (cacheDir : string) (bit : Z) : M sys bool :=
  r ← attempt syscall;
  s ← get;
  match r, d_shadow (dir_of cacheDir s) with
  | inl _, Some m => mret (may_access euid groups bit m)
  | _, _ => mret false
  end.

Definition shadow_access (cacheDir : string) : M sys Z :=
  r ← accessible cacheDir 2;
  w ← accessible cacheDir 1;
  mret (if w : bool then shadowRWMode else if r : bool then shadowROMode else shadowNotAvailableMode).

Definition initDB (cacheDir : string)
    (rootUID rootGID shadowGID forceShadowMode passwdPermission shadowPermission : Z) : M sys Z :=
  on_error "couldn't initiate database"
    (needsCreate ← needs_create cacheDir (range_files 0);
     (if needsCreate : bool then
        if negb ((euid =? rootUID) && (egid =? rootGID)) then
          fail (Opaque "cache creation can only be done by root user")
        else
          removeAll cacheDir ;;
          syscall ;;
          each_file (fun f => create_file cacheDir rootUID (gowner rootGID shadowGID f)
                                (permission passwdPermission shadowPermission f) f) (range_files 1)
      else mret tt) ;;
     each_file (fun f => checkFilePermission cacheDir f rootUID (gowner rootGID shadowGID f)
                           (permission passwdPermission shadowPermission f)) (range_files 2) ;;
     syscall ;;
     shadowMode ← (if forceShadowMode =? -1 then shadow_access cacheDir else mret forceShadowMode);
     (if shadowNotAvailableMode <? shadowMode then syscall else mret tt) ;;
     mret shadowMode).

Definition with_tables {A} (cacheDir : string) (m : M world A) : M sys A := fun s =>
  let '(r, w) := m (world_of cacheDir s) in
  (r, put_world cacheDir w s).

Definition shadow_gid (o : options) : M sys Z :=
  if o_shadowGID o <? 0 then
    gid ← errorf "failed to find group id for group shadow: %w" (lift (LookupGroup "shadow"));
    errorf "failed to read shadow group id: %w" (lift (Atoi gid))
  else mret (o_shadowGID o).

Definition new_cache (o : options) (mode : Z) : Cache :=
  MkCache mode (o_offlineCredentialsExpiration o) None None None 1 (o_teardownDuration o) o.

Definition set_usedBy (n : Z) (c : Cache) : Cache :=
  MkCache (shadowMode c) (offlineCredentialsExpiration c) (cursorPasswd c) (cursorGroup c)
    (cursorShadow c) n (teardownDuration c) (sig c).

(** The branch of New that opens the database: the new handle. *)
Definition open_cache (o : options) : M sys nat :=
  gid ← shadow_gid o;
  mode ← initDB (o_cacheDir o) (o_rootUID o) (o_rootGID o) gid (o_forceShadowMode o)
           (o_passwdPermission o) (o_shadowPermission o);
  (if (mode =? shadowRWMode) && negb (o_offlineCredentialsExpiration o =? 0)
   then with_tables (o_cacheDir o) (cleanUpDB (maxCacheEntryDuration (o_offlineCredentialsExpiration o)))
   else mret tt) ;;
  step (fun s =>
    let h := fresh (dom (s_handles s)) in
    (Ok h, set_opened (<[o := h]> (s_opened s))
             (set_handles (<[h := Handle (new_cache o mode) true]> (s_handles s)) s))).

(** Another user of an opened cache. *)
Definition reuse (h : nat) : M sys nat := fun s =>
  match s_handles s !! h with
  | Some (Handle c b) => (Ok h, set_handles (<[h := Handle (set_usedBy (usedBy c + 1) c) b]> (s_handles s)) s)
  | None => (Panic "nil pointer dereference", s)
  end.

Definition New (opts : list Option) : M sys nat :=
  on_error "couldn't open/create cache"
    (o ← lift (apply_options opts default_options);
     s ← get;
     match s_opened s !! o with
     | Some h => reuse h
     | None => open_cache o
     end).

(** Close: the last user starts the teardown timer. *)
Definition Close (h : nat) : M sys unit := fun s =>
  match s_handles s !! h with
  | None => (Panic "nil pointer dereference", s)
  | Some (Handle c b) =>
      let s' := set_handles (<[h := Handle (set_usedBy (usedBy c - 1) c) b]> (s_handles s)) s in
      if negb (usedBy c - 1 =? 0) then (Ok tt, s')
      else (Ok tt, set_timers (s_timers s ++ [h]) s')
  end.

(** Run an operation of a handle on the tables of its directory. *)
Definition run_on {A} (c : Cache) (m : M (Cache * world) A) (s : sys) : result A * Cache * sys :=
  let cacheDir := o_cacheDir (sig c) in
  let '(r, (c', w)) := m (c, world_of cacheDir s) in
  (r, c', put_world cacheDir w s).

(** Closing the iterators and the database: errors are only logged. *)
Definition close_all : M (Cache * world) unit :=
  attempt ClosePasswdIterator ;;
  attempt CloseGroupIterator ;;
  attempt CloseShadowIterator ;;
  attempt (on_world driver) ;;
  mret tt.

(** The body of the goroutine of Close once its delay has passed. *)
Definition teardown (h : nat) (s : sys) : sys :=
  match s_handles s !! h with
  | None => s
  | Some (Handle c b) =>
      if negb (usedBy c =? 0) then s
      else
        let '(_, c', s') := run_on c close_all s in
        set_opened (delete (sig c) (s_opened s'))
          (set_handles (<[h := Handle (set_usedBy (-1) c') false]> (s_handles s')) s')
  end.

(** The n-th pending goroutine runs. *)
Definition fire (n : nat) (s : sys) : sys :=
  match s_timers s !! n with
  | Some h => teardown h (set_timers (delete n (s_timers s)) s)
  | None => s
  end.
End Open.
