(* ===== verification/CacheLife.v ===== *)
(** * internal/cache: what opening, sharing and closing a cache guarantee

    The files that New accepts, who may create them, which access the handle
    gets, and the life of a handle: shared while it is in use, torn down only
    when its last user has closed it. *)

From S2P Require Import Prelude GoStrings Interfaces Tables CacheDB CacheFacts HomeDir UidGen CacheAuth.
From S2P Require Import CacheIter CacheOpen.
Open Scope string_scope.
Open Scope list_scope.
Open Scope Z_scope.

(** ** Frames of the calls to the system *)

(** The life of the handles is not touched. *)
Definition same_life (s s' : sys) : Prop :=
  s_opened s' = s_opened s /\ s_handles s' = s_handles s /\ s_timers s' = s_timers s.

(** Nor is any file. *)
Definition same_files (s s' : sys) : Prop := same_life s s' /\ s_dirs s' = s_dirs s.

#[export] Instance same_life_preorder : PreOrder same_life.
Proof. split; [done|]. intros s1 s2 s3 (?&?&?) (?&?&?). unfold same_life. split_and!; congruence. Qed.

#[export] Instance same_files_preorder : PreOrder same_files.
Proof.
  split; [done|]. intros s1 s2 s3 [? ?] [? ?]. split; [by etrans|congruence].
Qed.

Lemma files_life {A} (m : M sys A) : frames same_files m -> frames same_life m.
Proof. intros Hm s. apply Hm. Qed.

Lemma syscall_files : frames same_files syscall.
Proof. intros s. unfold syscall. by destruct (s_faults s) as [|[]]. Qed.

Lemma syscall_Err s e s' : syscall s = (Err e, s') -> exists msg, e = Opaque msg.
Proof. unfold syscall. destruct (s_faults s) as [|[msg|] fs]; intros [=]; eauto. Qed.

Lemma syscall_no_panic s why : (syscall s).1 <> Panic why.
Proof. unfold syscall. by destruct (s_faults s) as [|[]]. Qed.

Lemma stat_files cacheDir f : frames same_files (stat cacheDir f).
Proof.
  apply frames_bind; [apply _|apply syscall_files|]. intros _ s. unfold step. by destruct (meta _ _).
Qed.

Lemma on_dir_life cacheDir g : frames same_life (on_dir cacheDir g).
Proof. done. Qed.

Lemma syscall_life : frames same_life syscall.
Proof. apply files_life, syscall_files. Qed.

Lemma stat_life cacheDir f : frames same_life (stat cacheDir f).
Proof. apply files_life, stat_files. Qed.

#[export] Hint Resolve syscall_files syscall_life stat_files stat_life on_dir_life : frames.
#[export] Hint Extern 1 (PreOrder _) => apply _ : frames.

Lemma dir_of_insert cacheDir d s :
  dir_of cacheDir (set_dirs (<[cacheDir := d]> (s_dirs s)) s) = d.
Proof. unfold dir_of. simpl. by rewrite lookup_insert_eq. Qed.

Lemma dir_of_same s s' cacheDir : same_files s s' -> dir_of cacheDir s' = dir_of cacheDir s.
Proof. intros [_ E]. unfold dir_of. by rewrite E. Qed.

Section Files.
Context `{Decorator}.
Variables euid egid : Z.
Variable groups : list Z.
Variable passwd_first : nat -> bool.

Abbreviation create_file := (create_file euid egid).
Abbreviation range_files := (range_files passwd_first).
Abbreviation initDB := (initDB euid egid groups passwd_first).

Lemma elem_of_range_files n f : f ∈ range_files n.
Proof. unfold CacheOpen.range_files. destruct (passwd_first n), f; repeat constructor. Qed.

(** What calls that returned saw. *)
Lemma stat_Ok cacheDir f s m s' : stat cacheDir f s = (Ok m, s') -> meta f (dir_of cacheDir s) = Some m.
Proof.
  unfold stat. intros ([] & s1 & E1 & E2)%bind_Ok. apply (frames_run same_files) in E1; [|auto with frames].
  rewrite <- (dir_of_same _ _ _ E1). unfold step in E2. destruct (meta _ _); by simplify_eq.
Qed.

Lemma stat_missing cacheDir f s e s' : stat cacheDir f s = (Err e, s') ->
  errors_is e OsErrNotExist = true -> meta f (dir_of cacheDir s) = None.
Proof.
  unfold stat, mbind, M_bind, step. destruct (syscall s) as [[[]|e0|p] s1] eqn:E1; [| |done].
  - apply (frames_run same_files) in E1; [|auto with frames]. rewrite <- (dir_of_same _ _ _ E1).
    by destruct (meta _ _).
  - apply syscall_Err in E1 as [msg ->]. by intros [= <- _].
Qed.

Lemma is_missing_files cacheDir f : frames same_files (is_missing cacheDir f).
Proof. unfold is_missing. apply frames_bind; [apply _|auto with frames|]. intros []; auto with frames. Qed.

Lemma is_missing_true cacheDir f s s' : is_missing cacheDir f s = (Ok true, s') ->
  meta f (dir_of cacheDir s) = None.
Proof.
  unfold is_missing. intros (r & s1 & [(m & _ & ->)|(e & E & ->)]%attempt_Ok & Hr)%bind_Ok; [done|].
  unfold mret, M_ret in Hr. simplify_eq. by eapply stat_missing.
Qed.

Lemma needs_create_files cacheDir fs : frames same_files (needs_create cacheDir fs).
Proof.
  induction fs as [|f fs IH]; cbn [needs_create]; [auto with frames|].
  apply frames_bind; [apply _|apply is_missing_files|]. intros b.
  apply frames_bind; [apply _|done|]. auto with frames.
Qed.

Lemma needs_create_true cacheDir fs s s' : needs_create cacheDir fs s = (Ok true, s') ->
  exists f, meta f (dir_of cacheDir s) = None.
Proof.
  revert s. induction fs as [|f fs IH]; intros s; cbn [needs_create]; [done|].
  intros ([] & s1 & E1 & (b' & s2 & E2 & E3)%bind_Ok)%bind_Ok; [exists f; by eapply is_missing_true|].
  unfold mret, M_ret in E3. simplify_eq/=. apply IH in E2 as [f' E2]. exists f'.
  apply (frames_run same_files) in E1; [|apply is_missing_files]. by rewrite <- (dir_of_same _ _ _ E1).
Qed.

Lemma each_file_frames R `{!PreOrder R} body fs : (forall f, frames R (body f)) -> frames R (each_file body fs).
Proof.
  intros Hb. induction fs as [|f fs IH]; cbn [each_file]; [auto with frames|].
  apply frames_bind; [done..|]. by intros _.
Qed.

Lemma check_files cacheDir f ow gow perm : frames same_files (checkFilePermission cacheDir f ow gow perm).
Proof.
  unfold checkFilePermission, on_error. apply frames_map_err, frames_bind; [apply _|auto with frames|].
  intros m. auto with frames.
Qed.

Lemma check_Ok cacheDir f ow gow perm s s' : checkFilePermission cacheDir f ow gow perm s = (Ok tt, s') ->
  meta f (dir_of cacheDir s) = Some (FileMeta perm ow gow).
Proof.
  unfold checkFilePermission, on_error. rewrite map_err_Ok. intros ([m u g] & s1 & E1%stat_Ok & E2)%bind_Ok.
  rewrite E1. simpl in E2.
  destruct (Z.eqb_spec m perm) as [->|]; [|done]. simpl in E2.
  destruct (Z.eqb_spec ow u) as [->|], (Z.eqb_spec gow g) as [->|]; done.
Qed.

Lemma checks_Ok cacheDir gow perm ow fs s s' :
  each_file (fun f => checkFilePermission cacheDir f ow (gow f) (perm f)) fs s = (Ok tt, s') ->
  forall f, f ∈ fs -> meta f (dir_of cacheDir s) = Some (FileMeta (perm f) ow (gow f)).
Proof.
  revert s. induction fs as [|f0 fs IH]; intros s; cbn [each_file]; [by intros _ f ?%elem_of_nil|].
  intros ([] & s1 & E1 & E2)%bind_Ok f [->|Hf]%elem_of_cons; [by eapply check_Ok|].
  rewrite <- (IH _ E2 f Hf). f_equal. symmetry. apply dir_of_same.
  eapply frames_run; [apply check_files|done].
Qed.

(** ** Creating a file *)

Lemma syscall_partly_frames R `{!PreOrder R} partial :
  frames R syscall -> (forall n, frames R (partial n)) -> frames R (syscall_partly partial).
Proof.
  intros Hs Hp s. unfold syscall_partly. specialize (Hs s). destruct (syscall s) as [[[]|e|why] s1]; [done| |done].
  simpl in *. etrans; [done|]. apply Hp.
Qed.

Lemma syscall_partly_Ok partial s s' : syscall_partly partial s = (Ok tt, s') -> syscall s = (Ok tt, s').
Proof. unfold syscall_partly. by destruct (syscall s) as [[[]|e|why] s1]. Qed.

Lemma removeAll_life cacheDir : frames same_life (removeAll cacheDir).
Proof.
  unfold removeAll. apply frames_bind; [apply _| |intros _; apply on_dir_life].
  apply syscall_partly_frames; [apply _|apply syscall_life|]. intros n. apply on_dir_life.
Qed.

Lemma exec_schema_life cacheDir f : frames same_life (exec_schema euid egid cacheDir f).
Proof.
  unfold exec_schema. apply frames_bind; [apply _| |intros _; apply on_dir_life].
  apply syscall_partly_frames; [apply _|apply syscall_life|]. intros n.
  destruct (Nat.testbit n 0); [apply on_dir_life|auto with frames].
Qed.

Lemma create_file_life cacheDir ow gow perm f : frames same_life (create_file cacheDir ow gow perm f).
Proof.
  unfold CacheOpen.create_file, errorf.
  repeat first [apply exec_schema_life | apply frames_bind; [apply _| |intros _] | apply frames_map_err
    | apply on_dir_life | apply syscall_life].
Qed.

Lemma dir_step cacheDir g s s' : on_dir cacheDir g s = (Ok tt, s') -> dir_of cacheDir s' = g (dir_of cacheDir s).
Proof. unfold on_dir. intros [= <-]. apply dir_of_insert. Qed.

Lemma dir_syscall cacheDir fmt s s' : errorf fmt syscall s = (Ok tt, s') -> dir_of cacheDir s' = dir_of cacheDir s.
Proof.
  unfold errorf. rewrite map_err_Ok. intros E. apply dir_of_same. by eapply frames_run; [apply syscall_files|].
Qed.

Lemma exec_schema_Ok cacheDir f s s' : exec_schema euid egid cacheDir f s = (Ok tt, s') ->
  dir_of cacheDir s' = made euid egid f (dir_of cacheDir s).
Proof.
  intros ([] & s1 & E1%syscall_partly_Ok & ->%dir_step)%bind_Ok. f_equal. apply dir_of_same.
  by eapply frames_run; [apply syscall_files|].
Qed.

Lemma create_file_Ok cacheDir ow gow perm f s s' : create_file cacheDir ow gow perm f s = (Ok tt, s') ->
  dir_of cacheDir s' = set_meta f (Some (FileMeta perm ow gow)) (dir_of cacheDir s).
Proof.
  unfold CacheOpen.create_file.
  intros ([] & s1 & E1 & ([] & s3 & E3 & ([] & s4 & E4 & ([] & s5 & E5
    & ([] & s6 & E6 & E7)%bind_Ok)%bind_Ok)%bind_Ok)%bind_Ok)%bind_Ok.
  apply (frames_run same_files) in E1; [|auto with frames].
  unfold errorf in E3. apply map_err_Ok, exec_schema_Ok in E3.
  apply (dir_syscall cacheDir) in E4, E6. apply dir_step in E5, E7.
  rewrite E7, E6, E5, E4, E3, (dir_of_same _ _ _ E1). by destruct f.
Qed.

(** Both files, in the order that the map gives them. *)
Lemma create_both cacheDir ow gow perm n s s' :
  each_file (fun f => create_file cacheDir ow (gow f) (perm f) f) (range_files n) s = (Ok tt, s') ->
  dir_of cacheDir s' = Dir (Some (FileMeta (perm PasswdDB) ow (gow PasswdDB)))
    (Some (FileMeta (perm ShadowDB) ow (gow ShadowDB))) (d_tables (dir_of cacheDir s)).
Proof.
  unfold CacheOpen.range_files. destruct (passwd_first n); cbn [each_file];
    intros ([] & s1 & E1%create_file_Ok & ([] & s2 & E2%create_file_Ok & [= <-])%bind_Ok)%bind_Ok;
    by rewrite E2, E1.
Qed.

(** ** initDB *)

(** The access that the process has to the shadow file. *)
Definition shadow_mode_of (m : file_meta) : Z :=
  if may_access euid groups 1 m then shadowRWMode
  else if may_access euid groups 2 m then shadowROMode else shadowNotAvailableMode.

Lemma accessible_files cacheDir bit : frames same_files (accessible euid groups cacheDir bit).
Proof.
  unfold accessible. apply frames_bind; [apply _|auto with frames|]. intros r.
  apply frames_bind; [apply _|auto with frames|]. intros s. destruct r, (d_shadow (dir_of cacheDir s)); auto with frames.
Qed.

Lemma accessible_Ok cacheDir bit s b s' m : accessible euid groups cacheDir bit s = (Ok b, s') ->
  d_shadow (dir_of cacheDir s) = Some m ->
  (b = true -> may_access euid groups bit m = true) /\ (s_faults s = [] -> s' = s /\ b = may_access euid groups bit m).
Proof.
  unfold accessible. intros (r & s1 & Ha & (s2 & s3 & Hg & Hr)%bind_Ok)%bind_Ok Hm.
  unfold get in Hg. injection Hg as <- <-.
  assert (same_files s s1) as Hs.
  { pose proof (frames_attempt same_files syscall syscall_files s) as Hf. by rewrite Ha in Hf. }
  rewrite (dir_of_same _ _ _ Hs), Hm in Hr. apply attempt_Ok in Ha as [(a & Ea & ->)|(e & Ea & ->)].
  - unfold mret, M_ret in Hr. simplify_eq. split; [done|]. intros Hf. unfold syscall in Ea. rewrite Hf in Ea.
    by simplify_eq.
  - unfold mret, M_ret in Hr. simplify_eq. split; [done|]. intros Hf. unfold syscall in Ea. by rewrite Hf in Ea.
Qed.

Lemma shadow_access_files cacheDir : frames same_files (shadow_access euid groups cacheDir).
Proof.
  unfold shadow_access. apply frames_bind; [apply _|apply accessible_files|]. intros r.
  apply frames_bind; [apply _|apply accessible_files|]. auto with frames.
Qed.

(** Never more than the process may do, and exactly that when no call fails. *)
Lemma shadow_access_Ok cacheDir s mode s' m : shadow_access euid groups cacheDir s = (Ok mode, s') ->
  d_shadow (dir_of cacheDir s) = Some m ->
  mode <= shadow_mode_of m /\ (s_faults s = [] -> mode = shadow_mode_of m).
Proof.
  unfold shadow_access. intros (r & s1 & E1 & (w & s2 & E2 & E3)%bind_Ok)%bind_Ok Hm.
  pose proof (frames_run same_files _ _ _ _ (accessible_files cacheDir 2) E1) as Hs.
  rewrite <- (dir_of_same _ _ _ Hs) in Hm. destruct (accessible_Ok _ _ _ _ _ _ E2 Hm) as [W1 W2].
  rewrite (dir_of_same _ _ _ Hs) in Hm. destruct (accessible_Ok _ _ _ _ _ _ E1 Hm) as [R1 R2].
  unfold mret, M_ret in E3. injection E3 as <- <-.
  unfold shadow_mode_of, shadowRWMode, shadowROMode, shadowNotAvailableMode. split.
  - destruct w; [by rewrite W1|]. destruct r; [rewrite R1 by done|]; by repeat destruct (may_access _ _ _ _).
  - intros Hf. destruct (R2 Hf) as [-> ->]. by destruct (W2 Hf) as [_ ->].
Qed.

(** The two parts of initDB: the files, then the handle on them. *)
Definition create_if_needed (cacheDir : string) (ru rg sg pp sp : Z) : M sys unit :=
  needsCreate ← needs_create cacheDir (range_files 0);
  (if needsCreate : bool then
     if negb ((euid =? ru) && (egid =? rg)) then
       fail (Opaque "cache creation can only be done by root user")
     else
       removeAll cacheDir ;;
       syscall ;;
       each_file (fun f => create_file cacheDir ru (gowner rg sg f) (permission pp sp f) f) (range_files 1)
   else mret tt).

Definition check_and_open (cacheDir : string) (ru rg sg force pp sp : Z) : M sys Z :=
  each_file (fun f => checkFilePermission cacheDir f ru (gowner rg sg f) (permission pp sp f)) (range_files 2) ;;
  syscall ;;
  shadowMode ← (if force =? -1 then shadow_access euid groups cacheDir else mret force);
  (if shadowNotAvailableMode <? shadowMode then syscall else mret tt) ;;
  mret shadowMode.

Lemma initDB_parts cacheDir ru rg sg force pp sp s :
  initDB cacheDir ru rg sg force pp sp s =
  on_error "couldn't initiate database"
    (create_if_needed cacheDir ru rg sg pp sp ;; check_and_open cacheDir ru rg sg force pp sp) s.
Proof.
  unfold CacheOpen.initDB, create_if_needed, check_and_open, on_error, map_err, mbind, M_bind.
  destruct (needs_create _ _ s) as [[[]|e|p] s1]; [|done..].
  by destruct (negb _).
Qed.

Lemma check_and_open_files cacheDir ru rg sg force pp sp :
  frames same_files (check_and_open cacheDir ru rg sg force pp sp).
Proof.
  unfold check_and_open. apply frames_bind; [apply _|apply each_file_frames; [apply _|intros f; apply check_files]|].
  intros _. apply frames_bind; [apply _|auto with frames|]. intros _.
  apply frames_bind; [apply _|destruct (_ =? _); [apply shadow_access_files|auto with frames]|]. intros m.
  apply frames_bind; [apply _|destruct (_ <? _)|]; auto with frames.
Qed.

Lemma create_if_needed_life cacheDir ru rg sg pp sp :
  frames same_life (create_if_needed cacheDir ru rg sg pp sp).
Proof.
  unfold create_if_needed. apply frames_bind; [apply _|apply files_life, needs_create_files|].
  intros [|]; [|auto with frames]. destruct (negb _); [auto with frames|].
  repeat first [apply removeAll_life | apply frames_bind; [apply _| |intros _] | apply syscall_life].
  apply each_file_frames; [apply _|]. intros f. apply create_file_life.
Qed.

Lemma initDB_life cacheDir ru rg sg force pp sp : frames same_life (initDB cacheDir ru rg sg force pp sp).
Proof.
  intros s. rewrite initDB_parts. unfold on_error.
  apply (frames_map_err same_life), frames_bind; [apply _|apply create_if_needed_life|].
  intros _. apply files_life, check_and_open_files.
Qed.

(** The directory after a creation, complete. *)
Definition created (ru rg sg pp sp : Z) : dir :=
  Dir (Some (FileMeta pp ru rg)) (Some (FileMeta sp ru sg)) empty_db.

Lemma create_if_needed_Ok cacheDir ru rg sg pp sp s s' :
  create_if_needed cacheDir ru rg sg pp sp s = (Ok tt, s') ->
  same_files s s' \/
  ((exists f, meta f (dir_of cacheDir s) = None) /\ euid = ru /\ egid = rg
   /\ dir_of cacheDir s' = created ru rg sg pp sp).
Proof.
  unfold create_if_needed. intros ([|] & s1 & E1 & E2)%bind_Ok.
  - right. apply needs_create_true in E1.
    destruct (Z.eqb_spec euid ru) as [Eu|], (Z.eqb_spec egid rg) as [Eg|]; simpl in E2; [|done..].
    split_and!; [done..|].
    apply bind_Ok in E2 as ([] & s3 & ([] & s2 & _ & E3%dir_step)%bind_Ok & ([] & s4 & E4 & E5%create_both)%bind_Ok).
    apply (frames_run same_files) in E4; [|auto with frames].
    rewrite E5, (dir_of_same _ _ _ E4), E3. done.
  - left. unfold mret, M_ret in E2. simplify_eq. eapply frames_run; [apply needs_create_files|done].
Qed.

Lemma check_and_open_Ok cacheDir ru rg sg force pp sp s mode s' :
  check_and_open cacheDir ru rg sg force pp sp s = (Ok mode, s') ->
  d_passwd (dir_of cacheDir s) = Some (FileMeta pp ru rg)
  /\ d_shadow (dir_of cacheDir s) = Some (FileMeta sp ru sg)
  /\ (force <> -1 -> mode = force)
  /\ (force = -1 -> mode <= shadow_mode_of (FileMeta sp ru sg)
        /\ (s_faults s = [] -> mode = shadow_mode_of (FileMeta sp ru sg))).
Proof.
  unfold check_and_open.
  intros ([] & s1 & E1 & ([] & s2 & E2 & (m & s3 & E3 & ([] & s4 & _ & E5)%bind_Ok)%bind_Ok)%bind_Ok)%bind_Ok.
  unfold mret, M_ret in E5. injection E5 as <- <-.
  pose proof (checks_Ok _ _ _ _ _ _ _ E1) as Hm.
  pose proof (Hm PasswdDB (elem_of_range_files _ _)) as HP.
  pose proof (Hm ShadowDB (elem_of_range_files _ _)) as HS. simpl in HP, HS.
  split; [done|]. split; [done|].
  assert (same_files s s1) as F1.
  { eapply frames_run; [|done]. apply each_file_frames; [apply _|]. intros f. apply check_files. }
  assert (same_files s s2) as F2 by (etrans; [done|]; eapply frames_run; [apply syscall_files|done]).
  destruct (Z.eqb_spec force (-1)) as [->|].
  - split; [done|]. intros _.
    destruct (shadow_access_Ok _ _ _ _ (FileMeta sp ru sg) E3) as [L1 L2];
      [by rewrite (dir_of_same _ _ _ F2)|]. split; [done|]. intros Hf. apply L2.
    clear L1 L2 E3. assert (forall fs t t', s_faults t = [] ->
      each_file (fun f => checkFilePermission cacheDir f ru (gowner rg sg f) (permission pp sp f)) fs t = (Ok tt, t')
      -> s_faults t' = []) as Hcalm.
    { induction fs as [|f fs IH]; intros t t' Ht; cbn [each_file]; [by intros [= <-]|].
      intros ([] & t1 & Ec & Et)%bind_Ok. eapply IH; [|done].
      revert Ec. unfold checkFilePermission, on_error, stat, syscall, map_err, mbind, M_bind, step. rewrite Ht.
      destruct (meta f _); [|done]. destruct (negb _); [done|]. destruct (negb _); [done|]. by intros [= <-]. }
    apply Hcalm in E1; [|done]. unfold syscall in E2. rewrite E1 in E2. by injection E2 as <-.
  - unfold mret, M_ret in E3. injection E3 as <- <-. done.
Qed.

(** The owners and the modes of the two files of an opened cache. *)
Lemma initDB_metas cacheDir ru rg sg force pp sp s mode s' :
  initDB cacheDir ru rg sg force pp sp s = (Ok mode, s') ->
  meta PasswdDB (dir_of cacheDir s') = Some (FileMeta pp ru rg)
  /\ meta ShadowDB (dir_of cacheDir s') = Some (FileMeta sp ru sg).
Proof.
  rewrite initDB_parts. unfold on_error. rewrite map_err_Ok. intros ([] & s1 & _ & E2)%bind_Ok.
  pose proof (frames_run _ _ _ _ _ (check_and_open_files cacheDir ru rg sg force pp sp) E2) as F2.
  apply check_and_open_Ok in E2 as (HP & HS & _). by rewrite (dir_of_same _ _ _ F2).
Qed.

(** C21: whatever fails on the way, New only goes on with a directory whose
    two files have exactly the expected owner, group and mode; an existing
    pair of files is not touched, a missing file is only created, with empty
    tables, by a process that runs as the root user and group; and the
    access to the shadow file is never more than the process has. *)
Theorem initDB_checked cacheDir ru rg sg force pp sp s mode s' :
  initDB cacheDir ru rg sg force pp sp s = (Ok mode, s') ->
  (meta PasswdDB (dir_of cacheDir s') = Some (FileMeta pp ru rg)
   /\ meta ShadowDB (dir_of cacheDir s') = Some (FileMeta sp ru sg)) /\
  (dir_of cacheDir s' = dir_of cacheDir s \/
     ((exists f, meta f (dir_of cacheDir s) = None) /\ euid = ru /\ egid = rg
      /\ d_tables (dir_of cacheDir s') = empty_db)) /\
  (force <> -1 -> mode = force) /\
  (force = -1 -> mode <= shadow_mode_of (FileMeta sp ru sg)).
Proof.
  intros E. split; [by eapply initDB_metas|]. revert E.
  rewrite initDB_parts. unfold on_error. rewrite map_err_Ok. intros ([] & s1 & E1 & E2)%bind_Ok.
  pose proof (frames_run _ _ _ _ _ (check_and_open_files cacheDir ru rg sg force pp sp) E2) as F2.
  apply check_and_open_Ok in E2 as (_ & _ & Hf1 & Hf2). split; [|split; [done|by intros ->; apply Hf2]].
  rewrite (dir_of_same _ _ _ F2). apply create_if_needed_Ok in E1 as [F1|(Hm & Eu & Eg & Ed)].
  - left. by apply dir_of_same.
  - right. by rewrite Ed.
Qed.

(** A process that is not the root user and group changes no file,
    whatever it finds, and does not open a directory with a missing file. *)
Theorem initDB_unprivileged cacheDir ru rg sg force pp sp s r s' :
  initDB cacheDir ru rg sg force pp sp s = (r, s') -> (euid <> ru \/ egid <> rg) ->
  s_dirs s' = s_dirs s /\
  (forall f, meta f (dir_of cacheDir s) = None -> forall mode, r <> Ok mode).
Proof.
  rewrite initDB_parts. intros E Hne.
  assert (frames same_files (create_if_needed cacheDir ru rg sg pp sp)) as F1.
  { unfold create_if_needed. apply frames_bind; [apply _|apply needs_create_files|].
    intros [|]; [|auto with frames].
    destruct (Z.eqb_spec euid ru), (Z.eqb_spec egid rg); simpl; auto with frames. tauto. }
  split.
  - apply (frames_run same_files) in E; [by apply E|]. unfold on_error.
    apply frames_map_err, frames_bind; [apply _|done|]. intros _. apply check_and_open_files.
  - intros f Hf mode ->. unfold on_error in E. apply map_err_Ok, bind_Ok in E as ([] & s1 & E1 & E2).
    pose proof (frames_run _ _ _ _ _ F1 E1) as F. apply check_and_open_Ok in E2 as (HP & HS & _).
    rewrite (dir_of_same _ _ _ F) in HP, HS. destruct f; simpl in Hf; congruence.
Qed.
End Files.

(** ** The life of a handle *)

Definition users (h : nat) (held : list nat) : nat := length (filter (fun k => k = h) held).

Lemma users_cons h k held : users h (k :: held) = ((if decide (k = h) then 1 else 0) + users h held)%nat.
Proof. unfold users. rewrite filter_cons. by destruct (decide (k = h)). Qed.

Lemma users_perm h held held' : held ≡ₚ held' -> users h held = users h held'.
Proof. unfold users. intros ->. done. Qed.

Lemma users_zero h held : users h held = 0%nat <-> h ∉ held.
Proof.
  unfold users. rewrite length_zero_iff_nil. split.
  - intros E Hin. assert (h ∈ filter (fun k => k = h) held) as Hf by by apply list_elem_of_filter.
    rewrite E in Hf. by apply elem_of_nil in Hf.
  - intros Hn. apply filter_none. by intros k Hk ->.
Qed.

(** What an operation on a cache may not change. *)
Definition same_use (p q : Cache * world) : Prop :=
  usedBy q.1 = usedBy p.1 /\ sig q.1 = sig p.1
  /\ offlineCredentialsExpiration q.1 = offlineCredentialsExpiration p.1.

#[export] Instance same_use_preorder : PreOrder same_use.
Proof. split; [done|]. intros p q r (? & ? & ?) (? & ? & ?). unfold same_use. split_and!; congruence. Qed.

Lemma on_world_use {A} (m : M world A) : frames same_use (on_world m).
Proof. intros [c w]. unfold on_world, zoom. simpl. by destruct (m w). Qed.

Lemma close_iterator_use {Row} (cursor : Cache -> option (sql_rows Row)) set_cursor msg :
  (forall r c w, same_use (c, w) (set_cursor r c, w)) ->
  frames same_use (close_iterator cursor set_cursor msg).
Proof.
  intros Hset. unfold close_iterator. apply frames_bind; [apply _|auto with frames|]. intros s.
  destruct (cursor s.1); [|auto with frames].
  apply frames_bind; [apply _|apply frames_attempt, on_world_use|]. intros r.
  apply frames_bind; [apply _| |intros _; destruct r; auto with frames].
  intros [c w]. apply Hset.
Qed.

Lemma close_all_use : frames same_use close_all.
Proof.
  unfold close_all.
  repeat first [apply frames_bind; [apply _| |intros _] | apply frames_attempt | apply on_world_use
    | apply close_iterator_use; done | apply frames_ret, _].
Qed.

Lemma run_on_life {A} c (m : M (Cache * world) A) s r c' s' : run_on c m s = (r, c', s') -> same_life s s'.
Proof.
  unfold run_on. destruct (m _) as [r0 [c0 w0]]. by intros [= _ _ <-].
Qed.

Lemma run_on_use {A} c (m : M (Cache * world) A) s r c' s' : frames same_use m ->
  run_on c m s = (r, c', s') -> same_use (c, world_of (o_cacheDir (sig c)) s) (c', world_of (o_cacheDir (sig c)) s).
Proof.
  unfold run_on. intros Hm. specialize (Hm (c, world_of (o_cacheDir (sig c)) s)).
  destruct (m _) as [r0 [c0 w0]]. by intros [= _ <- _].
Qed.

Section Life.
Context `{Decorator}.
Variables euid egid : Z.
Variable groups : list Z.
Variable LookupGroup : string -> result string.
Variable passwd_first : nat -> bool.

Abbreviation New := (New euid egid groups LookupGroup passwd_first).
Abbreviation open_cache := (open_cache euid egid groups LookupGroup passwd_first).

(** The steps of a process whose clients close what they got, once. The
    list holds a handle once per client that uses it. *)
Inductive life_step : list nat * sys -> list nat * sys -> Prop :=
  | StepNew held s opts h s' :
      New opts s = (Ok h, s') -> life_step (held, s) (h :: held, s')
  | StepNewFail held s opts r s' :
      New opts s = (r, s') -> (forall h, r <> Ok h) -> life_step (held, s) (held, s')
  | StepClose held held' s h r s' :
      held ≡ₚ h :: held' -> Close h s = (r, s') -> life_step (held, s) (held', s')
  | StepFire held s n : life_step (held, s) (held, fire n s)
  | StepUse held s h c b A (m : M (Cache * world) A) r c' s' :
      h ∈ held -> s_handles s !! h = Some (Handle c b) -> frames same_use m ->
      run_on c m s = (r, c', s') ->
      life_step (held, s) (held, set_handles (<[h := Handle c' b]> (s_handles s')) s')
  | StepWorld held s d f t :
      life_step (held, s) (held, Sys d f t (s_entropy s) (s_opened s) (s_handles s) (s_timers s)).

(** A process that has not opened a cache. *)
Definition no_cache (s : sys) : Prop := s_opened s = ∅ /\ s_handles s = ∅ /\ s_timers s = [].

Definition handle_ok (held : list nat) (s : sys) (h : nat) (hd : handle) : Prop :=
  if h_open hd then
    s_opened s !! sig (h_cache hd) = Some h /\ usedBy (h_cache hd) = Z.of_nat (users h held)
    /\ (users h held = 0%nat -> h ∈ s_timers s)
  else usedBy (h_cache hd) = -1 /\ users h held = 0%nat.

Record life_ok (held : list nat) (s : sys) : Prop := {
  lo_handle h hd : s_handles s !! h = Some hd -> handle_ok held s h hd;
  lo_held h : h ∈ held -> is_Some (s_handles s !! h);
  lo_opened o h : s_opened s !! o = Some h ->
    exists c, s_handles s !! h = Some (Handle c true) /\ sig c = o;
}.

Lemma life_ok_same held s s' : same_life s s' -> life_ok held s -> life_ok held s'.
Proof.
  intros (E1 & E2 & E3) [L1 L2 L3]. split.
  - intros h hd. unfold handle_ok. rewrite E1, E2, E3. apply L1.
  - intros h. rewrite E2. apply L2.
  - intros o h. rewrite E1, E2. apply L3.
Qed.

Lemma life_ok_init s : no_cache s -> life_ok [] s.
Proof.
  intros (E1 & E2 & E3). split; rewrite ?E1, ?E2; [|by intros h ?%elem_of_nil|]; by setoid_rewrite lookup_empty.
Qed.

(** ** New *)

Lemma with_tables_life {A} cacheDir (m : M world A) : frames same_life (with_tables cacheDir m).
Proof. intros s. unfold with_tables. by destruct (m _). Qed.

(** What the opening branch does to the registry. *)
Lemma open_cache_inv o s r s' : open_cache o s = (r, s') ->
  (exists mode s1, same_life s s1 /\ let h := fresh (dom (s_handles s)) in
     r = Ok h /\ s' = set_opened (<[o := h]> (s_opened s))
             (set_handles (<[h := Handle (new_cache o mode) true]> (s_handles s)) s1))
  \/ ((forall h, r <> Ok h) /\ same_life s s').
Proof.
  unfold CacheOpen.open_cache, mbind, M_bind.
  assert (frames same_life (shadow_gid LookupGroup o)) as F0.
  { unfold shadow_gid, errorf. destruct (_ <? 0); auto 10 with frames. }
  destruct (shadow_gid _ o s) as [r0 s0] eqn:E0. apply (frames_run _ _ _ _ _ F0) in E0.
  destruct r0 as [gid|e|p]; [|intros [= <- <-]; by right..].
  destruct (initDB _ _ _ _ _ _ _ _ _ _ _ s0) as [r1 s1] eqn:E1.
  apply (frames_run same_life) in E1; [|apply initDB_life].
  destruct r1 as [mode|e|p]; [|intros [= <- <-]; right; split; [done|by transitivity s0]..].
  destruct ((if (mode =? shadowRWMode) && negb (o_offlineCredentialsExpiration o =? 0)
             then with_tables (o_cacheDir o) (cleanUpDB (maxCacheEntryDuration (o_offlineCredentialsExpiration o)))
             else mret tt) s1) as [r2 s2] eqn:E2.
  assert (same_life s1 s2) as F2.
  { pose proof E2 as F2. apply (frames_run same_life) in F2; [done|].
    destruct (_ && _); [apply with_tables_life|auto with frames]. }
  assert (same_life s s2) as F by (transitivity s0; [done|by transitivity s1]).
  destruct r2 as [[]|e|p]; [|intros [= <- <-]; by right..].
  unfold step. intros [= <- <-]. left. exists mode, s2. split; [done|].
  destruct F as (G1 & G2 & G3). by rewrite G1, G2.
Qed.

Lemma open_cache_ok held o s r s' : open_cache o s = (r, s') -> s_opened s !! o = None ->
  life_ok held s ->
  match r with
  | Ok h => life_ok (h :: held) s' /\ exists c, s_handles s' !! h = Some (Handle c true) /\ sig c = o
  | _ => life_ok held s'
  end.
Proof.
  intros [(mode & s1 & F & -> & ->)|[Hr F]]%open_cache_inv Ho L.
  2: { destruct r as [h|e|p]; [by destruct (Hr h)|by eapply life_ok_same..]. }
  set (h := fresh (dom (s_handles s))).
  assert (s_handles s !! h = None) as Hfresh by apply not_elem_of_dom, is_fresh.
  assert (users h held = 0%nat) as Hu.
  { apply users_zero. intros [hd Hh]%(lo_held _ _ L). congruence. }
  destruct F as (G1 & G2 & G3). split.
  2: { exists (new_cache o mode). simpl. by rewrite lookup_insert_eq. }
  split; simpl.
  - intros k hd. destruct (decide (k = h)) as [->|Hk].
    + rewrite lookup_insert_eq. intros [= <-]. unfold handle_ok. simpl. rewrite lookup_insert_eq, users_cons, Hu.
      by rewrite decide_True.
    + rewrite lookup_insert_ne by done. intros Hh. pose proof (lo_handle _ _ L k hd Hh) as Hok.
      unfold handle_ok in *. simpl. rewrite users_cons, decide_False, G3 by done. simpl.
      destruct (h_open hd); [|done]. destruct Hok as (Hs & Hu' & Ht). split; [|done].
      rewrite lookup_insert_ne; [done|]. intros E. by rewrite <- E, Ho in Hs.
  - intros k [->|Hk]%elem_of_cons; [by rewrite lookup_insert_eq|].
    destruct (lo_held _ _ L k Hk) as [hd Hh]. rewrite lookup_insert_ne; [by eexists|]. intros <-. congruence.
  - intros o' k. destruct (decide (o' = o)) as [->|Hne].
    + rewrite lookup_insert_eq. intros [= <-]. exists (new_cache o mode). by rewrite lookup_insert_eq.
    + rewrite lookup_insert_ne by done. intros Hk. destruct (lo_opened _ _ L _ _ Hk) as (c & Hc & Es).
      exists c. rewrite lookup_insert_ne; [done|]. intros <-. congruence.
Qed.

Lemma reuse_ok held o h s r s' : reuse h s = (r, s') -> s_opened s !! o = Some h -> life_ok held s ->
  r = Ok h /\ life_ok (h :: held) s'.
Proof.
  intros E Ho L. destruct (lo_opened _ _ L _ _ Ho) as (c & Hc & Es). unfold reuse in E. rewrite Hc in E.
  injection E as <- <-. split; [done|].
  pose proof (lo_handle _ _ L h _ Hc) as (Hs & Hu & Ht).
  split; simpl in *.
  - intros k hd. destruct (decide (k = h)) as [->|Hk].
    + rewrite lookup_insert_eq. intros [= <-]. unfold handle_ok. simpl in *.
      rewrite users_cons, decide_True by done. split_and!; [done|lia|done].
    + rewrite lookup_insert_ne by done. intros Hh. pose proof (lo_handle _ _ L k hd Hh) as Hok.
      unfold handle_ok in *. simpl. by rewrite users_cons, decide_False.
  - intros k [->|Hk]%elem_of_cons; [by rewrite lookup_insert_eq|].
    destruct (decide (k = h)) as [->|]; [by rewrite lookup_insert_eq|].
    rewrite lookup_insert_ne by done. by apply (lo_held _ _ L).
  - intros o' k Hk. destruct (lo_opened _ _ L _ _ Hk) as (c' & Hc' & Es').
    destruct (decide (k = h)) as [->|]; [|exists c'; by rewrite lookup_insert_ne].
    rewrite Hc in Hc'. injection Hc' as <-. exists (set_usedBy (usedBy c + 1) c).
    by rewrite lookup_insert_eq.
Qed.

(** The options that a call of New asks for. *)
Definition asked (opts : list Option) : result options := apply_options opts default_options.

Lemma New_ok held opts s r s' : New opts s = (r, s') -> life_ok held s ->
  match r with
  | Ok h => life_ok (h :: held) s' /\ exists o c, asked opts = Ok o
              /\ s_handles s' !! h = Some (Handle c true) /\ sig c = o
              /\ (forall h', s_opened s !! o = Some h' -> h = h')
  | _ => life_ok held s'
  end.
Proof.
  unfold CacheOpen.New, on_error, map_err. intros E L.
  destruct ((o ← lift (apply_options opts default_options); _) s) as [r0 s0] eqn:E0.
  unfold mbind, M_bind, lift, get in E0. unfold asked.
  destruct (apply_options opts default_options) as [o|e|p]; [|by simplify_eq..].
  destruct (s_opened s !! o) as [h|] eqn:Ho.
  - pose proof (lo_opened _ _ L _ _ Ho) as (c & Hc & Es).
    pose proof (reuse_ok _ _ _ _ _ _ E0 Ho L) as [-> L'].
    simplify_eq. split; [done|]. exists (sig c), (set_usedBy (usedBy c + 1) c). split_and!; [done| |done|congruence].
    unfold reuse in E0. rewrite Hc in E0. injection E0 as <-. simpl. by rewrite lookup_insert_eq.
  - apply (open_cache_ok held) in E0; [|done..].
    destruct r0 as [h|e|p]; simplify_eq; [|done..]. destruct E0 as [L' (c & Hc & Es)].
    split; [done|]. exists o, c. split_and!; [done..|]. congruence.
Qed.

(** ** Close and the teardown *)

Lemma Close_ok held held' h s r s' : Close h s = (r, s') -> held ≡ₚ h :: held' -> life_ok held s ->
  life_ok held' s' /\ r = Ok tt.
Proof.
  intros E Hp L. assert (h ∈ held) as Hin by (rewrite Hp; by constructor).
  destruct (lo_held _ _ L h Hin) as [[c b] Hh]. unfold Close in E. rewrite Hh in E.
  pose proof (lo_handle _ _ L h _ Hh) as Hok. unfold handle_ok in Hok. simpl in Hok.
  rewrite (users_perm h _ _ Hp), users_cons, decide_True in Hok by done.
  destruct b; [|lia]. destruct Hok as (Hs & Hu & _).
  assert (r = Ok tt) as -> by (destruct (negb _); by injection E). split; [|done].
  assert (Hsame : forall k, k <> h -> users k held' = users k held).
  { intros k Hk. by rewrite (users_perm k _ _ Hp), users_cons, decide_False. }
  set (s1 := set_handles (<[h := Handle (set_usedBy (usedBy c - 1) c) true]> (s_handles s)) s) in E.
  assert (s_opened s' = s_opened s /\ s_handles s' = s_handles s1 /\
    (forall k, k ∈ s_timers s -> k ∈ s_timers s') /\ (users h held' = 0%nat -> h ∈ s_timers s')) as (E1 & E2 & E3 & E4).
  { destruct (Z.eqb_spec (usedBy c - 1) 0); simpl in E; injection E as <-; simpl; split_and!; try done.
    - intros k. rewrite elem_of_app. by left.
    - intros _. rewrite elem_of_app, list_elem_of_singleton. by right.
    - lia. }
  split; rewrite ?E1, ?E2; simpl.
  - intros k hd. destruct (decide (k = h)) as [->|Hk].
    + rewrite lookup_insert_eq. intros [= <-]. unfold handle_ok. simpl. rewrite E1. split_and!; [done|lia|done].
    + rewrite lookup_insert_ne by done. intros Hhd. pose proof (lo_handle _ _ L k hd Hhd) as Hok.
      unfold handle_ok in *. rewrite E1, Hsame by done. destruct (h_open hd); [|done].
      destruct Hok as (? & ? & Ht). split_and!; [done..|]. auto.
  - intros k Hk. destruct (decide (k = h)) as [->|]; [by rewrite lookup_insert_eq|].
    rewrite lookup_insert_ne by done. apply (lo_held _ _ L). rewrite Hp. by constructor.
  - intros o k Hk. destruct (lo_opened _ _ L _ _ Hk) as (c' & Hc' & Es').
    destruct (decide (k = h)) as [->|]; [|exists c'; by rewrite lookup_insert_ne].
    rewrite Hh in Hc'. injection Hc' as <-. exists (set_usedBy (usedBy c - 1) c). by rewrite lookup_insert_eq.
Qed.

(** Closing an unused handle that is open. *)
Lemma teardown_ok held h s s0 : life_ok held s ->
  s_opened s0 = s_opened s -> s_handles s0 = s_handles s ->
  (forall k, k <> h -> k ∈ s_timers s -> k ∈ s_timers s0) ->
  life_ok held (teardown h s0).
Proof.
  intros L E1 E2 E3. unfold teardown. rewrite E2.
  destruct (s_handles s !! h) as [[c b]|] eqn:Hh.
  - pose proof (lo_handle _ _ L h _ Hh) as Hok. unfold handle_ok in Hok. simpl in Hok.
    destruct (Z.eqb_spec (usedBy c) 0) as [Hu|Hu]; simpl.
    + destruct b; [|lia]. destruct Hok as (Hs & Hn & _).
      assert (users h held = 0%nat) as Hn0 by lia.
      destruct (run_on c close_all s0) as [[r c'] s'] eqn:Er.
      pose proof (run_on_use _ _ _ _ _ _ close_all_use Er) as (_ & Esig & _).
      pose proof (run_on_life _ _ _ _ _ _ Er) as (G1 & G2 & G3).
      split; simpl; rewrite ?G1, ?G2, ?G3, ?E1, ?E2.
      * intros k hd. destruct (decide (k = h)) as [->|Hk]; [rewrite lookup_insert_eq; by intros [= <-]|].
        rewrite lookup_insert_ne by done. intros Hhd. pose proof (lo_handle _ _ L k hd Hhd) as Hk'.
        unfold handle_ok in *. simpl. rewrite ?G1, ?G3, ?E1. destruct (h_open hd); [|done].
        destruct Hk' as (Ho & ? & Ht). split_and!; [|done|by auto].
        rewrite lookup_delete_ne; [done|]. intros E. rewrite <- E, Hs in Ho. by injection Ho.
      * intros k Hk. rewrite lookup_insert_ne; [by apply (lo_held _ _ L)|]. intros <-.
        by apply users_zero in Hn0.
      * intros o k [Hne Ho]%lookup_delete_Some. destruct (lo_opened _ _ L _ _ Ho) as (c2 & Hc2 & Es2).
        exists c2. rewrite lookup_insert_ne; [done|]. intros <-. rewrite Hh in Hc2. injection Hc2 as <-. done.
    + split; rewrite ?E1, ?E2; [|apply L|apply L].
      intros k hd Hhd. pose proof (lo_handle _ _ L k hd Hhd) as Hk'. unfold handle_ok in *. rewrite E1.
      destruct (h_open hd) eqn:Eb; [|done]. destruct Hk' as (? & Hk & Ht). split_and!; [done..|].
      intros Hz. destruct (decide (k = h)) as [->|]; [|by auto].
      rewrite Hh in Hhd. injection Hhd as <-. simpl in Hk. lia.
  - split; rewrite ?E1, ?E2; [|apply L|apply L].
    intros k hd Hhd. pose proof (lo_handle _ _ L k hd Hhd) as Hk'. unfold handle_ok in *. rewrite E1.
    destruct (h_open hd); [|done]. destruct Hk' as (? & ? & Ht). split_and!; [done..|].
    intros Hz. apply E3; [|by apply Ht]. intros ->. congruence.
Qed.

Lemma fire_ok held n s : life_ok held s -> life_ok held (fire n s).
Proof.
  intros L. unfold fire. destruct (s_timers s !! n) as [h|] eqn:Hn; [|done].
  apply (teardown_ok held h s); [done..|].
  intros k Hk Hin. simpl. apply list_elem_of_lookup in Hin as [i Hi].
  assert (i <> n) by (intros ->; rewrite Hn in Hi; congruence).
  apply list_elem_of_lookup. destruct (decide (i < n)%nat).
  - exists i. by rewrite list_lookup_delete_lt.
  - exists (pred i). rewrite list_lookup_delete_ge by lia. by replace (S (pred i)) with i by lia.
Qed.

Lemma use_ok held h c c' b s s' : same_life s s' -> s_handles s !! h = Some (Handle c b) ->
  usedBy c' = usedBy c -> sig c' = sig c -> life_ok held s ->
  life_ok held (set_handles (<[h := Handle c' b]> (s_handles s')) s').
Proof.
  intros (E1 & E2 & E3) Hh Eu Es L. split; simpl; rewrite ?E1, ?E2, ?E3.
  - intros k hd. destruct (decide (k = h)) as [->|Hk].
    + rewrite lookup_insert_eq. intros [= <-]. pose proof (lo_handle _ _ L h _ Hh) as Hok.
      unfold handle_ok in *. simpl in *. by rewrite E1, E3, Eu, Es.
    + rewrite lookup_insert_ne by done. intros Hhd. pose proof (lo_handle _ _ L k hd Hhd) as Hok.
      unfold handle_ok in *. simpl. by rewrite E1, E3.
  - intros k Hk. destruct (decide (k = h)) as [->|]; [by rewrite lookup_insert_eq|].
    rewrite lookup_insert_ne by done. by apply (lo_held _ _ L).
  - intros o k Hk. destruct (lo_opened _ _ L _ _ Hk) as (c2 & Hc2 & Es2).
    destruct (decide (k = h)) as [->|]; [|exists c2; by rewrite lookup_insert_ne].
    rewrite Hh in Hc2. injection Hc2 as -> ->. exists c'. rewrite lookup_insert_eq. by rewrite Es.
Qed.

Lemma life_step_ok p q : life_step p q -> life_ok p.1 p.2 -> life_ok q.1 q.2.
Proof.
  destruct 1 as [held s opts h s' E|held s opts r s' E Hr|held held' s h r s' Hp E|held s n
    |held s h c b A m r c' s' Hin Hh Hm Er|held s d f t]; simpl; intros L.
  - by apply (New_ok held) in E as [? _].
  - apply (New_ok held) in E; [|done]. destruct r as [h|e|p]; [by destruct (Hr h)|done..].
  - by eapply Close_ok.
  - by apply fire_ok.
  - pose proof (run_on_use _ _ _ _ _ _ Hm Er) as (Eu & Es & _). pose proof (run_on_life _ _ _ _ _ _ Er) as F.
    by eapply use_ok.
  - eapply life_ok_same; [|done]. done.
Qed.

Lemma reachable_ok s0 p : no_cache s0 -> rtc life_step ([], s0) p -> life_ok p.1 p.2.
Proof.
  intros H0 Hr. assert (life_ok ([] : list nat) s0) as L by by apply life_ok_init.
  change (life_ok (([], s0) : list nat * sys).1 (([], s0) : list nat * sys).2) in L.
  induction Hr as [|x y z Hxy _ IH]; [done|]. by eapply IH, life_step_ok.
Qed.

(** ** Properties of the clients that close once what they opened *)

(** C20: whatever the interleaving of New, Close, operations and pending
    teardowns, a handle that a client still holds is open, and is the one
    that is registered under its options: it is never torn down in use. *)
Theorem held_is_open s0 held s h : no_cache s0 -> rtc life_step ([], s0) (held, s) -> h ∈ held ->
  exists c, s_handles s !! h = Some (Handle c true) /\ s_opened s !! sig c = Some h
    /\ usedBy c = Z.of_nat (users h held).
Proof.
  intros H0 Hr Hin. apply reachable_ok in Hr as L; [|done]. simpl in L.
  destruct (lo_held _ _ L h Hin) as [[c b] Hh]. pose proof (lo_handle _ _ L h _ Hh) as Hok.
  unfold handle_ok in Hok. simpl in Hok. destruct b.
  - exists c. by destruct Hok as (? & ? & _).
  - destruct Hok as [_ Hz%users_zero]. done.
Qed.

(** Two clients that ask for the same options while one of them holds
    its handle share it: New returns the handle that is in use. *)
Theorem New_shares s0 held s opts h s' h' c b : no_cache s0 -> rtc life_step ([], s0) (held, s) ->
  h' ∈ held -> s_handles s !! h' = Some (Handle c b) -> asked opts = Ok (sig c) ->
  New opts s = (Ok h, s') -> h = h'.
Proof.
  intros H0 Hr Hin Hh Ha E. apply reachable_ok in Hr as L; [|done]. simpl in L.
  pose proof (lo_handle _ _ L h' _ Hh) as Hok. unfold handle_ok in Hok. simpl in Hok.
  assert (s_opened s !! sig c = Some h') as Ho.
  { destruct b; [by apply Hok|]. destruct Hok as [_ Hz%users_zero]. done. }
  apply (New_ok held) in E as [_ (o & c2 & Ho' & _ & _ & Hall)]; [|done].
  rewrite Ha in Ho'. injection Ho' as <-. by apply Hall.
Qed.

(** Nothing leaks: a handle that nobody holds any more is closed, or a
    teardown is pending for it; and when that teardown runs while nobody
    holds it, the handle is closed and its options are free again. *)
Theorem released_is_torn_down s0 held s h c : no_cache s0 -> rtc life_step ([], s0) (held, s) ->
  s_handles s !! h = Some (Handle c true) -> h ∉ held ->
  exists n, s_timers s !! n = Some h /\
    s_opened (fire n s) !! sig c = None /\
    exists c', s_handles (fire n s) !! h = Some (Handle c' false) /\ usedBy c' = -1.
Proof.
  intros H0 Hr Hh Hn. apply reachable_ok in Hr as L; [|done]. simpl in L.
  pose proof (lo_handle _ _ L h _ Hh) as (Hs & Hu & Ht). simpl in *.
  apply users_zero in Hn. destruct (proj1 (list_elem_of_lookup _ _) (Ht Hn)) as [n Hn'].
  exists n. split; [done|]. unfold fire. rewrite Hn'. unfold teardown. simpl. rewrite Hh.
  assert (usedBy c = 0) as -> by lia. simpl.
  destruct (run_on c close_all _) as [[r c'] s'] eqn:Er.
  pose proof (run_on_use _ _ _ _ _ _ close_all_use Er) as (_ & Esig & _).
  simpl. rewrite lookup_delete_eq, lookup_insert_eq. split; [done|]. by eexists.
Qed.
End Life.

(** ** Concrete runs *)

Import Concrete.

Definition root_groups : list Z := [0].
Definition shadow_group (name : string) : result string :=
  if bool_decide (name = "shadow") then Ok "42" else Err (Opaque "group: unknown group").
Definition in_order (n : nat) : bool := true.

(** Nothing on disk, no failure ahead. *)
Definition fresh_sys (faults : list (option string)) : sys :=
  Sys ∅ faults (1700000000 * Second) 0 ∅ ∅ [].

Definition root_initDB (s : sys) : result Z * sys :=
  initDB 0 0 root_groups in_order "/c" 0 0 42 (-1) perm_0644 perm_0640 s.
Definition user_initDB (s : sys) : result Z * sys :=
  initDB 1000 1000 [1000] in_order "/c" 0 0 42 (-1) perm_0644 perm_0640 s.
Definition root_New (opts : list Option) (s : sys) : result nat * sys :=
  New 0 0 root_groups shadow_group in_order opts s.

Lemma fresh_no_cache faults : no_cache (fresh_sys faults).
Proof. done. Qed.

(** Root creates the files and gets read-write access. *)
Lemma initDB_checked_witness :
  (root_initDB (fresh_sys [])).1 = Ok shadowRWMode /\
  meta ShadowDB (dir_of "/c" (root_initDB (fresh_sys [])).2) = Some (FileMeta perm_0640 0 42).
Proof.
  split; [vm_compute; reflexivity|].
  destruct (root_initDB (fresh_sys [])) as [r s'] eqn:E.
  assert (r = Ok shadowRWMode) as -> by (apply (f_equal fst) in E; revert E; vm_compute; by intros <-).
  exact (proj2 (proj1 (initDB_checked 0 0 root_groups in_order "/c" 0 0 42 (-1) perm_0644 perm_0640 (fresh_sys []) _ _ E))).
Defined.

(** The same files are read by another user, without the shadow database. *)
Example user_access : (user_initDB (root_initDB (fresh_sys [])).2).1 = Ok shadowNotAvailableMode.
Proof. vm_compute. reflexivity. Qed.

(** The schema of the second file fails after the file was made: the creation is
    not taken up again, since both files are there, with the owners and modes
    that are expected of them. *)
Definition shadow_first_initDB (s : sys) : result Z * sys :=
  initDB 0 0 root_groups (fun _ => false) "/c" 0 0 42 (-1) perm_0644 perm_0640 s.
Definition cut_short : sys :=
  Sys ∅ (replicate 9 None ++ [Some "database or disk is full"]) (1700000000 * Second) 1 ∅ ∅ [].

Example cut_short_fails : is_ok (shadow_first_initDB cut_short).1 = false.
Proof. vm_compute. reflexivity. Qed.
Example cut_short_accepted : (shadow_first_initDB (shadow_first_initDB cut_short).2).1 = Ok shadowRWMode.
Proof. vm_compute. reflexivity. Qed.

Lemma initDB_unprivileged_witness :
  s_dirs (user_initDB (fresh_sys [])).2 = ∅ /\ (user_initDB (fresh_sys [])).1 <> Ok 0.
Proof.
  destruct (user_initDB (fresh_sys [])) as [r s'] eqn:E.
  assert (1000 <> 0 \/ 1000 <> 0) as Hne by (left; discriminate).
  destruct (initDB_unprivileged 1000 1000 [1000] in_order "/c" 0 0 42 (-1) perm_0644 perm_0640 (fresh_sys []) _ _ E Hne) as [Hd Hr].
  split; [exact Hd|]. apply (Hr PasswdDB). reflexivity.
Defined.

(** Two clients with the default options. *)
Definition sys1 : sys := (root_New [] (fresh_sys [])).2.
Definition sys2 : sys := (root_New [] sys1).2.
Definition sys3 : sys := (Close 0%nat (Close 0%nat sys2).2).2.

Lemma New_step held s : (root_New [] s).1 = Ok 0%nat ->
  life_step 0 0 root_groups shadow_group in_order (held, s) (0%nat :: held, (root_New [] s).2).
Proof. intros E. apply (StepNew _ _ _ _ _ _ _ []). unfold root_New in *. destruct (New _ _ _ _ _ _ _). by simpl in E; subst. Qed.

Lemma Close_step held s : life_step 0 0 root_groups shadow_group in_order (0%nat :: held, s) (held, (Close 0%nat s).2).
Proof.
  apply (StepClose _ _ _ _ _ _ _ _ 0%nat (Close 0%nat s).1); [done|]. by destruct (Close _ _).
Qed.

Lemma run_two : rtc (life_step 0 0 root_groups shadow_group in_order) ([], fresh_sys []) ([0%nat; 0%nat], sys2).
Proof.
  eapply rtc_l; [apply New_step; vm_compute; reflexivity|].
  eapply rtc_l; [apply New_step; vm_compute; reflexivity|]. apply rtc_refl.
Qed.

Lemma run_closed : rtc (life_step 0 0 root_groups shadow_group in_order) ([], fresh_sys []) ([], sys3).
Proof.
  etrans; [apply run_two|].
  eapply rtc_l; [apply Close_step|]. eapply rtc_l; [apply Close_step|]. apply rtc_refl.
Qed.

Lemma held_is_open_witness : exists c, s_handles sys2 !! 0%nat = Some (Handle c true) /\ usedBy c = 2.
Proof.
  destruct (held_is_open 0 0 root_groups shadow_group in_order (fresh_sys []) _ sys2 0%nat
    (fresh_no_cache []) run_two ltac:(by constructor)) as (c & Hh & _ & Hu).
  exists c. split; [exact Hh|exact Hu].
Defined.

Definition default_cache (n : Z) : Cache := set_usedBy n (new_cache default_options shadowRWMode).

Lemma sys2_handle : s_handles sys2 !! 0%nat = Some (Handle (default_cache 2) true).
Proof. vm_compute. reflexivity. Qed.

Lemma sys3_handle : s_handles sys3 !! 0%nat = Some (Handle (default_cache 0) true).
Proof. vm_compute. reflexivity. Qed.

Lemma third_New : exists h s', root_New [WithOfflineCredentialsExpiration 90] sys2 = (Ok h, s').
Proof.
  assert (is_ok (root_New [WithOfflineCredentialsExpiration 90] sys2).1 = true) as E by (vm_compute; reflexivity).
  destruct (root_New _ sys2) as [[h|e|p] s']; [by exists h, s'|discriminate E..].
Qed.

Lemma New_shares_witness : exists s',
  root_New [WithOfflineCredentialsExpiration 90] sys2 = (Ok 0%nat, s').
Proof.
  destruct third_New as (h & s' & E). exists s'. rewrite E. f_equal. f_equal.
  refine (New_shares 0 0 root_groups shadow_group in_order (fresh_sys []) [0%nat; 0%nat] sys2
    [WithOfflineCredentialsExpiration 90] h s' 0%nat (default_cache 2) true (fresh_no_cache []) run_two _
    sys2_handle _ E); [by constructor|reflexivity].
Defined.

Lemma released_is_torn_down_witness : exists n,
  s_timers sys3 !! n = Some 0%nat /\ s_opened (fire n sys3) !! default_options = None.
Proof.
  destruct (released_is_torn_down 0 0 root_groups shadow_group in_order (fresh_sys []) [] sys3 0%nat
    (default_cache 0) (fresh_no_cache []) run_closed sys3_handle) as (n & Hn & Ho & _).
  - by intros ?%elem_of_nil.
  - exists n. split; [exact Hn|exact Ho].
Defined.

(** A client that closes twice takes the database away from another one. *)
Example double_close :
  h_open <$> (s_handles (fire 0 (Close 0%nat (Close 0%nat sys2).2).2) !! 0%nat) = Some false.
Proof. vm_compute. reflexivity. Qed.

(** Chmod fails on the second file, the last call of a first New by root: both
    files exist from then on, so that the next calls never create them again
    and refuse the permission that was left. *)
Definition interrupted : sys :=
  (root_New [] (fresh_sys (repeat None 11 ++ [Some "chmod: I/O error"]))).2.

Example interrupted_creation :
  (exists e, (root_New [] (fresh_sys (repeat None 11 ++ [Some "chmod: I/O error"]))).1 = Err e) /\
  (exists e, (root_New [] interrupted).1 = Err e).
Proof. split; vm_compute; by eexists. Qed.
