(* ===== verification/Clients.v ===== *)
(** * How the clients of internal/cache use a handle

    PAM, NSS and the command line open a cache with New, run operations of
    the handle, and close it when they return, on every path. This file has
    the operations of a handle as steps of the process, the [defer c.Close()]
    idiom, and the proof that a client that follows it leaves the registry of
    opened caches as it found it. *)

From S2P Require Import Prelude GoStrings Interfaces Tables CacheDB CacheFacts HomeDir UidGen CacheAuth.
From S2P Require Import CacheIter CacheOpen CacheLife.
Open Scope string_scope.
Open Scope list_scope.
Open Scope Z_scope.

(** ** Operations through a handle *)

(** An operation of the handle [h]; a database that has been closed refuses. *)
Definition on_handle {A} (h : nat) (m : M (Cache * world) A) : M sys A := fun s =>
  match s_handles s !! h with
  | None => (Panic "nil pointer dereference", s)
  | Some (Handle c b) =>
      if b then
        let '(r, c', s') := run_on c m s in
        (r, set_handles (<[h := Handle c' b]> (s_handles s')) s')
      else (Err (Opaque "sql: database is closed"), s)
  end.

(** An operation that reads the fields of the cache but not its cursors. *)
Definition method {A} (op : Cache -> M world A) : M (Cache * world) A :=
  s ← get; on_world (op s.1).

(** [defer c.Close(ctx)] *)
Definition with_close {A} (h : nat) (m : M sys A) : M sys A :=
  defer (fun s => (Close h s).2) m.

Section Clients.
Context `{Decorator}.
Variables euid egid : Z.
Variable groups : list Z.
Variable LookupGroup : string -> result string.
Variable passwd_first : nat -> bool.

Abbreviation New := (New euid egid groups LookupGroup passwd_first).
Abbreviation life_step := (life_step euid egid groups LookupGroup passwd_first).

(** [c, err := cache.New(...); if err != nil ...; defer c.Close()]. *)
Definition with_cache {A} (conv : gerror -> gerror) (opts : list Option) (body : nat -> M sys A) : M sys A :=
  h ← map_err conv (New opts); with_close h (body h).

(** ** A client is a sequence of the steps of the process *)

(** From any state, holding [h], the computation takes steps that keep what
    is held. *)
Definition uses {A} (h : nat) (m : M sys A) : Prop :=
  forall held s, h ∈ held -> life_ok held s -> rtc life_step (held, s) (held, (m s).2).

Lemma uses_on_handle {A} h (m : M (Cache * world) A) : frames same_use m -> uses h (on_handle h m).
Proof.
  intros Hm held s Hin L. unfold on_handle.
  destruct (s_handles s !! h) as [[c b]|] eqn:Hh; [|apply rtc_refl].
  destruct b; [|apply rtc_refl]. destruct (run_on c m s) as [[r c'] s'] eqn:Er.
  apply rtc_once. by eapply StepUse.
Qed.

Lemma rtc_life_ok held s p : rtc life_step (held, s) p -> life_ok held s -> life_ok p.1 p.2.
Proof.
  intros Hr. change (life_ok held s) with (life_ok (held, s).1 (held, s).2).
  induction Hr as [|x y z Hxy _ IH]; [done|]. intros L. by eapply IH, life_step_ok.
Qed.

Lemma uses_ret {A} h (a : A) : uses h (mret a).
Proof. intros held s _ _. apply rtc_refl. Qed.

Lemma uses_fail {A} h e : uses h (@fail sys A e).
Proof. intros held s _ _. apply rtc_refl. Qed.

Lemma uses_bind {A B} h (m : M sys A) (f : A -> M sys B) :
  uses h m -> (forall a, uses h (f a)) -> uses h (m ≫= f).
Proof.
  intros Hm Hf held s Hin L. unfold mbind, M_bind. specialize (Hm held s Hin L).
  destruct (m s) as [[a|e|p] s']; simpl in *; [|done..].
  etrans; [done|]. apply Hf; [done|]. by apply rtc_life_ok in Hm.
Qed.

Lemma uses_map_err {A} h f (m : M sys A) : uses h m -> uses h (map_err f m).
Proof. intros Hm held s Hin L. rewrite map_err_snd. by apply Hm. Qed.

Lemma uses_attempt {A} h (m : M sys A) : uses h m -> uses h (attempt m).
Proof. intros Hm held s Hin L. unfold attempt. specialize (Hm held s Hin L). by destruct (m s) as [[]]. Qed.

(** The end of a client: what it held is given back. *)
Lemma with_close_life {A} h (m : M sys A) held s : uses h m -> life_ok (h :: held) s ->
  rtc life_step (h :: held, s) (held, (with_close h m s).2).
Proof.
  intros Hm L. unfold with_close, defer. specialize (Hm (h :: held) s ltac:(by constructor) L).
  destruct (m s) as [r s1]. simpl in *. eapply rtc_r; [exact Hm|].
  apply (StepClose _ _ _ _ _ _ _ _ h (Close h s1).1); [done|]. by destruct (Close h s1).
Qed.

(** Opening, using and closing: nothing is held at the end. *)
Lemma with_cache_life {A} conv opts (body : nat -> M sys A) held s :
  (forall h, uses h (body h)) -> life_ok held s ->
  rtc life_step (held, s) (held, (with_cache conv opts body s).2).
Proof.
  intros Hb L. unfold with_cache, mbind, M_bind, map_err.
  destruct (New opts s) as [[h|e|p] s1] eqn:E.
  - eapply rtc_l; [by eapply StepNew|]. apply (New_ok _ _ _ _ _ held) in E as [L1 _]; [|done].
    by apply with_close_life.
  - apply rtc_once. by eapply StepNewFail.
  - apply rtc_once. by eapply StepNewFail.
Qed.

(** What such a client returns: the failure of New, or the body's result. *)
Lemma with_cache_result {A} conv opts (body : nat -> M sys A) s :
  (with_cache conv opts body s).1 =
  match New opts s with
  | (Ok h, s1) => (body h s1).1
  | (Err e, _) => Err (conv e)
  | (Panic p, _) => Panic p
  end.
Proof.
  unfold with_cache, mbind, M_bind, map_err, with_close, defer. destruct (New opts s) as [[h|e|p] s1]; [|done..].
  by destruct (body h s1).
Qed.
End Clients.

(** ** The tables of a directory *)

Definition tables_at (d : string) (s : sys) : database := d_tables (dir_of d s).

Lemma tables_at_put_world d d' w s :
  tables_at d (put_world d' w s) = if bool_decide (d = d') then w_db w else tables_at d s.
Proof.
  unfold tables_at, dir_of, put_world. simpl. case_bool_decide as E; [subst|].
  - by rewrite lookup_insert_eq.
  - by rewrite lookup_insert_ne.
Qed.

(** A method of an opened handle: it runs on the tables of its directory, and
    the handle stays as it is. *)
Lemma on_handle_method {A} h (op : Cache -> M world A) c s r w : s_handles s !! h = Some (Handle c true) ->
  op c (world_of (o_cacheDir (sig c)) s) = (r, w) ->
  on_handle h (method op) s =
  (r, set_handles (<[h := Handle c true]> (s_handles s)) (put_world (o_cacheDir (sig c)) w s)).
Proof.
  intros Hh E. unfold on_handle. rewrite Hh. unfold run_on, method, mbind, M_bind, get, on_world, zoom. simpl.
  by rewrite E.
Qed.

(** On a handle that is not opened nothing happens. *)
Lemma on_handle_closed {A} h (m : M (Cache * world) A) s :
  (forall c, s_handles s !! h <> Some (Handle c true)) ->
  (forall a, (on_handle h m s).1 <> Ok a) /\ (on_handle h m s).2 = s.
Proof. unfold on_handle. destruct (s_handles s !! h) as [[c []]|]; intros Hc; [by destruct (Hc c)|done..]. Qed.

(** The handle is opened, or not. *)
Lemma handle_cases h s : (exists c, s_handles s !! h = Some (Handle c true)) \/
  (forall c, s_handles s !! h <> Some (Handle c true)).
Proof. destruct (s_handles s !! h) as [[c []]|]; [by left; exists c|by right..]. Qed.

Lemma on_handle_method_Ok {A} h (op : Cache -> M world A) s a s' :
  on_handle h (method op) s = (Ok a, s') ->
  exists c, s_handles s !! h = Some (Handle c true) /\ (op c (world_of (o_cacheDir (sig c)) s)).1 = Ok a.
Proof.
  unfold on_handle. destruct (s_handles s !! h) as [[c []]|]; [|done..]. intros E. exists c. split; [done|].
  unfold run_on, method, mbind, M_bind, get, on_world, zoom in E. simpl in E.
  destruct (op c _) as [r w]. simpl. by injection E as -> _.
Qed.

(** Reading methods keep the use of the handle. *)
Lemma method_use {A} (op : Cache -> M world A) : frames same_use (method op).
Proof. unfold method. apply frames_bind; [apply _|auto with frames|]. intros s. apply on_world_use. Qed.

(** What the steps of an iteration preserve, the call preserves. *)
Lemma next_entry_frames {Row Rec} (R : Cache * world -> Cache * world -> Prop) `{!PreOrder R}
    (cursor : Cache -> option (sql_rows Row)) set_cursor run_query
    (scan : M (Cache * world) Row -> M (Cache * world) Rec) msg :
  (forall r c w, R (c, w) (set_cursor r c, w)) ->
  (forall A (m : M world A), readonly m -> frames R (on_world m)) ->
  (forall c, readonly (run_query c)) -> (forall row, frames R (scan (mret row))) ->
  frames R (next_entry cursor set_cursor run_query scan msg).
Proof.
  intros Hset Hw Hq Hscan.
  assert (forall r, frames R (put_cursor set_cursor r)) as Hput by (intros r [c w]; apply Hset).
  unfold next_entry, open_cursor. apply frames_map_err, frames_bind; [apply _| |intros r].
  - apply frames_bind; [apply _|apply frames_get, _|]. intros s. destruct (cursor s.1); [apply frames_ret, _|].
    apply frames_bind; [apply _|by apply Hw|]. intros rows.
    apply frames_bind; [apply _|apply Hput|]. intros _. apply frames_ret, _.
  - apply frames_bind; [apply _|apply Hw|].
    + unfold rows_next. destruct (rows_closed r); [auto with ro|]. apply ro_bind; [auto with ro|].
      intros []; destruct (rows_left r); auto with ro.
    + intros n. apply frames_bind; [apply _|apply Hput|]. intros _. destruct n.1; [apply Hscan|].
      apply frames_bind; [apply _|apply Hw|].
      * unfold rows_close. destruct (rows_closed n.2); auto with ro.
      * intros _. apply frames_bind; [apply _|apply Hput|]. intros _. apply frames_fail, _.
Qed.

Lemma scan_frames {Row Rec} (R : Cache * world -> Cache * world -> Prop) `{!PreOrder R}
    (f : Row -> result Rec) row (g : gerror -> gerror) :
  frames R (map_err g (c ← mret row; lift (f c))).
Proof.
  apply frames_map_err, frames_bind; [apply _|apply frames_ret, _|]. intros c. apply frames_lift, _.
Qed.

Section Iterators.
Context `{Decorator} `{RowOrder}.

(** The three iterators, given what holds of the steps. *)
Lemma iterators_frames (R : Cache * world -> Cache * world -> Prop) `{!PreOrder R} :
  (forall c c' w, sig c' = sig c -> usedBy c' = usedBy c ->
     offlineCredentialsExpiration c' = offlineCredentialsExpiration c -> R (c, w) (c', w)) ->
  (forall A (m : M world A), readonly m -> frames R (on_world m)) ->
  frames R NextPasswdEntry /\ frames R NextGroupEntry /\ frames R NextShadowEntry.
Proof.
  intros Hset Hw. split_and!; (apply next_entry_frames; [apply _|intros; by apply Hset|done| |intros row; apply scan_frames, _]);
    intros c; auto with ro.
  unfold query_all_shadow. destruct (_ <? _); [auto with ro|]. apply ro_bind; auto with ro.
Qed.

Lemma iterators_use : frames same_use NextPasswdEntry /\ frames same_use NextGroupEntry /\ frames same_use NextShadowEntry.
Proof. apply iterators_frames; [apply _|done|]. intros A m _. apply on_world_use. Qed.

Lemma NextPasswdEntry_use : frames same_use NextPasswdEntry.
Proof. apply iterators_use. Qed.
Lemma NextGroupEntry_use : frames same_use NextGroupEntry.
Proof. apply iterators_use. Qed.
Lemma NextShadowEntry_use : frames same_use NextShadowEntry.
Proof. apply iterators_use. Qed.
Lemma ClosePasswdIterator_use : frames same_use ClosePasswdIterator.
Proof. by apply close_iterator_use. Qed.
Lemma CloseGroupIterator_use : frames same_use CloseGroupIterator.
Proof. by apply close_iterator_use. Qed.
Lemma CloseShadowIterator_use : frames same_use CloseShadowIterator.
Proof. by apply close_iterator_use. Qed.
End Iterators.

Create HintDb uses.
#[export] Hint Resolve uses_on_handle uses_ret uses_fail uses_bind uses_map_err uses_attempt
  method_use NextPasswdEntry_use NextGroupEntry_use NextShadowEntry_use ClosePasswdIterator_use
  CloseGroupIterator_use CloseShadowIterator_use : uses.
