(* ===== verification/Configured.v ===== *)
(** * The options of a cache, from New to the operations

    The registry gives a handle to the options it was opened with, and the
    fields of a handle that come from its options are never changed: whatever
    the clients do, the expiration that CanAuthenticate applies is the one
    that was asked for. *)

From S2P Require Import Prelude GoStrings Interfaces Tables CacheDB CacheFacts HomeDir UidGen CacheAuth.
From S2P Require Import CacheIter CacheOpen CacheLife Clients.
Open Scope string_scope.
Open Scope list_scope.
Open Scope Z_scope.

(** Every handle carries its options, and is registered under them. *)
Record configured (s : sys) : Prop := {
  cf_opened o h : s_opened s !! o = Some h -> exists c b, s_handles s !! h = Some (Handle c b) /\ sig c = o;
  cf_handle h c b : s_handles s !! h = Some (Handle c b) ->
    offlineCredentialsExpiration c = o_offlineCredentialsExpiration (sig c);
}.

Lemma configured_empty s : no_cache s -> configured s.
Proof. intros (E1 & E2 & _). split; [intros o h|intros h c b]; by rewrite ?E1, ?E2, lookup_empty. Qed.

(** Only the registry and the handles matter. *)
Lemma configured_same s s' : s_opened s' = s_opened s -> s_handles s' = s_handles s ->
  configured s -> configured s'.
Proof. intros E1 E2 [C1 C2]. split; [intros o h; rewrite E1, E2; apply C1|intros h c b; rewrite E2; apply C2]. Qed.

Lemma configured_life s s' : same_life s s' -> configured s -> configured s'.
Proof. intros (E1 & E2 & _). by apply configured_same. Qed.

(** A handle that is changed, but for its options. *)
Lemma configured_update s s' h c b c' b' : s_opened s' = s_opened s ->
  s_handles s' = <[h := Handle c' b']> (s_handles s) -> s_handles s !! h = Some (Handle c b) ->
  sig c' = sig c -> offlineCredentialsExpiration c' = offlineCredentialsExpiration c ->
  configured s -> configured s'.
Proof.
  intros E1 E2 Hh Es Ee [C1 C2]. split.
  - intros o k. rewrite E1, E2. intros (c0 & b0 & Hc0 & <-)%C1. destruct (decide (k = h)) as [->|Hn].
    + rewrite lookup_insert_eq. simplify_eq. by exists c', b'.
    + rewrite lookup_insert_ne by done. by exists c0, b0.
  - intros k c0 b0. rewrite E2. destruct (decide (k = h)) as [->|Hn].
    + rewrite lookup_insert_eq. intros [= <- <-]. rewrite Ee, Es. by eapply C2.
    + rewrite lookup_insert_ne by done. apply C2.
Qed.

(** A new entry of the registry. *)
Lemma configured_opened s s' o mode : s_opened s' = <[o := fresh (dom (s_handles s))]> (s_opened s) ->
  s_handles s' = <[fresh (dom (s_handles s)) := Handle (new_cache o mode) true]> (s_handles s) ->
  configured s -> configured s'.
Proof.
  intros E1 E2 [C1 C2]. set (h := fresh (dom (s_handles s))) in *.
  assert (s_handles s !! h = None) as Hnone by apply not_elem_of_dom, is_fresh. split.
  - intros o' k. rewrite E1, E2. destruct (decide (o' = o)) as [->|Hn].
    + rewrite lookup_insert_eq. intros [= <-]. rewrite lookup_insert_eq. by eexists _, _.
    + rewrite lookup_insert_ne by done. intros (c0 & b0 & Hc0 & <-)%C1. exists c0, b0.
      rewrite lookup_insert_ne by congruence. done.
  - intros k c0 b0. rewrite E2. destruct (decide (k = h)) as [->|Hn].
    + rewrite lookup_insert_eq. by intros [= <- <-].
    + rewrite lookup_insert_ne by done. apply C2.
Qed.

Section Configured.
Context `{Decorator}.

Lemma Close_configured h s : configured s -> configured (Close h s).2.
Proof.
  unfold Close. destruct (s_handles s !! h) as [[c b]|] eqn:Hh; [|done]. intros C.
  destruct (negb _); simpl; by eapply (configured_update s _ h c b (set_usedBy (usedBy c - 1) c) b).
Qed.

Lemma on_handle_configured {A} h (m : M (Cache * world) A) s : frames same_use m ->
  configured s -> configured (on_handle h m s).2.
Proof.
  intros Hm C. unfold on_handle. destruct (s_handles s !! h) as [[c []]|] eqn:Hh; [|done..].
  destruct (run_on c m s) as [[r c'] s'] eqn:Er. pose proof (run_on_use _ _ _ _ _ _ Hm Er) as (_ & Es & Ee).
  apply run_on_life in Er as (E1 & E2 & _). simpl in *.
  eapply (configured_update s _ h c true c' true); simpl; [done|by rewrite E2|done..].
Qed.

Lemma fire_configured n s : configured s -> configured (fire n s).
Proof.
  intros C. unfold fire. destruct (s_timers s !! n) as [h|]; [|done]. unfold teardown. simpl.
  destruct (s_handles s !! h) as [[c b]|] eqn:Hh; [|by apply (configured_same s)].
  destruct (negb _); [by apply (configured_same s)|].
  destruct (run_on c close_all (set_timers (delete n (s_timers s)) s)) as [[r c'] s'] eqn:Er.
  pose proof (run_on_use _ _ _ _ _ _ close_all_use Er) as (_ & Es & Ee).
  apply run_on_life in Er as (E1 & E2 & _). simpl in *.
  assert (configured (set_handles (<[h := Handle (set_usedBy (-1) c') false]> (s_handles s')) s')) as [C1 C2]
    by (eapply (configured_update s _ h c b); simpl; [done|by rewrite E2|done..]).
  split; [|exact C2]. intros o k. simpl. intros Ho. apply C1. simpl.
  by apply lookup_delete_Some in Ho as [_ ?].
Qed.

Section New.
Variables euid egid : Z.
Variable groups : list Z.
Variable LookupGroup : string -> result string.
Variable passwd_first : nat -> bool.

Abbreviation New := (New euid egid groups LookupGroup passwd_first).

(** The handle that New returns has the expiration that was asked for. *)
Lemma New_configured opts s : configured s ->
  configured (New opts s).2 /\
  forall h, (New opts s).1 = Ok h -> exists o c b, apply_options opts default_options = Ok o
    /\ s_handles (New opts s).2 !! h = Some (Handle c b)
    /\ offlineCredentialsExpiration c = o_offlineCredentialsExpiration o.
Proof.
  intros C. unfold CacheOpen.New, on_error, map_err, mbind, M_bind, lift, get.
  destruct (apply_options opts default_options) as [o|e|why]; simpl; [|done..].
  destruct (s_opened s !! o) as [h|] eqn:Ho.
  - destruct (cf_opened _ C _ _ Ho) as (c & b & Hh & Es). unfold reuse. rewrite Hh. simpl. split.
    + by eapply (configured_update s _ h c b (set_usedBy (usedBy c + 1) c) b).
    + intros h' [= <-]. exists o, (set_usedBy (usedBy c + 1) c), b. rewrite lookup_insert_eq.
      split_and!; [done..|]. rewrite <- Es. exact (cf_handle _ C _ _ _ Hh).
  - destruct (open_cache euid egid groups LookupGroup passwd_first o s) as [r s'] eqn:E.
    apply open_cache_inv in E as [(mode & s1 & (E1 & E2 & _) & -> & ->)|[Hn F]]; simpl.
    + split; [by eapply (configured_opened s)|]. intros h [= <-].
      exists o, (new_cache o mode), true. by rewrite lookup_insert_eq.
    + split; [by destruct r; simpl; apply (configured_life s)|].
      intros h Hr. destruct r as [h0|e|why]; [by destruct (Hn h0)|done..].
Qed.
End New.
End Configured.
