(* ===== verification/Typed.v ===== *)
(** * The types of the columns

    What fits in the columns beyond the constraints of the schema: the numbers
    are those of C types (the NSS buffers narrow them to 32 bits), the passwords
    of the public tables are placeholders, the columns that are scanned without
    a test are not NULL, and the ages of a password stay disabled. Every
    operation that writes keeps it. *)

From S2P Require Import Prelude GoStrings Interfaces Tables CacheDB CacheFacts UidGen CacheAuth CacheUpdate.
Open Scope string_scope.
Open Scope list_scope.
Open Scope Z_scope.

(** uid_t and gid_t *)
Definition uint32 (z : Z) : Prop := 0 <= z < 2 ^ 32.

Definition typed_user (p : passwd_row) : Prop :=
  uint32 (p_uid p) /\ p_password p = Some "x" /\ is_Some (p_last_online_auth p).

Definition typed_group (g : group_row) : Prop := uint32 (g_gid g) /\ g_password g = Some "x".

Definition typed_shadow (s : shadow_row) : Prop :=
  s_last_pwd_change s = -1 /\ s_min_pwd_age s = -1 /\ s_max_pwd_age s = -1 /\ s_pwd_warn_period s = -1
  /\ s_pwd_inactivity s = -1 /\ s_expiration_date s = -1.

Record typed (d : database) : Prop := {
  ty_users : Forall typed_user (t_passwd d);
  ty_groups : Forall typed_group (t_groups d);
  ty_shadow : Forall typed_shadow (t_shadow d);
}.

Section Typed.
Context `{Decorator} `{Bcrypt} `{RowOrder}.

Lemma typed_empty : typed empty_db.
Proof. split; constructor. Qed.

Lemma typed_inserted n home sh id d : uint32 id -> typed d -> typed (user_inserted (new_user n home sh id) d).
Proof.
  intros Hid [Hu Hg Hs]. assert (i64 id = id) as Ei by (apply i64_small; unfold uint32 in *; lia).
  split; simpl; rewrite Forall_app, Forall_singleton; (split; [done|]); unfold typed_user, typed_group; simpl; rewrite ?Ei.
  - by split_and!.
  - done.
  - done.
Qed.

Lemma typed_refreshed now uid h d : typed d -> typed (refreshed now uid h d).
Proof.
  intros [Hu Hg Hs]. split; [|done|]; simpl; rewrite Forall_fmap; (eapply Forall_impl; [done|]); intros r Hr; simpl.
  - destruct (_ =? _); [|done]. destruct Hr as (? & ? & _). by split_and!.
  - by destruct (_ =? _).
Qed.

Lemma typed_purged t d : typed d -> typed (purged t d).
Proof.
  intros [Hu Hg Hs]. split; apply Forall_forall.
  - intros p [Hp _]%elem_of_purged_passwd. by rewrite Forall_forall in Hu; apply Hu.
  - intros g [Hp _]%elem_of_purged_group. by rewrite Forall_forall in Hg; apply Hg.
  - intros s [Hp _]%elem_of_purged_shadow. by rewrite Forall_forall in Hs; apply Hs.
Qed.

Lemma typed_set_attr attr v p q : set_attr attr v p = Some q -> typed_user p -> typed_user q.
Proof. unfold set_attr. repeat case_bool_decide; intros; by simplify_eq. Qed.

Lemma typed_update_attr attr v login d d' : update_attr attr v login d = Ok (tt, d') -> typed d -> typed d'.
Proof.
  intros (E1 & E2 & E3 & Hf)%update_attr_inv [Hu Hg Hs]. split; [|by rewrite E1|by rewrite E3].
  induction Hf as [|p q l l' Hq _ IH]; [constructor|]. apply Forall_cons in Hu as [Hp Hu]. constructor; [|by apply IH].
  case_bool_decide; [by eapply typed_set_attr|by simplify_eq].
Qed.

(** The three columns that an attribute update writes. *)
Definition texts_present (p : passwd_row) : Prop :=
  is_Some (p_gecos p) /\ is_Some (p_home p) /\ is_Some (p_shell p).
Definition all_present (d : database) : Prop := Forall texts_present (t_passwd d).

Lemma present_inserted u d : all_present d -> all_present (user_inserted u d).
Proof. intros Hd. unfold all_present. simpl. rewrite Forall_app, Forall_singleton. split; [done|]. by split_and!. Qed.

Lemma present_refreshed now uid h d : all_present d -> all_present (refreshed now uid h d).
Proof.
  intros Hd. unfold all_present. simpl. rewrite Forall_fmap. eapply Forall_impl; [exact Hd|]. intros p Hp. simpl.
  by destruct (_ =? _).
Qed.

Lemma present_purged t d : all_present d -> all_present (purged t d).
Proof.
  unfold all_present. rewrite !Forall_forall. intros Hd p [Hp _]%elem_of_purged_passwd. by apply Hd.
Qed.

Lemma present_update_attr attr v login d d' : v <> VNull -> update_attr attr v login d = Ok (tt, d') ->
  all_present d -> all_present d'.
Proof.
  intros Hv (_ & _ & _ & Hf)%update_attr_inv. unfold all_present.
  induction Hf as [|p q l l' Hq _ IH]; [done|]. intros [Hp Hl]%Forall_cons. constructor; [|by apply IH].
  assert (is_Some (text_affinity v)) as Ht by (destruct v; [done|by eexists..]).
  destruct Hp as (Hg & Hh & Hs). unfold set_attr in Hq. repeat case_bool_decide; simplify_eq; by split_and!.
Qed.

Lemma typed_subject n pat sh uid d0 d1 : subject n pat sh uid d0 d1 -> typed d0 -> typed d1.
Proof. intros [[-> _]|(id & home & _ & (_ & Hid & _) & ->)]; [done|]. by apply typed_inserted. Qed.

Lemma typed_Update c n pw pattern shell w r w' : Update c n pw pattern shell w = (r, w') ->
  typed (w_db w) -> typed (w_db w').
Proof.
  intros [_ [(_ & _ & uid & h & d1 & Hs & _ & ->)|[_ [->|(id & home & _ & (_ & Hid & _) & ->)]]]]%Update_inv Hok; [|done|].
  - by eapply typed_refreshed, typed_subject.
  - by apply typed_inserted.
Qed.

(** ** What the types are for *)

(** The scans of the lookups fail exactly on a NULL in one of the three columns
    that an attribute update writes. *)
Lemma typed_scan_user pw p : typed_user p ->
  is_ok (scan_user (user_cols_of (Some pw) p)) = true <-> texts_present p.
Proof.
  intros (_ & Hx & [l Hl]). unfold texts_present. split.
  - destruct (scan_user _) as [u|e|why] eqn:Hs; [|done..]. intros _.
    apply scan_user_Ok in Hs as (_ & _ & _ & _ & Hge & Hho & Hsh & _). simpl in *. by rewrite Hge, Hho, Hsh.
  - intros ([ge Hge] & [ho Hho] & [sh Hsh]). unfold user_cols_of, scan_user. simpl.
    by rewrite Hx, Hl, Hge, Hho, Hsh.
Qed.

Lemma typed_scan_group g members : typed_group g ->
  scan_group (GroupCols (Some (g_name g)) (g_password g) (Some (g_gid g)) (Some members))
  = Ok (MkGroupRecord (g_name g) (g_gid g) "x" (Split "," members)).
Proof. intros [_ Hx]. unfold scan_group. simpl. by rewrite Hx. Qed.

(** The conversion of a uid or a gid for C keeps it. *)
Lemma typed_uid p : typed_user p -> u32 (p_uid p) = p_uid p.
Proof. intros [Hp _]. by apply u32_small. Qed.
End Typed.
