(* ===== verification/CacheSpec.v ===== *)
(** * The cache as one map

    What the four tables stand for: a map from logins to accounts, and what each
    operation of the package may answer and do to it. The refinement theorem
    says that the operations on the tables implement these, whatever fails. *)

From S2P Require Import Prelude GoStrings Interfaces Tables CacheDB CacheFacts HomeDir UidGen CacheAuth.
From S2P Require Import CacheUpdate CacheTheorems Typed.
Open Scope string_scope.
Open Scope list_scope.
Open Scope Z_scope.

(** ** The specification *)

Record account := Account {
  a_uid : Z;
  a_gecos : option string;
  a_home : option string;
  a_shell : option string;
  a_last : option Z;
  a_hash : string;
}.

Abbreviation accounts := (gmap string account).

(** A registered user, with the login and the hash of a verification. *)
Definition registered (id : Z) (home shell : string) (last : Z) (hash : string) : account :=
  Account id (Some "") (Some home) (Some shell) (Some last) hash.

Definition verified_at (now : Z) (hash : string) (a : account) : account :=
  Account (a_uid a) (a_gecos a) (a_home a) (a_shell a) (Some (Unix now)) hash.

Definition idle_since (t : Z) (a : account) : Prop := match a_last a with Some l => l < t | None => False end.
#[export] Instance idle_since_dec t a : Decision (idle_since t a).
Proof. unfold idle_since. destruct (a_last a); apply _. Defined.

Definition set_account (attr : string) (v : option string) (a : account) : option account :=
  if bool_decide (attr = "gecos") then Some (Account (a_uid a) v (a_home a) (a_shell a) (a_last a) (a_hash a))
  else if bool_decide (attr = "home") then Some (Account (a_uid a) (a_gecos a) v (a_shell a) (a_last a) (a_hash a))
  else if bool_decide (attr = "shell") then Some (Account (a_uid a) (a_gecos a) (a_home a) v (a_last a) (a_hash a))
  else None.

(** The record that a client is given of an account, the hash being hidden
    from one that cannot read it. *)
Definition shows (c : Cache) (n : string) (a : account) (u : UserRecord) : Prop :=
  Name u = n /\ Passwd u = "x" /\ UID u = a_uid a /\ GID u = a_uid a
  /\ a_gecos a = Some (Gecos u) /\ a_home a = Some (Home u) /\ a_shell a = Some (Shell u)
  /\ (exists l, a_last a = Some l /\ LastOnlineAuth u = timeUnix l)
  /\ ShadowPasswd u = if shadowNotAvailableMode <? shadowMode c then a_hash a else "".

(** The operations of the package on an opened cache. *)
Inductive call :=
  | CallUpdate (username password homeDirPattern shell : string)
  | CallCanAuthenticate (username password : string)
  | CallGetUserByName (username : string)
  | CallUpdateUserAttribute (login attr : string) (value : sqlval)
  | CallCleanUp (maxCacheEntryDuration : Z).

Section Spec.
Context `{Decorator} `{Bcrypt} `{RowOrder}.

(** A login that is not taken, for a number that is not. *)
Definition free (m : accounts) (n : string) (id : Z) : Prop :=
  m !! n = None /\ forall n' a, m !! n' = Some a -> a_uid a <> id.

(** What an operation may answer at the time [now], and the map after it. *)
Inductive spec_step (c : Cache) (now : Z) (m : accounts) : call -> result (option UserRecord) -> accounts -> Prop :=
  | SpecVerified n pw pat sh a h :
      shadowMode c = shadowRWMode -> m !! n = Some a -> bcrypt_compare h pw = None ->
      spec_step c now m (CallUpdate n pw pat sh) (Ok None) (<[n := verified_at now h a]> m)
  | SpecRegistered n pw pat sh id home h :
      shadowMode c = shadowRWMode -> free m n id -> uint32 id -> parseHomeDir pat n (pretty id) = Ok home ->
      bcrypt_compare h pw = None ->
      spec_step c now m (CallUpdate n pw pat sh) (Ok None) (<[n := registered id home sh (Unix now) h]> m)
  | SpecUnverified n pw pat sh id home r :
      shadowMode c = shadowRWMode -> free m n id -> uint32 id -> parseHomeDir pat n (pretty id) = Ok home ->
      is_ok r = false ->
      spec_step c now m (CallUpdate n pw pat sh) r (<[n := registered id home sh (Unix zeroTime) ""]> m)
  | SpecAccepted n pw a l :
      shadowROMode <= shadowMode c -> m !! n = Some a -> bcrypt_compare (a_hash a) pw = None -> a_last a = Some l ->
      (offlineCredentialsExpiration c = 0 \/
       (0 < offlineCredentialsExpiration c /\ now <= timeUnix l + days_to_duration (offlineCredentialsExpiration c))) ->
      spec_step c now m (CallCanAuthenticate n pw) (Ok None) m
  | SpecFound n a u :
      m !! n = Some a -> shows c n a u -> spec_step c now m (CallGetUserByName n) (Ok (Some u)) m
  | SpecAttribute n attr v a a' :
      m !! n = Some a -> set_account attr (text_affinity v) a = Some a' ->
      spec_step c now m (CallUpdateUserAttribute n attr v) (Ok None) (<[n := a']> m)
  | SpecPurged dur :
      spec_step c now m (CallCleanUp dur) (Ok None) (filter (fun na => ~ idle_since (purge_time now dur) na.2) m)
  | SpecRefused k r :
      is_ok r = false ->
      (forall n e, k = CallGetUserByName n -> r = Err e -> errors_is e ErrNoEnt = true -> m !! n = None) ->
      spec_step c now m k r m.

(** The operations of the source. *)
Definition run_call (c : Cache) (k : call) : M world (option UserRecord) :=
  match k with
  | CallUpdate n pw pat sh => Update c n pw pat sh ;; mret None
  | CallCanAuthenticate n pw => CanAuthenticate c n pw ;; mret None
  | CallGetUserByName n => u ← GetUserByName c n; mret (Some u)
  | CallUpdateUserAttribute n attr v => UpdateUserAttribute n attr v ;; mret None
  | CallCleanUp dur => cleanUpDB dur ;; mret None
  end.

(** ** The tables that represent a map *)

Definition account_of (p : passwd_row) (s : shadow_row) : account :=
  Account (p_uid p) (p_gecos p) (p_home p) (p_shell p) (p_last_online_auth p) (s_password s).

Record represents (d : database) (m : accounts) : Prop := {
  rp_wf : db_wf d;
  rp_coherent : coherent d;
  rp_typed : typed d;
  rp_accounts n a : m !! n = Some a <->
    exists p s, p ∈ t_passwd d /\ s ∈ t_shadow d /\ s_uid s = p_uid p /\ p_login p = n /\ a = account_of p s;
}.

Lemma represents_empty : represents empty_db ∅.
Proof.
  split; [apply empty_wf|apply coherent_empty|apply typed_empty|]. intros n a. rewrite lookup_empty.
  split; [done|]. by intros (p & s & ?%elem_of_nil & _).
Qed.

Lemma represents_row d m p : represents d m -> p ∈ t_passwd d ->
  exists s, s ∈ t_shadow d /\ s_uid s = p_uid p /\ m !! p_login p = Some (account_of p s).
Proof.
  intros [_ Hco _ Ha] Hp.
  assert (p_uid p ∈ s_uid <$> t_shadow d) as (s & Es & Hs)%list_elem_of_fmap
    by (apply (co_shadow _ Hco); by apply list_elem_of_fmap_2).
  exists s. split_and!; [done..|]. apply Ha. by exists p, s.
Qed.

Lemma represents_none d m n : represents d m -> m !! n = None <-> n ∉ p_login <$> t_passwd d.
Proof.
  intros R. split.
  - intros Hn (p & -> & Hp)%list_elem_of_fmap. destruct (represents_row _ _ _ R Hp) as (s & _ & _ & E). congruence.
  - intros Hn. apply eq_None_not_Some. intros [a (p & s & Hp & _ & _ & <- & _)%(rp_accounts _ _ R)].
    apply Hn. by apply list_elem_of_fmap_2.
Qed.

(** A number that no row has is free. *)
Lemma represents_free d m n home sh id : represents d m -> uint32 id ->
  fresh_user (new_user n home sh id) d -> free m n id.
Proof.
  intros R Hid [Hl Hu _ _ _ _]. simpl in *. rewrite i64_small in Hu by (unfold uint32 in Hid; lia). split.
  - by apply (represents_none _ _ _ R).
  - intros n' a (p & s & Hp & _ & _ & _ & ->)%(rp_accounts _ _ R) E. simpl in E. apply Hu. rewrite <- E.
    by apply list_elem_of_fmap_2.
Qed.

Lemma represents_inserted d m n home sh id : represents d m -> uint32 id -> fresh_user (new_user n home sh id) d ->
  represents (user_inserted (new_user n home sh id) d) (<[n := registered id home sh (Unix zeroTime) ""]> m).
Proof.
  intros [Hwf Hco Hty Ha] Hid Hf.
  split; [by apply user_inserted_wf|by apply coherent_inserted|by apply typed_inserted|].
  assert (i64 id = id) as Ei by (apply i64_small; unfold uint32 in Hid; lia).
  intros n' a. rewrite lookup_insert_Some, Ha. simpl. rewrite Ei.
  setoid_rewrite elem_of_app. setoid_rewrite list_elem_of_singleton. split.
  - intros [[<- <-]|[Hn (p & s & Hp & Hs & E & <- & ->)]]; do 2 eexists.
    + split_and!; [by right|by right|done..].
    + split_and!; [by left|by left|done..].
  - destruct Hf as [Hl Hu Hs0 _ _ _]. simpl in *. rewrite Ei in *.
    intros (p & s & [Hp| ->] & [Hs| ->] & E & <- & ->); simpl in E.
    + right. split; [|by exists p, s]. intros ->. apply Hl. by apply list_elem_of_fmap_2.
    + destruct Hu. rewrite E. by apply list_elem_of_fmap_2.
    + destruct Hs0. rewrite <- E. by apply list_elem_of_fmap_2.
    + by left.
Qed.

(** The refresh of the user whose row has the number [uid]. *)
Lemma represents_refreshed d m n a now h : represents d m -> m !! n = Some a ->
  represents (refreshed now (a_uid a) h d) (<[n := verified_at now h a]> m).
Proof.
  intros [Hwf Hco Hty Ha] (pn & sn & Hpn & Hsn & En & <- & ->)%Ha. simpl.
  split; [by apply refreshed_wf|by apply coherent_refreshed|by apply typed_refreshed|].
  assert (forall q, q ∈ t_passwd d -> p_uid q = p_uid pn -> q = pn) as Hq
    by (intros q Hin E; by eapply (NoDup_fmap_inj p_uid); [apply Hwf|..]).
  intros n' a'. rewrite lookup_insert_Some, Ha. setoid_rewrite elem_of_refreshed_passwd.
  setoid_rewrite elem_of_refreshed_shadow. split.
  - intros [[<- <-]|[Hn (p & s & Hp & Hs & E & <- & ->)]].
    + exists (set_last_online_auth (Unix now) pn), (set_shadow_password h sn). split_and!; [| |done..].
      * exists pn. by rewrite Z.eqb_refl.
      * exists sn. by rewrite (proj2 (Z.eqb_eq _ _) En).
    + assert (p_uid p <> p_uid pn) as Hne by (intros Eu; by rewrite (Hq p Hp Eu) in Hn).
      exists p, s. split_and!; [exists p|exists s|done..]; (split; [done|]); by rewrite (proj2 (Z.eqb_neq _ _)) by congruence.
  - intros (p' & s' & (p & Hp & ->) & (s & Hs & ->) & E & <- & ->).
    assert (s_uid s = p_uid p) as Esp by (destruct (_ =? _) in E; destruct (_ =? _) in E; done). rewrite Esp.
    destruct (Z.eqb_spec (p_uid p) (p_uid pn)) as [Eu|Eu].
    + left. rewrite (Hq p Hp Eu) in *. done.
    + right. split; [|by exists p, s]. intros El. apply Eu.
      by rewrite (NoDup_fmap_inj p_login (t_passwd d) p pn (wf_login _ Hwf) Hp Hpn (eq_sym El)).
Qed.

Lemma represents_purged d m t : represents d m ->
  represents (purged t d) (filter (fun na => ~ idle_since t na.2) m).
Proof.
  intros [Hwf Hco Hty Ha]. split; [by apply purged_wf|by apply coherent_purged|by apply typed_purged|].
  intros n a. rewrite map_lookup_filter_Some, Ha. simpl.
  setoid_rewrite elem_of_purged_passwd. setoid_rewrite elem_of_purged_shadow. split.
  - intros [(p & s & Hp & Hs & E & <- & ->) Hi]. exists p, s.
    split_and!; [done|done|done|by rewrite E; apply not_old_uid|done..].
  - intros (p & s & [Hp Ho] & [Hs _] & E & <- & ->). split; [by exists p, s|done].
Qed.

Lemma set_attr_account attr v p q s : set_attr attr v p = Some q ->
  set_account attr v (account_of p s) = Some (account_of q s).
Proof. unfold set_attr, set_account. repeat case_bool_decide; intros E; by simplify_eq. Qed.

Lemma represents_attribute d d' m n attr v : represents d m -> n ∈ p_login <$> t_passwd d ->
  update_attr attr v n d = Ok (tt, d') ->
  exists a a', m !! n = Some a /\ set_account attr (text_affinity v) a = Some a' /\ represents d' (<[n := a']> m).
Proof.
  intros R (p & -> & Hp)%list_elem_of_fmap Hu. pose proof R as [Hwf Hco Hty Ha].
  destruct (represents_row _ _ _ R Hp) as (s & Hs & Es & Em).
  destruct (update_attr_row _ _ _ _ _ p Hu Hp eq_refl) as (q & Hq & El & Hset).
  assert (p_uid q = p_uid p) as Eq by by apply set_attr_key in Hset as (_ & -> & _).
  exists (account_of p s), (account_of q s). split_and!; [done|by apply set_attr_account|].
  pose proof (update_attr_wf _ _ _ _ _ Hu Hwf) as Hwf'.
  split; [done|by eapply coherent_update_attr|by eapply typed_update_attr|].
  pose proof (update_attr_inv _ _ _ _ _ Hu) as (_ & _ & Esh & _). rewrite Esh.
  intros n' a. rewrite lookup_insert_Some, Ha. split.
  - intros [[<- <-]|[Hn (p' & s' & Hp' & Hs' & E & <- & ->)]]; [exists q, s; split_and!; [done..|congruence|done|done]|].
    exists p', s'. split_and!; [by apply (update_attr_other _ _ _ _ _ _ Hu)|done..].
  - intros (q' & s' & Hq' & Hs' & E & <- & ->). destruct (decide (p_login q' = p_login p)) as [El'|Hn].
    + left. split; [done|].
      assert (q' = q) as -> by (eapply (NoDup_fmap_inj p_login); [apply Hwf'|done..|congruence]).
      by rewrite (NoDup_fmap_inj s_uid (t_shadow d) s s' (wf_shadow _ Hwf) Hs Hs' ltac:(congruence)).
    + right. split; [congruence|]. exists q', s'.
      split_and!; [by apply (update_attr_other _ _ _ _ _ _ Hu)|done..].
Qed.

(** ** The refinement *)

(** What an Update leaves: a verified account, one that was created first, or
    a created one that is not verified. *)
Lemma update_refines c n pw pat sh w r w' m : represents (w_db w) m ->
  run_call c (CallUpdate n pw pat sh) w = (r, w') ->
  exists m', spec_step c (w_now w) m (CallUpdate n pw pat sh) r m' /\ represents (w_db w') m'.
Proof.
  intros R. simpl. unfold mbind, M_bind. destruct (Update c n pw pat sh w) as [r0 w0] eqn:Eu.
  apply Update_inv in Eu as [_ [(-> & Hm & uid & h & d1 & Hs & Hb & Hd)|[Hr Hd]]].
  - intros [= <- <-]. apply bcrypt_generate_compare in Hb. rewrite Hd.
    destruct Hs as [(-> & p & _ & _ & Hp & <- & <- & _)|(id & home & -> & (Hf & Hid & Hh) & ->)].
    + destruct (represents_row _ _ _ R Hp) as (s & _ & _ & E).
      eexists. split; [by eapply SpecVerified|]. by apply (represents_refreshed _ _ _ (account_of p s)).
    + assert (i64 id = id) as -> by (apply i64_small; lia).
      pose proof (represents_inserted _ _ _ _ _ _ R Hid Hf) as R1.
      eexists. split; [eapply (SpecRegistered _ _ _ n pw pat sh id home h); [done|by eapply represents_free|done..]|].
      pose proof (represents_refreshed _ _ n (registered id home sh (Unix zeroTime) "") (w_now w) h R1
        ltac:(by rewrite lookup_insert_eq)) as R2.
      simpl in R2. by rewrite insert_insert_eq in R2.
  - destruct r0 as [[]|e|why]; [done|..]; intros [= <- <-];
      (destruct Hd as [Ed|(id & home & Hm & (Hf & Hid & Hh) & Ed)]; rewrite Ed;
       [by exists m; split; [by apply SpecRefused|]|]);
      (eexists; split; [eapply (SpecUnverified _ _ _ n pw pat sh id home); [done|by eapply represents_free|done..]
                       |by apply represents_inserted]).
Qed.

(** What a reading finds is what the account shows. *)
Lemma scanned_shows c d m p pw u : represents d m -> p ∈ t_passwd d -> shadow_seen c d p pw ->
  scan_user (user_cols_of (Some pw) p) = Ok u ->
  exists a, m !! p_login p = Some a /\ shows c (p_login p) a u.
Proof.
  intros R Hp Hs (E1 & E2 & E3 & E4 & E5 & E6 & E7 & E8 & E9)%scan_user_Ok. simpl in *.
  destruct (represents_row _ _ _ R Hp) as (s & Hin & Es & Em). exists (account_of p s). split; [done|].
  pose proof (co_gid _ (rp_coherent _ _ R) p Hp) as Eg. pose proof (rp_typed _ _ R) as [Hty _ _].
  rewrite Forall_forall in Hty. destruct (Hty p Hp) as (_ & Ex & _).
  unfold shows. simpl. split_and!; [congruence..|done|done|done|done|].
  unfold shadow_seen in Hs. destruct (_ <? _); [|congruence]. destruct Hs as (s' & Hin' & Es' & <-).
  assert (s' = s) as -> by (eapply (NoDup_fmap_inj s_uid); [apply (wf_shadow _ (rp_wf _ _ R))|done..|congruence]).
  congruence.
Qed.

(** ErrNoEnt is the answer for a login that the map does not have. *)
Lemma noent_absent c d m n : represents d m -> select_users c (fun p => bool_decide (p_login p = n)) d = [] -> m !! n = None.
Proof.
  intros R Hq. apply (represents_none _ _ _ R). intros (p & -> & Hp)%list_elem_of_fmap.
  destruct (represents_row _ _ _ R Hp) as (s & Hs & Es & _).
  assert (exists cols, cols ∈ select_users c (fun q => bool_decide (p_login q = p_login p)) d) as (cols & Hc).
  { exists (user_cols_of (Some (if shadowNotAvailableMode <? shadowMode c then s_password s else "")) p).
    apply elem_of_select_users. do 2 eexists. split_and!; [done|done|by apply bool_decide_eq_true|].
    unfold shadow_seen. destruct (_ <? _); [by exists s|done]. }
  rewrite Hq in Hc. by apply elem_of_nil in Hc.
Qed.

Lemma get_refines c n w r w' m : represents (w_db w) m ->
  run_call c (CallGetUserByName n) w = (r, w') ->
  exists m', spec_step c (w_now w) m (CallGetUserByName n) r m' /\ represents (w_db w') m'.
Proof.
  intros R. simpl. unfold mbind, M_bind. pose proof (GetUserByName_ro c n w) as (Ed & _).
  destruct (GetUserByName c n w) as [[u|e|why] w0] eqn:Eg; simpl in Ed; intros [= <- <-]; rewrite Ed; exists m;
    (split; [|done]).
  - apply GetUserByName_Ok in Eg as (p & pw & Hp & <- & Hs & Hu).
    destruct (scanned_shows _ _ _ _ _ _ R Hp Hs Hu) as (a & Ha & Hsh). by eapply SpecFound.
  - apply SpecRefused; [done|]. intros n' e' [= <-] [= <-] He. apply (noent_absent c (w_db w)); [done|].
    unfold GetUserByName, errorf in Eg. apply map_err_Err in Eg as (e0 & Eq & ->).
    by eapply newUserFromScanner_noent.
  - by apply SpecRefused.
Qed.

Lemma authenticate_refines c n pw w r w' m : represents (w_db w) m ->
  run_call c (CallCanAuthenticate n pw) w = (r, w') ->
  exists m', spec_step c (w_now w) m (CallCanAuthenticate n pw) r m' /\ represents (w_db w') m'.
Proof.
  intros R. simpl. unfold mbind, M_bind. pose proof (CanAuthenticate_ro c n pw w) as (Ed & _).
  destruct (CanAuthenticate c n pw w) as [[[]|e|why] w0] eqn:Ea; simpl in Ed; intros [= <- <-]; rewrite Ed; exists m;
    (split; [|done]); [|by apply SpecRefused..].
  apply CanAuthenticate_inv in Ea as (Hm & Hd & u & Hg & Ht & Hb).
  apply GetUserByName_Ok in Hg as (p & spw & Hp & <- & Hs & Hu).
  destruct (scanned_shows _ _ _ _ _ _ R Hp Hs Hu) as (a & Ha & Hsh).
  destruct Hsh as (_ & _ & _ & _ & _ & _ & _ & (l & El & Elast) & Ehash).
  rewrite (proj2 (Z.ltb_lt _ _)) in Ehash by (unfold shadowNotAvailableMode, shadowROMode in *; lia).
  eapply SpecAccepted; [done|done|by rewrite <- Ehash|done|]. unfold recent_enough in Ht. rewrite Elast in Ht. lia.
Qed.

(** One operation. *)
Lemma run_call_refines c k w r w' m : represents (w_db w) m -> run_call c k w = (r, w') ->
  exists m', spec_step c (w_now w) m k r m' /\ represents (w_db w') m'.
Proof.
  destruct k as [n pw pat sh|n pw|n|n attr v|dur]; [apply update_refines|apply authenticate_refines|apply get_refines|..];
    intros R; simpl; unfold mbind, M_bind.
  - destruct (UpdateUserAttribute n attr v w) as [r0 w0] eqn:Eu.
    apply UpdateUserAttribute_inv in Eu as [(-> & _ & Hn & Hu)|[Hr Ed]].
    + intros [= <- <-]. destruct (represents_attribute _ _ _ _ _ _ R Hn Hu) as (a & a' & Ha & Hset & R').
      eexists. split; [by eapply SpecAttribute|done].
    + destruct r0 as [[]|e|why]; [done|..]; intros [= <- <-]; rewrite Ed; exists m; by split; [apply SpecRefused|].
  - destruct (cleanUpDB dur w) as [r0 w0] eqn:Ec. apply cleanUpDB_inv in Ec as [(-> & Ed)|[Hr Ed]].
    + intros [= <- <-]. rewrite Ed. eexists. split; [apply SpecPurged|by apply represents_purged].
    + destruct r0 as [[]|e|why]; [done|..]; intros [= <- <-]; rewrite Ed; exists m; by split; [apply SpecRefused|].
Qed.

(** The refusals that the specification allows come from calls that fail: when
    none does, a reading answers for the map. *)
Lemma calm_reading c w n m : represents (w_db w) m -> calm w ->
  match m !! n with
  | None => exists e, GetUserByName c n w = (Err e, w) /\ errors_is e ErrNoEnt = true
  | Some a => is_Some (a_gecos a) -> is_Some (a_home a) -> is_Some (a_shell a) ->
      exists u, GetUserByName c n w = (Ok u, w) /\ shows c n a u
  end.
Proof.
  intros R Hw. destruct (m !! n) as [a|] eqn:Em.
  - apply (rp_accounts _ _ R) in Em as (p & s & Hp & Hs & E & <- & ->). intros [ge Hge] [ho Hho] [sh Hsh]. simpl in *.
    set (pw := if shadowNotAvailableMode <? shadowMode c then s_password s else "").
    assert (shadow_seen c (w_db w) p pw) as Hseen
      by (unfold shadow_seen, pw; destruct (_ <? _); [by exists s|done]).
    pose proof (rp_typed _ _ R) as [Hty _ _]. rewrite Forall_forall in Hty.
    pose proof (proj2 (typed_scan_user pw p (Hty p Hp)) (conj (mk_is_Some _ _ Hge) (conj (mk_is_Some _ _ Hho) (mk_is_Some _ _ Hsh)))) as Hok.
    destruct (scan_user (user_cols_of (Some pw) p)) as [u| |] eqn:Eu; [|done..].
    exists u. split; [by apply (GetUserByName_calm c w p pw Hw (rp_wf _ _ R) Hp Hseen)|].
    destruct (scanned_shows _ _ _ _ _ _ R Hp Hseen Eu) as (a & Ha & Hshow).
    destruct (represents_row _ _ _ R Hp) as (s' & Hs' & Es' & Em). rewrite Em in Ha. injection Ha as <-.
    by rewrite (NoDup_fmap_inj s_uid (t_shadow (w_db w)) s s' (wf_shadow _ (rp_wf _ _ R)) Hs Hs' ltac:(congruence)).
  - apply GetUserByName_noent; [done|]. by apply (represents_none _ _ _ R).
Qed.

(** ** Runs *)

(** One operation, through any cache of the directory and in any environment. *)
Definition table_step (d d' : database) : Prop :=
  exists c k w r w', run_call c k w = (r, w') /\ w_db w = d /\ w_db w' = d'.
Definition map_step (m m' : accounts) : Prop := exists c now k r, spec_step c now m k r m'.

Lemma run_refines d d' m : rtc table_step d d' -> represents d m -> exists m', rtc map_step m m' /\ represents d' m'.
Proof.
  intros Hr. revert m. induction Hr as [d|d d1 d2 (c & k & w & r & w' & E & <- & <-) _ IH]; intros m R.
  - by exists m.
  - destruct (run_call_refines c k w r w' m R E) as (m1 & Hs & R1). destruct (IH m1 R1) as (m2 & Hs2 & R2).
    exists m2. split; [|done]. eapply rtc_l; [by exists c, (w_now w), k, r|done].
Qed.

(** C5: the four tables implement one map from logins to accounts. After any
    sequence of operations from empty tables, through caches with any options
    and whichever calls fail on the way, the tables represent a map that the
    specification reaches, and every operation answers what the specification
    allows for that map and leaves tables that represent the map that it has
    then: an Update changes the account of the user alone, or registers it under
    a number that is free; the offline check accepts what the account allows; a
    reading shows the account, and tells that it does not exist only when it does
    not; an attribute update changes one field; a purge removes the idle
    accounts; and an operation that is refused changes nothing, but for the
    account, without a password, that an Update may have registered. *)
Theorem cache_refines_map d : rtc table_step empty_db d ->
  exists m, rtc map_step ∅ m /\ represents d m /\
    forall c k w r w', w_db w = d -> run_call c k w = (r, w') ->
      exists m', spec_step c (w_now w) m k r m' /\ represents (w_db w') m'.
Proof.
  intros Hr. destruct (run_refines _ _ ∅ Hr represents_empty) as (m & Hm & R). exists m. split_and!; [done..|].
  intros c k w r w' <- E. by eapply run_call_refines.
Qed.

(** The specification keeps the numbers of the users apart: it is enough to look
    at the map. *)
Definition apart (m : accounts) : Prop :=
  forall n1 n2 a1 a2, m !! n1 = Some a1 -> m !! n2 = Some a2 -> a_uid a1 = a_uid a2 -> n1 = n2.

Lemma set_account_uid attr v a a' : set_account attr v a = Some a' -> a_uid a' = a_uid a.
Proof. unfold set_account. repeat case_bool_decide; intros; by simplify_eq. Qed.

Lemma apart_same m n a a' : apart m -> m !! n = Some a -> a_uid a' = a_uid a -> apart (<[n := a']> m).
Proof.
  intros Hm Ha E n1 n2 a1 a2. rewrite !lookup_insert_Some.
  intros [[<- <-]|[? ?]] [[<- <-]|[? ?]] Eu; [done|by eapply Hm; eauto; congruence..].
Qed.

Lemma apart_free m n id a : apart m -> free m n id -> a_uid a = id -> apart (<[n := a]> m).
Proof.
  intros Hm [_ Hf] <- n1 n2 a1 a2. rewrite !lookup_insert_Some.
  intros [[<- <-]|[? L1]] [[<- <-]|[? L2]] Eu; [done| | |by eapply Hm].
  - by destruct (Hf _ _ L2).
  - by destruct (Hf _ _ L1).
Qed.

Lemma spec_step_apart c now m k r m' : spec_step c now m k r m' -> apart m -> apart m'.
Proof.
  destruct 1; intros Hm; try done.
  - by eapply apart_same.
  - by eapply apart_free.
  - by eapply apart_free.
  - by eapply apart_same, set_account_uid.
  - intros n1 n2 a1 a2. rewrite !map_lookup_filter_Some. intros [L1 _] [L2 _]. by apply Hm.
Qed.
End Spec.

Import Concrete.

(** A first login, then the check of the password while there is no network. *)
Definition ten_days_later : world := World after_first_login [] ((5000 + 10 * 86400) * Second) 1.

Lemma first_login_step : table_step empty_db after_first_login.
Proof.
  exists (rw_cache 90), (CallUpdate "u@d" "secret" "/home/%d/%u" "/bin/bash"), first_login, (Ok None),
    (World after_first_login [] (5000 * Second + 7) 1).
  split; [vm_compute; reflexivity|done].
Qed.

Lemma cache_refines_map_witness : exists m, represents after_first_login m /\
  exists m', spec_step (rw_cache 10) (w_now ten_days_later) m (CallCanAuthenticate "u@d" "secret") (Ok None) m'.
Proof.
  destruct (cache_refines_map after_first_login (rtc_once _ _ first_login_step)) as (m & _ & R & Hcalls).
  exists m. split; [exact R|].
  assert (run_call (rw_cache 10) (CallCanAuthenticate "u@d" "secret") ten_days_later = (Ok None, ten_days_later)) as E
    by (vm_compute; reflexivity).
  destruct (Hcalls (rw_cache 10) (CallCanAuthenticate "u@d" "secret") ten_days_later (Ok None) ten_days_later eq_refl E)
    as (m' & Hs & _).
  exists m'. exact Hs.
Defined.
