(* ===== verification/CacheProgress.v ===== *)
(** * When no call fails, the cache does what its specification allows

    The refinement of CacheSpec lets an operation be refused at any time, because
    any call of the driver can fail. Here none does: an operation whose
    conditions hold on the map of accounts succeeds. *)

From S2P Require Import Prelude GoStrings Interfaces Tables CacheDB CacheFacts HomeDir UidGen CacheAuth.
From S2P Require Import CacheUpdate CacheTheorems Typed CacheSpec.
Open Scope string_scope.
Open Scope list_scope.
Open Scope Z_scope.

(** ** The conditions of an operation *)

(** No attribute was set to NULL. *)
Definition complete (a : account) : Prop := is_Some (a_gecos a) /\ is_Some (a_home a) /\ is_Some (a_shell a).

Section Progress.
Context `{Decorator} `{Bcrypt} `{RowOrder}.

(** What the map, the cache and the arguments must be for the call to be accepted
    at the time [now], with the salt [salt]. *)
Definition enabled (c : Cache) (now : Z) (salt : nat) (m : accounts) (k : call) : Prop :=
  match k with
  | CallUpdate n pw pat sh =>
      shadowMode c = shadowRWMode /\ is_ok (bcrypt_generate salt pw) = true /\
      match m !! n with
      | Some a => complete a
      | None => Z.of_nat (size m) < 2 ^ 31 /\ forall id, uint32 id -> is_ok (parseHomeDir pat n (pretty id)) = true
      end
  | CallCanAuthenticate n pw =>
      shadowROMode <= shadowMode c /\ exists a l, m !! n = Some a /\ complete a /\
      bcrypt_compare (a_hash a) pw = None /\ a_last a = Some l /\
      (offlineCredentialsExpiration c = 0 \/
       (0 < offlineCredentialsExpiration c /\ now <= timeUnix l + days_to_duration (offlineCredentialsExpiration c)))
  | CallGetUserByName n => exists a, m !! n = Some a /\ complete a
  | CallUpdateUserAttribute n attr v => is_Some (m !! n) /\ attr ∈ PasswdUpdateAttributes
  | CallCleanUp dur => True
  end.

(** ** The map of coherent tables *)

Definition accounts_of (d : database) : accounts :=
  list_to_map ((fun ps => (p_login ps.1, account_of ps.1 ps.2)) <$> join_shadow (t_passwd d) (t_shadow d)).

Lemma represents_accounts_of d : db_wf d -> coherent d -> typed d -> represents d (accounts_of d).
Proof.
  intros Hwf Hco Hty. split; [done..|]. intros n a. unfold accounts_of. set (l := _ <$> _).
  assert (forall x, (n, x) ∈ l <-> exists p s, p ∈ t_passwd d /\ s ∈ t_shadow d /\ s_uid s = p_uid p /\ p_login p = n /\
    x = account_of p s) as Hl.
  { intros x. unfold l. rewrite list_elem_of_fmap. split.
    - intros ([p s] & [= -> ->] & (Hp & Hs & E)%elem_of_join_shadow). by exists p, s.
    - intros (p & s & Hp & Hs & E & <- & ->). exists (p, s). split; [done|]. by apply elem_of_join_shadow. }
  rewrite <- Hl. split; [apply elem_of_list_to_map_2|].
  intros Ha. apply elem_of_list_to_map_1'; [|done]. intros x Hx. apply Hl in Ha as (p & s & Hp & Hs & E & En & ->).
  apply Hl in Hx as (p' & s' & Hp' & Hs' & E' & En' & ->).
  assert (p' = p) as -> by (eapply (NoDup_fmap_inj p_login); [apply Hwf|done|done|congruence]).
  by assert (s' = s) as -> by (eapply (NoDup_fmap_inj s_uid); [apply Hwf|done|done|congruence]).
Qed.

(** ** Readings *)

Lemma complete_reading c w n m a : represents (w_db w) m -> calm w -> m !! n = Some a -> complete a ->
  exists u, GetUserByName c n w = (Ok u, w) /\ shows c n a u.
Proof.
  intros R Hw Ea (Hg & Hh & Hs). pose proof (calm_reading c w n m R Hw) as Hr. rewrite Ea in Hr. by apply Hr.
Qed.

(** ** A first login *)

(** The number of the rows is that of the accounts. *)
Lemma NoDup_same_length (l1 l2 : list string) : NoDup l1 -> NoDup l2 -> (forall x, x ∈ l1 <-> x ∈ l2) -> length l1 = length l2.
Proof. intros Hl1 Hl2 Hx. apply Permutation_length. by apply NoDup_Permutation. Qed.

Lemma represents_size d m : represents d m ->
  length (t_passwd d) = size m /\ length (t_groups d) = size m.
Proof.
  intros R. pose proof R as [Hwf Hco _ Ha].
  assert (length (map_to_list m).*1 = length (p_login <$> t_passwd d)) as Ep.
  { apply NoDup_same_length; [apply NoDup_fst_map_to_list|apply Hwf|]. intros n. split.
    - intros ([n' a] & -> & Hm%elem_of_map_to_list)%list_elem_of_fmap. apply Ha in Hm as (p & s & Hp & _ & _ & E & _).
      simpl. rewrite <- E. by apply list_elem_of_fmap_2.
    - intros (p & -> & Hp)%list_elem_of_fmap. destruct (represents_row _ _ _ R Hp) as (s & _ & _ & Em).
      apply list_elem_of_fmap. exists (p_login p, account_of p s). split; [done|]. by apply elem_of_map_to_list. }
  assert (length (g_name <$> t_groups d) = length (p_login <$> t_passwd d)) as Eg.
  { apply NoDup_same_length; [apply Hwf..|]. intros n. rewrite !list_elem_of_fmap. split.
    - intros (g & -> & Hg). destruct (proj1 (co_group _ Hco (g_name g) (g_gid g))) as (p & Hp & E & _); [by eauto|].
      exists p. by split; [symmetry|].
    - intros (p & -> & Hp). destruct (proj2 (co_group _ Hco (p_login p) (p_gid p))) as (g & Hg & E & _); [by eauto|].
      exists g. by split; [symmetry|]. }
  rewrite !length_fmap, length_map_to_list in Ep. rewrite !length_fmap in Eg. by rewrite Eg, Ep.
Qed.

(** A name that the tables do not have is never the holder of a number. *)
Lemma uidOrGidExists_calm id n w : calm w -> (n ∉ (p_login <$> t_passwd (w_db w))) -> (n ∉ (g_name <$> t_groups (w_db w))) ->
  exists b, uidOrGidExists id n w = (Ok b, w).
Proof.
  intros Hw Hn Hg. unfold uidOrGidExists, newUserFromScanner, attempt, map_err, mbind, M_bind.
  rewrite query_row_calm by done. destruct (union_rows id (w_db w)) as [|cols l] eqn:Eq; [by exists false|].
  assert (cols ∈ union_rows id (w_db w)) as Hin by (rewrite Eq; by left).
  unfold union_rows in Hin. apply list_elem_of_fmap in Hin as (name & -> & Hin). simpl.
  rewrite bool_decide_eq_false_2; [by exists true|]. intros ->.
  rewrite elem_of_row_order, elem_of_remove_dups, elem_of_app, !list_elem_of_fmap in Hin.
  destruct Hin as [(p & -> & [_ Hp]%list_elem_of_filter)|(g & -> & [_ Hgr]%list_elem_of_filter)].
  - by apply Hn, list_elem_of_fmap_2.
  - by apply Hg, list_elem_of_fmap_2.
Qed.

Lemma find_uid_calm fuel uid n w : calm w -> (n ∉ (p_login <$> t_passwd (w_db w))) -> (n ∉ (g_name <$> t_groups (w_db w))) ->
  exists r, find_uid fuel uid n w = (r, w) /\ forall e, r <> Err e.
Proof.
  intros Hw Hn Hg. revert uid. induction fuel as [|fuel IH]; intros uid; cbn [find_uid]; [by eexists|].
  unfold mbind, M_bind. destruct (uidOrGidExists_calm uid n w Hw Hn Hg) as [[] ->]; [apply IH|by eexists].
Qed.

Lemma generateUID_calm n w : calm w -> (n ∉ (p_login <$> t_passwd (w_db w))) -> (n ∉ (g_name <$> t_groups (w_db w))) ->
  Z.of_nat (length (t_passwd (w_db w)) + length (t_groups (w_db w))) < 2 ^ 32 ->
  exists id, generateUIDForUser n w = (Ok id, w) /\ uint32 id /\ ~ taken (w_db w) id.
Proof.
  intros Hw Hn Hg Hlt. unfold generateUIDForUser, on_error, map_err. unfold mbind at 1, M_bind at 1, get.
  destruct (find_uid_calm (uid_fuel (w_db w)) (base_uid n) n w Hw Hn Hg) as (r & Er & Hne). rewrite Er.
  pose proof (base_uid_range n) as Hb. unfold offset, MaxUint32 in Hb.
  apply find_uid_spec in Er; [|lia]. destruct r as [id|e|why].
  - destruct Er as (k & _ & -> & Ht & _). eexists. split; [done|]. split; [apply u32_range|done].
  - by destruct (Hne e).
  - exfalso. apply (some_free (w_db w) (base_uid n)); [|done]. unfold uid_fuel. lia.
Qed.

(** On coherent tables, a free login and a free number break no constraint. *)
Lemma free_is_fresh d n home sh id : coherent d -> (n ∉ (p_login <$> t_passwd d)) -> uint32 id -> ~ taken d id ->
  fresh_user (new_user n home sh id) d.
Proof.
  intros [C1 C2 C3 C4] Hn Hid Ht. assert (i64 id = id) as E by (apply i64_small; unfold uint32 in Hid; lia).
  split; simpl; rewrite ?E; [done|..].
  - intros Hu. apply Ht. by left.
  - intros Hs. apply Ht. left. by apply C2.
  - intros (g & Eg & Hg)%list_elem_of_fmap. destruct (proj1 (C3 (g_name g) (g_gid g))) as (p & Hp & El & _); [by eauto|].
    apply Hn. rewrite Eg, <- El. by apply list_elem_of_fmap_2.
  - intros Hg. apply Ht. by right.
  - intros (p & Hp & [= Eu _])%C4. apply Ht. left. rewrite Eu. by apply list_elem_of_fmap_2.
Qed.

Lemma group_names d n : coherent d -> (n ∉ (p_login <$> t_passwd d)) -> n ∉ g_name <$> t_groups d.
Proof.
  intros Hco Hn (g & -> & Hg)%list_elem_of_fmap. destruct (proj1 (co_group _ Hco (g_name g) (g_gid g))) as (p & Hp & E & _);
    [by eauto|]. apply Hn. rewrite <- E. by apply list_elem_of_fmap_2.
Qed.

(** ** Update *)

Lemma updateOnlineAuth_calm c uid n h w : calm w -> shadowMode c = shadowRWMode ->
  updateOnlineAuthAndPassword c uid n h w = (Ok tt, set_db (refreshed (w_now w) uid h (w_db w)) w).
Proof.
  intros Hw Hm. unfold updateOnlineAuthAndPassword, on_error, map_err. rewrite Hm, Z.eqb_refl. cbn [negb].
  erewrite transaction_calm_Ok; [done|done| |done]. unfold get, mbind, M_bind, exec_ok.
  rewrite exec_calm by done. by rewrite exec_calm.
Qed.

Lemma create_user_calm c n pat sh w m : represents (w_db w) m -> calm w -> shadowMode c = shadowRWMode -> m !! n = None ->
  Z.of_nat (size m) < 2 ^ 31 -> (forall id, uint32 id -> is_ok (parseHomeDir pat n (pretty id)) = true) ->
  exists u w', create_user c n pat sh w = (Ok u, w') /\ calm w' /\ w_entropy w' = w_entropy w.
Proof.
  intros R Hw Hm Hn Hsize Hh. pose proof (proj1 (represents_none _ _ n R) Hn) as Hl.
  pose proof (group_names _ n (rp_coherent _ _ R) Hl) as Hg. destruct (represents_size _ _ R) as [Es Eg].
  destruct (generateUID_calm n w Hw Hl Hg) as (id & Eid & Hid & Ht); [rewrite Es, Eg; lia|].
  unfold create_user, mbind, M_bind. rewrite Eid. specialize (Hh id Hid). unfold lift.
  destruct (parseHomeDir pat n (pretty id)) as [home| |]; [|done..].
  rewrite insertUser_calm; [|done|done|by apply (free_is_fresh _ _ _ _ _ (rp_coherent _ _ R))].
  by do 2 eexists.
Qed.

Lemma Update_calm c n pw pat sh w m : represents (w_db w) m -> calm w ->
  enabled c (w_now w) (w_entropy w) m (CallUpdate n pw pat sh) -> exists w', Update c n pw pat sh w = (Ok tt, w').
Proof.
  intros R Hw (Hm & Hb & Hcase).
  assert (exists u w1, find_or_create c n pat sh w = (Ok u, w1) /\ calm w1 /\ w_entropy w1 = w_entropy w) as (u & w1 & E1 & Hw1 & Ee).
  { pose proof (calm_reading c w n m R Hw) as Hr. unfold find_or_create, attempt, mbind at 1, M_bind at 1.
    destruct (m !! n) as [a|] eqn:En.
    - destruct Hcase as (Hg & Hh & Hs). destruct (Hr Hg Hh Hs) as (u & -> & _). by exists u, w.
    - destruct Hr as (e & -> & ->). destruct Hcase as [Hsize Hh]. by eapply create_user_calm. }
  unfold Update, on_error, map_err, mbind, M_bind. rewrite E1.
  unfold encryptPassword, errorf, map_err, mbind, M_bind, get, step, lift. rewrite Ee.
  destruct (bcrypt_generate (w_entropy w) pw) as [h| |]; [|done..].
  rewrite updateOnlineAuth_calm by done. by eexists.
Qed.

(** ** The other operations *)

Lemma attribute_calm n attr v w : calm w -> n ∈ p_login <$> t_passwd (w_db w) -> attr ∈ PasswdUpdateAttributes ->
  exists w', UpdateUserAttribute n attr v w = (Ok tt, w').
Proof.
  intros Hw Hn Ha. unfold UpdateUserAttribute, on_error, map_err. rewrite bool_decide_eq_false_2 by (by intros Hx).
  assert (user_must_exist n w = (Ok tt, w)) as Eu.
  { unfold user_must_exist, userExists, errorf, map_err, attempt, mbind, M_bind. rewrite query_calm by done.
    by rewrite bool_decide_eq_true_2 by done. }
  assert (exists d, update_attr attr v n (w_db w) = Ok (tt, d)) as [d Ed].
  { unfold update_attr. assert (forall r, is_Some (set_attr attr (text_affinity v) r)) as Hs.
    { intros r. unfold PasswdUpdateAttributes in Ha. rewrite !elem_of_cons, elem_of_nil in Ha.
      destruct Ha as [->|[->|[->|[]]]]; by eexists. }
    destruct (mapM _ (t_passwd (w_db w))) as [rows|] eqn:Em; [by eexists|].
    exfalso. apply eq_None_not_Some in Em. apply Em, mapM_is_Some, Forall_forall. intros r _. simpl.
    destruct (bool_decide (p_login r = n)); [apply Hs|by eexists]. }
  unfold mbind, M_bind. rewrite Eu. rewrite (transaction_calm_Ok _ w (set_db d w)); [by eexists|done| |done].
  rewrite exec_calm by done. by rewrite Ed.
Qed.

Lemma cleanUpDB_calm dur w : calm w -> exists w', cleanUpDB dur w = (Ok tt, w').
Proof.
  intros Hw. unfold cleanUpDB. erewrite transaction_calm_Ok; [eexists; reflexivity|done| |].
  - unfold get, mbind, M_bind, exec_ok. rewrite exec_calm by done. rewrite exec_calm by done.
    rewrite exec_calm by done. rewrite exec_calm by done. reflexivity.
  - done.
Qed.

Lemma run_call_calm c k w m : represents (w_db w) m -> calm w -> enabled c (w_now w) (w_entropy w) m k ->
  exists r w', run_call c k w = (Ok r, w').
Proof.
  intros R Hw. destruct k as [n pw pat sh|n pw|n|n attr v|dur]; cbn [run_call]; unfold mbind, M_bind.
  - intros He. destruct (Update_calm _ _ _ _ _ _ _ R Hw He) as [w' ->]. by do 2 eexists.
  - intros (Hm & a & l & Ea & Hc & Hb & El & Ht). destruct (complete_reading c w n m a R Hw Ea Hc) as (u & Eu & Hu).
    destruct Hu as (_ & _ & _ & _ & _ & _ & _ & (l' & El' & Elast) & Ehash). rewrite El in El'. injection El' as <-.
    rewrite (CanAuthenticate_intro c n pw w u w); [by do 2 eexists|done|lia|done| |].
    + unfold recent_enough. rewrite Elast. by destruct Ht as [?|[_ ?]]; [left|right].
    + rewrite Ehash, (proj2 (Z.ltb_lt _ _)); [done|]. unfold shadowNotAvailableMode, shadowROMode in *. lia.
  - intros (a & Ea & Hc). destruct (complete_reading c w n m a R Hw Ea Hc) as (u & -> & _). by do 2 eexists.
  - intros [[a Ea] Ha]. destruct (attribute_calm n attr v w Hw) as [w' ->]; [|done|by do 2 eexists].
    apply dec_stable. intros Hn. apply (represents_none _ _ _ R) in Hn. congruence.
  - intros _. destruct (cleanUpDB_calm dur w Hw) as [w' ->]. by do 2 eexists.
Qed.

(** C6: when no call fails, an operation whose conditions hold on the map of
    accounts succeeds, with an answer and a map that the specification gives it:
    a verified login is always recorded, for a known user and for a new one,
    while there are fewer than 2^31 accounts; an offline login is accepted with
    the recorded password until it expires; a user that exists is found; its
    attributes can be changed; and the purge never fails. *)
Theorem enabled_succeeds c k w m : represents (w_db w) m -> calm w -> enabled c (w_now w) (w_entropy w) m k ->
  exists r w' m', run_call c k w = (Ok r, w') /\ spec_step c (w_now w) m k (Ok r) m' /\ represents (w_db w') m'.
Proof.
  intros R Hw He. destruct (run_call_calm c k w m R Hw He) as (r & w' & E).
  destruct (run_call_refines c k w (Ok r) w' m R E) as (m' & Hs & R'). by exists r, w', m'.
Qed.
End Progress.

(** ** A first login *)

Import Concrete.

Definition first_row : passwd_row :=
  PasswdRow "u@d" (Some "x") 848800 848800 (Some "") (Some "/home/d/u") (Some "/bin/bash") (Some 5000).
Definition first_shadow : shadow_row := ShadowRow 848800 "$2a$secret" (-1) (-1) (-1) (-1) (-1) (-1).

Lemma enabled_succeeds_witness : exists r w',
  run_call (rw_cache 10) (CallCanAuthenticate "u@d" "secret") ten_days_later = (Ok r, w').
Proof.
  destruct (run_refines empty_db after_first_login ∅ (rtc_once _ _ first_login_step) represents_empty) as (m & _ & R).
  assert (m !! "u@d" = Some (account_of first_row first_shadow)) as Em.
  { apply (rp_accounts _ _ R). exists first_row, first_shadow. split_and!; try done; by left. }
  destruct (enabled_succeeds (rw_cache 10) (CallCanAuthenticate "u@d" "secret") ten_days_later m R eq_refl)
    as (r & w' & _ & E & _).
  - split; [vm_compute; discriminate|]. exists (account_of first_row first_shadow), 5000.
    split_and!; [exact Em|repeat split; by eexists|reflexivity|reflexivity|]. right. split; vm_compute; [reflexivity|discriminate].
  - exists r, w'. exact E.
Defined.
