(* ===== verification/Atoms.v ===== *)
(** * The operations of the cache as sequences of atomic steps

    SQLite serialises the statements and the transactions of the processes that
    share a database, not the operations of the package: between two of its
    statements another process may run its own. Here each operation is a tree
    whose nodes are one statement, or one transaction, with what comes after
    any of its outcomes. Run without interruption it is the operation. *)

From S2P Require Import Prelude GoStrings Interfaces Tables CacheDB CacheFacts HomeDir UidGen CacheAuth.
From S2P Require Import CacheUpdate CacheTheorems Typed CacheSpec.
Open Scope string_scope.
Open Scope list_scope.
Open Scope Z_scope.

(** ** Programs *)

Inductive prog (A : Type) : Type :=
  | Done (r : result A)
  | Atom {B : Type} (m : M world B) (k : result B -> prog A).
Arguments Done {A} r.
Arguments Atom {A B} m k.

(** What follows a result. *)
Fixpoint and_then {A B} (p : prog A) (f : result A -> prog B) : prog B :=
  match p with
  | Done r => f r
  | Atom m k => Atom m (fun r => and_then (k r) f)
  end.

#[export] Instance prog_ret : MRet prog := fun A a => Done (Ok a).
#[export] Instance prog_bind : MBind prog := fun A B f p =>
  and_then p (fun r => match r with Ok a => f a | Err e => Done (Err e) | Panic why => Done (Panic why) end).

Definition atomic {A} (m : M world A) : prog A := Atom m Done.

Definition prog_map_err {A} (g : gerror -> gerror) (p : prog A) : prog A :=
  and_then p (fun r => Done (match r with Err e => Err (g e) | r => r end)).

Definition prog_attempt {A} (p : prog A) : prog (A + gerror) :=
  and_then p (fun r => match r with
    | Ok a => Done (Ok (inl a)) | Err e => Done (Ok (inr e)) | Panic why => Done (Panic why)
    end).

(** All the steps in a row. *)
Fixpoint run {A} (p : prog A) : M world A := fun w =>
  match p with
  | Done r => (r, w)
  | Atom m k => let '(r, w') := m w in run (k r) w'
  end.

Lemma run_and_then {A B} (p : prog A) (f : result A -> prog B) w :
  run (and_then p f) w = let '(r, w') := run p w in run (f r) w'.
Proof.
  revert w. induction p as [r|B' m k IH]; intros w; [done|]. cbn [and_then run].
  destruct (m w) as [r w']. apply IH.
Qed.

Lemma run_atomic {A} (m : M world A) w : run (atomic m) w = m w.
Proof. unfold atomic. cbn [run]. by destruct (m w). Qed.

Lemma run_bind {A B} (p : prog A) (f : A -> prog B) (m : M world A) (g : A -> M world B) w :
  run p w = m w -> (forall a w', m w = (Ok a, w') -> run (f a) w' = g a w') -> run (p ≫= f) w = (m ≫= g) w.
Proof.
  intros Ep Ef. unfold mbind at 1, prog_bind. rewrite run_and_then, Ep.
  unfold mbind, M_bind. destruct (m w) as [[a|e|why] w'] eqn:Em; [by apply Ef|done..].
Qed.

Lemma run_map_err {A} g (p : prog A) m w : run p w = m w -> run (prog_map_err g p) w = map_err g m w.
Proof. intros Ep. unfold prog_map_err, map_err. rewrite run_and_then, Ep. by destruct (m w) as [[] ?]. Qed.

Lemma run_attempt {A} (p : prog A) m w : run p w = m w -> run (prog_attempt p) w = attempt m w.
Proof. intros Ep. unfold prog_attempt, attempt. rewrite run_and_then, Ep. by destruct (m w) as [[] ?]. Qed.

(** ** The operations *)

Section Steps.
Context `{Decorator} `{Bcrypt} `{RowOrder}.

(** The loop of generateUIDForUser: one query per turn. The loop of the code has
    no bound; [fuel] cuts it, and what is shown holds for any. *)
Fixpoint find_uid_steps (fuel : nat) (uid : Z) (username : string) : prog Z :=
  match fuel with
  | O => Done (Panic "out of fuel")
  | S fuel =>
      exists_ ← atomic (uidOrGidExists uid username);
      if exists_ : bool then find_uid_steps fuel (u32 (uid + 1)) username else mret uid
  end.

Definition generateUID_steps (fuel : nat) (username : string) : prog Z :=
  prog_map_err (OnError "failed to generate uid for user %q") (find_uid_steps fuel (base_uid username) username).

Definition create_user_steps (fuel : nat) (c : Cache) (username homeDirPattern shell : string) : prog UserRecord :=
  id ← generateUID_steps fuel username;
  home ← Done (parseHomeDir homeDirPattern username (pretty id));
  let user := new_user username home shell id in
  atomic (insertUser c user) ;;
  mret user.

Definition find_or_create_steps (fuel : nat) (c : Cache) (username homeDirPattern shell : string) : prog UserRecord :=
  r ← prog_attempt (atomic (GetUserByName c username));
  match r with
  | inl user => mret user
  | inr e => if errors_is e ErrNoEnt then create_user_steps fuel c username homeDirPattern shell else Done (Err e)
  end.

Definition Update_steps (fuel : nat) (c : Cache) (username password homeDirPattern shell : string) : prog unit :=
  prog_map_err (OnError "couldn't create/open cache for nss database")
    (user ← find_or_create_steps fuel c username homeDirPattern shell;
     encryptedPassword ← atomic (encryptPassword username password);
     atomic (updateOnlineAuthAndPassword c (UID user) username encryptedPassword)).

(** userExists, and then the transaction. *)
Definition UpdateUserAttribute_steps (login attr : string) (value : sqlval) : prog unit :=
  prog_map_err (OnError "could not update %s for %s")
    (if bool_decide (attr ∉ PasswdUpdateAttributes) then Done (Err (Opaque "invalid attribute"))
     else
       atomic (user_must_exist login) ;;
       atomic (transaction (exec (update_attr attr value login)))).

(** A reading and a purge are one statement and one transaction. *)
Definition call_steps (fuel : nat) (c : Cache) (k : call) : prog (option UserRecord) :=
  match k with
  | CallUpdate n pw pat sh => Update_steps fuel c n pw pat sh ;; mret None
  | CallCanAuthenticate n pw => atomic (CanAuthenticate c n pw) ;; mret None
  | CallGetUserByName n => u ← atomic (GetUserByName c n); mret (Some u)
  | CallUpdateUserAttribute n attr v => UpdateUserAttribute_steps n attr v ;; mret None
  | CallCleanUp dur => atomic (cleanUpDB dur) ;; mret None
  end.

(** ** Run in a row *)

Lemma run_find_uid fuel uid n w : run (find_uid_steps fuel uid n) w = find_uid fuel uid n w.
Proof.
  revert uid w. induction fuel as [|fuel IH]; intros uid w; [done|]. cbn [find_uid_steps find_uid].
  apply run_bind; [apply run_atomic|]. intros [] w' _; [apply IH|done].
Qed.

Lemma run_generateUID n w : run (generateUID_steps (uid_fuel (w_db w)) n) w = generateUIDForUser n w.
Proof.
  unfold generateUID_steps, generateUIDForUser, on_error. apply run_map_err.
  unfold mbind, M_bind, get. apply run_find_uid.
Qed.

Lemma run_create_user c n pat sh w :
  run (create_user_steps (uid_fuel (w_db w)) c n pat sh) w = create_user c n pat sh w.
Proof.
  unfold create_user_steps, create_user. apply run_bind; [apply run_generateUID|]. intros id w' _.
  apply run_bind; [done|]. intros home w2 _. apply run_bind; [apply run_atomic|done].
Qed.

Lemma run_find_or_create c n pat sh w :
  run (find_or_create_steps (uid_fuel (w_db w)) c n pat sh) w = find_or_create c n pat sh w.
Proof.
  unfold find_or_create_steps, find_or_create. apply run_bind; [apply run_attempt, run_atomic|].
  intros [u|e] w' E; [done|]. destruct (errors_is e ErrNoEnt); [|done].
  pose proof (GetUserByName_ro c n w) as (Ed & _ & _).
  apply attempt_Ok in E as [(? & _ & [=])|(e' & E & _)]. rewrite E in Ed. simpl in Ed.
  rewrite <- Ed. apply run_create_user.
Qed.

Lemma run_Update c n pw pat sh w :
  run (Update_steps (uid_fuel (w_db w)) c n pw pat sh) w = Update c n pw pat sh w.
Proof.
  unfold Update_steps, Update, on_error. apply run_map_err.
  apply run_bind; [apply run_find_or_create|]. intros u w1 _.
  apply run_bind; [apply run_atomic|]. intros h w2 _. apply run_atomic.
Qed.

Lemma run_UpdateUserAttribute login attr v w :
  run (UpdateUserAttribute_steps login attr v) w = UpdateUserAttribute login attr v w.
Proof.
  unfold UpdateUserAttribute_steps, UpdateUserAttribute, on_error. apply run_map_err.
  case_bool_decide; [done|]. apply run_bind; [apply run_atomic|]. intros _ w' _. apply run_atomic.
Qed.

(** The steps of an operation, run with no one in between, are the operation:
    the fuel of the loop is the one of its model. *)
Lemma run_call_steps c k w : run (call_steps (uid_fuel (w_db w)) c k) w = run_call c k w.
Proof.
  destruct k; cbn [call_steps run_call]; (apply run_bind;
    [first [apply run_Update | apply run_UpdateUserAttribute | apply run_atomic]|done]).
Qed.
End Steps.
