(* ===== verification/Offline.v ===== *)
(** * The offline login: where the hashes come from

    A log of the online verifications explains every hash of the tables: each
    operation of the package that writes keeps the tables well formed,
    coherent, and backed by the log. An accepted offline login then rests on a
    verification of the same user, recent enough. Sessions puts these steps
    together for the whole machine. *)

From S2P Require Import Prelude GoStrings Interfaces Tables CacheDB CacheFacts HomeDir UidGen CacheAuth.
From S2P Require Import CacheUpdate Typed.
Open Scope string_scope.
Open Scope list_scope.
Open Scope Z_scope.

(** An online verification: the user, the password and the time. *)
Record verified := Verified { v_login : string; v_password : string; v_time : Z }.

(** What the operations of the package keep true of the links between the four
    tables. [coherent] is such an invariant; a weaker one is needed where
    another program writes to the tables. An attribute update may be limited to
    some values. *)
Class TableInvariant (I : database -> Prop) := {
  ti_empty : I empty_db;
  ti_gid d p : I d -> p ∈ t_passwd d -> p_gid p = p_uid p;
  ti_inserted u d : GID u = UID u -> I d -> I (user_inserted u d);
  ti_refreshed now uid pw d : I d -> I (refreshed now uid pw d);
  ti_value : sqlval -> Prop;
  ti_update_attr attr v login d d' : ti_value v -> update_attr attr v login d = Ok (tt, d') -> I d -> I d';
  ti_purged t d : db_wf d -> I d -> I (purged t d);
}.

#[export, refine] Instance coherent_invariant : TableInvariant coherent := {|
  ti_inserted := coherent_inserted;
  ti_refreshed := coherent_refreshed;
  ti_value _ := True;
  ti_update_attr attr v login d d' _ := coherent_update_attr attr v login d d';
  ti_purged := coherent_purged;
|}.
Proof. - apply coherent_empty. - intros d p Hc. apply (co_gid _ Hc). Defined.

Section Offline.
Context `{Decorator} `{Bcrypt} `{RowOrder}.
Context (I : database -> Prop) `{!TableInvariant I}.

(** Where the hash of a user comes from. *)
Definition hash_ok (log : list verified) (p : passwd_row) (s : shadow_row) : Prop :=
  s_password s = "" \/
  exists v salt, v ∈ log /\ v_login v = p_login p /\ bcrypt_generate salt (v_password v) = Ok (s_password s)
    /\ p_last_online_auth p = Some (Unix (v_time v)).

Record tables_ok (log : list verified) (d : database) : Prop := {
  to_wf : db_wf d;
  to_linked : I d;
  to_typed : typed d;
  to_hash p s : p ∈ t_passwd d -> s ∈ t_shadow d -> s_uid s = p_uid p -> hash_ok log p s;
}.

Lemma hash_ok_more log v p s : hash_ok log p s -> hash_ok (v :: log) p s.
Proof.
  intros [?|(v' & salt & Hv & ?)]; [by left|]. right. exists v', salt. split; [by right|done].
Qed.

Lemma tables_ok_more log v d : tables_ok log d -> tables_ok (v :: log) d.
Proof. intros [? ? ? Hh]. split; [done..|]. intros p s Hp Hs E. by apply hash_ok_more, Hh. Qed.

Lemma tables_ok_empty : tables_ok [] empty_db.
Proof. split; [apply empty_wf|apply ti_empty|apply typed_empty|]. by intros p s ?%elem_of_nil. Qed.

(** Insertion with the empty hash. *)
Lemma tables_ok_inserted log n home sh id d :
  fresh_user (new_user n home sh id) d -> uint32 id -> tables_ok log d ->
  tables_ok log (user_inserted (new_user n home sh id) d).
Proof.
  intros Hf Hid [Hwf Hco Hty Hh].
  split; [by apply user_inserted_wf|by apply ti_inserted|by apply typed_inserted|].
  intros p s. simpl. rewrite !elem_of_app, !list_elem_of_singleton. intros [Hp| ->] [Hs| ->] E; simpl in E.
  - by apply Hh.
  - exfalso. apply (fresh_uid _ _ Hf). simpl. rewrite E. by apply list_elem_of_fmap_2.
  - exfalso. apply (fresh_shadow _ _ Hf). simpl. rewrite <- E. by apply list_elem_of_fmap_2.
  - by left.
Qed.

(** The refresh of the user that was verified. *)
Lemma tables_ok_refreshed log n pw now salt uid h d p :
  p ∈ t_passwd d -> p_login p = n -> p_uid p = uid -> bcrypt_generate salt pw = Ok h -> tables_ok log d ->
  tables_ok (Verified n pw now :: log) (refreshed now uid h d).
Proof.
  intros Hp Hl Hu Hb [Hwf Hco Hty Hh].
  split; [by apply refreshed_wf|by apply ti_refreshed|by apply typed_refreshed|].
  intros p' s' (p0 & Hp0 & ->)%elem_of_refreshed_passwd (s0 & Hs0 & ->)%elem_of_refreshed_shadow E.
  assert (s_uid s0 = p_uid p0) as E0 by (destruct (_ =? _) in E; destruct (_ =? _) in E; done).
  rewrite E0. destruct (Z.eqb_spec (p_uid p0) uid) as [Ep|]; [|by apply hash_ok_more, Hh].
  assert (p0 = p) as -> by (eapply (NoDup_fmap_inj p_uid); [apply Hwf|done..|congruence]).
  right. exists (Verified n pw now), salt. simpl. split_and!; [by constructor|done..].
Qed.

Lemma tables_ok_Update log c n pw pattern shell w r w' : Update c n pw pattern shell w = (r, w') ->
  tables_ok log (w_db w) -> tables_ok (Verified n pw (w_now w) :: log) (w_db w').
Proof.
  intros [_ [(_ & _ & uid & h & d1 & Hs & Hb & ->)|[_ [->|(id & home & _ & (Hf & Hid & _) & ->)]]]]%Update_inv Hok.
  - assert (tables_ok log d1) as Hok1.
    { destruct Hs as [[-> _]|(id & home & _ & (Hf & Hid & _) & ->)]; [done|]. by apply tables_ok_inserted. }
    destruct (subject_row _ _ _ _ _ _ Hs) as (p & s & u & Hp & Hl & Hu & _). by eapply tables_ok_refreshed.
  - by apply tables_ok_more.
  - by apply tables_ok_more, tables_ok_inserted.
Qed.

Lemma tables_ok_purged log t d : tables_ok log d -> tables_ok log (purged t d).
Proof.
  intros [Hwf Hco Hty Hh]. split; [by apply purged_wf|by apply ti_purged|by apply typed_purged|].
  intros p s [Hp _]%elem_of_purged_passwd [Hs _]%elem_of_purged_shadow. by apply Hh.
Qed.

Lemma tables_ok_update_attr log attr v login d d' : ti_value v -> update_attr attr v login d = Ok (tt, d') ->
  tables_ok log d -> tables_ok log d'.
Proof.
  intros Hv Hu [Hwf Hco Hty Hh].
  split; [by eapply update_attr_wf|by eapply ti_update_attr|by eapply typed_update_attr|].
  pose proof (update_attr_inv _ _ _ _ _ Hu) as (_ & _ & Es & Hf). rewrite Es.
  intros p s [i Hi]%list_elem_of_lookup Hs E.
  destruct (Forall2_lookup_r _ _ _ _ _ Hf Hi) as (q & Hq & Hset).
  assert (p_login p = p_login q /\ p_uid p = p_uid q /\ p_last_online_auth p = p_last_online_auth q) as (E1 & E2 & E3).
  { case_bool_decide; [|by simplify_eq]. by apply set_attr_key in Hset as (? & ? & _ & _ & ?). }
  unfold hash_ok. rewrite E1, E3. apply Hh; [by eapply list_elem_of_lookup_2|done|congruence].
Qed.

(** ** What an accepted offline login rests on *)

(** The password matches the hash of one that was verified online for the
    same user, and that is recent enough for an expiration in days. *)
Definition backed (log : list verified) (days : Z) (n pw : string) (now : Z) : Prop :=
  exists v salt h, v ∈ log /\ v_login v = n
    /\ bcrypt_generate salt (v_password v) = Ok h /\ bcrypt_compare h pw = None
    /\ (days = 0 \/ (0 < days /\ now <= timeUnix (Unix (v_time v)) + days_to_duration days)).

Lemma CanAuthenticate_backed log c n pw w w' : tables_ok log (w_db w) ->
  CanAuthenticate c n pw w = (Ok tt, w') -> backed log (offlineCredentialsExpiration c) n pw (w_now w).
Proof.
  intros Hok (Hm & Hd & u & Hg & Ht & Hb)%CanAuthenticate_inv. pose proof (to_hash _ _ Hok) as Hh.
  apply GetUserByName_Ok in Hg as (p & spw & Hp & <- & Hs & Hu).
  unfold shadow_seen, shadowNotAvailableMode, shadowROMode in *.
  rewrite (proj2 (Z.ltb_lt 0 (shadowMode c))) in Hs by lia. destruct Hs as (s & Hs & Es & <-).
  pose proof (scan_user_Ok _ _ Hu) as (_ & _ & _ & _ & _ & _ & _ & E & l & El & Elast). simpl in E, El.
  injection E as E. rewrite <- E in Hb.
  destruct (Hh p s Hp Hs Es) as [Hz|(v & salt & Hv & Hl & Hgen & Hlast)].
  { rewrite Hz in Hb. by apply bcrypt_empty_hash in Hb. }
  exists v, salt, (s_password s). split_and!; [done..|].
  unfold recent_enough in Ht. rewrite Elast in Ht. rewrite El in Hlast. injection Hlast as ->.
  destruct Ht as [?|Ht]; [by left|]. destruct (decide (offlineCredentialsExpiration c = 0)); [by left|].
  right. split; [lia|done].
Qed.
End Offline.
