(* ===== verification/Rely.v ===== *)
(** * Rely and guarantee for the trees of atomic steps

    A program is safe when each of its steps keeps an invariant of the shared
    tables and stays in the limits [G] that it guarantees to the others, as
    long as the others stay in the limits [R] that it relies on. The rules follow
    the constructs of Atoms. *)

From S2P Require Import Prelude Tables CacheDB CacheFacts Atoms Offline.
Open Scope list_scope.

(** The online verifications so far, and the tables. *)
Definition shared : Type := list verified * database.

(** What a program guarantees is within what it relies on. *)
Class Within (G R : shared -> shared -> Prop) : Prop := within x y : G x y -> R x y.

#[export] Instance within_refl R : Within R R.
Proof. by intros x y. Qed.

(** What an operation answers, when it answers. *)
Definition returns {A} (P : shared -> A -> Prop) (y : shared) (r : result A) : Prop :=
  forall a, r = Ok a -> P y a.

Definition anything {A} (y : shared) (r : result A) : Prop := True.

(** What the others cannot make false. *)
Class Stable (R : shared -> shared -> Prop) {A} (P : shared -> A -> Prop) : Prop :=
  stable y z a : R y z -> P y a -> P z a.

#[export] Instance stable_pure R {A} (P : A -> Prop) : Stable R (fun _ => P).
Proof. by intros y z a _. Qed.

Section Rely.
Context (Inv : shared -> Prop) (R G : shared -> shared -> Prop) `{!PreOrder R} `{!PreOrder G} `{!Within G R}.

(** From [x] on, and whatever the others do in the limits of [R], every step
    keeps the invariant and stays in the limits of [G], and the end satisfies [Q]. *)
Fixpoint safe {A} (Q : shared -> result A -> Prop) (x : shared) (p : prog A) : Prop :=
  match p with
  | Done r => forall y, R x y -> Q y r
  | Atom m k => forall log w, R x (log, w_db w) -> Inv (log, w_db w) ->
      let y := (log, w_db (m w).2) in
      Inv y /\ G (log, w_db w) y /\ safe Q y (k (m w).1)
  end.

Lemma safe_weaken {A} (Q : shared -> result A -> Prop) x y p : safe Q x p -> R x y -> safe Q y p.
Proof.
  destruct p as [r|B m k]; cbn [safe]; intros Hp Hxy.
  - intros z Hz. apply Hp. by etrans.
  - intros log w Hw Hi. apply Hp; [by etrans|done].
Qed.

Lemma safe_and_then {A B} (Q : shared -> result A -> Prop) (Q' : shared -> result B -> Prop) x p f :
  safe Q x p -> (forall y r, Q y r -> safe Q' y (f r)) -> safe Q' x (and_then p f).
Proof.
  intros Hp Hf. revert x Hp. induction p as [r|B' m k IH]; intros x Hp; cbn [and_then safe] in *.
  - apply Hf, Hp. reflexivity.
  - intros log w Hw Hi. destruct (Hp log w Hw Hi) as (? & ? & Hk). split_and!; [done..|by apply IH].
Qed.

Lemma safe_bind {A B} (Q : shared -> result A -> Prop) (Q' : shared -> result B -> Prop) x p (f : A -> prog B) :
  safe Q x p -> (forall y a, Q y (Ok a) -> safe Q' y (f a)) ->
  (forall y r, (forall a, r <> Ok a) -> Q' y r) -> safe Q' x (p ≫= f).
Proof.
  intros Hp Hf Hq. eapply safe_and_then; [done|]. intros y [a|e|why] Ha; [by apply Hf|..]; intros z _; by apply Hq.
Qed.

Lemma safe_consequence {A} (Q Q' : shared -> result A -> Prop) x p :
  safe Q x p -> (forall y r, Q y r -> Q' y r) -> safe Q' x p.
Proof.
  intros Hp Hq. revert x Hp. induction p as [r|B m k IH]; intros x Hp; cbn [safe] in *.
  - intros y Hy. by apply Hq, Hp.
  - intros log w Hw Hi. destruct (Hp log w Hw Hi) as (? & ? & Hk). split_and!; [done..|by apply IH].
Qed.

(** What is true of [x] and that no one makes false is true at the end. *)
Lemma safe_frame {A} (F : shared -> Prop) (Q : shared -> result A -> Prop) x p :
  (forall y z, R y z -> F y -> F z) -> F x -> safe Q x p -> safe (fun y r => F y /\ Q y r) x p.
Proof.
  intros HF. revert x. induction p as [r|B m k IH]; intros x Hx Hp; cbn [safe] in *.
  - intros y Hy. split; [by eapply HF|by apply Hp].
  - intros log w Hw Hi. destruct (Hp log w Hw Hi) as (? & Hg & Hk). split_and!; [done..|].
    apply IH; [|done]. eapply HF; [by apply within, Hg|]. by eapply HF.
Qed.

(** ** Programs that answer a value with a property *)

Lemma safe_returns_bind {A B} (P : shared -> A -> Prop) (P' : shared -> B -> Prop) x p (f : A -> prog B) :
  safe (returns P) x p -> (forall y a, P y a -> safe (returns P') y (f a)) -> safe (returns P') x (p ≫= f).
Proof.
  intros Hp Hf. eapply safe_bind; [done| |].
  - intros y a Ha. apply Hf. by apply Ha.
  - intros y r Hr a ->. by destruct (Hr a).
Qed.

Lemma safe_returns_done {A} (P : shared -> A -> Prop) `{!Stable R P} x r : returns P x r -> safe (returns P) x (Done r).
Proof. intros Hr y Hy a ->. eapply stable; [done|by apply Hr]. Qed.

Lemma safe_returns_map_err {A} (P : shared -> A -> Prop) `{!Stable R P} g x (p : prog A) :
  safe (returns P) x p -> safe (returns P) x (prog_map_err g p).
Proof.
  intros Hp. eapply safe_and_then; [exact Hp|]. intros y r Hr. apply safe_returns_done; [done|].
  intros a E. apply Hr. by destruct r; simplify_eq.
Qed.

(** A transaction that keeps the invariant, or does nothing. *)
Lemma safe_returns_write {A} (P : shared -> A -> Prop) `{!Stable R P} x (m : M world A) :
  (forall log w r w', R x (log, w_db w) -> Inv (log, w_db w) -> m w = (r, w') ->
     (exists a, r = Ok a /\ Inv (log, w_db w') /\ G (log, w_db w) (log, w_db w') /\ P (log, w_db w') a)
     \/ ((forall a, r <> Ok a) /\ w_db w' = w_db w)) ->
  safe (returns P) x (atomic m).
Proof.
  intros Hm log w Hx Hi. destruct (m w) as [r w'] eqn:E. cbn [fst snd].
  destruct (Hm log w r w' Hx Hi E) as [(a & -> & Hi' & Hk & Ha)|[Hr ->]].
  - split_and!; [done..|]. apply safe_returns_done; [done|]. by intros a' [= <-].
  - split_and!; [done|reflexivity|]. apply safe_returns_done; [done|]. intros a Ea. by destruct (Hr a).
Qed.

(** A query. *)
Lemma safe_returns_query {A} (P : shared -> A -> Prop) `{!Stable R P} x (m : M world A) : readonly m ->
  (forall log w a w', Inv (log, w_db w) -> m w = (Ok a, w') -> P (log, w_db w) a) -> safe (returns P) x (atomic m).
Proof.
  intros Hro Hm. apply safe_returns_write; [done|]. intros log w r w' _ Hi E.
  pose proof (Hro w) as (Ed & _). rewrite E in Ed. simpl in Ed. rewrite Ed. destruct r as [a|e|why]; [left|by right..].
  exists a. split_and!; [done..|reflexivity|by eapply Hm].
Qed.
End Rely.
