(* ===== verification/Interleave.v ===== *)
(** * Processes that interleave at every statement

    The processes of a machine run their operations on one database, one
    statement or transaction at a time, in any order. The schema, the links of
    the tables and the types of the columns hold at every moment; when purges
    run between the logins only, a hash is that of its user; and a purge in the
    middle of a login lets one user in with the password of another. *)

From S2P Require Import Prelude GoStrings Interfaces Tables CacheDB CacheFacts HomeDir UidGen CacheAuth.
From S2P Require Import CacheUpdate CacheTheorems Typed CacheSpec Atoms Offline Rely.
Open Scope string_scope.
Open Scope list_scope.
Open Scope Z_scope.

(** ** The pool *)

(** A thread, with the number of the steps that it has made. *)
Record thread := Thread { th_cache : Cache; th_call : call; th_steps : nat; th_prog : prog (option UserRecord) }.
Record pool := Pool { po_shared : shared; po_threads : gmap nat thread }.

(** Update is called for a user that was just verified. *)
Definition call_log (now : Z) (k : call) (log : list verified) : list verified :=
  match k with CallUpdate n pw _ _ => Verified n pw now :: log | _ => log end.

(** Whether a step of an operation may be made while the threads are these. *)
Definition policy : Type := call -> gmap nat thread -> bool.

Definition any_call : policy := fun _ _ => true.

(** A login that has made a step and has not ended. *)
Definition under_way (t : thread) : bool :=
  match th_call t, th_prog t with
  | CallUpdate _ _ _ _, Atom _ _ => (0 <? th_steps t)%nat
  | _, _ => false
  end.

(** A purge waits until no login is under way; nothing else waits. *)
Definition between_logins : policy := fun k ts =>
  match k with
  | CallCleanUp _ => bool_decide (map_Forall (fun _ t => under_way t = false) ts)
  | _ => true
  end.

Section Pool.
Context `{Decorator} `{Bcrypt} `{RowOrder}.

(** Another thread starts an operation, one goes on by a step, at any time and
    with any failure to come, or one is over: it has ended, or is killed. *)
Inductive pool_step (may : policy) : pool -> pool -> Prop :=
  | PoolStart i c k fuel now log d ts :
      ts !! i = None ->
      pool_step may (Pool (log, d) ts) (Pool (call_log now k log, d) (<[i := Thread c k 0 (call_steps fuel c k)]> ts))
  | PoolAtom i c k n B (m : M world B) rest log ts r w w' :
      ts !! i = Some (Thread c k n (Atom m rest)) -> may k ts = true -> m w = (r, w') ->
      pool_step may (Pool (log, w_db w) ts) (Pool (log, w_db w') (<[i := Thread c k (S n) (rest r)]> ts))
  | PoolEnd i s ts : pool_step may (Pool s ts) (Pool s (delete i ts)).

(** A database that no one has used yet. *)
Definition new_pool : pool := Pool ([], empty_db) ∅.

(** ** A scheduler *)

(** What happens next: the start of an operation, the next step of a thread at a
    time and with failures, or the end of a thread, finished or not. *)
Inductive event :=
  | Starts (i : nat) (c : Cache) (k : call) (fuel : nat) (now : Z)
  | Steps (i : nat) (faults : list (option string)) (now : Z) (entropy : nat)
  | Ends (i : nat).

Definition happens (may : policy) (e : event) (po : pool) : option pool :=
  let '(Pool (log, d) ts) := po in
  match e with
  | Starts i c k fuel now =>
      match ts !! i with
      | None => Some (Pool (call_log now k log, d) (<[i := Thread c k 0 (call_steps fuel c k)]> ts))
      | Some _ => None
      end
  | Steps i faults now entropy =>
      match ts !! i with
      | Some (Thread c k n (Atom m rest)) =>
          if may k ts then
            let '(r, w') := m (World d faults now entropy) in
            Some (Pool (log, w_db w') (<[i := Thread c k (S n) (rest r)]> ts))
          else None
      | _ => None
      end
  | Ends i => Some (Pool (log, d) (delete i ts))
  end.

Fixpoint happen (may : policy) (es : list event) (po : pool) : option pool :=
  match es with
  | [] => Some po
  | e :: es => match happens may e po with Some po' => happen may es po' | None => None end
  end.

Lemma happens_step may e po po' : happens may e po = Some po' -> pool_step may po po'.
Proof.
  destruct po as [[log d] ts], e as [i c k fuel now|i faults now entropy|i]; simpl.
  - destruct (ts !! i) eqn:Hi; [done|]. intros [= <-]. by apply PoolStart.
  - destruct (ts !! i) as [[c k n [r|B m rest]]|] eqn:Hi; [done| |done]. destruct (may k ts) eqn:Hm; [|done].
    destruct (m (World d faults now entropy)) as [r w'] eqn:E. intros [= <-].
    exact (PoolAtom may i c k n B m rest log ts r (World d faults now entropy) w' Hi Hm E).
  - intros [= <-]. apply PoolEnd.
Qed.

Lemma happen_reachable may es po po' : happen may es po = Some po' -> rtc (pool_step may) po po'.
Proof.
  revert po. induction es as [|e es IH]; intros po; cbn [happen]; [by intros [= ->]; apply rtc_refl|].
  destruct (happens may e po) as [po1|] eqn:E; [|done]. intros Hr.
  eapply rtc_l; [by eapply happens_step|by apply IH].
Qed.

(** ** What holds of the tables *)

Section Operations.
(** Whether the purges run between the logins only; then more is true. *)
Variable spaced : bool.

(** The hash of a user is empty or is that of a password of its own. *)
Definition hash_from (log : list verified) (n h : string) : Prop :=
  h = "" \/ exists v salt, v ∈ log /\ v_login v = n /\ bcrypt_generate salt (v_password v) = Ok h.

Record right_tables (x : shared) : Prop := {
  rt_wf : db_wf x.2;
  rt_coherent : coherent x.2;
  rt_typed : typed x.2;
  rt_hash : spaced = true -> forall p s, p ∈ t_passwd x.2 -> s ∈ t_shadow x.2 -> s_uid s = p_uid p ->
    hash_from x.1 (p_login p) (s_password s);
}.

Definition has_user (d : database) (n : string) (uid : Z) : Prop :=
  exists p, p ∈ t_passwd d /\ p_login p = n /\ p_uid p = uid.

(** Verifications are not forgotten; and a user keeps its number, unless purged. *)
Definition grows (x y : shared) : Prop := x.1 ⊆ y.1.
Definition keeps (x y : shared) : Prop :=
  grows x y /\ (spaced = true -> forall n uid, has_user x.2 n uid -> has_user y.2 n uid).

#[local] Instance grows_preorder : PreOrder grows.
Proof. unfold grows. split; [by intros x|]. intros x y z L1 L2. by etrans. Qed.

#[local] Instance keeps_preorder : PreOrder keeps.
Proof. split; [intros x; by split|]. intros x y z [L1 U1] [L2 U2]. split; [by etrans|auto]. Qed.

#[local] Instance keeps_grows : Within keeps grows.
Proof. by intros x y [? _]. Qed.

(** A login under way relies on the number of its user; and only a purge takes
    a number back. *)
Definition rely (k : call) : shared -> shared -> Prop :=
  match k with CallUpdate _ _ _ _ => keeps | _ => grows end.
Definition guarantee (k : call) : shared -> shared -> Prop :=
  match k with CallCleanUp _ => grows | _ => keeps end.

#[local] Instance rely_preorder k : PreOrder (rely k).
Proof. destruct k; apply _. Qed.
#[local] Instance guarantee_preorder k : PreOrder (guarantee k).
Proof. destruct k; apply _. Qed.
#[local] Instance guarantee_rely k : Within (guarantee k) (rely k).
Proof. destruct k; apply _. Qed.

Abbreviation safe k := (safe right_tables (rely k) (guarantee k)).

(** ** What the transactions do *)

Lemma hash_from_more log log' n h : log ⊆ log' -> hash_from log n h -> hash_from log' n h.
Proof. intros Hl [?|(v & salt & Hv & ?)]; [by left|]. right. exists v, salt. split; [by apply Hl|done]. Qed.

Lemma right_inserted log n home sh id d : right_tables (log, d) -> fresh_user (new_user n home sh id) d -> uint32 id ->
  right_tables (log, user_inserted (new_user n home sh id) d).
Proof.
  intros [Hwf Hl Hty Hh] Hf Hid. simpl in *.
  split; simpl; [by apply user_inserted_wf|by apply coherent_inserted|by apply typed_inserted|].
  intros Hp p s. rewrite !elem_of_app, !list_elem_of_singleton. intros [Hin| ->] [Hs| ->] E; simpl in E.
  - by apply Hh.
  - exfalso. apply (fresh_uid _ _ Hf). simpl. rewrite E. by apply list_elem_of_fmap_2.
  - exfalso. apply (fresh_shadow _ _ Hf). simpl. rewrite <- E. by apply list_elem_of_fmap_2.
  - by left.
Qed.

Lemma right_refreshed log n pw now t salt uid h d : right_tables (log, d) -> Verified n pw t ∈ log ->
  (spaced = true -> has_user d n uid) -> bcrypt_generate salt pw = Ok h -> right_tables (log, refreshed now uid h d).
Proof.
  intros [Hwf Hl Hty Hh] Hv Hu Hb. simpl in *.
  split; cbn [fst snd]; [by apply refreshed_wf|by apply coherent_refreshed|by apply typed_refreshed|].
  intros Hp p' s' (p & Hin & ->)%elem_of_refreshed_passwd (s & Hs & ->)%elem_of_refreshed_shadow E.
  assert (s_uid s = p_uid p) as E0 by (destruct (_ =? _) in E; destruct (_ =? _) in E; done).
  rewrite E0. destruct (Z.eqb_spec (p_uid p) uid) as [Eu|]; [|by apply Hh].
  destruct (Hu Hp) as (q & Hq & <- & Equ).
  assert (p = q) as <- by (eapply (NoDup_fmap_inj p_uid); [apply Hwf|done..|congruence]).
  right. exists (Verified (p_login p) pw t), salt. by split_and!.
Qed.

Lemma keeps_refreshed log now uid h d : keeps (log, d) (log, refreshed now uid h d).
Proof.
  split; [by unfold grows|]. intros _ n id (p & Hp & El & Eu). eexists. split.
  { apply elem_of_refreshed_passwd. by exists p. }
  by destruct (_ =? _).
Qed.

Lemma right_attribute log attr v login d d' : update_attr attr v login d = Ok (tt, d') ->
  right_tables (log, d) -> right_tables (log, d') /\ keeps (log, d) (log, d').
Proof.
  intros Hu [Hwf Hl Hty Hh]. simpl in *. pose proof (update_attr_inv _ _ _ _ _ Hu) as (_ & _ & Es & Hf).
  assert (Hkey : forall p q, (if bool_decide (p_login p = login) then set_attr attr (text_affinity v) p else Some p) = Some q ->
    p_login q = p_login p /\ p_uid q = p_uid p).
  { intros p q. case_bool_decide; [|by intros [= ->]]. intros Hq. by apply set_attr_key in Hq as (-> & -> & _). }
  split.
  - split; simpl; [by eapply update_attr_wf|by eapply coherent_update_attr|by eapply typed_update_attr|].
    rewrite Es. intros Hp p s [i Hi]%list_elem_of_lookup Hs E.
    destruct (Forall2_lookup_r _ _ _ _ _ Hf Hi) as (q & Hq & [El Eu]%Hkey).
    rewrite El. apply Hh; [done|by eapply list_elem_of_lookup_2|done|congruence].
  - split; [by unfold grows|]. intros _ n uid (p & [i Hi]%list_elem_of_lookup & <- & <-).
    destruct (Forall2_lookup_l _ _ _ _ _ Hf Hi) as (q & Hq & [El Eu]%Hkey).
    exists q. split; [by eapply list_elem_of_lookup_2|done].
Qed.

Lemma right_purged log t d : right_tables (log, d) -> right_tables (log, purged t d).
Proof.
  intros [Hwf Hl Hty Hh]. simpl in *.
  split; simpl; [by apply purged_wf|by apply coherent_purged|by apply typed_purged|].
  intros Hs p s [Hp _]%elem_of_purged_passwd [Hin _]%elem_of_purged_shadow. by apply Hh.
Qed.

(** ** Each operation, step by step *)

(** The number of a record is that of the user. *)
Definition numbers (n : string) (y : shared) (u : UserRecord) : Prop := spaced = true -> has_user y.2 n (UID u).

#[local] Instance stable_numbers n : Stable keeps (numbers n).
Proof. intros y z u [_ Hk] Hu Hp. by apply Hk, Hu. Qed.

Section Login.
Abbreviation safe := (Rely.safe right_tables keeps keeps).

Lemma safe_GetUserByName x c n : safe (returns (numbers n)) x (atomic (GetUserByName c n)).
Proof.
  apply safe_returns_query; [apply _..|apply GetUserByName_ro|]. intros log w u w' _ E _.
  apply GetUserByName_Ok in E as (p & pw & Hp & El & _ & Hu).
  apply scan_user_Ok in Hu as (_ & _ & [= Eu] & _). by exists p.
Qed.

Lemma safe_find_uid fuel uid n x : 0 <= uid < 2 ^ 32 -> safe (returns (fun _ => uint32)) x (find_uid_steps fuel uid n).
Proof.
  revert uid x. induction fuel as [|fuel IH]; intros uid x Hu; cbn [find_uid_steps]; [by apply safe_returns_done; [apply _|]|].
  eapply safe_returns_bind; [apply _|apply (safe_returns_query _ _ _ (fun _ _ => True)); [apply _..|apply uidOrGidExists_ro|done]|].
  intros y [] _; [apply IH, u32_range|]. apply safe_returns_done; [apply _|]. by intros a [= <-].
Qed.

Lemma safe_insert x c n home sh id : uint32 id ->
  safe (returns (fun y _ => spaced = true -> has_user y.2 n (i64 id))) x (atomic (insertUser c (new_user n home sh id))).
Proof.
  intros Hid. apply safe_returns_write; [apply _..| |].
  - intros y z [] [_ Hk] Hu Hp. by apply Hk, Hu.
  - intros log w r w' _ Hi E. apply insertUser_inv in E as [(-> & _ & Hf & Ed)|[Hr Ed]].
    + left. exists tt. rewrite Ed. split_and!; [done|by apply right_inserted|split; [by unfold grows|]|].
      * intros _ n' uid' (p & Hp & ?). exists p. split; [by apply elem_of_app; left|done].
      * intros _. eexists. split; [by apply elem_of_app; right; apply list_elem_of_singleton|done].
    + right. split; [|done]. intros []. done.
Qed.

Lemma safe_find_or_create x fuel c n pat sh : safe (returns (numbers n)) x (find_or_create_steps fuel c n pat sh).
Proof.
  unfold find_or_create_steps. eapply safe_returns_bind with (P := fun y (r : UserRecord + gerror) =>
    match r with inl u => numbers n y u | inr _ => True end); [apply _| |].
  - eapply safe_and_then; [apply _|apply safe_GetUserByName|]. intros y r Hr. destruct r as [u|e|why].
    + intros z Hz a [= <-]. eapply (stable_numbers n); [done|by apply Hr].
    + by intros z Hz a [= <-].
    + by intros z Hz a.
  - intros y [u|e] Hu.
    { apply safe_returns_done; [apply _|]. by intros a [= <-]. }
    destruct (errors_is e ErrNoEnt); [|by apply safe_returns_done; [apply _|]]. unfold create_user_steps, generateUID_steps.
    eapply safe_returns_bind; [apply _|apply (safe_returns_map_err _ _ _ (fun _ => uint32)); [apply _..|apply safe_find_uid]|].
    { pose proof (base_uid_range n). unfold offset, MaxUint32 in *. lia. }
    intros y2 id Hid. eapply safe_returns_bind; [apply _|by apply (safe_returns_done _ _ _ (fun _ _ => True))|].
    intros y3 home _. eapply safe_returns_bind; [apply _|by apply safe_insert|].
    intros y4 [] Hu4. apply safe_returns_done; [apply _|]. by intros a [= <-].
Qed.

Lemma safe_Update x fuel c n pw pat sh t : Verified n pw t ∈ x.1 ->
  safe (returns (fun _ _ => True)) x (Update_steps fuel c n pw pat sh).
Proof.
  intros Hv. unfold Update_steps. apply safe_returns_map_err; [apply _..|].
  assert (Hlog : forall y z, keeps y z -> Verified n pw t ∈ y.1 -> Verified n pw t ∈ z.1) by (intros y z [Hl _]; apply Hl).
  set (Pu := fun (y : shared) (u : UserRecord) => Verified n pw t ∈ y.1 /\ numbers n y u).
  set (Ph := fun u (y : shared) (h : string) => Pu y u /\ exists salt, bcrypt_generate salt pw = Ok h).
  apply safe_returns_bind with Pu; [apply _| |intros y u Hu; apply safe_returns_bind with (Ph u); [apply _| |]].
  - eapply safe_consequence; [eapply safe_frame; [apply _|exact Hlog|exact Hv|apply safe_find_or_create]|].
    intros y r [Hy Hr] u ->. split; [done|by apply Hr].
  - eapply safe_consequence; [eapply safe_frame with (F := fun y => Pu y u); [apply _| |exact Hu|]|].
    + intros y' z Hk [Hy Hn]. split; [by eapply Hlog|by eapply stable_numbers].
    + apply (safe_returns_write _ _ _ (fun _ h => exists salt, bcrypt_generate salt pw = Ok h)); [apply _..|].
      intros log w r w' _ Hi E. apply encryptPassword_inv in E as (Ed & _ & _ & _ & Hr). rewrite Ed.
      destruct r as [h|e|why]; [|by right|by right]. left. exists h. split_and!; [done..|reflexivity|by eexists].
    + intros y' r [Hy Hr] h ->. split; [done|by apply Hr].
  - intros y2 h [[Hv2 Hn2] [salt Hb]]. apply (safe_returns_write _ _ _ (fun _ _ => True)); [apply _..|]. intros log w r w' Hk Hi E.
    apply updateOnlineAuthAndPassword_inv in E as [(-> & _ & Ed)|[Hr Ed]].
    + left. exists tt. rewrite Ed. split_and!; [done| |apply keeps_refreshed|done].
      eapply right_refreshed; [done|by apply (Hlog _ _ Hk)| |done].
      intros Hp. by apply (stable_numbers n _ _ _ Hk Hn2).
    + right. split; [|done]. by intros [].
Qed.
End Login.

Lemma safe_steps_attribute x login attr v :
  Rely.safe right_tables grows keeps (returns (fun _ _ => True)) x (UpdateUserAttribute_steps login attr v).
Proof.
  unfold UpdateUserAttribute_steps. apply safe_returns_map_err; [apply _..|].
  case_bool_decide; [by apply safe_returns_done; [apply _|]|].
  eapply safe_returns_bind; [apply _|apply (safe_returns_query _ _ _ (fun _ _ => True)); [apply _..|apply user_must_exist_ro|done]|].
  intros y [] _. apply (safe_returns_write _ _ _ (fun _ _ => True)); [apply _..|]. intros log w r w' _ Hi E.
  apply transaction_inv in E as [(-> & w1 & w2 & (E1 & _) & (Eu & _)%exec_Ok & (E2 & _))|[Hr Ed]].
  - left. exists tt. rewrite E1, <- E2 in Eu. destruct (right_attribute _ _ _ _ _ _ Eu Hi). by split_and!.
  - right. split; [|done]. by intros [].
Qed.

Lemma safe_cleanUp x dur : Rely.safe right_tables grows grows (returns (fun _ _ => True)) x (atomic (cleanUpDB dur)).
Proof.
  apply (safe_returns_write _ _ _ (fun _ _ => True)); [apply _..|]. intros log w r w' _ Hi E.
  apply cleanUpDB_inv in E as [[-> Ed]|[Hr Ed]].
  - left. exists tt. rewrite Ed. split_and!; [done|by apply right_purged|by unfold grows|done].
  - right. split; [|done]. by intros [].
Qed.

(** The user of a login was verified. *)
Definition verified_call (x : shared) (k : call) : Prop :=
  match k with CallUpdate n pw _ _ => exists t, Verified n pw t ∈ x.1 | _ => True end.

Lemma starts_safe x c k fuel : verified_call x k -> safe k (@anything _) x (call_steps fuel c k).
Proof.
  intros Hk. apply (safe_consequence _ _ _ (returns (fun _ _ => True))); [|done].
  destruct k as [n pw pat sh|n pw|n|n attr v|dur]; cbn [call_steps rely guarantee];
    (eapply safe_returns_bind with (P := fun _ _ => True); [apply _| |intros y a _; by apply safe_returns_done; [apply _|]]).
  - destruct Hk as [t Hv]. by eapply safe_Update.
  - by apply safe_returns_query; [apply _..|apply CanAuthenticate_ro|].
  - by apply safe_returns_query; [apply _..|apply GetUserByName_ro|].
  - apply safe_steps_attribute.
  - by apply safe_cleanUp.
Qed.

(** ** The pool stays safe *)

Record thread_ok (x : shared) (t : thread) : Prop := {
  ok_safe : safe (th_call t) (@anything _) x (th_prog t);
  ok_verified : verified_call x (th_call t);
  ok_fresh : th_steps t = 0%nat -> exists fuel, th_prog t = call_steps fuel (th_cache t) (th_call t);
}.

Record pool_ok (po : pool) : Prop := {
  ok_shared : right_tables (po_shared po);
  ok_threads i t : po_threads po !! i = Some t -> thread_ok (po_shared po) t;
}.

Lemma guarantee_grows k x y : guarantee k x y -> grows x y.
Proof. by destruct k; [intros [? _]..|]. Qed.

Lemma verified_more x y k : grows x y -> verified_call x k -> verified_call y k.
Proof. intros Hg. destruct k; [|done..]. intros [t Ht]. exists t. by apply Hg. Qed.

(** A thread that is not a login under way does not mind a purge. *)
Lemma thread_grows x y t : grows x y -> (spaced = true -> under_way t = false) -> thread_ok x t -> thread_ok y t.
Proof.
  intros Hg Hu [Hs Hv Hf]. pose proof (verified_more _ _ _ Hg Hv) as Hv'. split; [|done..].
  assert (rely (th_call t) x y -> safe (th_call t) (@anything _) y (th_prog t)) as Hw
    by (intros Hr; by eapply safe_weaken; [apply _|exact Hs|]).
  destruct (th_call t) as [n pw pat sh| | | |] eqn:Ek; [|by apply Hw..].
  destruct spaced eqn:Es; [|by apply Hw; split; [|rewrite Es]].
  specialize (Hu eq_refl). unfold under_way in Hu. rewrite Ek in Hu.
  destruct (th_prog t) as [r|B m rest]; [done|]. apply Nat.ltb_ge in Hu.
  destruct Hf as [fuel ->]; [lia|]. by apply starts_safe.
Qed.

Lemma thread_keeps x y t : keeps x y -> thread_ok x t -> thread_ok y t.
Proof.
  intros Hk [Hs Hv Hf]. split; [|by eapply verified_more; [apply Hk|]|done]. eapply safe_weaken; [apply _|done|].
  destruct (th_call t); [done|apply Hk..].
Qed.

Context (may : policy).
Hypothesis purges_wait : spaced = true -> forall dur ts i t,
  may (CallCleanUp dur) ts = true -> ts !! i = Some t -> under_way t = false.

Lemma pool_step_ok po po' : pool_ok po -> pool_step may po po' -> pool_ok po'.
Proof.
  intros Hok Hs. revert Hok.
  destruct Hs as [i c k fuel now log d ts _|i c k n B m rest log ts r w w' Hm Hmay E|i s ts];
    intros [Hi Ht]; simpl in *.
  - assert (keeps (log, d) (call_log now k log, d)) as Hg by (split; [|done]; unfold grows; simpl; destruct k; set_solver).
    split; simpl.
    { destruct Hi as [Hwf Hl Hty Hh]. split; simpl; [done..|]. intros Hp p s Hin Hs E.
      eapply hash_from_more; [apply Hg|by apply Hh]. }
    intros j t. rewrite lookup_insert_Some. intros [[_ <-]|[_ Hj]]; [|by eapply thread_keeps, (Ht j)].
    assert (verified_call (call_log now k log, d) k) as Hv by (destruct k; [exists now; by left|done..]).
    split; simpl; [by apply starts_safe|done|by exists fuel].
  - destruct (Ht _ _ Hm) as [Hsafe Hv _]. simpl in Hsafe, Hv.
    destruct (Hsafe log w) as (Hi' & Hg & Hs); [reflexivity|done|]. rewrite E in Hi', Hg, Hs. simpl in *.
    split; simpl; [done|]. intros j t. rewrite lookup_insert_Some. intros [[_ <-]|[_ Hj]].
    { split; simpl; [done|by eapply verified_more; [eapply guarantee_grows|]|done]. }
    destruct k as [| | | |dur]; [by eapply thread_keeps, (Ht j)..|].
    eapply thread_grows; [exact Hg|intros Es; by eapply purges_wait|by apply (Ht j)].
  - split; simpl; [done|]. intros j t. rewrite lookup_delete_Some. intros [_ Hj]. by apply (Ht j).
Qed.

Lemma reachable_right po : rtc (pool_step may) new_pool po -> right_tables (po_shared po).
Proof.
  intros Hr. apply ok_shared. assert (pool_ok new_pool) as Hok.
  { split; simpl; [|by intros i t ?%lookup_empty_Some].
    split; simpl; [apply empty_wf|apply coherent_empty|apply typed_empty|]. by intros _ p s ?%elem_of_nil. }
  clear -Hr Hok purges_wait. induction Hr; eauto using pool_step_ok.
Qed.
End Operations.

(** ** At every moment *)

(** C9: whatever the processes that share a cache run, and however their
    statements and transactions interleave and fail, the tables satisfy at every
    moment the constraints of the schema, every user has exactly its shadow row,
    its own group and its link, and the columns have their types. The operations
    of the pool are those of the Go package: Update, CanAuthenticate,
    GetUserByName, UpdateUserAttribute and the purge. *)
Theorem interleaved_tables po : rtc (pool_step any_call) new_pool po ->
  db_wf (po_shared po).2 /\ coherent (po_shared po).2 /\ typed (po_shared po).2.
Proof. intros Hr. by destruct (reachable_right false any_call ltac:(done) po Hr) as [? ? ? _]. Qed.

(** C10: when purges run between the logins, that is while no login has made a
    step and has not ended, an offline login that is accepted at any moment of
    any interleaving rests on an online verification of the same user, with a
    password that gives the hash. The rest of the operations interleave freely,
    other logins included. *)
Theorem interleaved_offline_login po c n pw w w' : rtc (pool_step between_logins) new_pool po ->
  w_db w = (po_shared po).2 -> CanAuthenticate c n pw w = (Ok tt, w') ->
  exists v salt h, v ∈ (po_shared po).1 /\ v_login v = n
    /\ bcrypt_generate salt (v_password v) = Ok h /\ bcrypt_compare h pw = None.
Proof.
  intros Hr Ed (Hm & _ & u & Hg & _ & Hb)%CanAuthenticate_inv.
  destruct (reachable_right true between_logins) with (po := po) as [_ _ _ Hh]; [|done|].
  { intros _ dur ts i t Hw Hi. apply bool_decide_eq_true_1 in Hw. by eapply Hw. }
  apply GetUserByName_Ok in Hg as (p & spw & Hp & <- & Hs & Hu).
  unfold shadow_seen, shadowNotAvailableMode, shadowROMode in *.
  rewrite (proj2 (Z.ltb_lt 0 (shadowMode c))) in Hs by lia. destruct Hs as (s & Hs & Es & <-).
  pose proof (scan_user_Ok _ _ Hu) as (_ & _ & _ & _ & _ & _ & _ & E & _). simpl in E. injection E as E. rewrite <- E in Hb.
  rewrite Ed in Hp, Hs. destruct (Hh eq_refl p s Hp Hs Es) as [Hz|(v & salt & Hv & Hl & Hgen)].
  - rewrite Hz in Hb. by apply bcrypt_empty_hash in Hb.
  - by exists v, salt, (s_password s).
Qed.
End Pool.

(** ** Concrete interleavings *)

Import Concrete.

Definition login_of (i : nat) (n pw : string) : event :=
  Starts i (rw_cache 10) (CallUpdate n pw "/home/%u" "/bin/bash") 10 (5000 * Second).
Definition day (k : Z) : Z := (5000 + k * 86400) * Second.
Definition turns (i k : nat) (now : Z) : list event := replicate k (Steps i [] now k).

(** Two first logins of the same user at the same time: both find it unknown. *)
Definition twice : list event :=
  [login_of 0 "mary@d" "secret"; login_of 1 "mary@d" "secret"] ++ turns 0 2 (day 0) ++ turns 1 2 (day 0)
    ++ turns 0 3 (day 0) ++ turns 1 1 (day 0).

Definition after (may : policy) (es : list event) : pool := default new_pool (happen may es new_pool).

Lemma after_reachable may es : is_Some (happen may es new_pool) -> rtc (pool_step may) new_pool (after may es).
Proof. intros [po E]. unfold after. rewrite E. by eapply happen_reachable. Qed.

(** The second insertion is refused by the schema, and the login with it. *)
Example second_login_refused : exists c k n e,
  po_threads (after any_call twice) !! 1%nat = Some (Thread c k n (Done (Err e))).
Proof. do 4 eexists. vm_compute. reflexivity. Qed.
Example one_account : (p_login <$> t_passwd (po_shared (after any_call twice)).2) = ["mary@d"].
Proof. vm_compute. reflexivity. Qed.

Lemma interleaved_tables_witness : coherent (po_shared (after any_call twice)).2.
Proof. apply (interleaved_tables (after any_call twice)). apply after_reachable. eexists. vm_compute. reflexivity. Defined.

Definition purge_at (i : nat) (k : Z) : list event :=
  [Starts i (rw_cache 10) (CallCleanUp (20 * 24 * Hour)) 10 (day k)] ++ turns i 1 (day k).

(** The user logs in twice at the same time, is purged later, while another
    login is about to start, and that one creates the user again. *)
Definition purged_and_back : list event :=
  twice ++ [login_of 4 "mary@d" "fresh"] ++ purge_at 3 21 ++ turns 4 5 (day 21).

Definition back : pool := after between_logins purged_and_back.
Definition back_tables : database := Eval vm_compute in (po_shared back).2.
Definition next_morning : world := World back_tables [] (day 22) 0.

Lemma interleaved_offline_login_witness : exists v, v ∈ (po_shared back).1 /\ v_login v = "mary@d".
Proof.
  assert (rtc (pool_step between_logins) new_pool back) as Hr
    by (apply after_reachable; eexists; vm_compute; reflexivity).
  assert (w_db next_morning = (po_shared back).2) as Et by (vm_compute; reflexivity).
  assert (CanAuthenticate (rw_cache 10) "mary@d" "fresh" next_morning = (Ok tt, next_morning)) as E
    by (vm_compute; reflexivity).
  destruct (interleaved_offline_login back (rw_cache 10) "mary@d" "fresh" next_morning next_morning Hr Et E)
    as (v & salt & h & Hv & Hn & Hg & Hb).
  exists v. split; [exact Hv|exact Hn].
Defined.

(** The names of mary and army have the same letters, hence the same hash. While
    mary logs in, between the lookup of her row and the record of her hash, her
    row is purged and army logs in for the first time: army is given the number
    that is free, and the record of mary's login goes to the row of army. *)
Definition purged_in_between : list event :=
  [login_of 0 "mary@d" "old"] ++ turns 0 5 (day 0)
    ++ [login_of 1 "mary@d" "secret"] ++ turns 1 1 (day 21)
    ++ purge_at 2 21
    ++ [login_of 3 "army@d" "own"] ++ turns 3 5 (day 21)
    ++ turns 1 2 (day 21).

(** This purge would have to wait. *)
Example purge_waits : happen between_logins purged_in_between new_pool = None.
Proof. vm_compute. reflexivity. Qed.

(** C11: with a purge in between the refinement of the atomic operations fails:
    there is an interleaving, without any failing call, after which mary's login
    has succeeded, mary is not in the cache, and army logs in offline with the
    password of mary, with which army was never verified. *)
Theorem purge_between_steps : exists po,
  rtc (pool_step any_call) new_pool po /\
  (exists c k n, po_threads po !! 1%nat = Some (Thread c k n (Done (Ok None)))) /\
  ("mary@d" ∉ (p_login <$> t_passwd (po_shared po).2)) /\
  (CanAuthenticate (rw_cache 10) "army@d" "secret" (World (po_shared po).2 [] (day 22) 0)).1 = Ok tt /\
  (forall v, v ∈ (po_shared po).1 -> v_login v = "army@d" -> v_password v <> "secret").
Proof.
  exists (after any_call purged_in_between). split_and!.
  - apply after_reachable. eexists. vm_compute. reflexivity.
  - do 3 eexists. vm_compute. reflexivity.
  - vm_compute. intros Hin. repeat (apply elem_of_cons in Hin as [Hin|Hin]; [discriminate|]). by apply elem_of_nil in Hin.
  - vm_compute. reflexivity.
  - assert ((po_shared (after any_call purged_in_between)).1 = [Verified "army@d" "own" (day 0); Verified "mary@d" "secret" (day 0);
      Verified "mary@d" "old" (day 0)]) as -> by (vm_compute; reflexivity).
    intros v. rewrite !elem_of_cons, elem_of_nil. intros [->|[->|[->|[]]]]; simpl; done.
Qed.
