(* ===== verification/Config.v ===== *)
(** * internal/config: the configuration of a domain

    Load layers the values of /etc/aad.conf over the defaults of
    /etc/adduser.conf; Validate is what aad-cli asks before it installs a
    file. The ini parser is a third-party package: it is the interface below. *)

From S2P Require Import Prelude GoStrings Interfaces CacheDB.
Open Scope string_scope.
Open Scope list_scope.
Open Scope Z_scope.

(** type AAD *)
Record AAD := MkAAD {
  TenantID : string;
  AppID : string;
  OfflineCredentialsExpiration : option Z;
  HomeDirPattern : string;
  Shell : string;
}.

#[export] Instance AAD_eq_dec : EqDecision AAD.
Proof. solve_decision. Defined.

(** ini.DefaultSection *)
Definition DefaultSection : string := "DEFAULT".

(** What a value that is present and not empty does to a field. *)
Definition override (v : string) (old : string) : string := if bool_decide (v = "") then old else v.

Definition set_values (values : string -> string) (expiration : option Z) (a : AAD) : AAD :=
  MkAAD (override (values "tenant_id") (TenantID a)) (override (values "app_id") (AppID a))
    (match expiration with Some z => Some z | None => OfflineCredentialsExpiration a end)
    (override (values "homedir") (HomeDirPattern a)) (override (values "shell") (Shell a)).

(** github.com/go-ini/ini: an absent key reads as the empty string, the
    section with the empty name is the default one, and mapping a section on a
    structure sets the fields whose key has a value, refusing in strict mode a
    number that does not parse. *)
Class IniLib := {
  ini_file : Type;
  ini_load : string -> result ini_file;     (* of the content of a file *)
  ini_sections : ini_file -> list string;   (* SectionStrings *)
  ini_value : ini_file -> string -> string -> string;
  ini_int : ini_file -> string -> string -> result (option Z);
  StrictMapTo : ini_file -> string -> AAD -> result AAD;
  ini_reflect : AAD -> result ini_file;     (* ReflectFrom on an empty file *)
  ini_write : ini_file -> result string;    (* WriteTo *)
  StrictMapTo_spec f s a :
    StrictMapTo f s a =
    match ini_int f s "offline_credentials_expiration" with
    | Ok v => Ok (set_values (ini_value f s) v a)
    | Err e => Err e
    | Panic p => Panic p
    end;
}.

Definition adduserConfPath : string := "/etc/adduser.conf".
Definition defaultHomePattern : string := "/home/%f".
Definition defaultShell : string := "/bin/bash".

(** type options of the package, and its functional options *)
Record load_options := LoadOptions { addUserConfPath : string }.
Definition LoadOption : Type := load_options -> load_options.

Section Config.
Context `{Decorator} `{IniLib}.
(* the content of the files of the system *)
Variable ReadFile : string -> result string.

(** ini.Load on a path *)
Definition Load_ini (path : string) : result ini_file := content ← ReadFile path; ini_load content.

Definition ToIni (a : AAD) : result ini_file :=
  res_err (Wrapped "could not reflect configuration to ini.File: %w") (ini_reflect a).

Definition loadDefaultHomeAndShell (path : string) : string * string :=
  if bool_decide (path = "") then ("", "")
  else
    match Load_ini path with
    | Ok conf =>
        let tmp := ini_value conf "" "DHOME" in
        (if bool_decide (tmp = "") then "" else Join_path [tmp; "%f"], ini_value conf "" "DSHELL")
    | _ => ("", "")
    end.

(** The values before the file is read. *)
Definition base_config (addUserConf : string) : AAD :=
  let '(dh, ds) := loadDefaultHomeAndShell addUserConf in
  MkAAD "" "" None (override dh defaultHomePattern) (override ds defaultShell).

Fixpoint map_sections (f : ini_file) (sections : list string) (a : AAD) : result AAD :=
  match sections with
  | [] => Ok a
  | s :: sections => a' ← StrictMapTo f s a; map_sections f sections a'
  end.

Definition Load (p domain : string) (opts : list LoadOption) : result AAD :=
  let o := fold_left (fun o opt => opt o) opts (LoadOptions adduserConfPath) in
  res_err (OnError "could not load valid configuration from %s")
    (cfg ← res_err (Wrapped "could not open file %s: %w") (Load_ini p);
     config ← map_sections cfg [DefaultSection; domain] (base_config (addUserConfPath o));
     if bool_decide (TenantID config = "") then
       Err (Opaque "missing required 'tenant_id' entry in configuration file")
     else if bool_decide (AppID config = "") then
       Err (Opaque "missing required 'app_id' entry in configuration file")
     else Ok config).

Fixpoint validate_sections (p : string) (several : bool) (domains : list string) : result unit :=
  match domains with
  | [] => Ok tt
  | domain :: domains =>
      if bool_decide (domain = DefaultSection) && several then validate_sections p several domains
      else Load p domain [] ≫= fun _ => validate_sections p several domains
  end.

Definition Validate (p : string) : result unit :=
  cfg ← Load_ini p;
  validate_sections p (1 <? Z.of_nat (length (ini_sections cfg))) (ini_sections cfg).

(** ** The layers *)

(** The first value that is not empty, from the most specific layer on. *)
Fixpoint first_of (values : list string) : string :=
  match values with
  | [] => ""
  | v :: values => if bool_decide (v = "") then first_of values else v
  end.

Definition layered (f : ini_file) (domain key : string) (fallback : list string) : string :=
  first_of (ini_value f domain key :: ini_value f DefaultSection key :: fallback).

Lemma layered_1 f domain key z :
  layered f domain key [z] = override (ini_value f domain key) (override (ini_value f DefaultSection key) z).
Proof. unfold layered, override. simpl. by repeat case_bool_decide. Qed.

Lemma layered_0 f domain key :
  layered f domain key [] = override (ini_value f domain key) (override (ini_value f DefaultSection key) "").
Proof. unfold layered, override. simpl. by repeat case_bool_decide. Qed.

Lemma map_sections_Ok f domain a c : map_sections f [DefaultSection; domain] a = Ok c <->
  exists v1 v2, ini_int f DefaultSection "offline_credentials_expiration" = Ok v1
    /\ ini_int f domain "offline_credentials_expiration" = Ok v2
    /\ c = set_values (ini_value f domain) v2 (set_values (ini_value f DefaultSection) v1 a).
Proof.
  cbn [map_sections]. unfold mbind, result_bind. rewrite StrictMapTo_spec.
  destruct (ini_int f DefaultSection _) as [v1| |]; [|split; [done|by intros (? & ? & [=] & _)]..].
  rewrite StrictMapTo_spec.
  destruct (ini_int f domain _) as [v2| |]; [|split; [done|by intros (? & ? & _ & [=] & _)]..].
  split; [intros [= <-]; by exists v1, v2|]. by intros (? & ? & [= <-] & [= <-] & ->).
Qed.

(** The home and the shell that the system configures. *)
Definition system_home (addUserConf : string) : string := first_of [(loadDefaultHomeAndShell addUserConf).1; defaultHomePattern].
Definition system_shell (addUserConf : string) : string := first_of [(loadDefaultHomeAndShell addUserConf).2; defaultShell].

Lemma base_config_eq path : base_config path = MkAAD "" "" None (system_home path) (system_shell path).
Proof.
  unfold base_config, system_home, system_shell. destruct (loadDefaultHomeAndShell path) as [dh ds]. done.
Qed.

(** Both sections mapped on the base values. *)
Lemma set_values_layers f domain v1 v2 path :
  set_values (ini_value f domain) v2 (set_values (ini_value f DefaultSection) v1 (base_config path)) =
  MkAAD (layered f domain "tenant_id" []) (layered f domain "app_id" [])
    (match v2 with Some z => Some z | None => v1 end)
    (layered f domain "homedir" [system_home path]) (layered f domain "shell" [system_shell path]).
Proof.
  rewrite base_config_eq, !layered_1, !layered_0. unfold set_values. simpl. f_equal. by destruct v2, v1.
Qed.

(** C33: a configuration is returned exactly when the file can be read, the
    expirations of the default section and of the domain parse, and tenant
    and application are set in one of them; every value is then that of the
    domain, else that of the default section, else for home and shell that
    of adduser.conf, else the built-in one. *)
Theorem Load_layers p domain c :
  Load p domain [] = Ok c <->
  exists f v1 v2, Load_ini p = Ok f
    /\ ini_int f DefaultSection "offline_credentials_expiration" = Ok v1
    /\ ini_int f domain "offline_credentials_expiration" = Ok v2
    /\ TenantID c = layered f domain "tenant_id" [] /\ TenantID c <> ""
    /\ AppID c = layered f domain "app_id" [] /\ AppID c <> ""
    /\ OfflineCredentialsExpiration c = (match v2 with Some z => Some z | None => v1 end)
    /\ HomeDirPattern c = layered f domain "homedir" [system_home adduserConfPath]
    /\ Shell c = layered f domain "shell" [system_shell adduserConfPath].
Proof.
  unfold Load. cbn [fold_left addUserConfPath]. rewrite res_err_Ok, res_bind_Ok.
  setoid_rewrite res_err_Ok. setoid_rewrite res_bind_Ok. setoid_rewrite map_sections_Ok. split.
  - intros (f & Hf & a & (v1 & v2 & H1 & H2 & ->) & Hc). exists f, v1, v2.
    rewrite set_values_layers in Hc. cbn [TenantID AppID] in Hc.
    repeat case_bool_decide; [done..|]. injection Hc as <-. done.
  - intros (f & v1 & v2 & Hf & H1 & H2 & Ht & Hnt & Ha & Hna & He & Hh & Hs). exists f. split; [done|].
    eexists. split; [by exists v1, v2|]. rewrite set_values_layers. cbn [TenantID AppID].
    rewrite <- Ht, <- Ha, !bool_decide_eq_false_2 by done. destruct c; simpl in *. congruence.
Qed.

(** ** Validate *)

Lemma validate_sections_Ok p several ds : validate_sections p several ds = Ok tt <->
  forall d, d ∈ ds -> d <> DefaultSection \/ several = false -> exists c, Load p d [] = Ok c.
Proof.
  induction ds as [|d0 ds IH]; cbn [validate_sections]; [split; [|done]; by intros _ d ?%elem_of_nil|].
  setoid_rewrite elem_of_cons. destruct (bool_decide (d0 = DefaultSection) && several) eqn:Eb.
  - apply andb_true_iff in Eb as [->%bool_decide_eq_true_1 ->]. rewrite IH. split.
    + intros Hall d [->|Hd] Hor; [by destruct Hor|]. by apply Hall.
    + intros Hall d Hd. apply Hall. by right.
  - rewrite res_bind_Ok. setoid_rewrite IH. split.
    + intros (c & Hc & Hall) d [->|Hd]; [by exists c|]. by apply Hall.
    + intros Hall. destruct (Hall d0) as [c Hc]; [by left| |].
      * apply andb_false_iff in Eb as [?%bool_decide_eq_false_1|?]; auto.
      * exists c. split; [done|]. intros d Hd. apply Hall. by right.
Qed.

(** Validate accepts a file exactly when it can be read and every section
    of it can be loaded as a domain, the default section being exempted as
    soon as there is another one. *)
Theorem Validate_iff p :
  Validate p = Ok tt <->
  exists f, Load_ini p = Ok f /\
    forall d, d ∈ ini_sections f -> d <> DefaultSection \/ (length (ini_sections f) <= 1)%nat ->
      exists c, Load p d [] = Ok c.
Proof.
  unfold Validate. rewrite res_bind_Ok. setoid_rewrite validate_sections_Ok.
  assert (forall n, (1 <? Z.of_nat n) = false <-> (n <= 1)%nat) as Hn by (intros n; rewrite Z.ltb_ge; lia).
  split; intros (f & Hf & Hall); exists f; (split; [done|]); intros d Hd Hor; apply Hall; try done;
    (destruct Hor as [|Hl]; [by left|right; by apply Hn]).
Qed.
End Config.

(** ** A concrete parser

    Lines [[section]] and [key = value], enough to run the examples. *)
Module ConcreteIni.
Definition newline : ascii := ascii_of_nat 10.

Definition entry : Type := string * string * string.

Definition section_name (line : string) : option string :=
  match line with
  | String a rest => if bool_decide (a = "["%char) then let '(name, _, found) := Cut "]" rest in
                       if found : bool then Some name else None else None
  | _ => None
  end.

Fixpoint parse (section : string) (lines : list string) : list entry :=
  match lines with
  | [] => []
  | line :: lines =>
      match section_name line with
      | Some name => (name, "", "") :: parse name lines
      | None => let '(k, v, found) := Cut "=" line in
                if found : bool then (section, TrimSpace k, TrimSpace v) :: parse section lines
                else parse section lines
      end
  end.

Definition name_of (s : string) : string := override s DefaultSection.

Definition value (f : list entry) (s k : string) : string :=
  first_of (omap (fun e => if bool_decide (e.1.1 = name_of s /\ e.1.2 = k) then Some e.2 else None) f).

Definition int_value (f : list entry) (s k : string) : result (option Z) :=
  if bool_decide (value f s k = "") then Ok None else z ← Atoi (value f s k); Ok (Some z).

Definition writing (a : AAD) : list entry :=
  [(DefaultSection, "tenant_id", TenantID a); (DefaultSection, "app_id", AppID a);
   (DefaultSection, "offline_credentials_expiration",
      match OfflineCredentialsExpiration a with Some z => pretty z | None => "" end);
   (DefaultSection, "homedir", HomeDirPattern a); (DefaultSection, "shell", Shell a)].

#[global, program] Instance lib : IniLib := {|
  ini_file := list entry;
  ini_load := fun content => Ok (parse DefaultSection (Split newline content));
  ini_sections := fun f => remove_dups (DefaultSection :: ((fun e => e.1.1) <$> f));
  ini_value := value;
  ini_int := int_value;
  StrictMapTo := fun f s a =>
    v ← int_value f s "offline_credentials_expiration"; Ok (set_values (value f s) v a);
  ini_reflect := fun a => Ok (writing a);
  ini_write := fun f => Ok (concat_str ((fun e => e.1.2 +:+ " = " +:+ e.2 +:+ str1 newline) <$> f));
|}.
Next Obligation. done. Qed.
End ConcreteIni.

Import Concrete ConcreteIni.

Definition lines (l : list string) : string := Join (str1 newline) l.

(** An aad.conf with a domain, next to an adduser.conf. *)
Definition etc (path : string) : result string :=
  if bool_decide (path = "/etc/aad.conf") then
    Ok (lines ["tenant_id = T"; "app_id = A"; "shell = /bin/sh"; "[domain.com]"; "app_id = B";
               "offline_credentials_expiration = 7"])
  else if bool_decide (path = adduserConfPath) then Ok (lines ["DHOME=/srv//home"; "DSHELL=/bin/zsh"])
  else Err (Opaque "no such file or directory").

Example Load_domain : Load etc "/etc/aad.conf" "domain.com" [] = Ok (MkAAD "T" "B" (Some 7) "/srv/home/%f" "/bin/sh").
Proof. reflexivity. Qed.
Example Load_other : Load etc "/etc/aad.conf" "" [] = Ok (MkAAD "T" "A" None "/srv/home/%f" "/bin/sh").
Proof. reflexivity. Qed.
Example Validate_etc : Validate etc "/etc/aad.conf" = Ok tt.
Proof. reflexivity. Qed.
Example Validate_missing : is_ok (Validate etc "/etc/adduser.conf") = false.
Proof. reflexivity. Qed.
