(* ===== verification/Aad.v ===== *)
(** * internal/aad: the online verification and its verdict

    Authenticate asks the identity provider through the MSAL package and turns
    its answer into one of three verdicts. The mock client of msal_mock.go is
    modelled next to it: it is what the integration tests run against. *)

From S2P Require Import Prelude GoStrings Interfaces CacheDB Config.
Open Scope string_scope.
Open Scope list_scope.
Open Scope Z_scope.

Definition endpoint : string := "https://login.microsoftonline.com".

Definition invalidCredCode : Z := 50126.
Definition requiresMFACode : Z := 50076.
Definition noSuchUserCode : Z := 50034.
Definition noConsentCode : Z := 65001.
Definition noClientSecretCode : Z := 7000218.

(** What AcquireTokenByUsernamePassword returns: a token, an error in whose
    chain there is an msal CallErr, with what reading the body of its response
    gives, or another error. *)
Inductive token_answer :=
  | TokenOk
  | TokenCallErr (body : result string)
  | TokenErr (e : gerror).

(** A publicClient: user name and password to the answer. *)
Definition publicClient : Type := string -> string -> token_answer.

(** The constructor of clients: client id and authority. *)
Definition client_maker : Type := string -> string -> result publicClient.

(** json.Unmarshal of a body into the list of [error_codes]; the bodies that
    the mock sends are read as the codes they write. *)
Class JsonCodes := {
  json_error_codes : string -> result (list Z);
}.

Section Aad.
Context `{JsonCodes}.

(** The loop over the codes: the first known one decides. *)
Fixpoint verdict_of_codes (codes : list Z) : option gerror :=
  match codes with
  | [] => Some (Sentinel ErrDeny)
  | errcode :: codes =>
      if errcode =? invalidCredCode then Some (Sentinel ErrDeny)
      else if errcode =? noSuchUserCode then Some (Sentinel ErrDeny)
      else if errcode =? requiresMFACode then None
      else if errcode =? noConsentCode then Some (Sentinel ErrDeny)
      else if errcode =? noClientSecretCode then Some (Sentinel ErrDeny)
      else verdict_of_codes codes
  end.

(** The tests on the error that comes with the token. *)
Definition verdict_of_answer (a : token_answer) : option gerror :=
  match a with
  | TokenCallErr body =>
      match body with
      | Ok data =>
          match json_error_codes data with
          | Ok codes => verdict_of_codes codes
          | _ => Some (Sentinel ErrDeny)
          end
      | _ => Some (Sentinel ErrDeny)
      end
  | TokenErr e => Some (Sentinel ErrNoNetwork)
  | TokenOk => None
  end.

(** [None] is a nil error. *)
Definition Authenticate (newPublicClient : client_maker) (cfg : AAD) (username password : string)
    : option gerror :=
  let authority := endpoint +:+ "/" +:+ TenantID cfg in
  match newPublicClient (AppID cfg) authority with
  | Ok app =>
      verdict_of_answer (app username password)
  | _ => Some (Sentinel ErrNoNetwork)
  end.

(** ** The mock client *)

Definition quote : string := str1 (ascii_of_nat 34).

Definition mock_body (codes : list Z) : string :=
  "{" +:+ quote +:+ "error_codes" +:+ quote +:+ ": [" +:+ Join ", " (pretty <$> codes) +:+ "]}".

Record publicClientMock := MkMock {
  forceOffline : bool;
  publicClientDisallowed : bool;
  noTenantWideConsent : bool;
}.

Definition call_err (codes : list Z) : token_answer := TokenCallErr (Ok (mock_body codes)).

(** The answer of the mock to a user that it knows. *)
Definition mock_users (username : string) : option token_answer :=
  if bool_decide (username = "success@domain.com" \/ username = "success@otherdomain.com") then Some TokenOk
  else if bool_decide (username = "requireMFA@domain.com") then Some (call_err [requiresMFACode])
  else if bool_decide (username = "unreadable server response") then
    Some (TokenCallErr (Err (Opaque "invalid READ")))
  else if bool_decide (username = "invalid server response") then Some (TokenCallErr (Ok "Not json"))
  else if bool_decide (username = "invalid credentials") then Some (call_err [invalidCredCode])
  else if bool_decide (username = "no such user") then Some (call_err [noSuchUserCode])
  else if bool_decide (username = "unknown error code") then Some (call_err [4242])
  else if bool_decide (username = "unknown error type") then Some (TokenErr (Opaque "not a msal error"))
  else if bool_decide (username = "multiple errors, first known is mfa") then
    Some (call_err [4242; requiresMFACode; 4243; invalidCredCode])
  else if bool_decide (username = "multiple errors, first known is invalid credential") then
    Some (call_err [4242; invalidCredCode; 4243; requiresMFACode])
  else None.

Definition AcquireTokenByUsernamePassword (m : publicClientMock) : publicClient := fun username _ =>
  if forceOffline m then TokenErr (Opaque "Offline")
  else if publicClientDisallowed m then call_err [noClientSecretCode]
  else if noTenantWideConsent m then call_err [noConsentCode]
  else default (call_err [noSuchUserCode]) (mock_users username).

Definition publicNewMockClient : client_maker := fun clientID _ =>
  if bool_decide (clientID = "connection failed") then Err (Opaque "connection failed")
  else Ok (AcquireTokenByUsernamePassword
         (MkMock (bool_decide (clientID = "force offline"))
                 (bool_decide (clientID = "public client disallowed"))
                 (bool_decide (clientID = "no tenant-wide consent")))).
End Aad.

(** ** The verdict *)

Definition known (code : Z) : Prop :=
  code = invalidCredCode \/ code = noSuchUserCode \/ code = requiresMFACode
  \/ code = noConsentCode \/ code = noClientSecretCode.

#[export] Instance known_dec code : Decision (known code).
Proof. unfold known. apply _. Defined.

(** The first code that means something. *)
Definition first_known (codes : list Z) (code : Z) : Prop :=
  exists before after, codes = before ++ code :: after /\ Forall (fun c => ~ known c) before /\ known code.

Lemma first_known_cons c codes code :
  first_known (c :: codes) code <-> (known c /\ code = c) \/ (~ known c /\ first_known codes code).
Proof.
  unfold first_known. split.
  - intros ([|b before] & after & E & Hb & Hk); simpl in E; injection E as -> ->; [by left|].
    inversion Hb; subst. right. split; [done|]. by exists before, after.
  - intros [[Hk ->]|(Hk & before & after & -> & Hb & Hc)]; [by exists [], codes|].
    exists (c :: before), after. split_and!; [done|by constructor|done].
Qed.

Lemma verdict_of_codes_mfa codes : verdict_of_codes codes = None <-> first_known codes requiresMFACode.
Proof.
  induction codes as [|c codes IH]; cbn [verdict_of_codes].
  - split; [done|]. by intros ([|] & ? & ? & _).
  - rewrite first_known_cons, <- IH.
    unfold known, invalidCredCode, noSuchUserCode, requiresMFACode, noConsentCode, noClientSecretCode.
    repeat match goal with
    | |- context [?a =? ?b] => destruct (Z.eqb_spec a b); [split; [done || (left; lia)|]; intros [[_ ?]|[? _]]; lia || done|]
    end.
    split; [intros ?; right; split; [lia|done]|]. intros [[? _]|[_ ?]]; [lia|done].
Qed.

Lemma verdict_of_codes_deny codes e : verdict_of_codes codes = Some e -> e = Sentinel ErrDeny.
Proof.
  induction codes as [|c codes IH]; cbn [verdict_of_codes]; [by intros [= <-]|].
  repeat (destruct (_ =? _); [by intros [= <-] || done|]). done.
Qed.

Section Properties.
Context `{JsonCodes}.

Lemma verdict_granted a : verdict_of_answer a = None <->
  a = TokenOk \/ exists data codes, a = TokenCallErr (Ok data) /\ json_error_codes data = Ok codes
    /\ first_known codes requiresMFACode.
Proof.
  setoid_rewrite <- verdict_of_codes_mfa. split.
  - destruct a as [|[data|e|why]|e]; simpl; try done; [by left|].
    destruct (json_error_codes data) as [codes|e|why] eqn:Ej; try done. intros Hv. right. by exists data, codes.
  - intros [->|(data & codes & -> & Ej & Hv)]; [done|]. simpl. by rewrite Ej.
Qed.

Lemma verdict_no_network a : verdict_of_answer a = Some (Sentinel ErrNoNetwork) <-> exists e, a = TokenErr e.
Proof.
  split; [|by intros [e ->]]. destruct a as [|[data|e|why]|e]; simpl; try done; [|by exists e].
  destruct (json_error_codes data) as [codes|e|why]; try done. by intros ?%verdict_of_codes_deny.
Qed.

Lemma verdict_total a e : verdict_of_answer a = Some e -> e = Sentinel ErrNoNetwork \/ e = Sentinel ErrDeny.
Proof.
  destruct a as [|[data|e0|why]|e0]; simpl; try done; try (by intros [= <-]; auto).
  destruct (json_error_codes data) as [codes|e0|why]; try (by intros [= <-]; auto).
  intros ->%verdict_of_codes_deny. by right.
Qed.

(** What the provider said to a request. *)
Definition answered (mk : client_maker) (cfg : AAD) (username password : string) (a : token_answer) : Prop :=
  exists app, mk (AppID cfg) (endpoint +:+ "/" +:+ TenantID cfg) = Ok app /\ app username password = a.

(** C18: the verdict is one of three. Access is granted exactly when a token
    is acquired or when the provider refuses one only because it wants a
    second factor: the first meaningful code of its answer is that one.
    Authentication falls back to the cache (no network) exactly when no
    client can be made or the request fails without an answer of the
    provider. In every other case access is denied. *)
Theorem Authenticate_verdict mk cfg username password :
  (Authenticate mk cfg username password = None <->
     answered mk cfg username password TokenOk \/
     exists data codes, answered mk cfg username password (TokenCallErr (Ok data))
       /\ json_error_codes data = Ok codes /\ first_known codes requiresMFACode) /\
  (Authenticate mk cfg username password = Some (Sentinel ErrNoNetwork) <->
     (forall app, mk (AppID cfg) (endpoint +:+ "/" +:+ TenantID cfg) <> Ok app) \/
     exists e, answered mk cfg username password (TokenErr e)) /\
  (forall e, Authenticate mk cfg username password = Some e ->
     e = Sentinel ErrNoNetwork \/ e = Sentinel ErrDeny).
Proof.
  unfold Authenticate, answered. destruct (mk _ _) as [app|e|why].
  2,3: split_and!; [split; [done|]; by intros [(? & [=] & _)|(? & ? & (? & [=] & _) & _)]
                   |split; [|done]; intros _; left; by intros ?|intros ? [= <-]; by left].
  split_and!.
  - rewrite verdict_granted. split.
    + intros [E|(data & codes & E & ?)]; [left; by exists app|right; exists data, codes; split; [by exists app|done]].
    + intros [(? & [= <-] & ?)|(data & codes & (? & [= <-] & ?) & ?)]; [by left|right; by exists data, codes].
  - rewrite verdict_no_network. split; [intros [e E]; right; by exists e, app|].
    intros [Hn|(e & ? & [= <-] & ?)]; [by destruct (Hn app)|by exists e].
  - apply verdict_total.
Qed.
End Properties.

(** ** Concrete runs *)

(** A decoder for the bodies that the mock sends: the digits between the
    brackets, cut at the commas. *)
Module ConcreteJson.
#[global] Instance decoder : JsonCodes := {|
  json_error_codes := fun body =>
    if HasPrefix body ("{" +:+ quote +:+ "error_codes" +:+ quote +:+ ": [") then
      let '(_, rest, _) := Cut "[" body in
      let '(inner, _, _) := Cut "]" rest in
      mapM (fun c => Atoi (TrimSpace c)) (Split "," inner)
    else Err (Opaque "invalid character looking for beginning of value")
|}.
End ConcreteJson.

Import ConcreteJson.

Definition mock_cfg (app : string) : AAD := MkAAD "tenant" app None "" "".
Definition mock_verdict (app username : string) : option gerror :=
  Authenticate publicNewMockClient (mock_cfg app) username "password".

Example mock_success : mock_verdict "app" "success@domain.com" = None.
Proof. reflexivity. Qed.
Example mock_mfa : mock_verdict "app" "requireMFA@domain.com" = None.
Proof. reflexivity. Qed.
Example mock_first_mfa : mock_verdict "app" "multiple errors, first known is mfa" = None.
Proof. reflexivity. Qed.
Example mock_first_invalid :
  mock_verdict "app" "multiple errors, first known is invalid credential" = Some (Sentinel ErrDeny).
Proof. reflexivity. Qed.
Example mock_unknown_code : mock_verdict "app" "unknown error code" = Some (Sentinel ErrDeny).
Proof. reflexivity. Qed.
Example mock_not_json : mock_verdict "app" "invalid server response" = Some (Sentinel ErrDeny).
Proof. reflexivity. Qed.
Example mock_unreadable : mock_verdict "app" "unreadable server response" = Some (Sentinel ErrDeny).
Proof. reflexivity. Qed.
Example mock_other_error : mock_verdict "app" "unknown error type" = Some (Sentinel ErrNoNetwork).
Proof. reflexivity. Qed.
Example mock_offline : mock_verdict "force offline" "success@domain.com" = Some (Sentinel ErrNoNetwork).
Proof. reflexivity. Qed.
Example mock_connection : mock_verdict "connection failed" "success@domain.com" = Some (Sentinel ErrNoNetwork).
Proof. reflexivity. Qed.
Example mock_consent : mock_verdict "no tenant-wide consent" "success@domain.com" = Some (Sentinel ErrDeny).
Proof. reflexivity. Qed.
