(* ===== verification/User.v ===== *)
(** * internal/user: normalized names and busy users

    NormalizeName, and the scan of /proc that tells whether a uid runs a
    process. The files of the system are parameters. *)

From S2P Require Import Prelude GoStrings Interfaces.
Open Scope string_scope.
Open Scope list_scope.
Open Scope Z_scope.

Definition NormalizeName `{UnicodeLower} (name : string) : string := ToLower name.

(** bufio.Scanner over the lines of a content: it gives up, without telling,
    on a line that does not fit in its buffer of 64 KiB. *)
Definition MaxScanTokenSize : Z := 65536.
Definition newline : ascii := ascii_of_nat 10.
Definition carriage_return : ascii := ascii_of_nat 13.

(** The last line is not followed by an empty one. *)
Fixpoint drop_last_empty (l : list string) : list string :=
  match l with
  | [] => []
  | [s] => if bool_decide (s = "") then [] else [s]
  | s :: l => s :: drop_last_empty l
  end.

Fixpoint dropCR (s : string) : string :=
  match s with
  | EmptyString => EmptyString
  | String a EmptyString => if bool_decide (a = carriage_return) then EmptyString else s
  | String a s' => String a (dropCR s')
  end.

Fixpoint take_fitting (l : list string) : list string :=
  match l with
  | [] => []
  | s :: l => if Z.of_nat (String.length s) <? MaxScanTokenSize then s :: take_fitting l else []
  end.

Definition scan_lines (content : string) : list string :=
  dropCR <$> take_fitting (drop_last_empty (Split newline content)).

(** A file that os.Open has opened: the bytes that its reads give, and the error
    that ends them when it is not the end of the file. *)
Record opened_file := OpenedFile { f_read : string; f_error : option gerror }.

(** A scanner on it: an error ends the lines as the end of the file does, and is
    only known to who asks scanner.Err. *)
Definition scan_file (f : opened_file) : list string * option gerror := (scan_lines (f_read f), f_error f).

Section User.
(* os.Stat on a path: the inode and the device; filepath.Glob; os.Open *)
Variable Stat : string -> result (Z * Z).
Variable Glob : string -> result (list string).
Variable Open : string -> result opened_file.

(** The uids of the lines of a status file: [strings.Fields(line)[1:]]. *)
Definition status_uids (file : opened_file) : list string :=
  line ← (scan_file file).1;
  if HasPrefix line "Uid:" then tail (Fields line) else [].

Definition checkProcessStatus (statusPath uid pid : string) : result unit :=
  file ← Open statusPath;
  if bool_decide (uid ∈ status_uids file)
  then Err (Opaque "UID %s is currently used by process %s") else Ok tt.

Fixpoint check_tasks (paths : list string) (uid pid : string) : result unit :=
  match paths with
  | [] => Ok tt
  | p :: paths => checkProcessStatus p uid pid ≫= fun _ => check_tasks paths uid pid
  end.

Definition pid_of (statusPath : string) : string := Base_path (Dir_path statusPath).

(** Whether the process sees the same root directory. *)
Definition same_root (procFs : string) (root : Z * Z) (pid : string) : bool :=
  match Stat (procFs +:+ "/" +:+ pid +:+ "/root") with
  | Ok r => bool_decide (r = root)
  | _ => false
  end.

Fixpoint check_processes (procFs uid : string) (root : Z * Z) (paths : list string) : result unit :=
  match paths with
  | [] => Ok tt
  | statusPath :: paths =>
      let pid := pid_of statusPath in
      if negb (same_root procFs root pid) then check_processes procFs uid root paths
      else
        checkProcessStatus statusPath uid pid ≫= fun _ =>
        tasks ← Glob (procFs +:+ "/" +:+ pid +:+ "/task/*/status");
        check_tasks tasks uid pid ≫= fun _ => check_processes procFs uid root paths
  end.

Definition IsBusy (procFs : string) (id : Z) : result unit :=
  let uid := (pretty (u64 id) : string) in
  root ← Stat "/";
  statusPaths ← Glob (procFs +:+ "/*/status");
  check_processes procFs uid root statusPaths.

(** ** What an answer without error means *)

(** A status file that could be opened and does not mention the uid, as far as
    it could be read. *)
Definition clear_of (uid path : string) : Prop :=
  exists file, Open path = Ok file /\ uid ∉ status_uids file.

Lemma checkProcessStatus_Ok path uid pid : checkProcessStatus path uid pid = Ok tt <-> clear_of uid path.
Proof.
  unfold checkProcessStatus, clear_of. rewrite res_bind_Ok. split; intros (file & Ho & Hc); exists file.
  - case_bool_decide; by simplify_eq.
  - by rewrite bool_decide_eq_false_2.
Qed.

Lemma check_tasks_Ok paths uid pid : check_tasks paths uid pid = Ok tt <-> Forall (clear_of uid) paths.
Proof.
  induction paths as [|p paths IH]; cbn [check_tasks]; [split; [constructor|done]|].
  rewrite Forall_cons, <- IH, res_bind_Ok. split.
  - intros ([] & Hp%checkProcessStatus_Ok & ?). done.
  - intros [Hp ?]. exists tt. by rewrite checkProcessStatus_Ok.
Qed.

(** The process of a status file, if it shares the root, has none of its
    tasks running as the uid. *)
Definition idle (procFs uid : string) (root : Z * Z) (statusPath : string) : Prop :=
  same_root procFs root (pid_of statusPath) = true ->
  clear_of uid statusPath /\
  exists tasks, Glob (procFs +:+ "/" +:+ pid_of statusPath +:+ "/task/*/status") = Ok tasks
    /\ Forall (clear_of uid) tasks.

Lemma check_processes_Ok procFs uid root paths :
  check_processes procFs uid root paths = Ok tt <-> Forall (idle procFs uid root) paths.
Proof.
  induction paths as [|p paths IH]; cbn [check_processes]; [split; [constructor|done]|].
  rewrite Forall_cons, <- IH. unfold idle. destruct (same_root procFs root (pid_of p)); simpl.
  - rewrite res_bind_Ok. split.
    + intros ([] & Hp%checkProcessStatus_Ok & (tasks & Hg & ([] & Ht%check_tasks_Ok & Hr)%res_bind_Ok)%res_bind_Ok).
      eauto.
    + intros [Hi Hr]. destruct (Hi eq_refl) as (Hp & tasks & Hg & Ht). exists tt.
      rewrite checkProcessStatus_Ok. split; [done|]. apply res_bind_Ok. exists tasks. split; [done|].
      apply res_bind_Ok. exists tt. by rewrite check_tasks_Ok.
  - split; [by intros ?|]. by intros [_ ?].
Qed.

(** C34: IsBusy returns no error exactly when /proc can be listed and every
    process that shares the root directory is idle for that uid: the status
    of the process and those of all its tasks could be opened, and none of
    their Uid lines (real, effective, saved or file system) mentions it. In
    particular a status that cannot be opened, such as that of a process that
    has just ended, is never taken for an idle process. A read that fails after
    that counts as the end of the file: the lines that it hides are not seen. *)
Theorem IsBusy_Ok_iff procFs id :
  IsBusy procFs id = Ok tt <->
  exists root paths, Stat "/" = Ok root /\ Glob (procFs +:+ "/*/status") = Ok paths
    /\ Forall (idle procFs (pretty (u64 id)) root) paths.
Proof.
  unfold IsBusy. rewrite res_bind_Ok. setoid_rewrite res_bind_Ok. setoid_rewrite check_processes_Ok.
  split; [intros (root & Hr & paths & ?)|intros (root & paths & Hr & ?)]; eauto.
Qed.
End User.

(** ** Concrete runs *)

Definition lines_of (l : list string) : string := Join (str1 newline) l.

(** A process of uid 1000, and one of another root. *)
Definition whole (content : string) : opened_file := OpenedFile content None.

Definition proc_open (path : string) : result opened_file :=
  if bool_decide (path = "/proc/42/status" \/ path = "/proc/42/task/42/status") then
    Ok (whole (lines_of ["Name: bash"; "Uid:	1000	1000	1000	1000"; "Gid: 7"; ""]))
  else if bool_decide (path = "/proc/43/status") then Ok (whole (lines_of ["Uid:	1001	1001	1001	1001"]))
  else Err (Opaque "no such file").

Definition proc_glob (pattern : string) : result (list string) :=
  if bool_decide (pattern = "/proc/*/status") then Ok ["/proc/42/status"; "/proc/43/status"]
  else if bool_decide (pattern = "/proc/42/task/*/status") then Ok ["/proc/42/task/42/status"]
  else Ok [].

Definition proc_stat (path : string) : result (Z * Z) :=
  if bool_decide (path = "/proc/43/root") then Ok (9, 9) else Ok (2, 1).

Example busy_1000 : is_ok (IsBusy proc_stat proc_glob proc_open "/proc" 1000) = false.
Proof. reflexivity. Qed.
(* the process of uid 1001 has another root *)
Example busy_1001 : IsBusy proc_stat proc_glob proc_open "/proc" 1001 = Ok tt.
Proof. reflexivity. Qed.
Example busy_100 : IsBusy proc_stat proc_glob proc_open "/proc" 100 = Ok tt.
Proof. reflexivity. Qed.

(** The process ends after its status was opened: the read fails before the Uid
    line, and the user counts as idle. *)
Definition ended_open (path : string) : result opened_file :=
  file ← proc_open path; Ok (OpenedFile "Name: bash" (Some (Opaque "read: no such process"))).
Example busy_ended : IsBusy proc_stat proc_glob ended_open "/proc" 1000 = Ok tt.
Proof. reflexivity. Qed.
