(* ===== verification/Pam.v ===== *)
(** * internal/pam and pam: the PAM module

    Authenticate of internal/pam joins the configuration, the verdict of the
    identity provider and the cache; pam_sm_authenticate of pam/pam_c.go reads
    the arguments of the module and maps the outcome to a PAM code. *)

From S2P Require Import Prelude GoStrings Interfaces Tables CacheDB CacheFacts HomeDir UidGen CacheAuth.
From S2P Require Import CacheIter CacheOpen CacheLife Clients Config Aad User.
Open Scope string_scope.
Open Scope list_scope.
Open Scope Z_scope.

(** The state of the process, and the messages shown to the user. *)
Record pam_state := PamState { p_sys : sys; p_messages : list string }.

Definition on_sys {A} (m : M sys A) : M pam_state A :=
  zoom p_sys (fun s p => PamState s (p_messages p)) m.

Definition Info (msg : string) : M pam_state unit := fun p =>
  (Ok tt, PamState (p_sys p) (p_messages p ++ [msg])).

Definition msg_expired : string :=
  "Machine is offline and cached credentials expired. Please try again when the machine is online.".
Definition msg_disabled : string :=
  "Machine is offline and offline authentication is disabled. Please try again when the machine is online.".

(** type Authenticator; [None] is a nil error *)
Definition Authenticator : Type := AAD -> string -> string -> option gerror.

(** type option *)
Record pam_option := MkPamOption { auth : Authenticator; cacheOpts : list CacheOpen.Option }.
Definition PamOption : Type := pam_option -> pam_option.

Definition WithAuthenticator (a : Authenticator) : PamOption := fun o => MkPamOption a (cacheOpts o).
Definition WithCacheOptions (opts : list CacheOpen.Option) : PamOption :=
  fun o => MkPamOption (auth o) (cacheOpts o ++ opts).

(** [errors.Is] on an error that may be nil. *)
Definition is_err (e : option gerror) (t : sentinel) : bool :=
  match e with Some e => errors_is e t | None => false end.

Section Pam.
Context `{Decorator} `{Bcrypt} `{RowOrder} `{IniLib} `{JsonCodes} `{UnicodeLower}.
Variables euid egid : Z.
Variable groups : list Z.
Variable LookupGroup : string -> result string.
Variable passwd_first : nat -> bool.
Variable ReadFile : string -> result string.
(* publicNewRealClient *)
Variable publicNewRealClient : client_maker.

Abbreviation New := (New euid egid groups LookupGroup passwd_first).

Definition default_option : pam_option := MkPamOption (Aad.Authenticate publicNewRealClient) [].

Definition pam_options (cfg : AAD) (opts : list PamOption) : pam_option :=
  let o := match OfflineCredentialsExpiration cfg with
           | Some days => WithCacheOptions [WithOfflineCredentialsExpiration days] default_option
           | None => default_option
           end in
  fold_left (fun o opt => opt o) opts o.

(** The offline branch: the answer of the cache, and what the user is told. *)
Definition check_offline (h : nat) (username password : string) : M pam_state unit :=
  r ← attempt (on_sys (on_handle h (method (fun c => CanAuthenticate c username password))));
  match r with
  | inl _ => mret tt
  | inr err =>
      (if errors_is err ErrOfflineCredentialsExpired then Info msg_expired else mret tt) ;;
      (if errors_is err ErrOfflineAuthDisabled then Info msg_disabled else mret tt) ;;
      fail (Sentinel ErrPamAuth)
  end.

(** The online branch: the verified password is recorded. *)
Definition record_online (h : nat) (cfg : AAD) (username password : string) : M pam_state unit :=
  map_err (fun _ => Sentinel ErrPamAuth)
    (on_sys (on_handle h (method (fun c => Update c username password (HomeDirPattern cfg) (Shell cfg))))).

Definition close_handle (h : nat) (p : pam_state) : pam_state :=
  PamState (Close h (p_sys p)).2 (p_messages p).

(** From the verdict on. *)
Definition with_verdict (errAAD : option gerror) (o : pam_option) (cfg : AAD) (username password : string)
    : M pam_state unit :=
  if is_err errAAD ErrDeny then fail (Sentinel ErrPamAuth)
  else if bool_decide (errAAD <> None) && negb (is_err errAAD ErrNoNetwork) then fail (Sentinel ErrPamAuth)
  else
    h ← map_err (fun _ => Sentinel ErrPamSystem) (on_sys (New (cacheOpts o)));
    defer (close_handle h)
      (if is_err errAAD ErrNoNetwork then check_offline h username password
       else record_online h cfg username password).

Definition domain_of (username : string) : string := (Cut "@" username).1.2.

Definition Authenticate (username password conf : string) (opts : list PamOption) : M pam_state unit :=
  let username := NormalizeName username in
  match Load ReadFile conf (domain_of username) [] with
  | Err e => fail (Sentinel ErrPamSystem)
  | Panic why => lift (Panic why)
  | Ok cfg =>
      let o := pam_options cfg opts in
      with_verdict (auth o cfg username password) o cfg username password
  end.

(** ** The module *)

Definition PAM_SUCCESS : Z := 0.
Definition PAM_SYSTEM_ERR : Z := 4.
Definition PAM_AUTH_ERR : Z := 7.
Definition PAM_IGNORE : Z := 25.

(** The values that the arguments set, and the global list of options. *)
Record arguments := Arguments_ { conf_path : string; debug : bool; sm_opts : list PamOption }.

(** supportedOption: whether the name is known, and the options after it. *)
Variable supportedOption : list PamOption -> string -> string -> bool * list PamOption.

Definition read_arg (a : arguments) (arg : string) : arguments :=
  let '(opt, optarg, _) := Cut "=" arg in
  if bool_decide (opt = "conf") then Arguments_ optarg (debug a) (sm_opts a)
  else if bool_decide (opt = "debug") then Arguments_ (conf_path a) true (sm_opts a)
  else Arguments_ (conf_path a) (debug a) (supportedOption (sm_opts a) opt optarg).2.

Definition DefaultConfigPath : string := "/etc/aad.conf".

Definition read_args (opts : list PamOption) (args : list string) : arguments :=
  fold_left read_arg args (Arguments_ DefaultConfigPath false opts).

(** The code of an outcome. *)
Definition pam_code (err : option gerror) : Z :=
  if is_err err ErrPamSystem then PAM_SYSTEM_ERR
  else if is_err err ErrPamAuth then PAM_AUTH_ERR
  else if is_err err ErrPamIgnore then PAM_IGNORE
  else PAM_SUCCESS.

(** [getUser] and [getPassword] are what PAM holds for the transaction. *)
Definition pam_sm_authenticate (getUser getPassword : result string) (opts : list PamOption)
    (args : list string) (p : pam_state) : result Z * pam_state :=
  let a := read_args opts args in
  match getUser with
  | Ok username =>
      match getPassword with
      | Ok password =>
          match Authenticate username password (conf_path a) (sm_opts a) p with
          | (Ok _, p') => (Ok (pam_code None), p')
          | (Err e, p') => (Ok (pam_code (Some e)), p')
          | (Panic why, p') => (Panic why, p')
          end
      | Err _ => (Ok PAM_SYSTEM_ERR, p)
      | Panic why => (Panic why, p)
      end
  | Err _ => (Ok PAM_SYSTEM_ERR, p)
  | Panic why => (Panic why, p)
  end.

Definition pam_sm_setcred : Z := PAM_IGNORE.
Definition pam_sm_open_session : Z := PAM_SUCCESS.
Definition pam_sm_close_session : Z := PAM_SUCCESS.
End Pam.

(** supportedOption of a production build (pam_nomock.go) *)
Definition supportedOption_nomock (opts : list PamOption) (opt arg : string) : bool * list PamOption :=
  (false, opts).

(** supportedOption of an integration test build (pam_testmock.go) *)
Definition supportedOption_testmock `{JsonCodes} (opts : list PamOption) (opt arg : string)
    : bool * list PamOption :=
  let int_option (f : Z -> CacheOpen.Option) :=
    match Atoi arg with
    | Ok v => (true, opts ++ [WithCacheOptions [f v]])
    | _ => (false, opts)
    end in
  if bool_decide (opt = "reset") then (true, [])
  else if bool_decide (opt = "rootUID") then int_option WithRootUID
  else if bool_decide (opt = "rootGID") then int_option WithRootGID
  else if bool_decide (opt = "shadowGID") then int_option WithShadowGID
  else if bool_decide (opt = "cachedir") then (true, opts ++ [WithCacheOptions [WithCacheDir arg]])
  else if bool_decide (opt = "mockaad") then
    (true, opts ++ [WithAuthenticator (Aad.Authenticate publicNewMockClient)])
  else (false, opts).

Section Properties.
Context `{Decorator} `{Bcrypt} `{RowOrder} `{IniLib} `{JsonCodes} `{UnicodeLower}.
Variables euid egid : Z.
Variable groups : list Z.
Variable LookupGroup : string -> result string.
Variable passwd_first : nat -> bool.
Variable ReadFile : string -> result string.
Variable publicNewRealClient : client_maker.

Abbreviation New := (New euid egid groups LookupGroup passwd_first).
Abbreviation life_step := (life_step euid egid groups LookupGroup passwd_first).
Abbreviation Authenticate := (Authenticate euid egid groups LookupGroup passwd_first ReadFile publicNewRealClient).
Abbreviation with_verdict := (with_verdict euid egid groups LookupGroup passwd_first).
Abbreviation pam_options := (pam_options publicNewRealClient).

(** A computation of the process seen through the state of the module. *)
Lemma on_sys_run {A} (m : M sys A) p : on_sys m p = ((m (p_sys p)).1, PamState (m (p_sys p)).2 (p_messages p)).
Proof. unfold on_sys, zoom. by destruct (m (p_sys p)). Qed.

Definition CanAuthenticate_op (username password : string) : M (Cache * world) unit :=
  method (fun c => CanAuthenticate c username password).
Definition Update_op (cfg : AAD) (username password : string) : M (Cache * world) unit :=
  method (fun c => Update c username password (HomeDirPattern cfg) (Shell cfg)).

(** The two branches succeed as their operation does, and only fail with
    ErrPamAuth. *)
Lemma check_offline_spec h username password p r p' :
  check_offline h username password p = (r, p') ->
  p_sys p' = (on_handle h (CanAuthenticate_op username password) (p_sys p)).2 /\
  (r = Ok tt <-> (on_handle h (CanAuthenticate_op username password) (p_sys p)).1 = Ok tt) /\
  (forall e, r = Err e -> e = Sentinel ErrPamAuth).
Proof.
  unfold check_offline, mbind at 1, M_bind at 1, attempt. rewrite on_sys_run.
  fold (CanAuthenticate_op username password).
  destruct (on_handle h _ (p_sys p)) as [[[]|e|why] s1]; simpl.
  - intros [= <- <-]. done.
  - unfold mbind, M_bind, fail, Info, mret, M_ret.
    destruct (errors_is e ErrOfflineCredentialsExpired), (errors_is e ErrOfflineAuthDisabled);
      intros [= <- <-]; (split_and!; [done|done|by intros ? [= <-]]).
  - intros [= <- <-]. split_and!; [done..|]. done.
Qed.

Lemma record_online_spec h cfg username password p r p' :
  record_online h cfg username password p = (r, p') ->
  p_sys p' = (on_handle h (Update_op cfg username password) (p_sys p)).2 /\
  (r = Ok tt <-> (on_handle h (Update_op cfg username password) (p_sys p)).1 = Ok tt) /\
  (forall e, r = Err e -> e = Sentinel ErrPamAuth).
Proof.
  unfold record_online, map_err. rewrite on_sys_run. fold (Update_op cfg username password).
  destruct (on_handle h _ (p_sys p)) as [[[]|e|why] s1]; simpl; intros [= <- <-]; split_and!; try done.
  by intros ? [= <-].
Qed.

(** What the verdict and the cache decide together. *)
Definition accepted_by (errAAD : option gerror) (o : pam_option) (cfg : AAD) (username password : string)
    (s s' : sys) : Prop :=
  exists h s1 s2, New (cacheOpts o) s = (Ok h, s1) /\ s' = (Close h s2).2 /\
    ((errAAD = None /\ on_handle h (Update_op cfg username password) s1 = (Ok tt, s2)) \/
     (is_err errAAD ErrNoNetwork = true /\ on_handle h (CanAuthenticate_op username password) s1 = (Ok tt, s2))).

Lemma with_verdict_Ok errAAD o cfg username password p p' :
  with_verdict errAAD o cfg username password p = (Ok tt, p') ->
  accepted_by errAAD o cfg username password (p_sys p) (p_sys p').
Proof.
  unfold Pam.with_verdict, accepted_by. destruct (is_err errAAD ErrDeny); [done|].
  destruct (is_err errAAD ErrNoNetwork) eqn:En.
  - rewrite andb_false_r. intros (h & p1 & Hnew & Hrun)%bind_Ok.
    apply map_err_Ok in Hnew. rewrite on_sys_run in Hnew.
    destruct (New _ (p_sys p)) as [r1 s1]. simpl in Hnew. injection Hnew as -> <-.
    unfold defer in Hrun. destruct (check_offline _ _ _ _) as [r2 p2] eqn:E2. injection Hrun as -> <-.
    apply check_offline_spec in E2 as (Es & Hr & _). apply proj1 in Hr. specialize (Hr eq_refl). simpl in *.
    exists h, s1, (p_sys p2). split_and!; [done..|]. right. split; [done|]. rewrite Es.
    destruct (on_handle _ _ s1); simpl in *; by subst.
  - case_bool_decide as Hn; [done|]. simpl.
    assert (errAAD = None) as -> by (destruct errAAD; [by destruct Hn|done]).
    intros (h & p1 & Hnew & Hrun)%bind_Ok.
    apply map_err_Ok in Hnew. rewrite on_sys_run in Hnew.
    destruct (New _ (p_sys p)) as [r1 s1]. simpl in Hnew. injection Hnew as -> <-.
    unfold defer in Hrun. destruct (record_online _ _ _ _ _) as [r2 p2] eqn:E2. injection Hrun as -> <-.
    apply record_online_spec in E2 as (Es & Hr & _). apply proj1 in Hr. specialize (Hr eq_refl). simpl in *.
    exists h, s1, (p_sys p2). split_and!; [done..|]. left. split; [done|]. rewrite Es.
    destruct (on_handle _ _ s1); simpl in *; by subst.
Qed.

Lemma with_verdict_Err errAAD o cfg username password p e p' :
  with_verdict errAAD o cfg username password p = (Err e, p') ->
  e = Sentinel ErrPamAuth \/ (e = Sentinel ErrPamSystem /\ exists e0 s1, New (cacheOpts o) (p_sys p) = (Err e0, s1)).
Proof.
  unfold Pam.with_verdict. destruct (is_err errAAD ErrDeny); [by intros [= <- _]; left|].
  destruct (_ && _); [by intros [= <- _]; left|].
  unfold mbind, M_bind, map_err. rewrite on_sys_run.
  destruct (New _ (p_sys p)) as [[h|e1|why] s1]; simpl; [|intros [= <- _]; right; split; [done|by exists e1, s1]|done].
  unfold defer. destruct (is_err errAAD ErrNoNetwork).
  - destruct (check_offline _ _ _ _) as [r2 p2] eqn:E2. apply check_offline_spec in E2 as (_ & _ & He).
    intros [= -> _]. left. by apply He.
  - destruct (record_online _ _ _ _ _) as [r2 p2] eqn:E2. apply record_online_spec in E2 as (_ & _ & He).
    intros [= -> _]. left. by apply He.
Qed.

(** The lookup of the configuration, with the normalized name. *)
Definition session_config (username conf : string) : result AAD :=
  Load ReadFile conf (domain_of (NormalizeName username)) [].

(** C3: a PAM login succeeds only with a valid configuration for the domain
    of the normalized name, an open cache, and either a verified online
    login that was recorded in the cache, or no network and the acceptance
    of the cache; the cache is closed again. *)
Theorem Authenticate_accepts username password conf opts p p' :
  Authenticate username password conf opts p = (Ok tt, p') ->
  exists cfg, session_config username conf = Ok cfg /\
    let o := pam_options cfg opts in
    accepted_by (auth o cfg (NormalizeName username) password) o cfg (NormalizeName username) password
      (p_sys p) (p_sys p').
Proof.
  unfold Pam.Authenticate, session_config. destruct (Load _ _ _ _) as [cfg|e|why]; [|done..].
  intros Hw. exists cfg. split; [done|]. by apply with_verdict_Ok.
Qed.

Lemma Authenticate_Err username password conf opts p e p' :
  Authenticate username password conf opts p = (Err e, p') ->
  e = Sentinel ErrPamAuth \/ e = Sentinel ErrPamSystem.
Proof.
  unfold Pam.Authenticate. destruct (Load _ _ _ _) as [cfg|e0|why]; [|by intros [= <- _]; right|done].
  intros [?|[? _]]%with_verdict_Err; auto.
Qed.

(** A refused verdict closes the door before the cache is opened: when
    the provider denies, or answers with an error that is not the absence of
    a network, the login fails with ErrPamAuth and nothing changes. *)
Theorem Authenticate_denied username password conf opts p cfg e :
  session_config username conf = Ok cfg ->
  auth (pam_options cfg opts) cfg (NormalizeName username) password = Some e ->
  errors_is e ErrNoNetwork = false ->
  Authenticate username password conf opts p = (Err (Sentinel ErrPamAuth), p).
Proof.
  unfold session_config, Pam.Authenticate. intros -> Ha He. unfold Pam.with_verdict, is_err. rewrite Ha, He.
  destruct (errors_is e ErrDeny); [done|]. by rewrite bool_decide_eq_true_2.
Qed.

(** C2: the module fails closed: it answers PAM_SUCCESS exactly when user and
    password could be read and Authenticate returned no error, although its
    mapping would let an unknown error through. *)
Theorem pam_success_iff supportedOption getUser getPassword opts args p p' :
  pam_sm_authenticate euid egid groups LookupGroup passwd_first ReadFile publicNewRealClient supportedOption
    getUser getPassword opts args p = (Ok PAM_SUCCESS, p') <->
  exists username password, getUser = Ok username /\ getPassword = Ok password /\
    let a := read_args supportedOption opts args in
    Authenticate username password (conf_path a) (sm_opts a) p = (Ok tt, p').
Proof.
  unfold pam_sm_authenticate.
  destruct getUser as [username|e|why]; [|split; [done|]; by intros (? & ? & [=] & _)..].
  destruct getPassword as [password|e|why]; [|split; [done|]; by intros (? & ? & _ & [=] & _)..].
  destruct (Authenticate _ _ _ _ _) as [[[]|e|why] p1] eqn:E; simpl.
  - split; [intros [= <-]; by exists username, password|].
    intros (? & ? & [= <-] & [= <-] & Hc). rewrite E in Hc. by injection Hc as <-.
  - apply Authenticate_Err in E as Hc. split.
    + by destruct Hc as [-> | ->].
    + intros (? & ? & [= <-] & [= <-] & Hc2). by rewrite E in Hc2.
  - split; [done|]. intros (? & ? & [= <-] & [= <-] & Hc). by rewrite E in Hc.
Qed.

(** ** Authenticate as a client of the cache *)

Lemma with_verdict_life errAAD o cfg username password held p :
  life_ok held (p_sys p) ->
  rtc life_step (held, p_sys p) (held, p_sys (with_verdict errAAD o cfg username password p).2).
Proof.
  intros L. unfold Pam.with_verdict. destruct (is_err errAAD ErrDeny); [apply rtc_refl|].
  destruct (_ && _); [apply rtc_refl|].
  set (op := if is_err errAAD ErrNoNetwork then CanAuthenticate_op username password
             else Update_op cfg username password).
  pose proof (with_cache_life euid egid groups LookupGroup passwd_first id (cacheOpts o)
    (fun h => on_handle h op) held (p_sys p)) as Hlife.
  assert (p_sys ((h ← map_err (fun _ => Sentinel ErrPamSystem) (on_sys (New (cacheOpts o)));
     defer (close_handle h)
      (if is_err errAAD ErrNoNetwork then check_offline h username password
       else record_online h cfg username password)) p).2
    = (with_cache euid egid groups LookupGroup passwd_first id (cacheOpts o) (fun h => on_handle h op) (p_sys p)).2)
    as ->.
  { unfold with_cache, with_close, mbind, M_bind, map_err, defer. rewrite on_sys_run.
    destruct (New _ (p_sys p)) as [[h|e1|why] s1]; simpl; [|done..].
    unfold op. destruct (is_err errAAD ErrNoNetwork).
    - destruct (check_offline _ _ _ _) as [r2 p2] eqn:E2. apply check_offline_spec in E2 as (Es & _ & _). simpl. rewrite Es. simpl.
      by destruct (on_handle _ _ s1).
    - destruct (record_online _ _ _ _ _) as [r2 p2] eqn:E2. apply record_online_spec in E2 as (Es & _ & _). simpl. rewrite Es. simpl.
      by destruct (on_handle _ _ s1). }
  apply Hlife; [|done]. intros h. apply uses_on_handle. unfold op.
  destruct (is_err _ _); apply method_use.
Qed.

(** C23: a login gives back the handle that it took, on every path: seen from
    the registry of opened caches it is a sequence of New, operations and
    Close that ends with what was held before. *)
Theorem Authenticate_life username password conf opts held p :
  life_ok held (p_sys p) ->
  rtc life_step (held, p_sys p) (held, p_sys (Authenticate username password conf opts p).2).
Proof.
  intros L. unfold Pam.Authenticate. destruct (Load _ _ _ _) as [cfg|e|why]; [|apply rtc_refl..].
  by apply with_verdict_life.
Qed.

(** ** What the user is told *)

(** The notice of an offline refusal: nothing for a wrong password, an unknown
    user or a database that cannot be read. *)
Definition offline_notice (c : Cache) (n : string) (w : world) : list string :=
  if shadowMode c <? shadowROMode then []
  else if offlineCredentialsExpiration c <? 0 then [msg_disabled]
  else match (GetUserByName c n w).1 with
       | Ok u => if (0 <? offlineCredentialsExpiration c)
                    && (LastOnlineAuth u + days_to_duration (offlineCredentialsExpiration c) <? w_now w)
                 then [msg_expired] else []
       | _ => []
       end.

Lemma offline_notice_cases c n pw w :
  offline_notice c n w = match (CanAuthenticate c n pw w).1 with
    | Err e => (if errors_is e ErrOfflineCredentialsExpired then [msg_expired] else [])
               ++ (if errors_is e ErrOfflineAuthDisabled then [msg_disabled] else [])
    | _ => []
    end.
Proof.
  unfold offline_notice, CanAuthenticate, on_error, map_err.
  destruct (_ <? shadowROMode); [simpl; by rewrite !OnError_is|].
  destruct (_ <? 0); [simpl; by rewrite !OnError_is|].
  unfold mbind, M_bind, get. pose proof (GetUserByName_ro c n w) as (_ & En & _).
  destruct (GetUserByName c n w) as [[u|e|why] w1] eqn:Eu; simpl in *; [|rewrite !OnError_is|done].
  - rewrite En. destruct (_ && _); [simpl; by rewrite !OnError_is|].
    destruct (bcrypt_compare (ShadowPasswd u) pw) eqn:Eb; [|done]. simpl. rewrite !OnError_is. simpl.
    by rewrite !(bcrypt_compare_fresh _ _ _ _ Eb).
  - by rewrite !(GetUserByName_errors c n w e w1).
Qed.

(** What a session tells: the notice of the cache that it opened, when the
    provider could not be reached. *)
Definition session_notice (errAAD : option gerror) (o : pam_option) (n : string) (s : sys) : list string :=
  if is_err errAAD ErrNoNetwork then
    match New (cacheOpts o) s with
    | (Ok h, s1) =>
        match s_handles s1 !! h with
        | Some (Handle c true) => offline_notice c n (world_of (o_cacheDir (sig c)) s1)
        | _ => []
        end
    | _ => []
    end
  else [].

Lemma check_offline_tells h n pw p : p_messages (check_offline h n pw p).2 = p_messages p ++
  match s_handles (p_sys p) !! h with
  | Some (Handle c true) => offline_notice c n (world_of (o_cacheDir (sig c)) (p_sys p))
  | _ => []
  end.
Proof.
  unfold check_offline, mbind at 1, M_bind at 1, attempt. rewrite on_sys_run.
  destruct (handle_cases h (p_sys p)) as [[c Hh]|Hn].
  - rewrite Hh, (offline_notice_cases c n pw).
    destruct (CanAuthenticate c n pw (world_of (o_cacheDir (sig c)) (p_sys p))) as [r w] eqn:E.
    rewrite (on_handle_method h (fun c => CanAuthenticate c n pw) c _ _ _ Hh E).
    destruct r as [[]|e|why]; simpl; rewrite ?app_nil_r; [done| |done].
    unfold mbind, M_bind, fail, Info, mret, M_ret.
    destruct (errors_is e ErrOfflineCredentialsExpired), (errors_is e ErrOfflineAuthDisabled); simpl;
      by rewrite ?app_nil_r, <- ?app_assoc.
  - assert (match s_handles (p_sys p) !! h with Some (Handle c true) =>
      offline_notice c n (world_of (o_cacheDir (sig c)) (p_sys p)) | _ => [] end = []) as ->.
    { specialize (Hn). destruct (s_handles (p_sys p) !! h) as [[c []]|]; [by destruct (Hn c)|done..]. }
    rewrite app_nil_r. unfold on_handle.
    destruct (s_handles (p_sys p) !! h) as [[c []]|] eqn:Eh; [by destruct (Hn c)|done..].
Qed.

(** C19: a session tells the user at most one thing, exactly when the provider
    could not be reached: that offline authentication is disabled, when the
    opened cache can be read and its setting is negative, or that the cached
    credentials have expired, when the user is in the cache and the last online
    login is too old for the setting. An online session, a wrong password, an
    unknown user and a failure of the system are silent. *)
Theorem Authenticate_tells username password conf opts p cfg :
  session_config username conf = Ok cfg ->
  p_messages (Authenticate username password conf opts p).2 = p_messages p ++
    session_notice (auth (pam_options cfg opts) cfg (NormalizeName username) password) (pam_options cfg opts)
      (NormalizeName username) (p_sys p).
Proof.
  unfold session_config, Pam.Authenticate. intros ->. unfold Pam.with_verdict, session_notice.
  set (o := pam_options cfg opts). set (n := NormalizeName username). destruct (auth o cfg n password) as [e|] eqn:Ea.
  - simpl. destruct (errors_is e ErrDeny) eqn:Ed.
    { assert (errors_is e ErrNoNetwork = false) as ->; [|by rewrite app_nil_r].
      apply not_true_is_false. intros Hn. by pose proof (errors_is_functional _ _ _ Ed Hn). }
    destruct (errors_is e ErrNoNetwork) eqn:En; [|simpl; by rewrite app_nil_r].
    simpl. unfold mbind, M_bind, map_err. rewrite on_sys_run.
    destruct (New (cacheOpts o) (p_sys p)) as [[h|e1|why] s1]; simpl; rewrite ?app_nil_r; [|done..].
    unfold defer. pose proof (check_offline_tells h n password (PamState s1 (p_messages p))) as Ht.
    destruct (check_offline _ _ _ _) as [r p2]. exact Ht.
  - simpl. rewrite app_nil_r. unfold mbind, M_bind, map_err. rewrite on_sys_run.
    destruct (New (cacheOpts o) (p_sys p)) as [[h|e1|why] s1]; simpl; [|done..].
    unfold defer, record_online, map_err. rewrite on_sys_run. simpl.
    by destruct (on_handle _ _ s1) as [[] ?].
Qed.
End Properties.

(** ** Concrete runs

    A machine where the module runs as root, with the mock of the identity
    provider, and a configuration that simulates the absence of a network. *)

Import Concrete ConcreteIni ConcreteJson.

Definition machine_files (path : string) : result string :=
  if bool_decide (path = "/etc/offline.conf") then Ok (lines ["tenant_id = T"; "app_id = force offline"])
  else etc path.

Definition login (username password conf : string) (p : pam_state) : result unit * pam_state :=
  Authenticate 0 0 root_groups shadow_group in_order machine_files publicNewMockClient username password conf [] p.

Definition machine : pam_state := PamState (fresh_sys []) [].

Definition after_online : pam_state := (login "Success@Domain.com" "secret" "/etc/aad.conf" machine).2.

Lemma online_login : login "Success@Domain.com" "secret" "/etc/aad.conf" machine = (Ok tt, after_online).
Proof.
  assert ((login "Success@Domain.com" "secret" "/etc/aad.conf" machine).1 = Ok tt) as E by (vm_compute; reflexivity).
  unfold after_online. destruct (login _ _ _ machine) as [r p']. simpl in E. by subst.
Qed.

Example offline_login : (login "success@domain.com" "secret" "/etc/offline.conf" after_online).1 = Ok tt.
Proof. vm_compute. reflexivity. Qed.
Example offline_wrong_password :
  (login "success@domain.com" "guess" "/etc/offline.conf" after_online).1 = Err (Sentinel ErrPamAuth).
Proof. vm_compute. reflexivity. Qed.
Example offline_first : (login "success@domain.com" "secret" "/etc/offline.conf" machine).1 = Err (Sentinel ErrPamAuth).
Proof. vm_compute. reflexivity. Qed.

(** A hundred days later the cached credentials have expired, and the user is
    told. *)
Definition days_later (n : Z) (p : pam_state) : pam_state :=
  PamState (Sys (s_dirs (p_sys p)) [] (s_now (p_sys p) + n * 24 * Hour) 0 (s_opened (p_sys p))
              (s_handles (p_sys p)) (s_timers (p_sys p))) (p_messages p).
Example offline_expired :
  p_messages (login "success@domain.com" "secret" "/etc/offline.conf" (days_later 100 after_online)).2 = [msg_expired].
Proof. vm_compute. reflexivity. Qed.

Lemma Authenticate_accepts_witness : exists cfg s',
  session_config machine_files "Success@Domain.com" "/etc/aad.conf" = Ok cfg /\
  s' = p_sys after_online /\
  accepted_by 0 0 root_groups shadow_group in_order
    (auth (pam_options publicNewMockClient cfg []) cfg (NormalizeName "Success@Domain.com") "secret")
    (pam_options publicNewMockClient cfg []) cfg (NormalizeName "Success@Domain.com") "secret" (fresh_sys []) s'.
Proof.
  destruct (Authenticate_accepts 0 0 root_groups shadow_group in_order machine_files publicNewMockClient
    "Success@Domain.com" "secret" "/etc/aad.conf" [] machine after_online online_login) as (cfg & Hc & Ha).
  exists cfg, (p_sys after_online). split; [exact Hc|]. split; [reflexivity|exact Ha].
Defined.

Definition other_cfg : AAD := MkAAD "T" "A" None "/srv/home/%f" "/bin/sh".

Lemma Authenticate_denied_witness :
  login "invalid credentials" "secret" "/etc/aad.conf" machine = (Err (Sentinel ErrPamAuth), machine).
Proof.
  refine (Authenticate_denied 0 0 root_groups shadow_group in_order machine_files publicNewMockClient
    "invalid credentials" "secret" "/etc/aad.conf" [] machine other_cfg (Sentinel ErrDeny) _ _ _);
    vm_compute; reflexivity.
Defined.

Lemma Authenticate_life_witness :
  rtc (life_step 0 0 root_groups shadow_group in_order) ([], fresh_sys []) ([], p_sys after_online).
Proof.
  exact (Authenticate_life 0 0 root_groups shadow_group in_order machine_files publicNewMockClient
    "Success@Domain.com" "secret" "/etc/aad.conf" [] [] machine (life_ok_init _ (fresh_no_cache []))).
Defined.

(** The module itself. *)
Definition module_run (user password : result string) (args : list string) : result Z :=
  (pam_sm_authenticate 0 0 root_groups shadow_group in_order machine_files publicNewMockClient
     supportedOption_nomock user password [] args machine).1.

Example module_success : module_run (Ok "success@domain.com") (Ok "secret") [] = Ok PAM_SUCCESS.
Proof. vm_compute. reflexivity. Qed.
Example module_conf :
  module_run (Ok "success@domain.com") (Ok "secret") ["conf=/etc/offline.conf"; "debug"; "typo=1"] = Ok PAM_AUTH_ERR.
Proof. vm_compute. reflexivity. Qed.
Example module_no_password : module_run (Ok "success@domain.com") (Err (Opaque "no password found")) [] = Ok PAM_SYSTEM_ERR.
Proof. vm_compute. reflexivity. Qed.
Example module_bad_conf : module_run (Ok "success@domain.com") (Ok "x") ["conf=/none"] = Ok PAM_SYSTEM_ERR.
Proof. vm_compute. reflexivity. Qed.

Lemma Authenticate_tells_witness :
  p_messages (login "success@domain.com" "secret" "/etc/offline.conf" (days_later 100 after_online)).2 = [msg_expired].
Proof.
  assert (exists cfg, session_config machine_files "success@domain.com" "/etc/offline.conf" = Ok cfg) as [cfg E]
    by (eexists; vm_compute; reflexivity).
  pose proof (Authenticate_tells 0 0 root_groups shadow_group in_order machine_files publicNewMockClient
    "success@domain.com" "secret" "/etc/offline.conf" [] (days_later 100 after_online) cfg E) as Ht.
  etransitivity; [exact Ht|]. vm_compute in E. injection E as <-. vm_compute. reflexivity.
Defined.
