(* ===== verification/NssBuffers.v ===== *)
(** * internal/nss: filling the buffers of the C library

    ToCpasswd, ToCgroup and ToCshadow write an entry in a buffer that the C
    library provides and point the fields of a C structure into it. The
    buffer is a list of bytes; an address is an offset in it, and for the
    array of the members of a group the machine word of base plus offset. *)

From S2P Require Import Prelude GoStrings Interfaces.
Open Scope string_scope.
Open Scope list_scope.
Open Scope Z_scope.

(** ** The entries (passwd.go, group.go, shadow.go) *)

Record Passwd := MkPasswd {
  pw_name : string; pw_passwd : string; pw_uid : Z; pw_gid : Z;
  pw_gecos : string; pw_dir : string; pw_shell : string;
}.

Record Group := MkGroup { gr_name : string; gr_passwd : string; gr_gid : Z; gr_members : list string }.

Record Shadow := MkShadow {
  sp_name : string; sp_passwd : string; sp_lstchg : Z; sp_min : Z; sp_max : Z;
  sp_warn : Z; sp_inact : Z; sp_expire : Z;
}.

(** ** The C structures: pointers are offsets in the buffer *)

Record CPasswd := MkCPasswd {
  c_name : nat; c_passwd : nat; c_gecos : nat; c_dir : nat; c_shell : nat; c_uid : Z; c_gid : Z;
}.
Record CGroup := MkCGroup { cg_name : nat; cg_passwd : nat; cg_mem : nat; cg_gid : Z }.
Record CShadow := MkCShadow {
  cs_namp : nat; cs_pwdp : nat; cs_lstchg : Z; cs_min : Z; cs_max : Z; cs_warn : Z; cs_inact : Z;
  cs_expire : Z; cs_flag : Z;
}.

(** ** A bytes.Buffer over the C memory *)

Definition bytes_of (s : string) : list ascii := String.list_ascii_of_string s.
Definition NUL : ascii := "000"%char.

(** The memory, the length of the buffer, and whether a write that did not fit
    has moved the buffer to memory of its own. *)
Record cbuf := CBuf { mem : list ascii; blen : nat; detached : bool }.

Definition overwrite (off : nat) (s m : list ascii) : list ascii :=
  take off m ++ s ++ drop (off + length s) m.

(** [b.WriteString], [b.WriteByte] and [b.Write]. *)
Definition write (s : list ascii) : M cbuf unit := fun b =>
  if negb (detached b) && (blen b + length s <=? length (mem b))%nat
  then (Ok tt, CBuf (overwrite (blen b) s (mem b)) (blen b + length s) false)
  else (Ok tt, CBuf (mem b) (blen b + length s) true).

(** [&gobuf[b.Len()]] *)
Definition here : M cbuf nat := fun b =>
  if (blen b <? length (mem b))%nat then (Ok (blen b), b) else (Panic "index out of range", b).

(** One field: its address, then the value and its terminator. *)
Definition write_field (s : string) : M cbuf nat :=
  p ← here; write (bytes_of s) ;; write [NUL] ;; mret p.

(** The check of the size, then the slice of [buflen] bytes of an array of
    [1 << 30] that stands for the C memory. *)
Definition in_buffer {A} (needed : Z) (m : list ascii) (fill : M cbuf A) : result A * list ascii :=
  let buflen := Z.of_nat (length m) in
  if i64 buflen <? needed then (Err (Sentinel ErrTryAgainERange), m)
  else if 2 ^ 30 <? buflen then (Panic "slice bounds out of range", m)
  else let '(r, b) := fill (CBuf m 0 false) in (r, mem b).

Definition len (s : string) : Z := Z.of_nat (String.length s).

Definition passwd_size (p : Passwd) : Z :=
  len (pw_name p) + len (pw_passwd p) + len (pw_gecos p) + len (pw_dir p) + len (pw_shell p) + 5.

Definition ToCpasswd (p : Passwd) (m : list ascii) : result CPasswd * list ascii :=
  in_buffer (passwd_size p) m
    (n ← write_field (pw_name p);
     pw ← write_field (pw_passwd p);
     g ← write_field (pw_gecos p);
     d ← write_field (pw_dir p);
     s ← write_field (pw_shell p);
     mret (MkCPasswd n pw g d s (u32 (pw_uid p)) (u32 (pw_gid p)))).

Definition shadow_size (s : Shadow) : Z := len (sp_name s) + len (sp_passwd s) + 2.

Definition ToCshadow (s : Shadow) (m : list ascii) : result CShadow * list ascii :=
  in_buffer (shadow_size s) m
    (n ← write_field (sp_name s);
     pw ← write_field (sp_passwd s);
     mret (MkCShadow n pw (i64 (sp_lstchg s)) (i64 (sp_min s)) (i64 (sp_max s)) (i64 (sp_warn s))
             (i64 (sp_inact s)) (i64 (sp_expire s)) (2 ^ 64 - 1))).

(** ** Groups *)

Definition sizeOfPChar : nat := 8.

Definition members_size (ms : list string) : Z :=
  fold_left (fun n m => n + (len m + 1)) ms (Z.of_nat sizeOfPChar * (Z.of_nat (length ms) + 1)).

Definition group_size (g : Group) : Z := len (gr_name g) + len (gr_passwd g) + members_size (gr_members g) + 2.

Fixpoint write_members (ms : list string) : M cbuf (list nat) :=
  match ms with
  | [] => mret []
  | s :: ms => p ← write_field s; ps ← write_members ms; mret (p :: ps)
  end.

(** A 64-bit word in memory, least significant byte first. *)
Fixpoint le_bytes (n : nat) (z : Z) : list ascii :=
  match n with O => [] | S n => chr (z mod 256) :: le_bytes n (z / 256) end.

Fixpoint le_value (l : list ascii) : Z :=
  match l with [] => 0 | a :: l => byteZ a + 256 * le_value l end.

(** [*bufp = addr] at an offset of the memory. *)
Definition store (off : nat) (z : Z) : M cbuf unit := fun b =>
  (Ok tt, CBuf (overwrite off (le_bytes sizeOfPChar z) (mem b)) (blen b) (detached b)).

Fixpoint store_addresses (base : Z) (bufp : nat) (ps : list nat) : M cbuf unit :=
  match ps with
  | [] => mret tt
  | p :: ps => store bufp (base + Z.of_nat p) ;; store_addresses base (bufp + sizeOfPChar) ps
  end.

Definition ToCgroup (base : Z) (g : Group) (m : list ascii) : result CGroup * list ascii :=
  in_buffer (group_size g) m
    (n ← write_field (gr_name g);
     pw ← write_field (gr_passwd g);
     ps ← write_members (gr_members g);
     bufp ← here;
     write (replicate (sizeOfPChar * length ps) NUL) ;;
     store_addresses base bufp ps ;;
     write (replicate sizeOfPChar NUL) ;;
     mret (MkCGroup n pw bufp (u32 (gr_gid g)))).

(** ** Reading the C memory back (C.GoString, unsafe.Slice) *)

Fixpoint until_nul (l : list ascii) : string :=
  match l with
  | [] => EmptyString
  | a :: l => if bool_decide (a = NUL) then EmptyString else String a (until_nul l)
  end.

Definition GoString (m : list ascii) (off : nat) : string := until_nul (drop off m).

Definition load (m : list ascii) (off : nat) : Z := le_value (take sizeOfPChar (drop off m)).

(** The entries of a null-terminated array of strings. *)
Fixpoint read_members (base : Z) (m : list ascii) (off n : nat) : list string :=
  match n with
  | O => []
  | S n => GoString m (Z.to_nat (load m off - base)) :: read_members base m (off + sizeOfPChar) n
  end.

(** ** The writes land where they should *)

Lemma length_bytes_of s : length (bytes_of s) = String.length s.
Proof. induction s; simpl; congruence. Qed.

(** A buffer in place: what has been written, then the rest of the memory. *)
Definition filled (w rest : list ascii) : cbuf := CBuf (w ++ rest) (length w) false.

Lemma overwrite_app w s rest : overwrite (length w) s (w ++ rest) = w ++ s ++ drop (length s) rest.
Proof.
  unfold overwrite. rewrite take_app_length. f_equal.
  by rewrite <- (drop_drop (w ++ rest) (length s) (length w)), drop_app_length.
Qed.

Lemma write_filled s w rest : (length s <= length rest)%nat ->
  write s (filled w rest) = (Ok tt, filled (w ++ s) (drop (length s) rest)).
Proof.
  intros Hl. unfold write, filled. simpl. rewrite length_app.
  rewrite (proj2 (Nat.leb_le _ _)) by lia.
  by rewrite overwrite_app, length_app, (assoc_L (++)).
Qed.

Lemma here_filled w rest : rest <> [] -> here (filled w rest) = (Ok (length w), filled w rest).
Proof.
  intros Hr. unfold here, filled. simpl. rewrite length_app.
  destruct rest; [done|]. simpl. by rewrite (proj2 (Nat.ltb_lt _ _)) by lia.
Qed.

(** The bytes of a field. *)
Definition field (s : string) : list ascii := bytes_of s ++ [NUL].

Lemma length_field s : length (field s) = S (String.length s).
Proof. unfold field. rewrite length_app, length_bytes_of. simpl. lia. Qed.

Lemma write_field_filled s w rest : (length (field s) <= length rest)%nat ->
  write_field s (filled w rest) = (Ok (length w), filled (w ++ field s) (drop (length (field s)) rest)).
Proof.
  intros Hl. rewrite length_field in Hl. unfold write_field, mbind, M_bind.
  rewrite here_filled by (by destruct rest; [simpl in Hl; lia|]).
  rewrite write_filled by (rewrite length_bytes_of; lia).
  rewrite write_filled by (rewrite length_drop, length_bytes_of; simpl; lia).
  unfold mret, M_ret, field. by rewrite <- (assoc_L (++)), drop_drop, <- length_app.
Qed.

(** ** Reading a field back *)

Definition no_nul (s : string) : Prop := no_byte NUL s.

Lemma until_nul_field s rest : no_nul s -> until_nul (field s ++ rest) = s.
Proof.
  unfold field. induction s as [|a s IH]; intros Hs; [done|].
  apply no_byte_cons in Hs as [Ha Hs]. simpl. rewrite bool_decide_eq_false_2 by done. by rewrite IH.
Qed.

Lemma GoString_field w s rest : no_nul s -> GoString (w ++ field s ++ rest) (length w) = s.
Proof. intros Hs. unfold GoString. rewrite drop_app_length. by apply until_nul_field. Qed.

Lemma GoString_at m off w s rest : no_nul s -> m = w ++ field s ++ rest -> off = length w -> GoString m off = s.
Proof. intros Hs -> ->. by apply GoString_field. Qed.

(** ** passwd *)

Definition passwd_fields (p : Passwd) : list ascii :=
  field (pw_name p) ++ field (pw_passwd p) ++ field (pw_gecos p) ++ field (pw_dir p) ++ field (pw_shell p).

Lemma passwd_size_eq p : passwd_size p = Z.of_nat (length (passwd_fields p)).
Proof. unfold passwd_size, passwd_fields, len. rewrite !length_app, !length_field. lia. Qed.

(** The writes of the five fields, on a buffer that can hold them. *)
Definition fill_passwd (p : Passwd) : M cbuf CPasswd :=
  n ← write_field (pw_name p);
  pw ← write_field (pw_passwd p);
  g ← write_field (pw_gecos p);
  d ← write_field (pw_dir p);
  s ← write_field (pw_shell p);
  mret (MkCPasswd n pw g d s (u32 (pw_uid p)) (u32 (pw_gid p))).

(** Step through a sequence of fields. *)
Ltac fill_fields :=
  repeat (rewrite write_field_filled by (rewrite ?length_drop, ?length_app in *; lia));
  unfold mret, M_ret.

Lemma fill_passwd_run p m : (length (passwd_fields p) <= length m)%nat ->
  exists w1 w2 w3 w4, fill_passwd p (filled [] m) =
    (Ok (MkCPasswd 0 (length w1) (length w2) (length w3) (length w4) (u32 (pw_uid p)) (u32 (pw_gid p))),
     filled (passwd_fields p) (drop (length (passwd_fields p)) m))
    /\ w1 = field (pw_name p) /\ w2 = w1 ++ field (pw_passwd p) /\ w3 = w2 ++ field (pw_gecos p)
    /\ w4 = w3 ++ field (pw_dir p).
Proof.
  intros Hl. unfold passwd_fields in *. rewrite !length_app in Hl. do 4 eexists. split; [|by split_and!].
  unfold fill_passwd, mbind, M_bind. fill_fields.
  rewrite !drop_drop, !app_nil_l, <- !(assoc_L (++)). simpl. rewrite !length_app. done.
Qed.

(** The three outcomes of the check of the size. *)
Lemma in_buffer_small {A} needed m (fill : M cbuf A) :
  Z.of_nat (length m) < 2 ^ 63 -> Z.of_nat (length m) < needed ->
  in_buffer needed m fill = (Err (Sentinel ErrTryAgainERange), m).
Proof. intros Hm Hn. unfold in_buffer. rewrite i64_small by lia. by rewrite (proj2 (Z.ltb_lt _ _)). Qed.

Lemma in_buffer_fits {A} needed m (fill : M cbuf A) :
  Z.of_nat (length m) <= 2 ^ 30 -> needed <= Z.of_nat (length m) ->
  in_buffer needed m fill = ((fill (filled [] m)).1, mem (fill (filled [] m)).2).
Proof.
  intros Hm Hn. unfold in_buffer. rewrite i64_small by lia.
  rewrite !(proj2 (Z.ltb_ge _ _)) by done. unfold filled. simpl. by destruct (fill _).
Qed.

(** A buffer above 1 GiB that would fit the entry makes the three
    conversions panic, as the memory is seen as an array of that size. *)
Theorem large_buffer_panics {A} needed m (fill : M cbuf A) :
  2 ^ 30 < Z.of_nat (length m) < 2 ^ 63 -> needed <= Z.of_nat (length m) ->
  exists why, in_buffer needed m fill = (Panic why, m).
Proof.
  intros Hm Hn. unfold in_buffer. rewrite i64_small by lia.
  rewrite (proj2 (Z.ltb_ge _ _)), (proj2 (Z.ltb_lt _ _)) by lia. by eexists.
Qed.

(** The fields of a C structure that points into the memory [m]. *)
Definition read_passwd (m : list ascii) (c : CPasswd) : Passwd :=
  MkPasswd (GoString m (c_name c)) (GoString m (c_passwd c)) (c_uid c) (c_gid c)
    (GoString m (c_gecos c)) (GoString m (c_dir c)) (GoString m (c_shell c)).

(** The entry as C can hold it: uid and gid on 32 bits. *)
Definition narrowed (p : Passwd) : Passwd :=
  MkPasswd (pw_name p) (pw_passwd p) (u32 (pw_uid p)) (u32 (pw_gid p)) (pw_gecos p) (pw_dir p) (pw_shell p).

Definition passwd_no_nul (p : Passwd) : Prop :=
  no_nul (pw_name p) /\ no_nul (pw_passwd p) /\ no_nul (pw_gecos p) /\ no_nul (pw_dir p) /\ no_nul (pw_shell p).

(** C35: for a buffer of at most 1 GiB, ToCpasswd answers ERANGE and touches
    nothing exactly when the buffer is smaller than the five strings and their
    terminators; otherwise it stays inside that many bytes, and the C reader
    finds the entry back, whatever the buffer held. *)
Theorem ToCpasswd_roundtrip p m : Z.of_nat (length m) <= 2 ^ 30 ->
  (Z.of_nat (length m) < passwd_size p ->
     ToCpasswd p m = (Err (Sentinel ErrTryAgainERange), m)) /\
  (passwd_size p <= Z.of_nat (length m) ->
     exists c m', ToCpasswd p m = (Ok c, m') /\ length m' = length m
       /\ drop (Z.to_nat (passwd_size p)) m' = drop (Z.to_nat (passwd_size p)) m
       /\ (passwd_no_nul p -> read_passwd m' c = narrowed p)).
Proof.
  intros Hm. split; intros Hs; [by apply in_buffer_small; lia|].
  change (ToCpasswd p m) with (in_buffer (passwd_size p) m (fill_passwd p)).
  rewrite in_buffer_fits by done. rewrite passwd_size_eq in *.
  destruct (fill_passwd_run p m ltac:(lia)) as (w1 & w2 & w3 & w4 & -> & H1 & H2 & H3 & H4).
  do 2 eexists. split; [reflexivity|]. rewrite Nat2Z.id. cbn [mem filled fst snd].
  split; [rewrite length_app, length_drop; lia|]. split; [by rewrite drop_app_length|].
  intros (N1 & N2 & N3 & N4 & N5). unfold read_passwd, narrowed, passwd_fields. cbn.
  rewrite <- !(assoc_L (++)). f_equal.
  - by apply (GoString_at _ _ []) with (rest := field (pw_passwd p) ++ field (pw_gecos p) ++ field (pw_dir p) ++ field (pw_shell p) ++ drop (length (passwd_fields p)) m).
  - eapply (GoString_at _ _ w1); [done| |done]. by rewrite H1.
  - eapply (GoString_at _ _ w2); [done| |done]. by rewrite H2, H1, <- !(assoc_L (++)).
  - eapply (GoString_at _ _ w3); [done| |done]. by rewrite H3, H2, H1, <- !(assoc_L (++)).
  - eapply (GoString_at _ _ w4); [done| |done]. by rewrite H4, H3, H2, H1, <- !(assoc_L (++)).
Qed.

(** ** shadow *)

Definition read_shadow (m : list ascii) (c : CShadow) : Shadow :=
  MkShadow (GoString m (cs_namp c)) (GoString m (cs_pwdp c)) (cs_lstchg c) (cs_min c) (cs_max c)
    (cs_warn c) (cs_inact c) (cs_expire c).

(** The numbers are Go ints. *)
Definition shadow_ints (s : Shadow) : Prop :=
  Forall (fun z => - 2 ^ 63 <= z < 2 ^ 63)
    [sp_lstchg s; sp_min s; sp_max s; sp_warn s; sp_inact s; sp_expire s].

(** The same for ToCshadow: ERANGE exactly when the two strings do not
    fit, and otherwise the reader finds the whole entry back. *)
Theorem ToCshadow_roundtrip s m : Z.of_nat (length m) <= 2 ^ 30 -> shadow_ints s ->
  (Z.of_nat (length m) < shadow_size s ->
     ToCshadow s m = (Err (Sentinel ErrTryAgainERange), m)) /\
  (shadow_size s <= Z.of_nat (length m) ->
     exists c m', ToCshadow s m = (Ok c, m') /\ length m' = length m
       /\ drop (Z.to_nat (shadow_size s)) m' = drop (Z.to_nat (shadow_size s)) m
       /\ (no_nul (sp_name s) -> no_nul (sp_passwd s) -> read_shadow m' c = s)).
Proof.
  intros Hm Hi. split; intros Hs; [by apply in_buffer_small; lia|].
  unfold ToCshadow. rewrite in_buffer_fits by done.
  assert (shadow_size s = Z.of_nat (length (field (sp_name s) ++ field (sp_passwd s)))) as Esz
    by (unfold shadow_size, len; rewrite !length_app, !length_field; lia).
  rewrite Esz in *. rewrite length_app in Hs. unfold mbind, M_bind.
  rewrite write_field_filled by lia. rewrite write_field_filled by (rewrite length_drop; lia).
  unfold mret, M_ret. do 2 eexists. split; [reflexivity|]. rewrite Nat2Z.id. cbn [mem filled fst snd].
  rewrite !app_nil_l, drop_drop, <- length_app.
  split; [rewrite length_app, length_drop, length_app; lia|]. split; [by rewrite drop_app_length|].
  intros N1 N2. unfold read_shadow.
  cbn [cs_namp cs_pwdp cs_lstchg cs_min cs_max cs_warn cs_inact cs_expire length]. unfold shadow_ints in Hi. rewrite !Forall_cons in Hi.
  destruct Hi as (? & ? & ? & ? & ? & ? & _). rewrite !i64_small by done. rewrite <- !(assoc_L (++)).
  rewrite (GoString_at _ 0 [] (sp_name s) (field (sp_passwd s) ++ drop (length (field (sp_name s) ++ field (sp_passwd s))) m))
    by done.
  rewrite (GoString_at _ _ (field (sp_name s)) (sp_passwd s) (drop (length (field (sp_name s) ++ field (sp_passwd s))) m))
    by done.
  by destruct s.
Qed.

(** ** group *)

Fixpoint offsets (start : nat) (ms : list string) : list nat :=
  match ms with [] => [] | s :: ms => start :: offsets (start + length (field s)) ms end.

Lemma length_offsets start ms : length (offsets start ms) = length ms.
Proof. revert start. induction ms; intros start; simpl; [done|]. by f_equal. Qed.

(** Every member starts inside the strings. *)
Lemma offsets_range start ms :
  Forall (fun p => (p < start + length (concat (field <$> ms)))%nat) (offsets start ms).
Proof.
  revert start. induction ms as [|s ms IH]; intros start; cbn [offsets]; constructor.
  - rewrite fmap_cons. cbn [concat]. rewrite length_app, length_field. lia.
  - eapply Forall_impl; [apply IH|]. intros p Hp. rewrite fmap_cons. cbn [concat]. rewrite length_app. simpl in Hp. lia.
Qed.

Definition fields (ms : list string) : list ascii := concat (field <$> ms).

Lemma write_members_filled ms w rest : (length (fields ms) <= length rest)%nat ->
  write_members ms (filled w rest) =
  (Ok (offsets (length w) ms), filled (w ++ fields ms) (drop (length (fields ms)) rest)).
Proof.
  revert w rest. induction ms as [|s ms IH]; intros w rest Hl; unfold fields in *; csimpl in *.
  - unfold mret, M_ret. by rewrite app_nil_r.
  - rewrite length_app in Hl. cbn [write_members]. unfold mbind, M_bind.
    rewrite write_field_filled by lia. rewrite IH by (rewrite length_drop; lia).
    unfold mret, M_ret. by rewrite !length_app, drop_drop, <- (assoc_L (++)).
Qed.

Definition words (zs : list Z) : list ascii := concat (le_bytes sizeOfPChar <$> zs).

Lemma length_le_bytes n z : length (le_bytes n z) = n.
Proof. revert z. induction n; intros z; simpl; [done|]. by rewrite IHn. Qed.

Lemma words_cons z zs : words (z :: zs) = le_bytes sizeOfPChar z ++ words zs.
Proof. reflexivity. Qed.

Lemma length_words zs : length (words zs) = (sizeOfPChar * length zs)%nat.
Proof.
  induction zs as [|z zs IH]; [done|]. rewrite words_cons, length_app, length_le_bytes, IH. simpl. lia.
Qed.

Lemma le_value_bytes n z l : 0 <= z < 256 ^ Z.of_nat n -> le_value (take n (le_bytes n z ++ l)) = z.
Proof.
  revert z. induction n as [|n IH]; intros z Hz; [simpl in *; lia|].
  cbn [le_bytes app take le_value]. rewrite byteZ_chr by (apply Z.mod_pos_bound; lia).
  rewrite IH; [pose proof (Z.div_mod z 256); lia|].
  rewrite Nat2Z.inj_succ, Z.pow_succ_r in Hz by lia.
  split; [apply Z.div_pos; lia|]. apply Z.div_lt_upper_bound; lia.
Qed.

Lemma load_word w z l : 0 <= z < 2 ^ 64 -> load (w ++ le_bytes sizeOfPChar z ++ l) (length w) = z.
Proof. intros Hz. unfold load. rewrite drop_app_length. by apply le_value_bytes. Qed.

(** Storing the addresses over the zeros that were written for them. *)
Lemma store_addresses_run base ps w zeros rest n : length zeros = (sizeOfPChar * length ps)%nat ->
  store_addresses base (length w) ps (CBuf (w ++ zeros ++ rest) n false) =
  (Ok tt, CBuf (w ++ words ((fun p => base + Z.of_nat p) <$> ps) ++ rest) n false).
Proof.
  revert w zeros. induction ps as [|p ps IH]; intros w zeros Hz.
  - rewrite Nat.mul_0_r in Hz. by apply nil_length_inv in Hz as ->.
  - cbn [length] in Hz. cbn [store_addresses]. rewrite fmap_cons, words_cons.
    unfold mbind, M_bind, store at 1. cbn [mem blen detached].
    rewrite overwrite_app, length_le_bytes, drop_app_le by lia.
    replace (w ++ le_bytes sizeOfPChar (base + Z.of_nat p) ++ drop sizeOfPChar zeros ++ rest)
      with ((w ++ le_bytes sizeOfPChar (base + Z.of_nat p)) ++ drop sizeOfPChar zeros ++ rest)
      by by rewrite <- (assoc_L (++)).
    replace (length w + sizeOfPChar)%nat with (length (w ++ le_bytes sizeOfPChar (base + Z.of_nat p)))
      by by rewrite length_app, length_le_bytes.
    rewrite IH by (rewrite length_drop; lia). by rewrite <- !(assoc_L (++)).
Qed.

(** Reading the strings and the array back. *)
Lemma GoString_offsets ms w post : Forall no_nul ms ->
  GoString (w ++ fields ms ++ post) <$> offsets (length w) ms = ms.
Proof.
  intros Hn. revert w. induction Hn as [|s ms Hs _ IH]; intros w; [done|].
  unfold fields in *. csimpl. rewrite <- (assoc_L (++)). f_equal; [by apply GoString_field|].
  rewrite <- length_app, (assoc_L (++) w). apply IH.
Qed.

Lemma read_members_words base ps pre post : 0 <= base ->
  Forall (fun p => base + Z.of_nat p < 2 ^ 64) ps ->
  forall m, m = pre ++ words ((fun p => base + Z.of_nat p) <$> ps) ++ post ->
  read_members base m (length pre) (length ps) = GoString m <$> ps.
Proof.
  intros Hb Hps. revert pre. induction Hps as [|p ps Hp _ IH]; intros pre m Hm; [done|].
  rewrite fmap_cons, words_cons, <- (assoc_L (++)) in Hm. cbn [length read_members]. rewrite fmap_cons. f_equal.
  - f_equal. rewrite Hm, load_word by lia. lia.
  - replace (length pre + sizeOfPChar)%nat with (length (pre ++ le_bytes sizeOfPChar (base + Z.of_nat p)))
      by by rewrite length_app, length_le_bytes.
    apply IH. by rewrite Hm, <- (assoc_L (++)).
Qed.

Lemma members_size_eq ms : members_size ms = Z.of_nat (length (fields ms) + sizeOfPChar * (length ms + 1)).
Proof.
  unfold members_size.
  assert (forall n, fold_left (fun n m => n + (len m + 1)) ms n = n + Z.of_nat (length (fields ms))) as ->.
  { unfold fields. induction ms as [|s ms IH]; intros n; csimpl; [lia|].
    rewrite IH, length_app, length_field. unfold len. lia. }
  lia.
Qed.

(** The bytes that ToCgroup writes. *)
Definition group_strings (g : Group) : list ascii :=
  (field (gr_name g) ++ field (gr_passwd g)) ++ fields (gr_members g).

Definition member_offsets (g : Group) : list nat :=
  offsets (length (field (gr_name g) ++ field (gr_passwd g))) (gr_members g).

Definition group_bytes (base : Z) (g : Group) : list ascii :=
  group_strings g ++ words ((fun p => base + Z.of_nat p) <$> member_offsets g) ++ replicate sizeOfPChar NUL.

Lemma group_size_eq base g : group_size g = Z.of_nat (length (group_bytes base g)).
Proof.
  unfold group_size, group_bytes, group_strings, member_offsets. rewrite members_size_eq.
  rewrite !length_app, length_words, length_fmap, length_offsets, length_replicate, !length_field. unfold len. lia.
Qed.

Definition fill_group (base : Z) (g : Group) : M cbuf CGroup :=
  n ← write_field (gr_name g);
  pw ← write_field (gr_passwd g);
  ps ← write_members (gr_members g);
  bufp ← here;
  write (replicate (sizeOfPChar * length ps) NUL) ;;
  store_addresses base bufp ps ;;
  write (replicate sizeOfPChar NUL) ;;
  mret (MkCGroup n pw bufp (u32 (gr_gid g))).

Lemma fill_group_run base g m : (length (group_bytes base g) <= length m)%nat ->
  fill_group base g (filled [] m) =
  (Ok (MkCGroup 0 (length (field (gr_name g))) (length (group_strings g)) (u32 (gr_gid g))),
   filled (group_bytes base g) (drop (length (group_bytes base g)) m)).
Proof.
  unfold group_bytes. rewrite !length_app, length_words, length_fmap, length_replicate.
  unfold member_offsets at 1. rewrite length_offsets. unfold group_strings at 1. rewrite !length_app.
  intros Hl. unfold fill_group, mbind, M_bind.
  rewrite write_field_filled by lia. rewrite write_field_filled by (rewrite length_drop; lia).
  rewrite write_members_filled by (rewrite !length_drop; lia).
  rewrite !drop_drop, !app_nil_l.
  change ((field (gr_name g) ++ field (gr_passwd g)) ++ fields (gr_members g)) with (group_strings g).
  fold (member_offsets g). set (rest := drop _ m).
  assert (length rest = length m - length (group_strings g))%nat as Hr
    by (unfold rest, group_strings; rewrite length_drop, !length_app; lia).
  assert (length (member_offsets g) = length (gr_members g)) as Ho by apply length_offsets.
  assert (length (group_strings g) + sizeOfPChar * length (gr_members g) + sizeOfPChar <= length m)%nat as Hfit
    by (unfold group_strings; rewrite !length_app; lia).
  rewrite here_filled by (intros E; rewrite E in Hr; simpl in Hr; unfold sizeOfPChar in Hfit; lia).
  rewrite write_filled by (rewrite length_replicate; lia). rewrite length_replicate.
  unfold filled at 1. rewrite <- (assoc_L (++)), length_app, length_replicate.
  rewrite store_addresses_run by by rewrite length_replicate.
  set (ws := words _). set (tl := drop (sizeOfPChar * length (member_offsets g)) rest).
  assert (length ws = (sizeOfPChar * length (member_offsets g))%nat) as Hw
    by (unfold ws; by rewrite length_words, length_fmap).
  assert (CBuf (group_strings g ++ ws ++ tl) (length (group_strings g) + sizeOfPChar * length (member_offsets g)) false
    = filled (group_strings g ++ ws) tl) as -> by (unfold filled; by rewrite length_app, Hw, <- (assoc_L (++))).
  rewrite write_filled by (unfold tl; rewrite length_replicate, length_drop; lia).
  unfold mret, M_ret, tl, rest. rewrite !length_replicate, !drop_drop, <- !(assoc_L (++)). do 2 f_equal.
  f_equal. unfold group_strings. rewrite !length_app. lia.
Qed.

Definition read_group (base : Z) (m : list ascii) (c : CGroup) (n : nat) : Group :=
  MkGroup (GoString m (cg_name c)) (GoString m (cg_passwd c)) (cg_gid c)
    (read_members base m (cg_mem c) n).

(** The same for ToCgroup, with the array of its members: ERANGE exactly
    when the strings and the null-terminated array of pointers do not fit;
    otherwise the pointers of the array, as machine words relative to where
    the buffer lies, lead to the members in order, and a null word ends it. *)
Theorem ToCgroup_roundtrip base g m :
  Z.of_nat (length m) <= 2 ^ 30 -> 0 <= base -> base + Z.of_nat (length m) <= 2 ^ 64 ->
  (Z.of_nat (length m) < group_size g ->
     ToCgroup base g m = (Err (Sentinel ErrTryAgainERange), m)) /\
  (group_size g <= Z.of_nat (length m) ->
     exists c m', ToCgroup base g m = (Ok c, m') /\ length m' = length m
       /\ drop (Z.to_nat (group_size g)) m' = drop (Z.to_nat (group_size g)) m
       /\ load m' (cg_mem c + sizeOfPChar * length (gr_members g)) = 0
       /\ (no_nul (gr_name g) -> no_nul (gr_passwd g) -> Forall no_nul (gr_members g) ->
           read_group base m' c (length (gr_members g))
           = MkGroup (gr_name g) (gr_passwd g) (u32 (gr_gid g)) (gr_members g))).
Proof.
  intros Hm Hb Hbm. split; intros Hs; [by apply in_buffer_small; lia|].
  change (ToCgroup base g m) with (in_buffer (group_size g) m (fill_group base g)).
  rewrite in_buffer_fits by done. rewrite (group_size_eq base) in *.
  rewrite fill_group_run by lia. do 2 eexists. split; [reflexivity|]. rewrite Nat2Z.id.
  cbn [mem filled fst snd cg_mem cg_name cg_passwd cg_gid].
  split; [rewrite length_app, length_drop; lia|]. split; [by rewrite drop_app_length|].
  set (tl := drop _ m).
  assert (length (group_strings g) <= length m)%nat as Hlen
    by (clear - Hs; unfold group_bytes in Hs; rewrite length_app, Nat2Z.inj_add in Hs; lia).
  assert (Forall (fun p => base + Z.of_nat p < 2 ^ 64) (member_offsets g)) as Hrange.
  { eapply Forall_impl; [apply offsets_range|]. intros p Hp. unfold group_strings, fields in Hlen.
    rewrite length_app in Hlen. cbn beta in Hp. lia. }
  split.
  - replace (group_bytes base g ++ tl) with
      ((group_strings g ++ words ((fun p => base + Z.of_nat p) <$> member_offsets g)) ++ le_bytes sizeOfPChar 0 ++ tl)
      by (unfold group_bytes; by rewrite <- !(assoc_L (++))).
    replace (_ + _)%nat with (length (group_strings g ++ words ((fun p => base + Z.of_nat p) <$> member_offsets g))).
    + by apply load_word.
    + unfold member_offsets. by rewrite length_app, length_words, length_fmap, length_offsets.
  - intros N1 N2 N3. unfold read_group. cbn [cg_mem cg_name cg_passwd cg_gid].
    set (ptrs := words ((fun p => base + Z.of_nat p) <$> member_offsets g) ++ replicate sizeOfPChar NUL ++ tl).
    assert (group_bytes base g ++ tl = group_strings g ++ ptrs) as ->
      by (unfold group_bytes, ptrs; by rewrite <- !(assoc_L (++))).
    f_equal.
    + apply (GoString_at _ 0 [] (gr_name g) (field (gr_passwd g) ++ fields (gr_members g) ++ ptrs)); [done| |done].
      unfold group_strings. by rewrite <- !(assoc_L (++)).
    + apply (GoString_at _ _ (field (gr_name g)) (gr_passwd g) (fields (gr_members g) ++ ptrs)); [done| |done].
      unfold group_strings. by rewrite <- !(assoc_L (++)).
    + replace (length (gr_members g)) with (length (member_offsets g)) by apply length_offsets.
      rewrite (read_members_words base (member_offsets g) (group_strings g) (replicate sizeOfPChar NUL ++ tl)) by done.
      unfold group_strings, member_offsets. rewrite <- (assoc_L (++)). by apply GoString_offsets.
Qed.

(** ** Concrete runs *)

Definition sample_passwd : Passwd := MkPasswd "u@d" "x" 4242 4242 "" "/home/u@d" "/bin/bash".
Definition sample_group : Group := MkGroup "u@d" "x" 4242 ["u@d"; "v@d"].
Definition sample_shadow : Shadow := MkShadow "u@d" "*" (-1) (-1) (-1) (-1) (-1) (-1).
Definition junk (n : nat) : list ascii := replicate n "?"%char.

Lemma big_memory : exists m : list ascii, Z.of_nat (length m) = 2 ^ 30 + 1.
Proof. exists (replicate (Z.to_nat (2 ^ 30 + 1)) NUL). rewrite length_replicate. lia. Qed.

Lemma large_buffer_panics_witness : exists m why, ToCpasswd sample_passwd m = (Panic why, m).
Proof.
  destruct big_memory as [m Hm]. exists m.
  apply (large_buffer_panics (passwd_size sample_passwd) m (fill_passwd sample_passwd)); rewrite Hm.
  - lia.
  - change (passwd_size sample_passwd) with 27. lia.
Defined.

Lemma sample_no_nul : passwd_no_nul sample_passwd.
Proof. unfold passwd_no_nul, no_nul. split_and!; apply (bool_decide_unpack _); vm_compute; done. Qed.

Lemma ToCpasswd_roundtrip_witness : exists c m',
  ToCpasswd sample_passwd (junk 40) = (Ok c, m') /\ read_passwd m' c = sample_passwd.
Proof.
  destruct (proj2 (ToCpasswd_roundtrip sample_passwd (junk 40) ltac:(vm_compute; discriminate))
    ltac:(vm_compute; discriminate)) as (c & m' & E & _ & _ & Hr).
  exists c, m'. split; [exact E|]. rewrite (Hr sample_no_nul). reflexivity.
Defined.

Lemma ToCshadow_roundtrip_witness : exists c m',
  ToCshadow sample_shadow (junk 9) = (Ok c, m') /\ read_shadow m' c = sample_shadow.
Proof.
  destruct (proj2 (ToCshadow_roundtrip sample_shadow (junk 9) ltac:(vm_compute; discriminate)
    ltac:(repeat constructor; discriminate)) ltac:(vm_compute; discriminate)) as (c & m' & E & _ & _ & Hr).
  exists c, m'. split; [exact E|]. apply Hr; apply (bool_decide_unpack _); vm_compute; done.
Defined.

Lemma ToCgroup_roundtrip_witness : exists c m',
  ToCgroup 140737488355328 sample_group (junk 64) = (Ok c, m') /\ read_group 140737488355328 m' c 2 = sample_group.
Proof.
  destruct (proj2 (ToCgroup_roundtrip 140737488355328 sample_group (junk 64) ltac:(vm_compute; discriminate)
    ltac:(discriminate) ltac:(vm_compute; discriminate)) ltac:(vm_compute; discriminate))
    as (c & m' & E & _ & _ & _ & Hr).
  exists c, m'. split; [exact E|]. refine (Hr _ _ _);
    repeat constructor; apply (bool_decide_unpack _); vm_compute; done.
Defined.

Example passwd_too_small : (ToCpasswd sample_passwd (junk 26)).1 = Err (Sentinel ErrTryAgainERange).
Proof. reflexivity. Qed.
