(* ===== verification/Nss.v ===== *)
(** * internal/nss: the name service

    ConvertErr of errors.go and, for the packages passwd, group and shadow,
    the lookups by name and by number, the textual form of an entry and the
    iteration that getent drives. *)

From S2P Require Import Prelude GoStrings Interfaces Tables CacheDB CacheFacts HomeDir UidGen CacheAuth.
From S2P Require Import CacheTheorems CacheIter CacheOpen CacheLife Clients NssBuffers.
Open Scope string_scope.
Open Scope list_scope.
Open Scope Z_scope.

(** ** errors.go *)

(** The statuses that the C side knows. *)
Definition nss_statuses : list sentinel :=
  [ErrTryAgainEAgain; ErrTryAgainERange; ErrUnavailableENoEnt; ErrNotFoundENoEnt; ErrNotFoundSuccess].

Definition is_api_error (e : gerror) : bool := existsb (errors_is e) nss_statuses.

(** ConvertErr of an error that is not nil. *)
Definition ConvertErr (origErr : gerror) : gerror :=
  NssError origErr
    (if is_api_error origErr then origErr
     else if errors_is origErr ErrNoEnt then Sentinel ErrNotFoundENoEnt
     else Sentinel ErrUnavailableENoEnt).

(** The status of an error. *)
Definition status_of (e : gerror) : sentinel :=
  match List.find (errors_is e) nss_statuses with
  | Some t => t
  | None => if errors_is e ErrNoEnt then ErrNotFoundENoEnt else ErrUnavailableENoEnt
  end.

Lemma converted_status e t :
  errors_is (ConvertErr e) t = true <-> t = status_of e.
Proof.
  unfold ConvertErr, status_of, is_api_error. simpl.
  assert (forall t', errors_is e t' = true -> forall t, errors_is e t = true <-> t = t') as Hfun.
  { intros t' Ht' t0. split; [intros Ht; by eapply errors_is_functional|by intros ->]. }
  unfold nss_statuses. cbn [List.find].
  destruct (errors_is e ErrTryAgainEAgain) eqn:E1; [by apply Hfun|].
  destruct (errors_is e ErrTryAgainERange) eqn:E2; [by apply Hfun|].
  destruct (errors_is e ErrUnavailableENoEnt) eqn:E3; [by apply Hfun|].
  destruct (errors_is e ErrNotFoundENoEnt) eqn:E4; [by apply Hfun|].
  destruct (errors_is e ErrNotFoundSuccess) eqn:E5; [by apply Hfun|]. simpl.
  destruct (errors_is e ErrNoEnt); simpl; rewrite bool_decide_eq_true; split; congruence.
Qed.

(** Whatever the error, ConvertErr gives it exactly one of the five
    statuses of the name service: the one it already has, else NOTFOUND for
    an absent cache entry, else UNAVAIL. *)
Theorem ConvertErr_status e :
  (forall t, errors_is (ConvertErr e) t = true <-> t = status_of e) /\
  (forall t, t ∈ nss_statuses -> errors_is e t = true -> status_of e = t) /\
  ((forall t, t ∈ nss_statuses -> errors_is e t = false) ->
     status_of e = if errors_is e ErrNoEnt then ErrNotFoundENoEnt else ErrUnavailableENoEnt).
Proof.
  split; [apply converted_status|]. split.
  - intros t Ht He. unfold status_of. destruct (List.find _ _) as [t'|] eqn:Ef.
    + apply List.find_some in Ef as [_ He']. by eapply errors_is_functional.
    + apply list_elem_of_In in Ht. pose proof (List.find_none _ _ Ef _ Ht). congruence.
  - intros Hn. unfold status_of. destruct (List.find _ _) as [t'|] eqn:Ef; [|done].
    apply List.find_some in Ef as [Hin He']. apply list_elem_of_In in Hin. by rewrite Hn in He'.
Qed.

(** ** The entries *)

Definition passwd_of_user (u : UserRecord) : Passwd :=
  MkPasswd (Name u) (CacheDB.Passwd u) (u64 (UID u)) (u64 (GID u)) (Gecos u) (Home u) (Shell u).

Definition group_of_record (g : GroupRecord) : Group :=
  MkGroup (gName g) (gPassword g) (u64 (gGID g)) (gMembers g).

(** Of a lookup: the password is masked. *)
Definition shadow_masked (s : ShadowRecord) : Shadow :=
  MkShadow (swName s) "*" (swLastPwdChange s) (swMinPwdAge s) (swMaxPwdAge s) (swPwdWarnPeriod s)
    (swPwdInactivity s) (swExpirationDate s).

(** Of an iteration: it is not. *)
Definition shadow_of_record (s : ShadowRecord) : Shadow :=
  MkShadow (swName s) (swPassword s) (swLastPwdChange s) (swMinPwdAge s) (swMaxPwdAge s) (swPwdWarnPeriod s)
    (swPwdInactivity s) (swExpirationDate s).

Definition passwd_String (p : Passwd) : string :=
  Join ":" [pw_name p; pw_passwd p; pretty (pw_uid p); pretty (pw_gid p); pw_gecos p; pw_dir p; pw_shell p].

Definition group_String (g : Group) : string :=
  Join ":" ([gr_name g; gr_passwd g; (pretty (gr_gid g) : string)] ++ gr_members g).

Definition shadow_String (s : Shadow) : string :=
  Join ":" [sp_name s; sp_passwd s; pretty (sp_lstchg s); pretty (sp_min s); pretty (sp_max s);
            pretty (sp_warn s); pretty (sp_inact s); pretty (sp_expire s); pretty (2 ^ 64 - 1)%Z].

(** The iteration of a package: its global variable and the process. *)
Record iter_state := IterState { i_cache : option nat; i_sys : sys }.

Section Nss.
Context `{Decorator} `{RowOrder}.
Variables euid egid : Z.
Variable groups : list Z.
Variable LookupGroup : string -> result string.
Variable passwd_first : nat -> bool.

Abbreviation New := (New euid egid groups LookupGroup passwd_first).
Abbreviation with_cache := (with_cache euid egid groups LookupGroup passwd_first).
Abbreviation life_step := (life_step euid egid groups LookupGroup passwd_first).

(** ** Lookups *)

Definition passwd_NewByName (name : string) (opts : list Option) : M sys Passwd :=
  on_error "failed to get passwd entry from name %q"
    (with_cache ConvertErr opts (fun h =>
       u ← map_err ConvertErr (on_handle h (method (fun c => GetUserByName c name)));
       mret (passwd_of_user u))).

Definition passwd_NewByUID (uid : Z) (opts : list Option) : M sys Passwd :=
  on_error "failed to get passwd entry from UID %d"
    (with_cache ConvertErr opts (fun h =>
       u ← map_err ConvertErr (on_handle h (method (fun c => GetUserByUID c uid)));
       mret (passwd_of_user u))).

Definition group_NewByName (name : string) (opts : list Option) : M sys Group :=
  on_error "failed to get group entry from name %q"
    (if bool_decide (name = "shadow") then fail (Sentinel ErrNotFoundENoEnt)
     else with_cache ConvertErr opts (fun h =>
       g ← map_err ConvertErr (on_handle h (method (fun _ => GetGroupByName name)));
       mret (group_of_record g))).

Definition group_NewByGID (gid : Z) (opts : list Option) : M sys Group :=
  on_error "failed to get group entry from GID %d"
    (with_cache ConvertErr opts (fun h =>
       g ← map_err ConvertErr (on_handle h (method (fun _ => GetGroupByGID gid)));
       mret (group_of_record g))).

Definition shadow_NewByName (name : string) (opts : list Option) : M sys Shadow :=
  on_error "failed to get a shadow entry from name %q"
    (with_cache ConvertErr opts (fun h =>
       s ← map_err ConvertErr (on_handle h (method (fun c => GetShadowByName c name)));
       mret (shadow_masked s))).

(** ** Iteration: the three packages have the same code *)

Definition on_isys {A} (m : M sys A) : M iter_state A :=
  zoom i_sys (fun s i => IterState (i_cache i) s) m.

Definition StartEntryIteration (database : string) (opts : list Option) : M iter_state unit :=
  i ← get;
  match i_cache i with
  | Some _ => fail (ConvertErr (Opaque (database +:+ " entry iteration already in progress. End it before starting a new one")))
  | None =>
      c ← map_err ConvertErr (on_isys (New opts));
      step (fun i => (Ok tt, IterState (Some c) (i_sys i)))
  end.

Definition EndEntryIteration (close : M (Cache * world) unit) : M iter_state unit :=
  i ← get;
  match i_cache i with
  | None => mret tt
  | Some h =>
      defer (fun i => IterState (i_cache i) (Close h (i_sys i)).2)
        (step (fun i => (Ok tt, IterState None (i_sys i))) ;;
         map_err ConvertErr (on_isys (on_handle h close)))
  end.

Definition NextEntry {Rec Entry} (database fmt : string) (next : M (Cache * world) Rec) (of_record : Rec -> Entry)
    : M iter_state Entry :=
  on_error fmt
    (i ← get;
     match i_cache i with
     | None => fail (ConvertErr (Opaque (database +:+ " entry iteration called without initialization first")))
     | Some h =>
         r ← map_err ConvertErr (on_isys (on_handle h next));
         mret (of_record r)
     end).

Definition passwd_StartEntryIteration : list Option -> M iter_state unit := StartEntryIteration "passwd".
Definition group_StartEntryIteration : list Option -> M iter_state unit := StartEntryIteration "group".
Definition shadow_StartEntryIteration : list Option -> M iter_state unit := StartEntryIteration "shadow".

Definition passwd_NextEntry : M iter_state Passwd :=
  NextEntry "passwd" "failed to get passwd entry" NextPasswdEntry passwd_of_user.
Definition group_NextEntry : M iter_state Group :=
  NextEntry "group" "failed to get group entry" NextGroupEntry group_of_record.
Definition shadow_NextEntry : M iter_state Shadow :=
  NextEntry "shadow" "failed to get a shadow entry" NextShadowEntry shadow_of_record.

Definition passwd_EndEntryIteration : M iter_state unit := EndEntryIteration ClosePasswdIterator.
Definition group_EndEntryIteration : M iter_state unit := EndEntryIteration CloseGroupIterator.
Definition shadow_EndEntryIteration : M iter_state unit := EndEntryIteration CloseShadowIterator.

(** ** The shape of a lookup *)

(** A lookup that returned an entry: the operation of a handle that New gave,
    on the tables of its directory. *)
Definition looked_up {A} (op : Cache -> M world A) (opts : list Option) (s : sys) (a : A) : Prop :=
  exists h s1 c, New opts s = (Ok h, s1) /\ s_handles s1 !! h = Some (Handle c true)
    /\ (op c (world_of (o_cacheDir (sig c)) s1)).1 = Ok a.

Lemma lookup_Ok {A B} fmt (op : Cache -> M world A) (f : A -> B) opts s b s' :
  on_error fmt (with_cache ConvertErr opts (fun h =>
    x ← map_err ConvertErr (on_handle h (method op)); mret (f x))) s = (Ok b, s') ->
  exists a, looked_up op opts s a /\ b = f a.
Proof.
  unfold on_error. rewrite map_err_Ok. intros E. apply (f_equal fst) in E. simpl in E.
  rewrite with_cache_result in E. unfold looked_up.
  destruct (New opts s) as [[h|e|why] s1] eqn:En; [|done..].
  destruct ((x ← map_err ConvertErr (on_handle h (method op)); mret (f x)) s1) as [r s2] eqn:Er.
  simpl in E. subst r. apply bind_Ok in Er as (a & s3 & Ha%map_err_Ok & Hr). injection Hr as <- <-.
  exists a. split; [|done]. apply on_handle_method_Ok in Ha as (c & Hc & Ho). eauto 10.
Qed.

(** A lookup that failed has one status. *)
Definition classified (e : gerror) : Prop := exists t, t ∈ nss_statuses /\ errors_is e t = true.

Lemma status_in e : status_of e ∈ nss_statuses.
Proof.
  unfold status_of. destruct (List.find _ _) eqn:Ef.
  { apply List.find_some in Ef as [Hin _]. by apply list_elem_of_In. }
  unfold nss_statuses. rewrite !elem_of_cons. destruct (errors_is _ _); tauto.
Qed.

Lemma ConvertErr_classified fmt e : classified (OnError fmt (ConvertErr e)).
Proof.
  exists (status_of e). rewrite OnError_is. split; [apply status_in|by apply converted_status].
Qed.

(** Every error of a lookup through the cache has been converted. *)
Lemma lookup_classified {A B} fmt (op : Cache -> M world A) (f : A -> B) opts s e s' :
  on_error fmt (with_cache ConvertErr opts (fun h =>
    x ← map_err ConvertErr (on_handle h (method op)); mret (f x))) s = (Err e, s') -> classified e.
Proof.
  unfold on_error. intros (e0 & E & ->)%map_err_Err. apply (f_equal fst) in E. simpl in E.
  rewrite with_cache_result in E.
  destruct (New opts s) as [[h|e1|why] s1]; [|injection E as <-; apply ConvertErr_classified|done].
  unfold mbind, M_bind, map_err in E.
  destruct (on_handle h (method op) s1) as [[a|e1|why] s2]; simpl in E; try done.
  injection E as <-. apply ConvertErr_classified.
Qed.

Lemma lookup_life {A B} fmt (op : Cache -> M world A) (f : A -> B) opts held s : life_ok held s ->
  rtc life_step (held, s) (held, (on_error fmt (with_cache ConvertErr opts (fun h =>
    x ← map_err ConvertErr (on_handle h (method op)); mret (f x))) s).2).
Proof.
  intros L. unfold on_error. rewrite map_err_snd. apply with_cache_life; [|done].
  intros h. auto with uses.
Qed.

(** The contract of a lookup: an entry is made of the record that a cache
    opened with these options holds, an error has one of the statuses of the
    name service, and what was opened is given back in both cases. *)
Definition sound_lookup {A B} (lookup : M sys B) (op : Cache -> M world A) (f : A -> B) (opts : list Option)
    (held : list nat) (s : sys) : Prop :=
  (forall b s', lookup s = (Ok b, s') -> exists a, looked_up op opts s a /\ b = f a) /\
  (forall e s', lookup s = (Err e, s') -> classified e) /\
  rtc life_step (held, s) (held, (lookup s).2).

Lemma lookup_sound {A B} fmt (op : Cache -> M world A) (f : A -> B) opts held s : life_ok held s ->
  sound_lookup (on_error fmt (with_cache ConvertErr opts (fun h =>
    x ← map_err ConvertErr (on_handle h (method op)); mret (f x)))) op f opts held s.
Proof.
  intros L. split_and!; [intros b s'; apply lookup_Ok|intros e s'; apply lookup_classified|by apply lookup_life].
Qed.

(** C36: the five lookups of the name service keep their contract: passwd by
    name and by uid, group by name and by gid, shadow by name. Whatever
    fails on the way, they return the record of the cache or an error with
    a status, and give back the cache that they opened. *)
Theorem lookups_sound name id opts held s : life_ok held s -> name <> "shadow" ->
  sound_lookup (passwd_NewByName name opts) (fun c => GetUserByName c name) passwd_of_user opts held s /\
  sound_lookup (passwd_NewByUID id opts) (fun c => GetUserByUID c id) passwd_of_user opts held s /\
  sound_lookup (group_NewByName name opts) (fun _ => GetGroupByName name) group_of_record opts held s /\
  sound_lookup (group_NewByGID id opts) (fun _ => GetGroupByGID id) group_of_record opts held s /\
  sound_lookup (shadow_NewByName name opts) (fun c => GetShadowByName c name) shadow_masked opts held s.
Proof.
  intros L Hn. unfold group_NewByName. rewrite bool_decide_eq_false_2 by done.
  split_and!; by apply lookup_sound.
Qed.

(** A lookup in the shadow database by name never returns the hash: the
    password of the entry is the star, whatever is stored. *)
Theorem shadow_lookup_masked name opts s sp s' :
  shadow_NewByName name opts s = (Ok sp, s') ->
  sp_passwd sp = "*" /\ exists r, looked_up (fun c => GetShadowByName c name) opts s r /\ sp = shadow_masked r.
Proof. intros (r & Hr & ->)%lookup_Ok. split; [done|by exists r]. Qed.

(** ** The protocol of the iteration *)

Lemma on_isys_run {A} (m : M sys A) i : on_isys m i = ((m (i_sys i)).1, IterState (i_cache i) (m (i_sys i)).2).
Proof. unfold on_isys, zoom. by destruct (m (i_sys i)). Qed.

(** The handle that the global variable holds is held. *)
Definition iter_held (held : list nat) (i : iter_state) : list nat :=
  match i_cache i with Some h => h :: held | None => held end.

(** The global cache of an iteration is managed like any other handle:
    whatever the order of the calls, Start takes one handle when none is
    taken (and refuses a second start without a trace), NextEntry only uses
    it, and End gives it back and forgets it even when closing fails. *)
Theorem iteration_life {Rec Entry} (next : M (Cache * world) Rec) (of_record : Rec -> Entry)
    (close : M (Cache * world) unit) database fmt opts held i :
  frames same_use next -> frames same_use close -> life_ok (iter_held held i) (i_sys i) ->
  (let i' := (StartEntryIteration database opts i).2 in
     rtc life_step (iter_held held i, i_sys i) (iter_held held i', i_sys i')
     /\ (i_cache i <> None -> i' = i)) /\
  (let i' := (NextEntry database fmt next of_record i).2 in
     rtc life_step (iter_held held i, i_sys i) (iter_held held i', i_sys i') /\ i_cache i' = i_cache i) /\
  (let i' := (EndEntryIteration close i).2 in
     rtc life_step (iter_held held i, i_sys i) (held, i_sys i') /\ i_cache i' = None).
Proof.
  intros Hn Hc L. destruct i as [[h|] s]; unfold iter_held in *; simpl in *;
    refine (conj _ (conj _ _)).
  - split; [apply rtc_refl|done].
  - unfold NextEntry, on_error. rewrite map_err_snd. unfold mbind, M_bind, get, map_err. simpl. rewrite on_isys_run. simpl.
    pose proof (uses_on_handle euid egid groups LookupGroup passwd_first h next Hn (h :: held) s
      ltac:(by constructor) L) as Hu.
    destruct (on_handle h next s) as [[a|e|why] s1]; simpl in *; (split; [exact Hu|done]).
  - unfold EndEntryIteration, defer, step, mbind, M_bind, get, map_err. simpl. rewrite on_isys_run. simpl.
    pose proof (uses_on_handle euid egid groups LookupGroup passwd_first h close Hc (h :: held) s
      ltac:(by constructor) L) as Hu.
    assert (forall s1, rtc life_step (h :: held, s) (h :: held, s1) ->
      rtc life_step (h :: held, s) (held, (Close h s1).2)) as Hclose.
    { intros s1 Hs. eapply rtc_r; [exact Hs|].
      apply (StepClose _ _ _ _ _ _ _ _ h (Close h s1).1); [done|]. by destruct (Close h s1). }
    destruct (on_handle h close s) as [[a|e|why] s1]; simpl in *; (split; [by apply Hclose|done]).
  - unfold StartEntryIteration, mbind, M_bind, get, map_err, step. simpl. rewrite on_isys_run. simpl.
    destruct (New opts s) as [[h|e|why] s1] eqn:E; simpl; (split; [apply rtc_once|done]).
    + by eapply StepNew.
    + by eapply StepNewFail.
    + by eapply StepNewFail.
  - split; [|done]. apply rtc_refl.
  - split; [|done]. apply rtc_refl.
Qed.
End Nss.

(** ** Concrete runs *)

Import Concrete.

(** A machine whose cache holds two users. *)
Definition nss_sys : sys :=
  Sys {["/var/lib/aad/cache" := Dir (Some (FileMeta perm_0644 0 0)) (Some (FileMeta perm_0640 0 42)) two_db]}
    [] (2000 * Second) 0 ∅ ∅ [].

Lemma nss_no_cache : no_cache nss_sys.
Proof. done. Qed.

Definition as_root {A} (lookup : Z -> Z -> list Z -> (string -> result string) -> (nat -> bool) -> A) : A :=
  lookup 0 0 root_groups shadow_group in_order.
Definition as_user {A} (lookup : Z -> Z -> list Z -> (string -> result string) -> (nat -> bool) -> A) : A :=
  lookup 1000 1000 [1000] shadow_group in_order.

Definition alice_entry : Passwd := MkPasswd "alice@d" "x" 200000 200000 "" "/home/alice" "/bin/sh".

Example alice_by_name : (as_user passwd_NewByName "alice@d" [] nss_sys).1 = Ok alice_entry.
Proof. vm_compute. reflexivity. Qed.
Example alice_by_uid : (as_user passwd_NewByUID 200000 [] nss_sys).1 = Ok alice_entry.
Proof. vm_compute. reflexivity. Qed.
Example alice_group : (as_user group_NewByGID 200000 [] nss_sys).1 = Ok (MkGroup "alice@d" "x" 200000 ["alice@d"]).
Proof. vm_compute. reflexivity. Qed.
Example alice_String : passwd_String alice_entry = "alice@d:x:200000:200000::/home/alice:/bin/sh".
Proof. vm_compute. reflexivity. Qed.
Example unknown_status : exists e, (as_user passwd_NewByName "nobody" [] nss_sys).1 = Err e
  /\ errors_is e ErrNotFoundENoEnt = true.
Proof. eexists. split; reflexivity. Qed.
(* the group of the shadow database is asked for while the cache is opened *)
Example shadow_group_status : exists e, (as_user group_NewByName "shadow" [] nss_sys) = (Err e, nss_sys)
  /\ errors_is e ErrNotFoundENoEnt = true.
Proof. eexists. split; reflexivity. Qed.
(* without the shadow database a shadow lookup is UNAVAIL *)
Example shadow_unavailable : exists e, (as_user shadow_NewByName "alice@d" [] nss_sys).1 = Err e
  /\ errors_is e ErrUnavailableENoEnt = true.
Proof. eexists. split; reflexivity. Qed.

Lemma lookups_sound_witness :
  (exists u, looked_up 0 0 root_groups shadow_group in_order (fun c => GetUserByName c "alice@d") [] nss_sys u
     /\ alice_entry = passwd_of_user u) /\
  rtc (life_step 0 0 root_groups shadow_group in_order) ([], nss_sys)
    ([], (as_root group_NewByGID 200000 [] nss_sys).2).
Proof.
  destruct (lookups_sound 0 0 root_groups shadow_group in_order "alice@d" 200000 [] [] nss_sys
    (life_ok_init _ nss_no_cache) ltac:(discriminate)) as ((Hok & _) & _ & _ & (_ & _ & Hl) & _).
  split; [|exact Hl].
  assert ((as_root passwd_NewByName "alice@d" [] nss_sys).1 = Ok alice_entry) as E by (vm_compute; reflexivity).
  unfold as_root in E. destruct (passwd_NewByName _ _ _ _ _ _ _ nss_sys) as [r s'] eqn:Er.
  simpl in E. subst r. exact (Hok _ _ eq_refl).
Defined.

Lemma shadow_lookup_masked_witness : exists sp s',
  as_root shadow_NewByName "alice@d" [] nss_sys = (Ok sp, s') /\ sp_passwd sp = "*".
Proof.
  assert (is_ok (as_root shadow_NewByName "alice@d" [] nss_sys).1 = true) as Hok by (vm_compute; reflexivity).
  destruct (as_root shadow_NewByName "alice@d" [] nss_sys) as [[sp|e|p] s'] eqn:E; [|discriminate Hok..].
  exists sp, s'. split; [reflexivity|].
  exact (proj1 (shadow_lookup_masked 0 0 root_groups shadow_group in_order "alice@d" [] nss_sys sp s' E)).
Defined.

(** The iteration over the same table, by root, returns the hashes. *)
Example iteration_returns_hash :
  sp_passwd <$> (match ((as_root shadow_StartEntryIteration [] ;; shadow_NextEntry) (IterState None nss_sys)).1 with
                 | Ok sp => Some sp | _ => None end) = Some "h1".
Proof. vm_compute. reflexivity. Qed.

Lemma iteration_life_witness :
  let i := (as_root passwd_StartEntryIteration [] (IterState None nss_sys)).2 in
  rtc (life_step 0 0 root_groups shadow_group in_order) ([], nss_sys) (iter_held [] i, i_sys i).
Proof.
  exact (proj1 (proj1 (iteration_life 0 0 root_groups shadow_group in_order NextPasswdEntry passwd_of_user
    ClosePasswdIterator "passwd" "" [] [] (IterState None nss_sys) NextPasswdEntry_use ClosePasswdIterator_use
    (life_ok_init _ nss_no_cache)))).
Defined.
