(* ===== verification/RustStd.v ===== *)
(** * What the name service in Rust uses of the standard library of Rust

    The lower case of a string with the rules of Unicode that Go does not apply,
    the integers that [parse] reads, the texts that are UTF-8, and the calls
    that return a value, return an error or panic. *)

From S2P Require Import Prelude GoStrings Interfaces.
Open Scope string_scope.
Open Scope list_scope.
Open Scope Z_scope.

(** ** Calls *)

(** [Result<A, E>], and the panic of [unwrap] and [expect]. *)
Inductive outcome (E A : Type) :=
  | Done (a : A)
  | Failed (e : E)
  | Panicked (why : string).
Arguments Done {E A} a.
Arguments Failed {E A} e.
Arguments Panicked {E A} why.

#[export] Instance outcome_eq_dec {E A} `{EqDecision E} `{EqDecision A} : EqDecision (outcome E A).
Proof. solve_decision. Defined.

(** A computation over a state, with its [?] operator. *)
Definition R (S E A : Type) : Type := S -> outcome E A * S.

#[export] Instance R_ret {S E} : MRet (R S E) := fun A a s => (Done a, s).
#[export] Instance R_bind {S E} : MBind (R S E) := fun A B f m s =>
  match m s with
  | (Done a, s') => f a s'
  | (Failed e, s') => (Failed e, s')
  | (Panicked why, s') => (Panicked why, s')
  end.

Definition err {S E A} (e : E) : R S E A := fun s => (Failed e, s).
Definition panic {S E A} (why : string) : R S E A := fun s => (Panicked why, s).

(** [expect] and [unwrap] *)
Definition expect {S E A} (msg : string) (v : option A) : R S E A :=
  match v with Some a => mret a | None => panic msg end.

(** [match m { Ok(..) => .., Err(..) => .. }] *)
Definition outcome_of {S E E' A} (m : R S E A) : R S E' (A + E) := fun s =>
  match m s with
  | (Done a, s') => (Done (inl a), s')
  | (Failed e, s') => (Done (inr e), s')
  | (Panicked why, s') => (Panicked why, s')
  end.

(** [map_err], and the [Err(err) => return Err(f(err))] of the code *)
Definition map_failed {S E E' A} (f : E -> E') (m : R S E A) : R S E' A := fun s =>
  match m s with
  | (Done a, s') => (Done a, s')
  | (Failed e, s') => (Failed (f e), s')
  | (Panicked why, s') => (Panicked why, s')
  end.

(** What an error displays: its message, without the arguments. *)
Definition to_string (e : gerror) : string :=
  match e with
  | Opaque msg => msg
  | Sentinel OsErrNotExist => "No such file or directory (os error 2)"
  | _ => "error"
  end.

(** A call to the system or to SQLite. *)
Definition foreign {S A} (m : M S A) : R S string A := fun s =>
  match m s with
  | (Ok a, s') => (Done a, s')
  | (Err e, s') => (Failed (to_string e), s')
  | (Panic why, s') => (Panicked why, s')
  end.

(** ** Strings *)

(** [std::str::from_utf8]: no byte is read as the replacement character. *)
Definition is_utf8 (s : string) : bool :=
  forallb (fun '(r, b) => negb ((r =? RuneError) && (String.length b =? 1)%nat)) (decode s).

(** The head of a text that is UTF-8, whatever follows. *)
Lemma is_utf8_step s u : s <> EmptyString -> is_utf8 s = true ->
  exists r b t, s = b +:+ t /\ b <> EmptyString /\ is_utf8 t = true
    /\ negb ((r =? RuneError) && (String.length b =? 1)%nat) = true
    /\ decode (s +:+ u) = (r, b) :: decode (t +:+ u).
Proof.
  destruct s as [|a0 r1]; [done|]. intros _. unfold is_utf8. rewrite append_cons. cbn [decode].
  destruct (Z.ltb_spec (byteZ a0) 0x80) as [Ha|].
  { cbn [forallb]. intros [Hr Ht]%andb_true_iff. by exists (byteZ a0), (str1 a0), r1. }
  destruct r1 as [|a1 r2]; [done|]. rewrite append_cons.
  destruct (two_ok _ _); [cbn [forallb]; intros [Hr Ht]%andb_true_iff; by eexists _, (String a0 (str1 a1)), r2|].
  destruct r2 as [|a2 r3]; [done|]. rewrite append_cons.
  destruct (three_ok _ _ _);
    [cbn [forallb]; intros [Hr Ht]%andb_true_iff; by eexists _, (String a0 (String a1 (str1 a2))), r3|].
  destruct r3 as [|a3 r4]; [done|]. rewrite append_cons.
  destruct (four_ok _ _ _ _); [|done]. cbn [forallb]. intros [Hr Ht]%andb_true_iff.
  by eexists _, (String a0 (String a1 (String a2 (str1 a3)))), r4.
Qed.

Lemma is_utf8_append s t : is_utf8 s = true -> is_utf8 t = true -> is_utf8 (s +:+ t) = true.
Proof.
  intros Hs Ht. induction s as [s IH] using string_length_ind.
  destruct (decide (s = EmptyString)) as [->|Hne]; [done|].
  destruct (is_utf8_step s t Hne Hs) as (r & b & s' & -> & Hb & Hs' & Hr & E).
  unfold is_utf8. rewrite E. cbn [forallb]. rewrite Hr. apply IH; [|done].
  rewrite length_append. destruct b; [done|]. simpl. lia.
Qed.

Lemma is_utf8_Join sep l : is_utf8 sep = true -> Forall (fun s => is_utf8 s = true) l -> is_utf8 (Join sep l) = true.
Proof.
  intros Hsep. induction 1 as [|s l Hs Hl IH]; [done|]. destruct l as [|s' l]; [done|].
  change (is_utf8 (s +:+ sep +:+ Join sep (s' :: l)) = true). by do 2 (apply is_utf8_append; [done|]).
Qed.

(** The classes of characters that the rule of the final sigma looks at. *)
Class UnicodeCase := {
  is_cased : Z -> bool;
  is_case_ignorable : Z -> bool;
}.

Section Lowercase.
Context `{UnicodeLower} `{UnicodeCase}.

Fixpoint case_ignorable_then_cased (rs : list Z) : bool :=
  match rs with
  | [] => false
  | r :: rs => if is_case_ignorable r then case_ignorable_then_cased rs else is_cased r
  end.

(** One character, between those before it, last first, and those after it. *)
Definition lowercase_char (before : list Z) (r : Z) (after : list Z) : list Z :=
  if r =? 0x3A3 then
    [if case_ignorable_then_cased before && negb (case_ignorable_then_cased after) then 0x3C2 else 0x3C3]
  else if r =? 0x130 then [0x69; 0x307]
  else [lower_rune r].

Fixpoint lowercase_chars (before rs : list Z) : list Z :=
  match rs with
  | [] => []
  | r :: rs => lowercase_char before r rs ++ lowercase_chars (r :: before) rs
  end.

(** [str::to_lowercase] *)
Definition to_lowercase (s : string) : string := encode (lowercase_chars [] (runes s)).

(** The two letters whose lower case Rust and Go disagree on. *)
Definition plain_rune (r : Z) : bool := negb (r =? 0x3A3) && negb (r =? 0x130).

Lemma lowercase_chars_plain before rs : forallb plain_rune rs = true -> lowercase_chars before rs = lower_rune <$> rs.
Proof.
  revert before. induction rs as [|r rs IH]; intros before; [done|]. cbn [forallb lowercase_chars].
  intros [[Hs%negb_true_iff Hi%negb_true_iff]%andb_true_iff Hrs]%andb_true_iff.
  unfold lowercase_char. rewrite Hs, Hi, IH by done. done.
Qed.

(** Elsewhere the names are normalised alike. *)
Lemma to_lowercase_plain s : forallb plain_rune (runes s) = true -> to_lowercase s = ToLower s.
Proof. intros Hs. unfold to_lowercase, ToLower. by rewrite lowercase_chars_plain. Qed.

Lemma to_lowercase_ascii s : ascii_only s = true -> to_lowercase s = ToLower s.
Proof.
  intros Hs. apply to_lowercase_plain. rewrite runes_ascii by done. revert Hs. unfold ascii_only.
  rewrite !forallb_forall. intros Hs r Hr%Hs. unfold plain_rune. lia.
Qed.
End Lowercase.

(** ** Integers *)

Fixpoint digits (acc : Z) (s : string) : option Z :=
  match s with
  | EmptyString => Some acc
  | String a s => if in_rng 48 57 (byteZ a) then digits (acc * 10 + (byteZ a - 48)) s else None
  end.

(** [from_str_radix(s, 10)] for a type of integers between two bounds: a sign
    alone is not a number, and only a signed type takes the minus. *)
Definition from_str (lo hi : Z) (s : string) : option Z :=
  v ← match s with
      | EmptyString => None
      | String "+" EmptyString | String "-" EmptyString => None
      | String "+" s' => digits 0 s'
      | String "-" s' => if lo <? 0 then Z.opp <$> digits 0 s' else None
      | _ => digits 0 s
      end;
  if in_rng lo hi v then Some v else None.

Definition parse_u32 : string -> option Z := from_str 0 (2 ^ 32 - 1).
Definition parse_i32 : string -> option Z := from_str (- 2 ^ 31) (2 ^ 31 - 1).

Lemma parse_u32_range s z : parse_u32 s = Some z -> 0 <= z < 2 ^ 32.
Proof.
  unfold parse_u32, from_str. intros (v & _ & Hv)%bind_Some. unfold in_rng in Hv.
  destruct (_ && _) eqn:E; simplify_eq. apply andb_true_iff in E as [?%Z.leb_le ?%Z.leb_le]. lia.
Qed.

Example parse_examples : parse_i32 "-1" = Some (-1) /\ parse_i32 "+2" = Some 2 /\ parse_u32 "-1" = None
  /\ parse_u32 "4294967296" = None /\ parse_i32 "" = None /\ parse_i32 "1 " = None.
Proof. vm_compute. done. Qed.

(** ** What a computation does on every path *)

(** A postcondition of the outcome and of the state. *)
Definition ensures {S E A} (m : R S E A) (Q : S -> outcome E A -> S -> Prop) : Prop :=
  forall s, Q s (m s).1 (m s).2.

Lemma R_bind_Done {S E A B} (m : R S E A) (f : A -> R S E B) s b s' :
  (m ≫= f) s = (Done b, s') <-> exists a s1, m s = (Done a, s1) /\ f a s1 = (Done b, s').
Proof.
  unfold mbind, R_bind. destruct (m s) as [[a|e|why] s1]; split; try done;
    try (by intros (? & ? & [=] & _)); [by eauto|]. by intros (? & ? & [= <- <-] & ?).
Qed.

Lemma outcome_of_Done {S E E' A} (m : R S E A) s r s' : @outcome_of S E E' A m s = (Done r, s') <->
  (exists a, m s = (Done a, s') /\ r = inl a) \/ (exists e, m s = (Failed e, s') /\ r = inr e).
Proof.
  unfold outcome_of. destruct (m s) as [[a|e|why] t]; (split; [intros H|intros [(x & H & ->)|(x & H & ->)]]); simplify_eq; eauto.
Qed.

Lemma map_failed_Done {S E E' A} (f : E -> E') (m : R S E A) s a s' :
  map_failed f m s = (Done a, s') <-> m s = (Done a, s').
Proof. unfold map_failed. destruct (m s) as [[x|x|x] t]; split; intros H; by simplify_eq. Qed.

Lemma foreign_Done {S A} (m : M S A) s a s' : foreign m s = (Done a, s') <-> m s = (Ok a, s').
Proof. unfold foreign. destruct (m s) as [[]]; split; intros; by simplify_eq. Qed.

(** What a computation keeps of the state, whatever happens. *)
Section Keeps.
Context {S : Type} (K : S -> S -> Prop) `{!PreOrder K}.

Definition keeps {E A} (m : R S E A) : Prop := forall s, K s (m s).2.

Lemma keeps_ret {E A} (a : A) : keeps (mret a : R S E A).
Proof. intros s. simpl. reflexivity. Qed.
Lemma keeps_err {E A} (e : E) : keeps (@err S E A e).
Proof. intros s. simpl. reflexivity. Qed.
Lemma keeps_panic {E A} why : keeps (@panic S E A why).
Proof. intros s. simpl. reflexivity. Qed.
Lemma keeps_expect {E A} msg (v : option A) : keeps (@expect S E A msg v).
Proof. destruct v; [apply keeps_ret|apply keeps_panic]. Qed.
Lemma keeps_bind {E A B} (m : R S E A) (f : A -> R S E B) : keeps m -> (forall a, keeps (f a)) -> keeps (m ≫= f).
Proof.
  intros Hm Hf s. unfold mbind, R_bind. specialize (Hm s).
  destruct (m s) as [[a|e|p] s']; simpl in *; [|done..]. etrans; [done|apply Hf].
Qed.
Lemma keeps_outcome_of {E E' A} (m : R S E A) : keeps m -> keeps (@outcome_of S E E' A m).
Proof. intros Hm s. unfold outcome_of. specialize (Hm s). by destruct (m s) as [[]]. Qed.
Lemma keeps_map_failed {E E' A} (f : E -> E') (m : R S E A) : keeps m -> keeps (map_failed f m).
Proof. intros Hm s. unfold map_failed. specialize (Hm s). by destruct (m s) as [[]]. Qed.
Lemma keeps_foreign {A} (m : M S A) : frames K m -> keeps (foreign m).
Proof. intros Hm s. unfold foreign. specialize (Hm s). by destruct (m s) as [[]]. Qed.
Lemma keeps_if {E A} (b : bool) (m1 m2 : R S E A) : keeps m1 -> keeps m2 -> keeps (if b then m1 else m2).
Proof. by destruct b. Qed.
End Keeps.

(** A computation that cannot panic. *)
Definition calmly {S E A} (m : R S E A) : Prop := forall s why, (m s).1 <> Panicked why.

Lemma calmly_ret {S E A} (a : A) : calmly (mret a : R S E A).
Proof. done. Qed.
Lemma calmly_err {S E A} (e : E) : calmly (@err S E A e).
Proof. done. Qed.
Lemma calmly_bind {S E A B} (m : R S E A) (f : A -> R S E B) : calmly m -> (forall a, calmly (f a)) -> calmly (m ≫= f).
Proof.
  intros Hm Hf s why. unfold mbind, R_bind. specialize (Hm s).
  destruct (m s) as [[a|e|p] s']; simpl in *; [apply Hf|done|by specialize (Hm p)].
Qed.
Lemma calmly_outcome_of {S E E' A} (m : R S E A) : calmly m -> calmly (@outcome_of S E E' A m).
Proof.
  intros Hm s why. unfold outcome_of. specialize (Hm s). destruct (m s) as [[]]; [done..|by specialize (Hm why0)].
Qed.
Lemma calmly_map_failed {S E E' A} (f : E -> E') (m : R S E A) : calmly m -> calmly (map_failed f m).
Proof.
  intros Hm s why. unfold map_failed. specialize (Hm s). destruct (m s) as [[]]; [done..|by specialize (Hm why0)].
Qed.
Lemma calmly_foreign {S A} (m : M S A) : no_panic m -> calmly (foreign m).
Proof.
  intros Hm s why. unfold foreign. specialize (Hm s). destruct (m s) as [[]]; [done..|by specialize (Hm why0)].
Qed.
Lemma calmly_if {S E A} (b : bool) (m1 m2 : R S E A) : calmly m1 -> calmly m2 -> calmly (if b then m1 else m2).
Proof. by destruct b. Qed.

#[export] Hint Resolve keeps_ret keeps_err keeps_panic keeps_expect keeps_bind keeps_outcome_of keeps_map_failed
  keeps_foreign keeps_if : frames.
#[export] Hint Resolve calmly_ret calmly_err calmly_bind calmly_outcome_of calmly_map_failed calmly_foreign
  calmly_if : aad.

(** ** Concrete classes of characters *)

Module LatinCase.
#[global] Instance latin_case : UnicodeCase := {|
  is_cased r := in_rng 65 90 r || in_rng 97 122 r || in_rng 0xC0 0xFF r || in_rng 0x391 0x3C9 r;
  is_case_ignorable r := bool_decide (r ∈ [0x27; 0x2E; 0x3A; 0x5E; 0x60]);
|}.
End LatinCase.
Import Concrete LatinCase.

(** The capital sigma that ends a word: Rust writes the final form. *)
Example final_sigma :
  let name := encode [0x3A3; 0x3A3; 0x40; 0x64] in
  to_lowercase name = encode [0x3C3; 0x3C2; 0x40; 0x64].
Proof. vm_compute. done. Qed.
