(* ===== verification/RustCache.v ===== *)
(** * src/nss/src/cache/mod.rs: the cache as the name service in Rust sees it

    The builder that checks the files and opens the connection, the lookups, the
    enumerations and the purge. The files and the tables are those of CacheOpen
    and Tables, which the Go packages share; the crates users, faccess and
    rusqlite are parameters or calls that can fail. *)

From S2P Require Import Prelude GoStrings Interfaces Tables CacheDB CacheFacts HomeDir UidGen CacheAuth CacheOpen RustStd.
Open Scope string_scope.
Open Scope list_scope.
Open Scope Z_scope.

(** ** Data *)

Definition DB_PATH : string := "/var/lib/aad/cache".
Definition OFFLINE_CREDENTIALS_EXPIRATION : Z := 90.
Definition EXPIRATION_PURGE_MULTIPLIER : Z := 2.

Definition PASSWD_PERMS : Z := perm_0644.
Definition SHADOW_PERMS : Z := perm_0640.

Definition DB_CONN_PREFIX : string := "file:".
Definition DB_CONN_OPT_RW : string := "?journal_mode=wal".
Definition DB_CONN_OPT_RO : string := "?immutable=1".

Inductive ShadowMode := AutoDetect | Unavailable | ReadOnly | ReadWrite.

#[export] Instance ShadowMode_eq_dec : EqDecision ShadowMode.
Proof. solve_decision. Defined.

(** The discriminants, which the derived order compares. *)
Definition mode_value (m : ShadowMode) : Z :=
  match m with AutoDetect => -1 | Unavailable => 0 | ReadOnly => 1 | ReadWrite => 2 end.

(** [impl From<i32> for ShadowMode] *)
Definition ShadowMode_from (value : Z) : ShadowMode :=
  if value =? -1 then AutoDetect
  else if value =? 0 then Unavailable
  else if value =? 1 then ReadOnly
  else if value =? 2 then ReadWrite
  else Unavailable.

Record Passwd := MkPasswd {
  pw_name : string;
  pw_passwd : string;
  pw_uid : Z;
  pw_gid : Z;
  pw_gecos : string;
  pw_home : string;
  pw_shell : string;
}.

Record Group := MkGroup { gr_name : string; gr_passwd : string; gr_gid : Z; gr_members : list string }.

Record Shadow := MkShadow {
  sp_name : string;
  sp_passwd : string;
  sp_last_pwd_change : Z;
  sp_min_pwd_age : Z;
  sp_max_pwd_age : Z;
  sp_pwd_warn_period : Z;
  sp_pwd_inactivity : Z;
  sp_expiration_date : Z;
}.

Inductive CacheError :=
  | NoDatabases (msg : string)
  | DatabaseError (msg : string)
  | QueryError (msg : string)
  | NoRecord.

#[export] Instance CacheError_eq_dec : EqDecision CacheError.
Proof. solve_decision. Defined.

(** rusqlite: the URI and the flags of the connection, and the attached file. *)
Inductive OpenFlags := SQLITE_OPEN_READ_WRITE | SQLITE_OPEN_READ_ONLY.

Record Connection := MkConnection {
  conn_dir : string;
  conn_uri : string;
  conn_args : string;
  conn_flags : OpenFlags;
  conn_attached : bool;
}.

Record CacheDB := MkCacheDB {
  conn : Connection;
  shadow_mode : ShadowMode;
  offline_credentials_expiration : Z;
}.

Record CacheDBBuilder := MkBuilder {
  b_db_path : string;
  b_offline_credentials_expiration : Z;
  b_root_uid : Z;
  b_root_gid : Z;
  b_shadow_gid : option Z;
  b_shadow_mode : ShadowMode;
  b_passwd_perms : Z;
  b_shadow_perms : Z;
}.

Record DbFileInfo := MkDbFileInfo { path : db_file; expected_uid : Z; expected_gid : Z; expected_perms : Z }.

(** ** The setters of the builder *)

Definition with_db_path (p : string) (b : CacheDBBuilder) : CacheDBBuilder :=
  MkBuilder p (b_offline_credentials_expiration b) (b_root_uid b) (b_root_gid b) (b_shadow_gid b)
    (b_shadow_mode b) (b_passwd_perms b) (b_shadow_perms b).
Definition with_root_uid (uid : Z) (b : CacheDBBuilder) : CacheDBBuilder :=
  MkBuilder (b_db_path b) (b_offline_credentials_expiration b) uid (b_root_gid b) (b_shadow_gid b)
    (b_shadow_mode b) (b_passwd_perms b) (b_shadow_perms b).
Definition with_root_gid (gid : Z) (b : CacheDBBuilder) : CacheDBBuilder :=
  MkBuilder (b_db_path b) (b_offline_credentials_expiration b) (b_root_uid b) gid (b_shadow_gid b)
    (b_shadow_mode b) (b_passwd_perms b) (b_shadow_perms b).
Definition with_shadow_gid (gid : Z) (b : CacheDBBuilder) : CacheDBBuilder :=
  MkBuilder (b_db_path b) (b_offline_credentials_expiration b) (b_root_uid b) (b_root_gid b) (Some gid)
    (b_shadow_mode b) (b_passwd_perms b) (b_shadow_perms b).
Definition with_shadow_mode (mode : Z) (b : CacheDBBuilder) : CacheDBBuilder :=
  MkBuilder (b_db_path b) (b_offline_credentials_expiration b) (b_root_uid b) (b_root_gid b) (b_shadow_gid b)
    (ShadowMode_from mode) (b_passwd_perms b) (b_shadow_perms b).
Definition with_offline_credentials_expiration (value : Z) (b : CacheDBBuilder) : CacheDBBuilder :=
  MkBuilder (b_db_path b) value (b_root_uid b) (b_root_gid b) (b_shadow_gid b)
    (b_shadow_mode b) (b_passwd_perms b) (b_shadow_perms b).
Definition with_passwd_perms (perms : Z) (b : CacheDBBuilder) : CacheDBBuilder :=
  MkBuilder (b_db_path b) (b_offline_credentials_expiration b) (b_root_uid b) (b_root_gid b) (b_shadow_gid b)
    (b_shadow_mode b) perms (b_shadow_perms b).
Definition with_shadow_perms (perms : Z) (b : CacheDBBuilder) : CacheDBBuilder :=
  MkBuilder (b_db_path b) (b_offline_credentials_expiration b) (b_root_uid b) (b_root_gid b) (b_shadow_gid b)
    (b_shadow_mode b) (b_passwd_perms b) perms.

(** [CacheDB::new] *)
Definition new : CacheDBBuilder :=
  MkBuilder DB_PATH OFFLINE_CREDENTIALS_EXPIRATION 0 0 None AutoDetect PASSWD_PERMS SHADOW_PERMS.

(** ** Rows *)

(** [row.get(i)] for a String, a u32 and an isize *)
Definition get_string (v : option string) : option string :=
  match v with Some s => if is_utf8 s then Some s else None | None => None end.
Definition get_u32 (v : option Z) : option Z :=
  match v with Some z => if in_rng 0 (2 ^ 32 - 1) z then Some z else None | None => None end.
Definition get_isize (v : option Z) : option Z :=
  match v with Some z => if in_rng (- 2 ^ 63) (2 ^ 63 - 1) z then Some z else None | None => None end.

Definition passwd_entry (p : passwd_row) : R world CacheError Passwd :=
  name ← expect "invalid name" (get_string (Some (p_login p)));
  passwd ← expect "invalid passwd" (get_string (p_password p));
  uid ← expect "invalid uid" (get_u32 (Some (p_uid p)));
  gid ← expect "invalid gid" (get_u32 (Some (p_gid p)));
  gecos ← expect "invalid gecos" (get_string (p_gecos p));
  home ← expect "invalid home" (get_string (p_home p));
  shell ← expect "invalid shell" (get_string (p_shell p));
  mret (MkPasswd name passwd uid gid gecos home shell).

Definition shadow_entry (ps : passwd_row * shadow_row) : R world CacheError Shadow :=
  name ← expect "invalid login" (get_string (Some (p_login ps.1)));
  passwd ← expect "invalid passwd" (get_string (Some (s_password ps.2)));
  last_pwd_change ← expect "invalid last_pwd_change" (get_isize (Some (s_last_pwd_change ps.2)));
  min_pwd_age ← expect "invalid min_pwd_age" (get_isize (Some (s_min_pwd_age ps.2)));
  max_pwd_age ← expect "invalid max_pwd_age" (get_isize (Some (s_max_pwd_age ps.2)));
  pwd_warn_period ← expect "invalid pwd_warn_period" (get_isize (Some (s_pwd_warn_period ps.2)));
  pwd_inactivity ← expect "invalid pwd_inactivity" (get_isize (Some (s_pwd_inactivity ps.2)));
  expiration_date ← expect "invalid expiration_date" (get_isize (Some (s_expiration_date ps.2)));
  mret (MkShadow name passwd last_pwd_change min_pwd_age max_pwd_age pwd_warn_period pwd_inactivity expiration_date).

Definition group_entry (g : group_cols) : R world CacheError Group :=
  tmp ← expect "invalid members" (get_string (gc_members g));
  let members := Split "," tmp in
  name ← expect "invalid name" (get_string (gc_name g));
  passwd ← expect "invalid passwd" (get_string (gc_password g));
  gid ← expect "invalid gid" (get_u32 (gc_gid g));
  mret (MkGroup name passwd gid members).

(** [while let Ok(Some(row)) = rows.next()]: a failure ends the rows too. *)
Fixpoint rows_to_entries {Row Ent} (entry : Row -> R world CacheError Ent) (rows : list Row)
    : R world CacheError (list Ent) :=
  next ← outcome_of (foreign driver);
  match next, rows with
  | inl _, row :: rows =>
      e ← entry row;
      es ← rows_to_entries entry rows;
      mret (e :: es)
  | _, _ => mret []
  end.

Definition rows_to_passwd_entries : list passwd_row -> R world CacheError (list Passwd) := rows_to_entries passwd_entry.
Definition rows_to_shadow_entries : list (passwd_row * shadow_row) -> R world CacheError (list Shadow) :=
  rows_to_entries shadow_entry.
Definition rows_to_group_entries : list group_cols -> R world CacheError (list Group) := rows_to_entries group_entry.

Definition expect_one_row {A} (entries : list A) : R world CacheError A :=
  if (1 <? length entries)%nat then err (DatabaseError "More than one entry found")
  else match last entries with
       | Some entry => mret entry
       | None => err NoRecord
       end.

(** ** Queries *)

Definition prepare_statement : R world CacheError unit := map_failed QueryError (foreign driver).

(** [stmt.query(..)]: the rows that [next] will give. *)
Definition stmt_query {A} (q : database -> list A) : R world CacheError (list A) :=
  map_failed QueryError (foreign (query q)).

Definition pair_le (x y : passwd_row * shadow_row) : Prop := login_le x.1 y.1.
#[export] Instance pair_le_dec x y : Decision (pair_le x y).
Proof. unfold pair_le. apply _. Defined.

Section Lookups.
Context `{RowOrder} `{UnicodeLower} `{UnicodeCase}.

Definition normalize_username (username : string) : string := to_lowercase username.

Definition select_passwd (where_ : passwd_row -> bool) (d : database) : list passwd_row :=
  row_order (filter (fun p => where_ p = true) (t_passwd d)).

Definition get_passwd_by_uid (uid : Z) : R world CacheError Passwd :=
  prepare_statement ;;
  rows ← stmt_query (select_passwd (fun p => p_uid p =? uid));
  entries ← rows_to_passwd_entries rows;
  expect_one_row entries.

Definition get_passwd_by_name (login : string) : R world CacheError Passwd :=
  prepare_statement ;;
  rows ← stmt_query (select_passwd (fun p => bool_decide (p_login p = normalize_username login)));
  entries ← rows_to_passwd_entries rows;
  expect_one_row entries.

Definition get_all_passwds : R world CacheError (list Passwd) :=
  prepare_statement ;;
  rows ← stmt_query (fun d => merge_sort login_le (t_passwd d));
  rows_to_passwd_entries rows.

Definition get_group_by_gid (gid : Z) : R world CacheError Group :=
  prepare_statement ;;
  rows ← stmt_query (select_group (fun g => g_gid g =? gid));
  entries ← rows_to_group_entries rows;
  expect_one_row entries.

Definition get_group_by_name (name : string) : R world CacheError Group :=
  prepare_statement ;;
  rows ← stmt_query (select_group (fun g => bool_decide (g_name g = normalize_username name)));
  entries ← rows_to_group_entries rows;
  expect_one_row entries.

Definition get_all_groups : R world CacheError (list Group) :=
  prepare_statement ;;
  rows ← stmt_query select_all_groups;
  rows_to_group_entries rows.

Definition shadow_inaccessible (c : CacheDB) : bool := mode_value (shadow_mode c) <? mode_value ReadOnly.

Definition get_shadow_by_name (c : CacheDB) (name : string) : R world CacheError Shadow :=
  if shadow_inaccessible c then err (DatabaseError "Shadow database is not accessible")
  else
    prepare_statement ;;
    rows ← stmt_query (fun d => row_order (join_shadow
             (filter (fun p => p_login p = normalize_username name) (t_passwd d)) (t_shadow d)));
    entries ← rows_to_shadow_entries rows;
    expect_one_row entries.

Definition get_all_shadows (c : CacheDB) : R world CacheError (list Shadow) :=
  if shadow_inaccessible c then err (DatabaseError "Shadow database is not accessible")
  else
    prepare_statement ;;
    rows ← stmt_query (fun d => merge_sort pair_le (row_order (join_shadow (t_passwd d) (t_shadow d))));
    rows_to_shadow_entries rows.
End Lookups.

(** ** The purge *)

(** Arithmetic on i32, as in a release build *)
Definition i32 (z : Z) : Z := (z + 2 ^ 31) mod 2 ^ 32 - 2 ^ 31.

(** [(OffsetDateTime::now_utc() - Duration::days(days)).unix_timestamp()], which
    panics before the year -9999 and after the year 9999. *)
Definition purge_before (now days : Z) : result Z :=
  let t := Unix (now - days * 86400 * Second) in
  if in_rng (-377705116800) 253402300799 t then Ok t else Panic "resulting value is out of range".

(** A connection that SQLite takes for read-only refuses to write. *)
Definition execute (c : Connection) (stmt : database -> database) : M world unit :=
  if bool_decide (conn_args c = DB_CONN_OPT_RO)
  then driver ;; fail (Opaque "attempt to write a readonly database")
  else exec_ok stmt.

Definition cleanup_expired_entries (c : CacheDB) : R world string unit :=
  if offline_credentials_expiration c =? 0 then mret tt
  else foreign (transaction (
    w ← get;
    purge_time ← lift (purge_before (w_now w)
                         (i32 (EXPIRATION_PURGE_MULTIPLIER * offline_credentials_expiration c)));
    exec_ok (delete_old_shadow purge_time) ;;
    execute (conn c) (delete_old_passwd purge_time) ;;
    execute (conn c) delete_empty_groups)).

(** ** The builder *)

(** A computation on the tables of a directory. *)
Definition on_tables {E A} (dir : string) (m : R world E A) : R sys E A := fun s =>
  let '(r, w) := m (world_of dir s) in (r, put_world dir w s).

(** What is asked of the faccess crate. *)
Inductive checked := TheDirectory | TheFile (f : db_file).

Section Build.
(* faccess: the answers for the paths of a directory *)
Variables readable writable : string -> checked -> sys -> bool.
(* users *)
Variable get_group_by_name_sys : string -> option Z.

(** [file.path.exists()] *)
Definition exists_ (dir : string) (f : db_file) : R sys CacheError bool :=
  r ← outcome_of (foreign (stat dir f));
  mret (match r with inl _ => true | inr _ => false end).

(** The loop that looks for a file. *)
Fixpoint any_exists (dir : string) (files : list DbFileInfo) (found : bool) : R sys CacheError bool :=
  match files with
  | [] => mret found
  | file :: files => b ← exists_ dir (path file); any_exists dir files (found || b)
  end.

(** The mode of a file is compared through the expected bits only. *)
Fixpoint check_file_permissions (dir : string) (files : list DbFileInfo) : R sys CacheError unit :=
  match files with
  | [] => mret tt
  | file :: files =>
      st ← map_failed DatabaseError (foreign (stat dir (path file)));
      if negb (Z.land (f_mode st) (expected_perms file) =? expected_perms file) then
        err (DatabaseError "invalid permissions for {}, expected {:o} but got {:o}")
      else if negb (f_uid st =? expected_uid file) || negb (f_gid st =? expected_gid file) then
        err (DatabaseError "invalid ownership for {}, expected {}:{} but got {}:{}")
      else check_file_permissions dir files
  end.

Definition shadow_gid_of (b : CacheDBBuilder) : R sys CacheError Z :=
  match b_shadow_gid b with
  | Some gid => mret gid
  | None =>
      match get_group_by_name_sys "shadow" with
      | Some gid => mret gid
      | None => err (DatabaseError "failed to find group id for group 'shadow'")
      end
  end.

Definition db_files (b : CacheDBBuilder) (shadow_gid : Z) : list DbFileInfo :=
  [MkDbFileInfo PasswdDB (b_root_uid b) (b_root_gid b) (b_passwd_perms b);
   MkDbFileInfo ShadowDB (b_root_uid b) shadow_gid (b_shadow_perms b)].

Definition detect_mode (b : CacheDBBuilder) : R sys CacheError ShadowMode := fun s =>
  let dir := b_db_path b in
  (Done (match b_shadow_mode b with
         | AutoDetect =>
             if writable dir (TheFile ShadowDB) s then ReadWrite
             else if readable dir (TheFile ShadowDB) s then ReadOnly
             else Unavailable
         | m => m
         end), s).

Definition open_flags (m : ShadowMode) : OpenFlags :=
  match m with ReadWrite => SQLITE_OPEN_READ_WRITE | _ => SQLITE_OPEN_READ_ONLY end.

Definition passwd_db_args (dir : string) : R sys CacheError string := fun s =>
  (Done (if writable dir (TheFile PasswdDB) s
         then if writable dir TheDirectory s then DB_CONN_OPT_RW else DB_CONN_OPT_RO
         else DB_CONN_OPT_RO), s).

(** [to_str().unwrap()] on a path below the directory *)
Definition to_str (dir name : string) : R sys CacheError string :=
  expect "called `Option::unwrap()` on a `None` value"
    (if is_utf8 dir then Some (dir +:+ "/" +:+ name) else None).

(** [build], up to the purge *)
Definition open_connection (b : CacheDBBuilder) : R sys CacheError CacheDB :=
  shadow_gid ← shadow_gid_of b;
  let dir := b_db_path b in
  let files := db_files b shadow_gid in
  found ← any_exists dir files false;
  if negb found then err (NoDatabases "no aad-auth cache found at {:?}")
  else
    check_file_permissions dir files ;;
    shadow_mode ← detect_mode b;
    args ← passwd_db_args dir;
    passwd_db ← to_str dir "passwd.db";
    map_failed DatabaseError (foreign syscall) ;;
    (if mode_value ReadOnly <=? mode_value shadow_mode then
       to_str dir "shadow.db" ;; map_failed DatabaseError (foreign syscall)
     else mret tt) ;;
    mret (MkCacheDB (MkConnection dir (DB_CONN_PREFIX +:+ passwd_db +:+ args) args (open_flags shadow_mode)
                       (mode_value ReadOnly <=? mode_value shadow_mode))
            shadow_mode (b_offline_credentials_expiration b)).

Definition build (b : CacheDBBuilder) : R sys CacheError CacheDB :=
  c ← open_connection b;
  (if mode_value ReadWrite <=? mode_value (shadow_mode c) then
     map_failed DatabaseError (on_tables (conn_dir (conn c)) (cleanup_expired_entries c))
   else mret tt) ;;
  mret c.
End Build.

(** [CacheDB::new_for_tests], which is [new] outside of the tests *)
Definition new_for_tests (cfg_test : bool) (env : string -> option string) (current_uid current_gid : Z)
    : R sys CacheError CacheDBBuilder :=
  if negb cfg_test then mret new
  else
    db_path ← expect "NotPresent" (env "NSS_AAD_CACHEDIR");
    let builder := MkBuilder db_path OFFLINE_CREDENTIALS_EXPIRATION current_uid current_gid (Some current_gid)
                     AutoDetect PASSWD_PERMS SHADOW_PERMS in
    match env "NSS_AAD_SHADOW_MODE" with
    | None => mret builder
    | Some v => tmp ← expect "ParseIntError" (parse_i32 v); mret (with_shadow_mode tmp builder)
    end.
