(* ===== verification/RustNss.v ===== *)
(** * src/nss/src: the hooks of the name service in Rust

    lib.rs, with the opening of the cache and the conversion of its errors, the
    hooks of passwd, group and shadow, and the choice of the logger. The crate
    libnss, which the hooks are given to, is a parameter: its records and its
    responses are what the code builds of them. *)

From S2P Require Import Prelude GoStrings Interfaces Tables CacheDB CacheFacts HomeDir UidGen CacheAuth CacheOpen.
From S2P Require Import RustStd RustCache.
Open Scope string_scope.
Open Scope list_scope.
Open Scope Z_scope.

(** ** libnss *)

Inductive Response (A : Type) := Success (a : A) | NotFound | Unavail.
Arguments Success {A} a.
Arguments NotFound {A}.
Arguments Unavail {A}.

#[export] Instance Response_eq_dec {A} `{EqDecision A} : EqDecision (Response A).
Proof. solve_decision. Defined.

Record NssPasswd := MkNssPasswd {
  n_name : string; n_passwd : string; n_uid : Z; n_gid : Z; n_gecos : string; n_dir : string; n_shell : string }.

Record NssGroup := MkNssGroup { n_gr_name : string; n_gr_passwd : string; n_gr_gid : Z; n_gr_members : list string }.

Record NssShadow := MkNssShadow {
  n_sp_name : string;
  n_sp_passwd : string;
  n_last_change : Z;
  n_change_min_days : Z;
  n_change_max_days : Z;
  n_change_warn_days : Z;
  n_change_inactive_days : Z;
  n_expire_date : Z;
  n_reserved : Z;
}.

(** ** lib.rs *)

Definition cache_result_to_nss_status {S A} (r : R S CacheError A) : R S Empty_set (Response A) :=
  x ← outcome_of r;
  mret (match x with
        | inl t => Success t
        | inr (NoDatabases _) => Unavail
        | inr (DatabaseError _) => Unavail
        | inr (QueryError _) => Unavail
        | inr NoRecord => NotFound
        end).

(** The features that the library is compiled with. *)
Record features := Features { integration_tests : bool; cfg_test : bool }.

(** The library that is installed. *)
Definition released : features := Features false false.

(** A setter that the environment calls. *)
Definition override (env : string -> option string) (var : string) (set : string -> CacheDBBuilder -> option CacheDBBuilder)
    (b : CacheDBBuilder) : R sys CacheError CacheDBBuilder :=
  match env var with
  | None => mret b
  | Some v => expect "ParseIntError" (set v b)
  end.

Definition override_cache_options (env : string -> option string) (c : CacheDBBuilder)
    : R sys CacheError CacheDBBuilder :=
  c ← override env "NSS_AAD_CACHEDIR" (fun v c => Some (with_db_path v c)) c;
  c ← override env "NSS_AAD_ROOT_UID" (fun v c => (fun n => with_root_uid n c) <$> parse_u32 v) c;
  c ← override env "NSS_AAD_ROOT_GID" (fun v c => (fun n => with_root_gid n c) <$> parse_u32 v) c;
  c ← override env "NSS_AAD_SHADOW_GID" (fun v c => (fun n => with_shadow_gid n c) <$> parse_u32 v) c;
  override env "NSS_AAD_SHADOWMODE" (fun v c => (fun n => with_shadow_mode n c) <$> parse_i32 v) c.

Section Hooks.
Context `{RowOrder} `{UnicodeLower} `{UnicodeCase}.
Variables readable writable : string -> checked -> sys -> bool.
Variable get_group_by_name_sys : string -> option Z.
Variable cfg : features.
Variable env : string -> option string.
Variables current_uid current_gid : Z.

(** The builder that new_cache ends up with. *)
Definition new_builder : R sys CacheError CacheDBBuilder :=
  c ← (if integration_tests cfg then override_cache_options env new else mret new);
  if cfg_test cfg then new_for_tests (cfg_test cfg) env current_uid current_gid else mret c.

Definition new_cache : R sys CacheError CacheDB :=
  c ← new_builder;
  build readable writable get_group_by_name_sys c.

(** A query of a hook, on the tables that the connection is for. *)
Definition on_cache {A} (q : CacheDB -> R world CacheError A) : R sys CacheError A :=
  c ← new_cache;
  on_tables (conn_dir (conn c)) (q c).

(** ** passwd/mod.rs *)

Definition cache_passwd_to_nss_passwd (e : Passwd) : NssPasswd :=
  MkNssPasswd (pw_name e) (pw_passwd e) (pw_uid e) (pw_gid e) (pw_gecos e) (pw_home e) (pw_shell e).

Definition passwd_get_all_entries : R sys Empty_set (Response (list NssPasswd)) :=
  cache_result_to_nss_status (es ← on_cache (fun _ => get_all_passwds); mret (cache_passwd_to_nss_passwd <$> es)).

Definition passwd_get_entry_by_uid (uid : Z) : R sys Empty_set (Response NssPasswd) :=
  cache_result_to_nss_status (e ← on_cache (fun _ => get_passwd_by_uid uid); mret (cache_passwd_to_nss_passwd e)).

Definition passwd_get_entry_by_name (name : string) : R sys Empty_set (Response NssPasswd) :=
  cache_result_to_nss_status (e ← on_cache (fun _ => get_passwd_by_name name); mret (cache_passwd_to_nss_passwd e)).

(** ** group/mod.rs *)

Definition cache_group_to_nss_group (e : Group) : NssGroup :=
  MkNssGroup (gr_name e) (gr_passwd e) (gr_gid e) (gr_members e).

Definition group_get_all_entries : R sys Empty_set (Response (list NssGroup)) :=
  cache_result_to_nss_status (es ← on_cache (fun _ => get_all_groups); mret (cache_group_to_nss_group <$> es)).

Definition group_get_entry_by_gid (gid : Z) : R sys Empty_set (Response NssGroup) :=
  cache_result_to_nss_status (e ← on_cache (fun _ => get_group_by_gid gid); mret (cache_group_to_nss_group e)).

Definition group_get_entry_by_name (name : string) : R sys Empty_set (Response NssGroup) :=
  cache_result_to_nss_status (e ← on_cache (fun _ => get_group_by_name name); mret (cache_group_to_nss_group e)).

(** ** shadow/mod.rs *)

Definition usize_MAX : Z := 2 ^ 64 - 1.

Definition cache_shadow_to_nss_shadow (e : Shadow) : NssShadow :=
  MkNssShadow (sp_name e) (sp_passwd e) (sp_last_pwd_change e) (sp_min_pwd_age e) (sp_max_pwd_age e)
    (sp_pwd_warn_period e) (sp_pwd_inactivity e) (sp_expiration_date e) usize_MAX.

(** [entry.passwd = "*".to_string()] *)
Definition mask (e : NssShadow) : NssShadow :=
  MkNssShadow (n_sp_name e) "*" (n_last_change e) (n_change_min_days e) (n_change_max_days e)
    (n_change_warn_days e) (n_change_inactive_days e) (n_expire_date e) (n_reserved e).

Definition shadow_get_all_entries : R sys Empty_set (Response (list NssShadow)) :=
  cache_result_to_nss_status (es ← on_cache (fun c => get_all_shadows c); mret (cache_shadow_to_nss_shadow <$> es)).

Definition shadow_get_entry_by_name (name : string) : R sys Empty_set (Response NssShadow) :=
  cache_result_to_nss_status
    (e ← on_cache (fun c => get_shadow_by_name c name); mret (mask (cache_shadow_to_nss_shadow e))).
End Hooks.

(** ** logs/mod.rs *)

Inductive LevelFilter := LevelInfo | LevelDebug.
Inductive sink := Syslog | Stderr.

(** The logger of the process, set at most once by the log crate. *)
Definition log_state : Type := option (sink * LevelFilter).

(** [syslog::unix] can fail; so can [set_boxed_logger], when a logger is set. *)
Definition init_sys_logger (connected : bool) (level : LevelFilter) (l : log_state) : log_state :=
  if negb connected then l
  else match l with None => Some (Syslog, level) | Some _ => l end.

(** [SimpleLogger::init().unwrap()] *)
Definition init_stderr_logger (level : LevelFilter) : R log_state Empty_set unit := fun l =>
  match l with
  | None => (Done tt, Some (Stderr, level))
  | Some _ => (Panicked "SetLoggerError", l)
  end.

(** [enabled]: whether the logger of the process takes a record of level Info
    without a target. *)
Definition init_logger (env : string -> option string) (connected enabled : bool) : R log_state Empty_set unit := fun l =>
  if enabled then (Done tt, l)
  else match env "NSS_AAD_DEBUG" with
  | Some target =>
      if bool_decide (target = "stderr") then init_stderr_logger LevelDebug l
      else (Done tt, init_sys_logger connected LevelDebug l)
  | None => (Done tt, init_sys_logger connected LevelInfo l)
  end.
