(* ===== verification/RustFacts.v ===== *)
(** * What the name service in Rust does to the cache

    The lookups only read, a connection is opened on files with the expected
    owners and bits, and the only thing that any hook changes is the purge of
    the users that are too old. *)

From S2P Require Import Prelude GoStrings Interfaces Tables CacheDB CacheFacts HomeDir UidGen CacheAuth.
From S2P Require Import CacheOpen CacheLife RustStd RustCache RustNss.
Open Scope string_scope.
Open Scope list_scope.
Open Scope Z_scope.

(** ** The purge *)

(** Unlike [purged], the links of the users stay, and with them their groups. *)
Definition rust_purged (t : Z) (d : database) : database :=
  delete_empty_groups (delete_old_passwd t (delete_old_shadow t d)).

Lemma execute_Ok c stmt w w' : execute c stmt w = (Ok tt, w') ->
  conn_args c <> DB_CONN_OPT_RO /\ w_db w' = stmt (w_db w) /\ w_now w' = w_now w /\ w_entropy w' = w_entropy w.
Proof.
  unfold execute. case_bool_decide as Hro; [|by intros Hx%exec_ok_Ok].
  by intros ([] & w1 & _ & Hf)%bind_Ok.
Qed.

Lemma stable_execute c stmt : stable (execute c stmt).
Proof.
  unfold execute. case_bool_decide; [|apply stable_exec].
  apply stable_ro, ro_bind; auto with ro.
Qed.

Lemma cleanup_inv c w r w' : cleanup_expired_entries c w = (r, w') ->
  w_now w' = w_now w /\ w_entropy w' = w_entropy w /\
  (w_db w' = w_db w \/
   (r = Done tt /\ offline_credentials_expiration c <> 0 /\ conn_args (conn c) <> DB_CONN_OPT_RO /\ exists t,
      purge_before (w_now w) (i32 (EXPIRATION_PURGE_MULTIPLIER * offline_credentials_expiration c)) = Ok t
      /\ w_db w' = rust_purged t (w_db w))).
Proof.
  unfold cleanup_expired_entries. destruct (Z.eqb_spec (offline_credentials_expiration c) 0) as [|Hne].
  { intros [= <- <-]. auto. }
  unfold foreign. set (body := (w ← get; _)). pose proof (stable_transaction body) as Hst.
  assert (stable body) as Hb.
  { apply stable_bind; [apply stable_ro; auto with ro|]. intros w0.
    apply stable_bind; [apply stable_ro; auto with ro|]. intros t.
    apply stable_bind; [apply stable_exec|intros _].
    apply stable_bind; [apply stable_execute|intros _]. apply stable_execute. }
  specialize (Hst Hb w). destruct (transaction body w) as [r0 w0] eqn:Et. simpl in Hst.
  intros E. assert (w0 = w') as -> by (destruct r0; by simplify_eq).
  destruct Hst as [-> ->]. split_and!; [done..|].
  apply transaction_inv in Et as [(-> & w1 & w2 & S1 & Hbody & S2)|[_ Hd]]; [right|by left].
  injection E as <-. destruct S1 as (E1 & E2 & _), S2 as (E3 & _).
  apply bind_Ok in Hbody as (w3 & w4 & Hg & (t & w5 & Ht & ([] & w6 & (H1 & _)%exec_ok_Ok
    & ([] & w7 & (Hro & H2 & _)%execute_Ok & (_ & H3 & _)%execute_Ok)%bind_Ok)%bind_Ok)%bind_Ok).
  unfold get in Hg. unfold lift in Ht. simplify_eq. split_and!; [done..|]. exists t. rewrite <- E2. split; [done|].
  unfold rust_purged. by rewrite E3, H3, H2, H1, E1.
Qed.

(** ** Frames *)

(** Nothing but the failures to come. *)
Record undisturbed (s s' : sys) : Prop := {
  ud_now : s_now s' = s_now s;
  ud_entropy : s_entropy s' = s_entropy s;
  ud_life : same_life s s';
  ud_dirs d : dir_of d s' = dir_of d s;
}.

#[export] Instance undisturbed_preorder : PreOrder undisturbed.
Proof.
  split; [by split|]. intros s1 s2 s3 [] []. split; [congruence..|by etrans|congruence].
Qed.

Lemma undisturbed_syscall : frames undisturbed syscall.
Proof. intros s. unfold syscall. destruct (s_faults s) as [|[]]; by split. Qed.

Lemma undisturbed_stat dir f : frames undisturbed (stat dir f).
Proof.
  unfold stat. apply frames_bind; [apply _|apply undisturbed_syscall|]. intros _ s. unfold step.
  by destruct (meta f (dir_of dir s)).
Qed.

#[export] Hint Resolve undisturbed_syscall undisturbed_stat : frames.

(** A computation on the tables that only reads. *)
Lemma dir_of_put_world dir w s d : w_db w = d_tables (dir_of dir s) -> dir_of d (put_world dir w s) = dir_of d s.
Proof.
  intros E. unfold put_world, dir_of at 1. simpl. destruct (decide (d = dir)) as [->|Hn].
  - rewrite lookup_insert_eq. simpl. rewrite E. by destruct (dir_of dir s).
  - by rewrite lookup_insert_ne.
Qed.

Lemma undisturbed_on_tables {E A} dir (m : R world E A) : keeps same_data m -> keeps undisturbed (on_tables dir m).
Proof.
  intros Hm s. unfold on_tables. specialize (Hm (world_of dir s)). destruct (m (world_of dir s)) as [r w].
  destruct Hm as (Ed & En & Ee). simpl in *. split; [done|by rewrite <- Ee|done|].
  intros d. by apply dir_of_put_world.
Qed.

Lemma keeps_driver : keeps same_data (foreign driver : R world string unit).
Proof. apply keeps_foreign, ro_driver. Qed.

Lemma keeps_prepare : keeps same_data prepare_statement.
Proof. apply keeps_map_failed, keeps_driver. Qed.

Lemma keeps_query {A} (q : database -> list A) : keeps same_data (stmt_query q).
Proof. apply keeps_map_failed, keeps_foreign, ro_query. Qed.

Ltac keeps_seq tac :=
  repeat first [ progress tac
    | apply keeps_bind; [apply _| |intros ?]
    | apply keeps_expect; apply _ | apply keeps_ret; apply _ | apply keeps_err; apply _ ].

Lemma keeps_passwd_entry p : keeps same_data (passwd_entry p).
Proof. unfold passwd_entry. keeps_seq idtac. Qed.
Lemma keeps_shadow_entry p : keeps same_data (shadow_entry p).
Proof. unfold shadow_entry. keeps_seq idtac. Qed.
Lemma keeps_group_entry g : keeps same_data (group_entry g).
Proof. unfold group_entry. keeps_seq idtac. Qed.

Lemma keeps_rows {Row Ent} (entry : Row -> R world CacheError Ent) rows :
  (forall row, keeps same_data (entry row)) -> keeps same_data (rows_to_entries entry rows).
Proof.
  intros He. induction rows as [|row rows IH]; cbn [rows_to_entries];
    (apply keeps_bind; [apply _|apply keeps_outcome_of, keeps_driver|intros [[]|]]); try (apply keeps_ret, _).
  apply keeps_bind; [apply _|apply He|intros e].
  apply keeps_bind; [apply _|apply IH|intros es]. apply keeps_ret, _.
Qed.

Lemma keeps_one_row {A} (es : list A) : keeps same_data (expect_one_row es : R world CacheError A).
Proof.
  unfold expect_one_row. destruct (_ <? _)%nat; [apply keeps_err, _|].
  destruct (last es); [apply keeps_ret, _|apply keeps_err, _].
Qed.

(** The queries, as the hooks use them. *)
Section Queries.
Context `{RowOrder} `{UnicodeLower} `{UnicodeCase}.

Lemma keeps_lookup {Row Ent} (entry : Row -> R world CacheError Ent) (q : database -> list Row) :
  (forall row, keeps same_data (entry row)) ->
  keeps same_data (prepare_statement ;; rows ← stmt_query q; es ← rows_to_entries entry rows; expect_one_row es).
Proof.
  intros He. apply keeps_bind; [apply _|apply keeps_prepare|intros _].
  apply keeps_bind; [apply _|apply keeps_query|intros rows].
  apply keeps_bind; [apply _|by apply keeps_rows|apply keeps_one_row].
Qed.

Lemma keeps_listing {Row Ent} (entry : Row -> R world CacheError Ent) (q : database -> list Row) :
  (forall row, keeps same_data (entry row)) ->
  keeps same_data (prepare_statement ;; rows ← stmt_query q; rows_to_entries entry rows).
Proof.
  intros He. apply keeps_bind; [apply _|apply keeps_prepare|intros _].
  apply keeps_bind; [apply _|apply keeps_query|intros rows]. by apply keeps_rows.
Qed.

Lemma keeps_queries c id name :
  keeps same_data (get_passwd_by_uid id) /\ keeps same_data (get_passwd_by_name name) /\
  keeps same_data get_all_passwds /\ keeps same_data (get_group_by_gid id) /\
  keeps same_data (get_group_by_name name) /\ keeps same_data get_all_groups /\
  keeps same_data (get_shadow_by_name c name) /\ keeps same_data (get_all_shadows c).
Proof.
  split_and!; try (apply keeps_lookup, keeps_passwd_entry); try (apply keeps_lookup, keeps_group_entry);
    try (apply keeps_listing, keeps_passwd_entry); try (apply keeps_listing, keeps_group_entry).
  - unfold get_shadow_by_name. destruct (shadow_inaccessible c); [apply keeps_err, _|].
    apply keeps_lookup, keeps_shadow_entry.
  - unfold get_all_shadows. destruct (shadow_inaccessible c); [apply keeps_err, _|].
    apply keeps_listing, keeps_shadow_entry.
Qed.
End Queries.

(** ** Opening *)

Section Build.
Variables readable writable : string -> checked -> sys -> bool.
Variable get_group_by_name_sys : string -> option Z.

Abbreviation open_connection := (open_connection readable writable get_group_by_name_sys).
Abbreviation build := (build readable writable get_group_by_name_sys).

Lemma keeps_state_read {E A} (f : sys -> A) : keeps undisturbed (fun s => (Done (f s), s) : outcome E A * sys).
Proof. intros s. simpl. reflexivity. Qed.

Lemma keeps_stat {E} dir f (g : string -> E) : keeps undisturbed (map_failed g (foreign (stat dir f))).
Proof. apply keeps_map_failed, keeps_foreign. auto with frames. Qed.

Lemma keeps_call {E} (g : string -> E) : keeps undisturbed (map_failed g (foreign syscall)).
Proof. apply keeps_map_failed, keeps_foreign. auto with frames. Qed.

Lemma keeps_any_exists dir files found : keeps undisturbed (any_exists dir files found).
Proof.
  revert found. induction files as [|file files IH]; intros found; cbn [any_exists]; [apply keeps_ret, _|].
  apply keeps_bind; [apply _| |intros b; apply IH].
  unfold exists_. apply keeps_bind; [apply _|apply keeps_outcome_of, keeps_foreign; auto with frames|].
  intros r. apply keeps_ret, _.
Qed.

Lemma keeps_check dir files : keeps undisturbed (check_file_permissions dir files).
Proof.
  induction files as [|file files IH]; cbn [check_file_permissions]; [apply keeps_ret, _|].
  apply keeps_bind; [apply _|apply keeps_stat|intros st].
  apply keeps_if; [apply keeps_err, _|]. apply keeps_if; [apply keeps_err, _|done].
Qed.

Lemma keeps_shadow_gid b : keeps undisturbed (shadow_gid_of get_group_by_name_sys b).
Proof.
  unfold shadow_gid_of. destruct (b_shadow_gid b); [apply keeps_ret, _|].
  destruct (get_group_by_name_sys "shadow"); [apply keeps_ret, _|apply keeps_err, _].
Qed.

Lemma keeps_open b : keeps undisturbed (open_connection b).
Proof.
  unfold RustCache.open_connection.
  apply keeps_bind; [apply _|apply keeps_shadow_gid|intros gid].
  apply keeps_bind; [apply _|apply keeps_any_exists|intros found].
  apply keeps_if; [apply keeps_err, _|].
  apply keeps_bind; [apply _|apply keeps_check|intros _].
  apply keeps_bind; [apply _|apply keeps_state_read|intros m].
  apply keeps_bind; [apply _|apply keeps_state_read|intros args].
  apply keeps_bind; [apply _|apply keeps_expect, _|intros uri].
  apply keeps_bind; [apply _|apply keeps_call|intros _].
  apply keeps_bind; [apply _| |intros _; apply keeps_ret, _].
  apply keeps_if; [|apply keeps_ret, _].
  apply keeps_bind; [apply _|apply keeps_expect, _|intros _]. apply keeps_call.
Qed.

(** What the checks of a file have seen. *)
Definition file_accepted (dir : string) (s : sys) (file : DbFileInfo) : Prop :=
  exists m, meta (path file) (dir_of dir s) = Some m
    /\ Z.land (f_mode m) (expected_perms file) = expected_perms file
    /\ f_uid m = expected_uid file /\ f_gid m = expected_gid file.

Lemma check_Done dir files s s' : check_file_permissions dir files s = (Done tt, s') ->
  Forall (file_accepted dir s) files.
Proof.
  revert s. induction files as [|file files IH]; intros s; cbn [check_file_permissions]; [by constructor|].
  intros (st & s1 & Hst%map_failed_Done & Hc)%R_bind_Done.
  pose proof (keeps_foreign _ _ (undisturbed_stat dir (path file)) s) as Hk. rewrite Hst in Hk. simpl in Hk.
  apply foreign_Done, stat_Ok in Hst.
  destruct (Z.eqb_spec (Z.land (f_mode st) (expected_perms file)) (expected_perms file)); simpl in Hc; [|done].
  destruct (Z.eqb_spec (f_uid st) (expected_uid file)); simpl in Hc; [|done].
  destruct (Z.eqb_spec (f_gid st) (expected_gid file)); simpl in Hc; [|done].
  constructor; [by exists st|]. apply IH in Hc. eapply Forall_impl; [exact Hc|]. intros f (m & Hm & ?).
  exists m. by rewrite <- (ud_dirs _ _ Hk).
Qed.

Lemma shadow_gid_Done b s gid s' : shadow_gid_of get_group_by_name_sys b s = (Done gid, s') -> s' = s /\
  (b_shadow_gid b = Some gid \/ (b_shadow_gid b = None /\ get_group_by_name_sys "shadow" = Some gid)).
Proof.
  unfold shadow_gid_of. destruct (b_shadow_gid b); [intros [= <- <-]; by auto|].
  destruct (get_group_by_name_sys "shadow"); [intros [= <- <-]; by auto|done].
Qed.

(** A connection that was opened: its files, its mode, its flags. *)
Record opened_on (b : CacheDBBuilder) (s : sys) (c : CacheDB) : Prop := {
  op_gid : exists gid, (b_shadow_gid b = Some gid \/ (b_shadow_gid b = None /\ get_group_by_name_sys "shadow" = Some gid))
    /\ Forall (file_accepted (b_db_path b) s) (db_files b gid);
  op_dir : conn_dir (conn c) = b_db_path b;
  op_expiration : offline_credentials_expiration c = b_offline_credentials_expiration b;
  op_forced : b_shadow_mode b <> AutoDetect -> shadow_mode c = b_shadow_mode b;
  op_flags : conn_flags (conn c) = SQLITE_OPEN_READ_WRITE <-> shadow_mode c = ReadWrite;
}.

Lemma open_Done b s c s' : open_connection b s = (Done c, s') -> opened_on b s c.
Proof.
  unfold RustCache.open_connection. intros (gid & s1 & Hg & E)%R_bind_Done. apply shadow_gid_Done in Hg as [-> Hg].
  apply R_bind_Done in E as (found & s2 & Hf & E).
  pose proof (keeps_any_exists (b_db_path b) (db_files b gid) false s) as Hk. rewrite Hf in Hk. simpl in Hk.
  destruct found; cbn [negb] in E; [|done].
  apply R_bind_Done in E as ([] & s3 & Hc%check_Done & E).
  apply R_bind_Done in E as (m & s4 & Hm & E). apply R_bind_Done in E as (args & s5 & _ & E).
  apply R_bind_Done in E as (uri & s6 & _ & E). apply R_bind_Done in E as (? & s7 & _ & E).
  apply R_bind_Done in E as (? & s8 & _ & E). injection E as <- <-. split; [|done|done| |]; simpl.
  - exists gid. split; [done|]. eapply Forall_impl; [exact Hc|]. intros f (fm & Hfm & ?). exists fm.
    by rewrite <- (ud_dirs _ _ Hk).
  - intros Hn. unfold detect_mode in Hm. by destruct (b_shadow_mode b); simplify_eq.
  - by destruct m.
Qed.

(** What a purge has changed. *)
Record purged_by (b : CacheDBBuilder) (t : Z) (s s' : sys) : Prop := {
  pb_now : s_now s' = s_now s;
  pb_entropy : s_entropy s' = s_entropy s;
  pb_life : same_life s s';
  pb_dir : dir_of (b_db_path b) s' = Dir (d_passwd (dir_of (b_db_path b) s)) (d_shadow (dir_of (b_db_path b) s))
                                         (rust_purged t (d_tables (dir_of (b_db_path b) s)));
  pb_other d : d <> b_db_path b -> dir_of d s' = dir_of d s;
}.

Lemma purged_by_undisturbed b t s1 s2 s3 s4 :
  undisturbed s1 s2 -> purged_by b t s2 s3 -> undisturbed s3 s4 -> purged_by b t s1 s4.
Proof.
  intros [N1 E1 L1 D1] [N2 E2 L2 D2 O2] [N3 E3 L3 D3].
  split; [congruence..| | |intros d Hd]; [by do 2 (etrans; [done|])|by rewrite D3, D2, D1|by rewrite D3, O2, D1].
Qed.

Lemma build_inv b s r s' : build b s = (r, s') ->
  (forall c, r = Done c -> opened_on b s c) /\
  (undisturbed s s' \/
   exists c t, r = Done c /\ shadow_mode c = ReadWrite /\ b_offline_credentials_expiration b <> 0 /\
     purge_before (s_now s) (i32 (EXPIRATION_PURGE_MULTIPLIER * b_offline_credentials_expiration b)) = Ok t /\
     purged_by b t s s').
Proof.
  unfold RustCache.build, mbind at 1, R_bind at 1. pose proof (keeps_open b s) as Hk.
  destruct (open_connection b s) as [[c|e|why] s1] eqn:Ho; simpl in Hk;
    [|intros [= <- <-]; split; [done|by left]..].
  pose proof (open_Done _ _ _ _ Ho) as Hop.
  assert (forall (m : R sys CacheError unit), keeps undisturbed m ->
    forall r s2, (m ;; mret c) s1 = (r, s2) -> (forall c', r = Done c' -> opened_on b s c') /\ undisturbed s s2) as Hq.
  { intros m Hm r0 s2. unfold mbind, R_bind. specialize (Hm s1).
    destruct (m s1) as [[]]; simpl in Hm; intros [= <- <-]; (split; [by intros ? [= <-] || done|by etrans]). }
  destruct (Z.leb_spec (mode_value ReadWrite) (mode_value (shadow_mode c))) as [Hrw|].
  2: { intros E. eapply Hq in E as [? ?]; [by eauto|apply keeps_ret, _]. }
  unfold mbind, R_bind, map_failed, on_tables.
  set (dir := conn_dir (conn c)). pose proof (op_dir _ _ _ Hop : dir = _) as Edir.
  destruct (cleanup_expired_entries c (world_of dir s1)) as [r0 w] eqn:Ec.
  apply cleanup_inv in Ec as (En & Ee & Hc). simpl in En, Ee.
  destruct Hc as [Hd|(-> & Hx & _ & t & Ht & Hd)].
  - assert (undisturbed s (put_world dir w s1)) as Hu.
    { etrans; [done|]. split; [done|done|done|]. intros d. by apply dir_of_put_world. }
    destruct r0; intros [= <- <-]; (split; [by intros ? [= <-] || done|by left]).
  - intros [= <- <-]. split; [by intros ? [= <-]|]. right. exists c, t. split_and!; [done| | | |].
    + by destruct (shadow_mode c).
    + by rewrite <- (op_expiration _ _ _ Hop).
    + rewrite <- (op_expiration _ _ _ Hop). simpl in Ht. by rewrite <- (ud_now _ _ Hk).
    + eapply purged_by_undisturbed; [done| |reflexivity]. split; [done|done|done|rewrite <- Edir|rewrite <- Edir].
      * unfold put_world, dir_of at 1. simpl. by rewrite lookup_insert_eq, Hd.
      * intros d Hn. unfold put_world, dir_of at 1. simpl. by rewrite lookup_insert_ne.
Qed.
End Build.
