(* ===== verification/RustService.v ===== *)
(** * The name service in Rust as a whole: what a request changes, and when it
    panics

    Every hook opens the cache anew, reads, and closes it. This file has the
    requests that reach the hooks, the only change that a request makes, and the
    tables on which no hook panics. *)

From S2P Require Import Prelude GoStrings Interfaces Tables CacheDB CacheFacts HomeDir UidGen CacheAuth.
From S2P Require Import CacheOpen CacheLife Typed RustStd RustCache RustNss RustFacts.
Open Scope string_scope.
Open Scope list_scope.
Open Scope Z_scope.

(** ** The requests *)

Inductive request :=
  | PasswdAll | PasswdByUid (uid : Z) | PasswdByName (name : string)
  | GroupAll | GroupByGid (gid : Z) | GroupByName (name : string)
  | ShadowAll | ShadowByName (name : string).

Inductive reply :=
  | Passwds (r : Response (list NssPasswd)) | OnePasswd (r : Response NssPasswd)
  | Groups (r : Response (list NssGroup)) | OneGroup (r : Response NssGroup)
  | Shadows (r : Response (list NssShadow)) | OneShadow (r : Response NssShadow).

(** The shape that the eight hooks share. *)
Section Service.
Context `{RowOrder} `{UnicodeLower} `{UnicodeCase}.
Variables readable writable : string -> checked -> sys -> bool.
Variable get_group_by_name_sys : string -> option Z.
Variable cfg : features.
Variable env : string -> option string.
Variables current_uid current_gid : Z.

Abbreviation new_builder := (new_builder cfg env current_uid current_gid).
Abbreviation build := (build readable writable get_group_by_name_sys).
Abbreviation on_cache := (on_cache readable writable get_group_by_name_sys cfg env current_uid current_gid).

Definition hook {A B} (q : CacheDB -> R world CacheError A) (f : A -> B) : R sys Empty_set (Response B) :=
  cache_result_to_nss_status (x ← on_cache q; mret (f x)).

Definition serve (q : request) : R sys Empty_set reply :=
  match q with
  | PasswdAll => r ← passwd_get_all_entries readable writable get_group_by_name_sys cfg env current_uid current_gid;
      mret (Passwds r)
  | PasswdByUid uid => r ← passwd_get_entry_by_uid readable writable get_group_by_name_sys cfg env current_uid current_gid uid;
      mret (OnePasswd r)
  | PasswdByName name =>
      r ← passwd_get_entry_by_name readable writable get_group_by_name_sys cfg env current_uid current_gid name;
      mret (OnePasswd r)
  | GroupAll => r ← group_get_all_entries readable writable get_group_by_name_sys cfg env current_uid current_gid;
      mret (Groups r)
  | GroupByGid gid => r ← group_get_entry_by_gid readable writable get_group_by_name_sys cfg env current_uid current_gid gid;
      mret (OneGroup r)
  | GroupByName name =>
      r ← group_get_entry_by_name readable writable get_group_by_name_sys cfg env current_uid current_gid name;
      mret (OneGroup r)
  | ShadowAll => r ← shadow_get_all_entries readable writable get_group_by_name_sys cfg env current_uid current_gid;
      mret (Shadows r)
  | ShadowByName name =>
      r ← shadow_get_entry_by_name readable writable get_group_by_name_sys cfg env current_uid current_gid name;
      mret (OneShadow r)
  end.

(** ** The builder *)

Lemma override_pure var set b s : exists r, override env var set b s = (r, s).
Proof. unfold override. destruct (env var) as [v|]; [|by eexists]. destruct (set v b); by eexists. Qed.

Lemma pure_bind {S E A B} (m : R S E A) (f : A -> R S E B) s :
  (exists r, m s = (r, s)) -> (forall a, exists r, f a s = (r, s)) -> exists r, (m ≫= f) s = (r, s).
Proof. intros [[a|e|why] E1] Hf; unfold mbind, R_bind; rewrite E1; eauto. Qed.

Lemma new_builder_pure s : exists r, new_builder s = (r, s).
Proof.
  unfold RustNss.new_builder. apply pure_bind.
  - destruct (integration_tests cfg); [|by eexists]. unfold override_cache_options.
    repeat (apply pure_bind; [apply override_pure|intros ?]). apply override_pure.
  - intros b. destruct (cfg_test cfg); [|by eexists]. unfold new_for_tests. cbn [negb].
    apply pure_bind; [destruct (env "NSS_AAD_CACHEDIR"); by eexists|]. intros p.
    destruct (env "NSS_AAD_SHADOW_MODE") as [v|]; [|by eexists].
    apply pure_bind; [destruct (parse_i32 v); by eexists|]. intros n. by eexists.
Qed.

(** ** What a request changes *)

(** Nothing, or the users that are too old are purged from one directory. *)
Definition served (s s' : sys) : Prop :=
  undisturbed s s' \/
  exists b t, new_builder s = (Done b, s) /\ b_offline_credentials_expiration b <> 0 /\
    purge_before (s_now s) (i32 (EXPIRATION_PURGE_MULTIPLIER * b_offline_credentials_expiration b)) = Ok t /\
    purged_by b t s s'.

Lemma hook_served {A B} (q : CacheDB -> R world CacheError A) (f : A -> B) s :
  (forall c, keeps same_data (q c)) -> served s (hook q f s).2.
Proof.
  intros Hq. unfold hook. assert (served s (on_cache q s).2) as Hs.
  { unfold RustNss.on_cache, new_cache, mbind, R_bind. destruct (new_builder_pure s) as [[b|e|why] Eb]; rewrite Eb;
      [|left; simpl; reflexivity..].
    destruct (build b s) as [r s1] eqn:E. pose proof (build_inv _ _ _ _ _ _ _ E) as [_ Hb].
    assert (forall c, undisturbed s1 (on_tables (conn_dir (conn c)) (q c) s1).2) as Hk
      by (intros c; by apply undisturbed_on_tables).
    destruct Hb as [Hb|(c & t & -> & _ & Hx & Ht & Hb)].
    - left. destruct r as [c|e|why]; [|done..]. by etrans; [|apply Hk].
    - right. exists b, t. split_and!; [done..|]. eapply purged_by_undisturbed; [reflexivity|done|apply Hk]. }
  unfold cache_result_to_nss_status, outcome_of, mbind, R_bind.
  destruct (on_cache q s) as [[x|e|why] s1]; [exact Hs..].
Qed.

Lemma serve_snd {B} (m : R sys Empty_set B) (g : B -> reply) s : ((r ← m; mret (g r)) s).2 = (m s).2.
Proof. unfold mbind, R_bind. by destruct (m s) as [[] ?]. Qed.

Lemma serve_served q s : served s (serve q s).2.
Proof.
  destruct q as [|id|name| |id|name| |name]; cbn [serve]; rewrite serve_snd; apply hook_served; intros c;
    first [apply (keeps_queries c id "") | apply (keeps_queries c 0 name) | apply (keeps_queries c 0 "")].
Qed.

End Service.

(** The library that is installed: one directory, and 180 days. *)
Section Released.
Context `{RowOrder} `{UnicodeLower} `{UnicodeCase}.
Variables readable writable : string -> checked -> sys -> bool.
Variable get_group_by_name_sys : string -> option Z.
Variable env : string -> option string.
Variables current_uid current_gid : Z.

Abbreviation serve := (serve readable writable get_group_by_name_sys released env current_uid current_gid).

(** The time before which a last login is too old. *)
Definition rust_purge_time (now : Z) : Z := Unix (now - 180 * 24 * Hour).

(** It is the time that the Go packages compute for the default settings. *)
Lemma rust_purge_time_go now :
  rust_purge_time now = purge_time now (maxCacheEntryDuration defaultCredentialsExpiration).
Proof. reflexivity. Qed.

(** C25: whatever a process asks of the name service, and whatever fails on the
    way, nothing changes in the cache but this: when the connection can write to
    both files, the users whose last online login is more than 180 days old may
    be gone, from passwd and from shadow at once, whatever expiration is
    configured. No file is created, no mode or owner is changed, no other
    directory is touched, and the handles that the process holds through the Go
    packages are left alone. *)
Theorem request_effect q s r s' : serve q s = (r, s') ->
  s_now s' = s_now s /\ same_life s s' /\
  (forall d, d <> DB_PATH -> dir_of d s' = dir_of d s) /\
  d_passwd (dir_of DB_PATH s') = d_passwd (dir_of DB_PATH s) /\
  d_shadow (dir_of DB_PATH s') = d_shadow (dir_of DB_PATH s) /\
  (d_tables (dir_of DB_PATH s') = d_tables (dir_of DB_PATH s) \/
   d_tables (dir_of DB_PATH s') = rust_purged (rust_purge_time (s_now s)) (d_tables (dir_of DB_PATH s))).
Proof.
  intros E. pose proof (serve_served readable writable get_group_by_name_sys released env current_uid current_gid q s) as Hs.
  rewrite E in Hs. simpl in Hs. destruct Hs as [[En _ El Ed]|(b & t & Eb & _ & Ht & [En _ El Ed Eo])].
  - rewrite !Ed. split_and!; [done..|by left].
  - injection Eb as <-. change (b_db_path new) with DB_PATH in *. rewrite Ed. simpl. split_and!; [done..|].
    right. f_equal. change (i32 _) with 180 in Ht. unfold purge_before in Ht.
    destruct (in_rng _ _ _); [|done]. injection Ht as <-. done.
Qed.
End Released.

(** ** When a hook panics *)

(** The columns that [expect] takes for present, in range and UTF-8. *)
Definition readable_user (p : passwd_row) : bool :=
  is_utf8 (p_login p) && from_option is_utf8 false (p_password p) && in_rng 0 (2 ^ 32 - 1) (p_uid p)
  && in_rng 0 (2 ^ 32 - 1) (p_gid p) && from_option is_utf8 false (p_gecos p)
  && from_option is_utf8 false (p_home p) && from_option is_utf8 false (p_shell p).

Definition readable_group (g : group_row) : bool :=
  is_utf8 (g_name g) && from_option is_utf8 false (g_password g) && in_rng 0 (2 ^ 32 - 1) (g_gid g).

Definition isize_ok (z : Z) : bool := in_rng (- 2 ^ 63) (2 ^ 63 - 1) z.

Definition readable_shadow (s : shadow_row) : bool :=
  is_utf8 (s_password s) && isize_ok (s_last_pwd_change s) && isize_ok (s_min_pwd_age s)
  && isize_ok (s_max_pwd_age s) && isize_ok (s_pwd_warn_period s) && isize_ok (s_pwd_inactivity s)
  && isize_ok (s_expiration_date s).

Record readable_tables (d : database) : Prop := {
  rd_users : Forall (fun p => readable_user p = true) (t_passwd d);
  rd_groups : Forall (fun g => readable_group g = true) (t_groups d);
  rd_shadow : Forall (fun s => readable_shadow s = true) (t_shadow d);
}.

(** The entry of a row that is readable. *)
Definition passwd_of (p : passwd_row) : Passwd :=
  MkPasswd (p_login p) (default "" (p_password p)) (p_uid p) (p_gid p) (default "" (p_gecos p))
    (default "" (p_home p)) (default "" (p_shell p)).

Definition shadow_of (ps : passwd_row * shadow_row) : Shadow :=
  MkShadow (p_login ps.1) (s_password ps.2) (s_last_pwd_change ps.2) (s_min_pwd_age ps.2) (s_max_pwd_age ps.2)
    (s_pwd_warn_period ps.2) (s_pwd_inactivity ps.2) (s_expiration_date ps.2).

(** A column that is read as it is stored. *)
Lemma bind_string {B} msg v (f : string -> R world CacheError B) : from_option is_utf8 false v = true ->
  (x ← expect msg (get_string v); f x) = f (default "" v).
Proof. destruct v as [s|]; simpl; [|done]. by intros ->. Qed.

Lemma bind_u32 {B} msg z (f : Z -> R world CacheError B) : in_rng 0 (2 ^ 32 - 1) z = true ->
  (x ← expect msg (get_u32 (Some z)); f x) = f z.
Proof. intros Hz. unfold get_u32. by rewrite Hz. Qed.

Lemma bind_isize {B} msg z (f : Z -> R world CacheError B) : isize_ok z = true ->
  (x ← expect msg (get_isize (Some z)); f x) = f z.
Proof. intros Hz. unfold get_isize. unfold isize_ok in Hz. by rewrite Hz. Qed.

Ltac split_readable :=
  repeat match goal with H : (_ && _) = true |- _ => apply andb_true_iff in H as [? ?] end.

Lemma passwd_entry_readable p : readable_user p = true -> passwd_entry p = mret (passwd_of p).
Proof.
  unfold readable_user. intros Hr. split_readable. unfold passwd_entry.
  rewrite (bind_string _ (Some (p_login p))), bind_string, !bind_u32, !bind_string by done. done.
Qed.

Lemma shadow_entry_readable ps : is_utf8 (p_login ps.1) = true -> readable_shadow ps.2 = true ->
  shadow_entry ps = mret (shadow_of ps).
Proof.
  unfold readable_shadow. intros Hl Hr. split_readable. unfold shadow_entry.
  rewrite (bind_string _ (Some (p_login ps.1))), (bind_string _ (Some (s_password ps.2))), !bind_isize by done. done.
Qed.

(** A row of the request on the groups. *)
Definition readable_cols (g : group_cols) : Prop :=
  exists name passwd gid members, g = GroupCols (Some name) (Some passwd) (Some gid) (Some members)
    /\ is_utf8 name = true /\ is_utf8 passwd = true /\ in_rng 0 (2 ^ 32 - 1) gid = true /\ is_utf8 members = true.

Definition group_of (g : group_cols) : Group :=
  MkGroup (default "" (gc_name g)) (default "" (gc_password g)) (default 0 (gc_gid g))
    (Split "," (default "" (gc_members g))).

Lemma group_entry_readable g : readable_cols g -> group_entry g = mret (group_of g).
Proof.
  intros (name & passwd & gid & members & -> & Hn & Hp & Hg & Hm). unfold group_entry.
  cbn [gc_name gc_password gc_gid gc_members].
  rewrite (bind_string _ (Some members)) by done.
  rewrite (bind_string _ (Some name)), (bind_string _ (Some passwd)), bind_u32 by done. done.
Qed.

(** The requests give readable rows. *)
Section Rows.
Context `{RowOrder}.

Lemma select_group_readable where_ d g : readable_tables d -> g ∈ select_group where_ d -> readable_cols g.
Proof.
  intros [Hu Hg _]. unfold select_group. set (l := row_order (group_rows where_ d)).
  assert (forall x, x ∈ l -> readable_group x.1 = true /\ is_utf8 x.2 = true) as Hl.
  { intros [g' m]. unfold l, group_rows. rewrite elem_of_row_order, list_elem_of_bind.
    intros (g0 & (m0 & [= -> ->] & Hm)%list_elem_of_fmap & [_ Hin]%list_elem_of_filter). simpl.
    apply elem_of_members_of in Hm as (p & u & Hp & _ & _ & _ & ->). rewrite Forall_forall in Hu. rewrite Forall_forall in Hg.
    split; [by apply Hg|]. specialize (Hu p Hp). unfold readable_user in Hu. by split_readable. }
  clearbody l. unfold concat_group. destruct l as [|[g0 m0] l]; [by intros ?%elem_of_nil|].
  intros ->%list_elem_of_singleton. destruct (Hl (g0, m0)) as [Hr _]; [by left|]. simpl in Hr.
  unfold readable_group in Hr. split_readable. destruct (g_password g0) as [pw|]; [|done].
  exists (g_name g0), pw, (g_gid g0), (Join "," (((g0, m0) :: l).*2)). split_and!; [done..|].
  apply is_utf8_Join; [done|]. apply Forall_fmap, Forall_forall. intros x Hx. by apply Hl.
Qed.

Lemma select_all_groups_readable d g : readable_tables d -> g ∈ select_all_groups d -> readable_cols g.
Proof.
  intros Hr. unfold select_all_groups. rewrite list_elem_of_bind. intros (n & Hg & _). by eapply select_group_readable.
Qed.

Lemma join_readable d ps p s : readable_tables d -> (forall q, q ∈ ps -> q ∈ t_passwd d) ->
  (p, s) ∈ join_shadow ps (t_shadow d) -> shadow_entry (p, s) = mret (shadow_of (p, s)).
Proof.
  intros [Hu _ Hs] Hps (Hp & Hin & _)%elem_of_join_shadow. rewrite Forall_forall in Hu. rewrite Forall_forall in Hs.
  apply shadow_entry_readable; [|by apply Hs]. specialize (Hu p (Hps p Hp)). unfold readable_user in Hu. by split_readable.
Qed.
End Rows.

(** ** Reading the rows *)

Definition quiet {E A} (o : outcome E A) : Prop := match o with Panicked _ => False | _ => True end.

Lemma quiet_iff {E A} (o : outcome E A) : quiet o <-> forall why, o <> Panicked why.
Proof. destruct o; simpl; split; try done. by intros Hn; apply (Hn why). Qed.

Lemma quiet_bind {S E A B} (m : R S E A) (f : A -> R S E B) s :
  quiet (m s).1 -> (forall a s', m s = (Done a, s') -> quiet (f a s').1) -> quiet ((m ≫= f) s).1.
Proof.
  intros Hm Hf. unfold mbind, R_bind. destruct (m s) as [[a|e|why] s'] eqn:Er; simpl in *; [|done..]. by apply Hf.
Qed.

Lemma quiet_calls {S E} (g : string -> E) (m : M S unit) s : (forall why, (m s).1 <> Panic why) ->
  quiet (map_failed g (foreign m) s).1.
Proof. intros Hm. unfold map_failed, foreign. destruct (m s) as [[]]; simpl in *; [done..|by destruct (Hm why)]. Qed.

(** Readable rows are read up to the first failure. *)
Lemma rows_readable {Row Ent} (entry : Row -> R world CacheError Ent) (of_row : Row -> Ent) rows w :
  (forall row, row ∈ rows -> entry row = mret (of_row row)) ->
  exists k, (rows_to_entries entry rows w).1 = Done (of_row <$> take k rows).
Proof.
  revert w. induction rows as [|row rows IH]; intros w He; cbn [rows_to_entries]; unfold mbind at 1, R_bind at 1.
  - exists 0%nat. unfold outcome_of, foreign. destruct (driver w) as [[[]|e|why] w1] eqn:Ed; simpl; [done..|].
    exfalso. apply (np_driver w why). by rewrite Ed.
  - unfold outcome_of, foreign. destruct (driver w) as [[[]|e|why] w1] eqn:Ed; simpl.
    + destruct (IH w1) as [k Hk]; [intros r Hr; apply He; by right|]. exists (Datatypes.S k).
      rewrite He by by left. unfold mbind, R_bind. simpl.
      destruct (rows_to_entries entry rows w1) as [o w2]. simpl in Hk. by subst o.
    + by exists 0%nat.
    + exfalso. apply (np_driver w why). by rewrite Ed.
Qed.

Lemma rows_calm {Row Ent} (entry : Row -> R world CacheError Ent) (of_row : Row -> Ent) rows w : calm w ->
  (forall row, row ∈ rows -> entry row = mret (of_row row)) ->
  rows_to_entries entry rows w = (Done (of_row <$> rows), w).
Proof.
  intros Hw. induction rows as [|row rows IH]; intros He; cbn [rows_to_entries];
    unfold mbind, R_bind, outcome_of, foreign; rewrite driver_calm by done; [done|].
  rewrite He by by left. cbn. rewrite IH; [done|]. intros r Hr. apply He. by right.
Qed.

(** What a lookup runs. *)
Definition lookup_rows {Row Ent} (entry : Row -> R world CacheError Ent) (q : database -> list Row)
    : R world CacheError (list Ent) :=
  prepare_statement ;; rows ← stmt_query q; rows_to_entries entry rows.

Lemma lookup_one {Row Ent} (entry : Row -> R world CacheError Ent) (q : database -> list Row) w :
  (prepare_statement ;; rows ← stmt_query q; es ← rows_to_entries entry rows; expect_one_row es) w
  = (es ← lookup_rows entry q; expect_one_row es) w.
Proof.
  unfold lookup_rows, mbind, R_bind. destruct (prepare_statement w) as [[[]|e|why] w1]; [|done..].
  by destruct (stmt_query q w1) as [[rows|e|why] w2].
Qed.

Lemma prepare_quiet w : quiet (prepare_statement w).1.
Proof. apply quiet_calls, np_driver. Qed.

(** A query, whatever fails: the rows of the tables, or an error. *)
Lemma stmt_query_cases {A} (q : database -> list A) w :
  (exists w', stmt_query q w = (Done (q (w_db w)), w') /\ same_data w w') \/
  (exists e w', stmt_query q w = (Failed e, w') /\ same_data w w').
Proof.
  pose proof (ro_query q w) as Hro. pose proof (fun r w' => query_Ok q w r w') as Hq. pose proof (np_query q w) as Hn.
  unfold stmt_query, map_failed, foreign. destruct (query q w) as [[rows|e|why] w']; simpl in *.
  - left. exists w'. split; [|done]. by rewrite (Hq rows w' eq_refl).
  - right. by eexists _, w'.
  - by destruct (Hn why).
Qed.

Lemma lookup_rows_quiet {Row Ent} (entry : Row -> R world CacheError Ent) (of_row : Row -> Ent) q w :
  (forall row, row ∈ q (w_db w) -> entry row = mret (of_row row)) -> quiet (lookup_rows entry q w).1.
Proof.
  intros He. unfold lookup_rows. apply quiet_bind; [apply prepare_quiet|]. intros [] w1 E1.
  assert (w_db w1 = w_db w) as Ed by (pose proof (keeps_prepare w) as (Ed & _); by rewrite E1 in Ed).
  apply quiet_bind.
  - destruct (stmt_query_cases q w1) as [(w' & -> & _)|(e & w' & -> & _)]; done.
  - intros rows w2 E2. destruct (stmt_query_cases q w1) as [(w' & E3 & _)|(e & w' & E3 & _)]; [|congruence].
    rewrite E3 in E2. injection E2 as <- <-. rewrite Ed.
    destruct (rows_readable entry of_row (q (w_db w)) w' He) as [k ->]. done.
Qed.

Lemma expect_one_row_quiet {A} (es : list A) w : quiet (expect_one_row es w).1.
Proof. unfold expect_one_row. destruct (_ <? _)%nat; [done|]. by destruct (last es). Qed.

Lemma lookup_one_quiet {Row Ent} (entry : Row -> R world CacheError Ent) (of_row : Row -> Ent) q w :
  (forall row, row ∈ q (w_db w) -> entry row = mret (of_row row)) ->
  quiet ((prepare_statement ;; rows ← stmt_query q; es ← rows_to_entries entry rows; expect_one_row es) w).1.
Proof.
  intros He. rewrite lookup_one. apply quiet_bind; [by eapply lookup_rows_quiet|]. intros es w' _. apply expect_one_row_quiet.
Qed.

(** ** The queries on readable tables *)

Section Quiet.
Context `{RowOrder} `{UnicodeLower} `{UnicodeCase}.

Lemma passwd_rows_readable where_ d : readable_tables d ->
  forall p, p ∈ select_passwd where_ d -> passwd_entry p = mret (passwd_of p).
Proof.
  intros [Hu _ _] p. unfold select_passwd. rewrite elem_of_row_order. intros [_ Hp]%list_elem_of_filter.
  rewrite Forall_forall in Hu. by apply passwd_entry_readable, Hu.
Qed.

Lemma group_rows_readable where_ d : readable_tables d ->
  forall g, g ∈ select_group where_ d -> group_entry g = mret (group_of g).
Proof. intros Hr g Hg. by eapply group_entry_readable, select_group_readable. Qed.

Lemma shadow_rows_readable P `{!forall p, Decision (P p)} d : readable_tables d ->
  forall ps, ps ∈ row_order (join_shadow (filter P (t_passwd d)) (t_shadow d)) -> shadow_entry ps = mret (shadow_of ps).
Proof.
  intros Hr [p s]. rewrite elem_of_row_order. apply (join_readable d); [done|].
  by intros q [_ ?]%list_elem_of_filter.
Qed.

Lemma all_passwd_readable d : readable_tables d ->
  forall p, p ∈ merge_sort login_le (t_passwd d) -> passwd_entry p = mret (passwd_of p).
Proof.
  intros [Hu _ _] p. rewrite merge_sort_Permutation. intros Hp. rewrite Forall_forall in Hu.
  by apply passwd_entry_readable, Hu.
Qed.

Lemma all_groups_readable d : readable_tables d ->
  forall g, g ∈ select_all_groups d -> group_entry g = mret (group_of g).
Proof. intros Hr g Hg. by eapply group_entry_readable, select_all_groups_readable. Qed.

Lemma all_shadow_readable d : readable_tables d ->
  forall ps, ps ∈ merge_sort pair_le (row_order (join_shadow (t_passwd d) (t_shadow d))) ->
    shadow_entry ps = mret (shadow_of ps).
Proof.
  intros Hr [p s]. rewrite merge_sort_Permutation, elem_of_row_order. by apply (join_readable d).
Qed.

Lemma queries_quiet c id name w : readable_tables (w_db w) ->
  quiet (get_passwd_by_uid id w).1 /\ quiet (get_passwd_by_name name w).1 /\ quiet (get_all_passwds w).1 /\
  quiet (get_group_by_gid id w).1 /\ quiet (get_group_by_name name w).1 /\ quiet (get_all_groups w).1 /\
  quiet (get_shadow_by_name c name w).1 /\ quiet (get_all_shadows c w).1.
Proof.
  intros Hr. split_and!;
    try (by eapply lookup_one_quiet, passwd_rows_readable); try (by eapply lookup_one_quiet, group_rows_readable).
  - by eapply lookup_rows_quiet, all_passwd_readable.
  - by eapply lookup_rows_quiet, all_groups_readable.
  - unfold get_shadow_by_name. destruct (shadow_inaccessible c); [done|].
    by eapply lookup_one_quiet, shadow_rows_readable.
  - unfold get_all_shadows. destruct (shadow_inaccessible c); [done|].
    by eapply lookup_rows_quiet, all_shadow_readable.
Qed.

(** ** The builder of the installed library does not panic *)

Variables readable writable : string -> checked -> sys -> bool.
Variable get_group_by_name_sys : string -> option Z.
Variable env : string -> option string.
Variables current_uid current_gid : Z.

Lemma stat_no_panic dir f s why : (stat dir f s).1 <> Panic why.
Proof.
  unfold stat, mbind, M_bind, step. pose proof (syscall_no_panic s why) as Hs.
  destruct (syscall s) as [[[]|e|p] s1]; simpl in *; [by destruct (meta f (dir_of dir s1))|done|congruence].
Qed.

Lemma any_exists_quiet dir files found s : quiet (any_exists dir files found s).1.
Proof.
  revert found s. induction files as [|file files IH]; intros found s; cbn [any_exists]; [done|].
  apply quiet_bind; [|intros b s' _; apply IH]. unfold exists_. apply quiet_bind; [|by intros [] s' _].
  unfold outcome_of, foreign. pose proof (stat_no_panic dir (path file) s) as Hn.
  destruct (stat dir (path file) s) as [[]]; simpl in *; [done..|by destruct (Hn why)].
Qed.

Lemma check_quiet dir files s : quiet (check_file_permissions dir files s).1.
Proof.
  revert s. induction files as [|file files IH]; intros s; cbn [check_file_permissions]; [done|].
  apply quiet_bind.
  - unfold map_failed, foreign. pose proof (stat_no_panic dir (path file) s) as Hn.
    destruct (stat dir (path file) s) as [[]]; simpl in *; [done..|by destruct (Hn why)].
  - intros st s' _. destruct (negb _); [done|]. destruct (_ || _); [done|]. apply IH.
Qed.

Lemma call_quiet s : quiet (map_failed DatabaseError (foreign syscall) s).1.
Proof. apply quiet_calls, syscall_no_panic. Qed.

Lemma open_quiet b s : is_utf8 (b_db_path b) = true ->
  quiet (open_connection readable writable get_group_by_name_sys b s).1.
Proof.
  intros Hp. unfold open_connection.
  assert (forall name s0, quiet (to_str (b_db_path b) name s0).1) as Hstr by (intros; unfold to_str; by rewrite Hp).
  apply quiet_bind; [unfold shadow_gid_of; destruct (b_shadow_gid b); [done|]; by destruct (get_group_by_name_sys _)|].
  intros gid s1 _. apply quiet_bind; [apply any_exists_quiet|]. intros found s2 _. destruct (negb found); [done|].
  apply quiet_bind; [apply check_quiet|]. intros [] s3 _. apply quiet_bind; [done|]. intros m s4 _.
  apply quiet_bind; [done|]. intros args s5 _. apply quiet_bind; [apply Hstr|]. intros uri s6 _.
  apply quiet_bind; [apply call_quiet|]. intros [] s7 _. apply quiet_bind; [|done].
  destruct (_ <=? _); [|done]. apply quiet_bind; [apply Hstr|]. intros ? s8 _. apply call_quiet.
Qed.

Lemma readable_purged t d : readable_tables d -> readable_tables (rust_purged t d).
Proof.
  intros [Hu Hg Hs]. rewrite Forall_forall in Hu. rewrite Forall_forall in Hg. rewrite Forall_forall in Hs.
  split; apply Forall_forall; intros x [_ Hx]%list_elem_of_filter; auto.
Qed.

Lemma np_execute c stmt : no_panic (execute c stmt).
Proof. unfold execute. case_bool_decide; [|apply np_exec_ok]. apply no_panic_bind; [apply np_driver|]. by intros [] w why. Qed.

Lemma cleanup_quiet c w t :
  purge_before (w_now w) (i32 (EXPIRATION_PURGE_MULTIPLIER * offline_credentials_expiration c)) = Ok t ->
  quiet (cleanup_expired_entries c w).1.
Proof.
  intros Ht. unfold cleanup_expired_entries. destruct (_ =? _); [done|].
  unfold foreign, transaction. pose proof (np_driver w) as Hd. pose proof (ro_driver w) as (_ & En & _).
  destruct (driver w) as [[[]|e|why] w1]; simpl in *; [|done|by destruct (Hd why)].
  set (body := (w0 ← get; _)).
  assert (forall why, ((body ;; driver) w1).1 <> Panic why) as Hb.
  { intros why. unfold body, mbind, M_bind, get, lift. rewrite En, Ht.
    pose proof (no_panic_bind _ (fun _ : unit => driver) (no_panic_bind _ _ (np_exec_ok (delete_old_shadow t)) (fun _ =>
      no_panic_bind _ _ (np_execute (conn c) (delete_old_passwd t)) (fun _ => np_execute (conn c) delete_empty_groups)))
      (fun _ => np_driver) w1 why) as Hn.
    exact Hn. }
  destruct ((body ;; driver) w1) as [[[]|e|why] w2]; simpl in *; [done..|by destruct (Hb why)].
Qed.

Lemma build_quiet b s t : is_utf8 (b_db_path b) = true ->
  purge_before (s_now s) (i32 (EXPIRATION_PURGE_MULTIPLIER * b_offline_credentials_expiration b)) = Ok t ->
  quiet (build readable writable get_group_by_name_sys b s).1.
Proof.
  intros Hp Ht. unfold build. apply quiet_bind; [by apply open_quiet|]. intros c s1 Ho.
  pose proof (keeps_open readable writable get_group_by_name_sys b s) as Hk. rewrite Ho in Hk. simpl in Hk.
  apply open_Done in Ho. apply quiet_bind; [|done]. destruct (_ <=? _); [|done].
  unfold map_failed, on_tables.
  assert (quiet (cleanup_expired_entries c (world_of (conn_dir (conn c)) s1)).1) as Hq.
  { apply (cleanup_quiet c _ t). simpl. rewrite (ud_now _ _ Hk). by rewrite (op_expiration _ _ _ _ Ho). }
  destruct (cleanup_expired_entries c _) as [[]]; simpl in *; done.
Qed.

Lemma hook_quiet {A B} (q : CacheDB -> R world CacheError A) (f : A -> B) s :
  readable_tables (d_tables (dir_of DB_PATH s)) -> in_rng (-377705116800) 253402300799 (rust_purge_time (s_now s)) = true ->
  (forall c w, readable_tables (w_db w) -> quiet (q c w).1) ->
  quiet (hook readable writable get_group_by_name_sys released env current_uid current_gid q f s).1.
Proof.
  intros Hr Ht Hq. unfold hook, cache_result_to_nss_status. apply quiet_bind; [|by intros [a|[]] s' _].
  assert (quiet (on_cache readable writable get_group_by_name_sys released env current_uid current_gid q s).1) as Hc.
  { unfold on_cache, new_cache, new_builder. cbn [integration_tests cfg_test released].
    change (quiet ((c ← build readable writable get_group_by_name_sys new; on_tables (conn_dir (conn c)) (q c)) s).1).
    apply quiet_bind.
    - apply (build_quiet _ _ (rust_purge_time (s_now s))); [done|]. unfold purge_before.
      change (Unix _) with (rust_purge_time (s_now s)). by rewrite Ht.
    - intros c s1 Hb. apply build_inv in Hb as [Hop Hb]. specialize (Hop c eq_refl).
      unfold on_tables. rewrite (op_dir _ _ _ _ Hop). change (b_db_path new) with DB_PATH.
      specialize (Hq c (world_of DB_PATH s1)). destruct (q c _) as [o w]. apply Hq. simpl.
      destruct Hb as [Hu|(c' & t & _ & _ & _ & _ & Hp)]; [by rewrite (ud_dirs _ _ Hu)|].
      pose proof (pb_dir _ _ _ _ Hp) as Ed. change (b_db_path new) with DB_PATH in Ed. rewrite Ed.
      by apply readable_purged. }
  unfold outcome_of, mbind, R_bind. by destruct (on_cache _ _ _ _ _ _ _ q s) as [[]].
Qed.

(** C26: on tables whose texts are UTF-8 and present and whose numbers fit in the
    types of the library, no request panics, whichever calls fail, as long as the clock is between the years -9999 and
    9999. A panic in a hook would abort the process that looks a user up. *)
Theorem requests_never_panic q s :
  readable_tables (d_tables (dir_of DB_PATH s)) -> in_rng (-377705116800) 253402300799 (rust_purge_time (s_now s)) = true ->
  forall why, (serve readable writable get_group_by_name_sys released env current_uid current_gid q s).1 <> Panicked why.
Proof.
  intros Hr Ht. apply quiet_iff.
  assert (forall B (m : R sys Empty_set B) (g : B -> reply), quiet (m s).1 -> quiet ((r ← m; mret (g r)) s).1) as Hg
    by (intros B m g Hm; by apply quiet_bind).
  destruct q as [|id|name| |id|name| |name]; cbn [serve]; apply Hg; apply hook_quiet; try done; intros c w Hw;
    first [apply (queries_quiet c id "" w Hw) | apply (queries_quiet c 0 name w Hw) | apply (queries_quiet c 0 "" w Hw)].
Qed.
End Quiet.
