(* ===== verification/RustAgree.v ===== *)
(** * The two name services agree

    The lookups and the enumerations of the library in Rust answer what those of
    the Go packages answer on the same tables, when no call fails and the texts
    are UTF-8. *)

From S2P Require Import Prelude GoStrings Interfaces Tables CacheDB CacheFacts HomeDir UidGen CacheAuth CacheTheorems.
From S2P Require Import CacheIter CacheOpen CacheLife Typed RustStd RustCache RustNss RustFacts RustService.
Open Scope string_scope.
Open Scope list_scope.
Open Scope Z_scope.

(** ** The records *)

Definition same_user (u : UserRecord) : Passwd :=
  MkPasswd (Name u) (CacheDB.Passwd u) (UID u) (GID u) (Gecos u) (Home u) (Shell u).

Definition same_group (g : GroupRecord) : Group := MkGroup (gName g) (gPassword g) (gGID g) (gMembers g).

Definition same_shadow (s : ShadowRecord) : Shadow :=
  MkShadow (swName s) (swPassword s) (swLastPwdChange s) (swMinPwdAge s) (swMaxPwdAge s)
    (swPwdWarnPeriod s) (swPwdInactivity s) (swExpirationDate s).

(** A record on both sides, or an absence on both sides. *)
Definition agrees {A B} (same : A -> B) (go : result A) (rust : outcome CacheError B) : Prop :=
  match go, rust with
  | Ok a, Done b => b = same a
  | Err e, Failed NoRecord => errors_is e ErrNoEnt = true
  | _, _ => False
  end.

(** The tables that both can read. *)
Record common (d : database) : Prop := {
  cm_wf : db_wf d;
  cm_shadow p : p ∈ t_passwd d -> p_uid p ∈ s_uid <$> t_shadow d;
  cm_login p : p ∈ t_passwd d -> is_Some (p_last_online_auth p);
  cm_readable : readable_tables d;
}.

Lemma lookup_one_calm {Row Ent} (entry : Row -> R world CacheError Ent) (of_row : Row -> Ent) q w : calm w ->
  (forall row, row ∈ q (w_db w) -> entry row = mret (of_row row)) ->
  (prepare_statement ;; rows ← stmt_query q; es ← rows_to_entries entry rows; expect_one_row es) w
  = expect_one_row (of_row <$> q (w_db w)) w.
Proof.
  intros Hw He. unfold prepare_statement, stmt_query, mbind, R_bind, map_failed, foreign.
  rewrite driver_calm, query_calm by done. by erewrite rows_calm by done.
Qed.

Lemma listing_calm {Row Ent} (entry : Row -> R world CacheError Ent) (of_row : Row -> Ent) q w : calm w ->
  (forall row, row ∈ q (w_db w) -> entry row = mret (of_row row)) ->
  (prepare_statement ;; rows ← stmt_query q; rows_to_entries entry rows) w = (Done (of_row <$> q (w_db w)), w).
Proof.
  intros Hw He. unfold prepare_statement, stmt_query, mbind, R_bind, map_failed, foreign.
  rewrite driver_calm, query_calm by done. by erewrite rows_calm by done.
Qed.

Section Agree.
Context `{Decorator} `{RowOrder} `{UnicodeLower} `{UnicodeCase}.

(** ** Users *)

Lemma scan_readable p pw : readable_user p = true -> is_Some (p_last_online_auth p) ->
  exists u, scan_user (user_cols_of (Some pw) p) = Ok u /\ same_user u = passwd_of p.
Proof.
  unfold readable_user. intros Hr [l Hl]. split_readable.
  destruct (p_password p) as [x|] eqn:Ex, (p_gecos p) as [ge|] eqn:Eg, (p_home p) as [ho|] eqn:Eh,
    (p_shell p) as [sh|] eqn:Es; try done.
  unfold user_cols_of, scan_user. simpl. rewrite Ex, Eg, Eh, Es, Hl. eexists. split; [reflexivity|].
  unfold same_user, passwd_of. simpl. by rewrite Ex, Eg, Eh, Es.
Qed.

(** A request by a unique key has one row, which both read, or none. *)
Lemma passwd_row_cases where_ d : db_wf d ->
  (forall p q, p ∈ t_passwd d -> q ∈ t_passwd d -> where_ p = true -> where_ q = true -> p = q) ->
  (exists p, p ∈ t_passwd d /\ where_ p = true /\ select_passwd where_ d = [p]) \/ select_passwd where_ d = [].
Proof.
  intros Hwf Hw. unfold select_passwd. destruct (filter (fun p => where_ p = true) (t_passwd d)) as [|p l] eqn:Ef.
  { right. apply row_order_nil. }
  assert (where_ p = true /\ p ∈ t_passwd d) as [Hp Hin] by (apply (list_elem_of_filter (fun p => where_ p = true)); rewrite Ef; by left).
  left. exists p. split_and!; [done..|]. rewrite <- Ef.
  rewrite (filter_ext_in _ (fun q => p_uid q = p_uid p)), (filter_unique p_uid p); [apply row_order_singleton|done|apply Hwf|done|].
  intros q Hq. split; [by intros Hwq; rewrite (Hw q p)|].
  intros E. assert (q = p) as -> by (eapply (NoDup_fmap_inj p_uid); [apply Hwf|done..]). done.
Qed.

Lemma select_users_nil c where_ d : select_passwd where_ d = [] -> select_users c where_ d = [].
Proof.
  unfold select_passwd, select_users. intros ->%row_order_nonempty. destruct (_ <? _); apply row_order_nil.
Qed.

(** Through [fmt], what the Go packages read of the request. *)
Lemma user_agrees c where_ fmt w : calm w -> common (w_db w) ->
  (forall p q, p ∈ t_passwd (w_db w) -> q ∈ t_passwd (w_db w) -> where_ p = true -> where_ q = true -> p = q) ->
  agrees same_user (errorf fmt (newUserFromScanner (query_row (select_users c where_))) w).1
    (expect_one_row (passwd_of <$> select_passwd where_ (w_db w)) w).1.
Proof.
  intros Hw [Hwf Hsh Hlast Hr] Hwh. unfold errorf, newUserFromScanner, map_err, mbind, M_bind.
  rewrite query_row_calm by done.
  destruct (passwd_row_cases where_ (w_db w)) as [(p & Hp & Hwp & ->)|Hn]; [done..| |].
  - assert (exists pw, shadow_seen c (w_db w) p pw) as [pw Hpw].
    { unfold shadow_seen. destruct (_ <? _); [|by exists ""].
      specialize (Hsh p Hp) as (s & Es & Hs)%list_elem_of_fmap. exists (s_password s), s. by split_and!. }
    rewrite (select_users_one c (w_db w) where_ p pw); [|done|done| |done].
    2: { intros q Hq. split; [by intros ?; apply Hwh|by intros ->]. }
    destruct (scan_readable p pw) as (u & Hu & Eu); [|by apply Hlast|].
    { pose proof (rd_users _ Hr) as Hf. rewrite Forall_forall in Hf. by apply Hf. }
    unfold lift. rewrite Hu. simpl. by rewrite Eu.
  - by rewrite (select_users_nil c _ _ Hn), Hn.
Qed.

(** ** Groups *)

Lemma scan_cols g : readable_cols g -> exists r, scan_group g = Ok r /\ same_group r = group_of g.
Proof.
  intros (name & passwd & gid & members & -> & _). by eexists.
Qed.

Lemma select_group_shape where_ d : select_group where_ d = [] \/ exists g, select_group where_ d = [g].
Proof. unfold select_group, concat_group. destruct (row_order _) as [|[g m] l]; [by left|right; by eexists]. Qed.

Lemma group_agrees where_ fmt w : calm w -> readable_tables (w_db w) ->
  agrees same_group (errorf fmt (newGroupFromScanner (query_row (select_group where_))) w).1
    (expect_one_row (group_of <$> select_group where_ (w_db w)) w).1.
Proof.
  intros Hw Hr. unfold errorf, newGroupFromScanner, map_err, mbind, M_bind. rewrite query_row_calm by done.
  destruct (select_group_shape where_ (w_db w)) as [->|[g Eg]]; [done|]. rewrite Eg.
  destruct (scan_cols g) as (r & Er & Eq); [eapply select_group_readable; [done|]; rewrite Eg; by left|].
  unfold lift. rewrite Er. simpl. by rewrite Eq.
Qed.

(** ** Shadow *)

Lemma join_single p ss : join_shadow [p] ss = (fun s => (p, s)) <$> filter (fun s => s_uid s = p_uid p) ss.
Proof.
  unfold join_shadow. csimpl. rewrite app_nil_r. induction ss as [|s ss IH]; [done|].
  csimpl. rewrite filter_cons, IH. destruct (Z.eqb_spec (p_uid p) (s_uid s)).
  - by rewrite decide_True.
  - by rewrite decide_False by congruence.
Qed.

Lemma shadow_row_cases n d : db_wf d ->
  let rows := row_order (join_shadow (filter (fun p => p_login p = n) (t_passwd d)) (t_shadow d)) in
  rows = [] \/ exists ps, rows = [ps].
Proof.
  intros Hwf rows. unfold rows. destruct (filter (fun p => p_login p = n) (t_passwd d)) as [|p l] eqn:Ef.
  { left. apply row_order_nil. }
  assert (p_login p = n /\ p ∈ t_passwd d) as [<- Hin]
    by (apply (list_elem_of_filter (fun p => p_login p = n)); rewrite Ef; by left).
  rewrite (filter_unique p_login p) in Ef; [|done|apply Hwf|done]. injection Ef as <-. rewrite join_single.
  destruct (filter (fun s => s_uid s = p_uid p) (t_shadow d)) as [|s l] eqn:Es; [left; apply row_order_nil|].
  right. assert (s_uid s = p_uid p /\ s ∈ t_shadow d) as [Eu Hs]
    by (apply (list_elem_of_filter (fun s => s_uid s = p_uid p)); rewrite Es; by left).
  rewrite (filter_ext_in _ (fun s' => s_uid s' = s_uid s)), (filter_unique s_uid s) in Es by (done || apply Hwf || by rewrite Eu).
  injection Es as <-. exists (p, s). apply row_order_singleton.
Qed.

Lemma shadow_agrees n fmt w : calm w -> common (w_db w) ->
  agrees same_shadow (errorf fmt (newShadowFromScanner (query_row (fun d =>
      row_order (join_shadow (filter (fun p => p_login p = n) (t_passwd d)) (t_shadow d))))) w).1
    (expect_one_row (shadow_of <$> row_order (join_shadow (filter (fun p => p_login p = n) (t_passwd (w_db w)))
       (t_shadow (w_db w)))) w).1.
Proof.
  intros Hw [Hwf _ _ _]. unfold errorf, newShadowFromScanner, map_err, mbind, M_bind. rewrite query_row_calm by done.
  by destruct (shadow_row_cases n (w_db w) Hwf) as [->|[[p s] ->]].
Qed.

(** ** The lookups *)

(** C16: on the same tables, when no call fails, the rows hold the texts that the
    library can read (none is NULL, all are UTF-8) and both may read the shadow
    database, the five lookups of the name service in Rust answer what the Go
    packages answer for the same number, or for the key that the library computes
    from the name: the same record, or an absence for an absence. The key is the
    name in lower case, as the clients of the cache store it, unless the name has
    one of the two letters whose lower case Rust computes otherwise, the capital
    sigma and the capital dotted i. The Go packages look for a name as it is
    given, so that for a name that is not a key the two may differ. *)
Theorem lookups_agree c c' name id w : calm w -> common (w_db w) ->
  shadowROMode <= shadowMode c -> shadow_inaccessible c' = false ->
  let key := normalize_username name in
  (forallb plain_rune (runes name) = true -> key = ToLower name) /\
  agrees same_user (GetUserByName c key w).1 (get_passwd_by_name name w).1 /\
  agrees same_user (GetUserByUID c id w).1 (get_passwd_by_uid id w).1 /\
  agrees same_group (GetGroupByName key w).1 (get_group_by_name name w).1 /\
  agrees same_group (GetGroupByGID id w).1 (get_group_by_gid id w).1 /\
  agrees same_shadow (GetShadowByName c key w).1 (get_shadow_by_name c' name w).1.
Proof.
  intros Hw Hc Hm Hm' key. pose proof (cm_readable _ Hc) as Hr. pose proof (cm_wf _ Hc) as Hwf.
  split; [apply to_lowercase_plain|].
  split_and!; [| | | |unfold get_shadow_by_name, GetShadowByName; rewrite Hm', (proj2 (Z.ltb_ge _ _)) by done];
    unfold get_passwd_by_name, get_passwd_by_uid, get_group_by_name, get_group_by_gid; fold key.
  - rewrite (lookup_one_calm passwd_entry passwd_of) by (done || by apply passwd_rows_readable).
    apply user_agrees; [done..|]. intros p q Hp Hq <-%bool_decide_eq_true_1 E%bool_decide_eq_true_1.
    by eapply (NoDup_fmap_inj p_login); [apply Hwf|..].
  - rewrite (lookup_one_calm passwd_entry passwd_of) by (done || by apply passwd_rows_readable).
    apply user_agrees; [done..|]. intros p q Hp Hq <-%Z.eqb_eq E%Z.eqb_eq.
    by eapply (NoDup_fmap_inj p_uid); [apply Hwf|..].
  - rewrite (lookup_one_calm group_entry group_of) by (done || by apply group_rows_readable). by apply group_agrees.
  - rewrite (lookup_one_calm group_entry group_of) by (done || by apply group_rows_readable). by apply group_agrees.
  - rewrite (lookup_one_calm shadow_entry shadow_of) by (done || by apply (shadow_rows_readable (fun p => p_login p = key))).
    by apply shadow_agrees.
Qed.

(** ** The enumerations *)

Lemma all_users_read d : common d -> exists us,
  Forall2 user_of_row (merge_sort login_le (t_passwd d)) us /\
  same_user <$> us = passwd_of <$> merge_sort login_le (t_passwd d).
Proof.
  intros [_ _ Hlast Hr]. pose proof (rd_users _ Hr) as Hf. rewrite Forall_forall in Hf.
  assert (forall p, p ∈ merge_sort login_le (t_passwd d) -> readable_user p = true /\ is_Some (p_last_online_auth p)) as Hall
    by (intros p; rewrite merge_sort_Permutation; auto).
  induction (merge_sort login_le (t_passwd d)) as [|p ps IH]; [exists []; by split; [constructor|]|].
  destruct IH as (us & Hus & E); [intros q Hq; apply Hall; by right|].
  destruct (Hall p) as [Hp Hl]; [by left|]. destruct (scan_readable p "" Hp Hl) as (u & Hu & Eu).
  exists (u :: us). csimpl. rewrite E, Eu. split; [by constructor|done].
Qed.

Lemma all_groups_read d : readable_tables d -> exists rs,
  Forall2 (reads newGroupFromScanner) (select_all_groups d) rs /\ same_group <$> rs = group_of <$> select_all_groups d.
Proof.
  intros Hr. assert (forall g, g ∈ select_all_groups d -> readable_cols g) as Hall
    by (intros g; by apply select_all_groups_readable).
  induction (select_all_groups d) as [|g gs IH]; [exists []; by split; [constructor|]|].
  destruct IH as (rs & Hrs & E); [intros q Hq; apply Hall; by right|].
  destruct (scan_cols g) as (r & Er & Eq); [apply Hall; by left|].
  exists (r :: rs). csimpl. rewrite E, Eq. split; [constructor; [by apply reads_group|done]|done].
Qed.

Lemma same_shadow_of ps : same_shadow (shadow_of_rows ps) = shadow_of ps.
Proof. by destruct ps. Qed.

(** When no call fails, an enumeration by the Go packages, from a closed
    iterator to its end, gives the users and the groups that the library in Rust
    lists, in the same order, and the same shadow entries, which the Go packages
    give in the order of the tables and the library in the order of the logins. *)
Theorem listings_agree c c' w : calm w -> common (w_db w) ->
  cursorPasswd c = None -> cursorGroup c = None -> cursorShadow c = None ->
  ShadowReadable c = true -> shadow_inaccessible c' = false ->
  (exists us, drain NextPasswdEntry (S (length us)) (c, w) = (Ok us, (c, w))
     /\ get_all_passwds w = (Done (same_user <$> us), w)) /\
  (exists rs, drain NextGroupEntry (S (length rs)) (c, w) = (Ok rs, (c, w))
     /\ get_all_groups w = (Done (same_group <$> rs), w)) /\
  (exists ss ss', drain NextShadowEntry (S (length ss)) (c, w) = (Ok ss, (c, w))
     /\ get_all_shadows c' w = (Done (same_shadow <$> ss'), w) /\ ss' ≡ₚ ss).
Proof.
  intros Hw Hc Hp Hg Hs Hm Hm'. pose proof (cm_readable _ Hc) as Hr. split_and!.
  - destruct (all_users_read (w_db w) Hc) as (us & Hus & E). exists us. split.
    + apply (drain_all cursorPasswd set_cursorPasswd) with
        (rows := user_cols_of (Some "") <$> merge_sort login_le (t_passwd (w_db w)));
        [done|done|by intros []|done|done|by rewrite query_calm|].
      apply Forall2_fmap_l. eapply Forall2_impl; [done|]. apply reads_user.
    + unfold get_all_passwds. rewrite (listing_calm passwd_entry passwd_of) by (done || by apply all_passwd_readable).
      by rewrite E.
  - destruct (all_groups_read (w_db w) Hr) as (rs & Hrs & E). exists rs. split.
    + apply (drain_all cursorGroup set_cursorGroup) with (rows := select_all_groups (w_db w));
        [done|done|by intros []|done|done|by rewrite query_calm|exact Hrs].
    + unfold get_all_groups. rewrite (listing_calm group_entry group_of) by (done || by apply all_groups_readable).
      by rewrite E.
  - destruct (proj1 (NextShadowEntry_all c w Hw Hs) Hm) as (rows & Hrows & E).
    exists (shadow_of_rows <$> rows), (shadow_of_rows <$> merge_sort pair_le (row_order (join_shadow (t_passwd (w_db w)) (t_shadow (w_db w))))).
    split_and!.
    + by rewrite length_fmap.
    + unfold get_all_shadows. rewrite Hm', (listing_calm shadow_entry shadow_of) by (done || by apply all_shadow_readable).
      rewrite <- list_fmap_compose. do 2 f_equal. apply list_fmap_ext. intros i ps _. symmetry. apply same_shadow_of.
    + by rewrite merge_sort_Permutation, row_order_perm, Hrows.
Qed.
End Agree.
