(* ===== verification/RustOrphans.v ===== *)
(** * What the purge of the name service in Rust leaves behind

    The Go packages purge a user with its shadow row, its link and its group.
    The library in Rust removes the user and its shadow row only: the link that
    stays keeps the group, and the group keeps the login from being registered
    again. The links and the groups are then coherent in a weaker sense. *)

From S2P Require Import Prelude GoStrings Interfaces Tables CacheDB CacheFacts HomeDir UidGen CacheAuth CacheUpdate.
From S2P Require Import CacheTheorems Typed CacheSpec CacheOpen CacheLife Offline RustStd RustCache RustNss RustFacts.
Open Scope string_scope.
Open Scope list_scope.
Open Scope Z_scope.

(** ** The two purges *)

(** On coherent tables, the purge of the library in Rust removes the same
    users and the same shadow rows as the purge of the Go packages for the same
    time, and no link and no group, where the Go packages remove those of the
    users that go. *)
Theorem rust_purge_effect t d : db_wf d -> coherent d ->
  t_passwd (rust_purged t d) = t_passwd (purged t d) /\
  t_shadow (rust_purged t d) = t_shadow (purged t d) /\
  t_uid_gid (rust_purged t d) = t_uid_gid d /\
  t_groups (rust_purged t d) = t_groups d /\
  (forall p g, p ∈ t_passwd d -> older t p -> g ∈ t_groups d -> g_gid g = p_gid p ->
     g ∈ t_groups (rust_purged t d) /\ g ∉ t_groups (purged t d)).
Proof.
  intros Hwf Hco. pose proof Hco as [C1 C2 C3 C4].
  assert (t_groups (rust_purged t d) = t_groups d) as Eg.
  { simpl. apply filter_all. intros g Hg. destruct (proj1 (C3 (g_name g) (g_gid g))) as (p & Hp & _ & E); [by eauto|].
    apply list_elem_of_fmap. exists (UidGidRow (p_uid p) (p_gid p)). split; [by symmetry|]. apply C4. by exists p. }
  split_and!; [done..|]. intros p g Hp Ho Hg E. rewrite Eg. split; [done|].
  intros Hin. by apply (purged_group_of t d p g) in Hin.
Qed.

(** ** Invariants that both purges keep *)

Lemma rust_purged_wf t d : db_wf d -> db_wf (rust_purged t d).
Proof. unfold rust_purged. auto with aad. Qed.

(** Every user has its shadow row, its group and its link, and nothing else has
    a shadow row; a link joins equal numbers, and the groups are those of the
    links. *)
Record linked (d : database) : Prop := {
  lk_gid p : p ∈ t_passwd d -> p_gid p = p_uid p;
  lk_shadow i : i ∈ s_uid <$> t_shadow d <-> i ∈ p_uid <$> t_passwd d;
  lk_group p : p ∈ t_passwd d -> exists g, g ∈ t_groups d /\ g_name g = p_login p /\ g_gid g = p_gid p;
  lk_link p : p ∈ t_passwd d -> UidGidRow (p_uid p) (p_gid p) ∈ t_uid_gid d;
  lk_same u : u ∈ t_uid_gid d -> ug_uid u = ug_gid u;
  lk_groups i : i ∈ g_gid <$> t_groups d <-> i ∈ ug_gid <$> t_uid_gid d;
}.

Lemma coherent_linked d : coherent d -> linked d.
Proof.
  intros [C1 C2 C3 C4]. split; [done|done| | | |].
  - intros p Hp. apply C3. by exists p.
  - intros p Hp. apply C4. by exists p.
  - intros u (p & Hp & ->)%C4. simpl. by rewrite C1.
  - intros i. rewrite !list_elem_of_fmap. split.
    + intros (g & -> & Hg). destruct (proj1 (C3 (g_name g) (g_gid g))) as (p & Hp & _ & E); [by eauto|].
      exists (UidGidRow (p_uid p) (p_gid p)). split; [done|]. apply C4. by exists p.
    + intros (u & -> & (p & Hp & ->)%C4). simpl. destruct (proj2 (C3 (p_login p) (p_gid p))) as (g & Hg & _ & E); [by eauto|].
      by exists g.
Qed.

Lemma linked_empty : linked empty_db.
Proof. apply coherent_linked, coherent_empty. Qed.

Lemma linked_inserted u d : GID u = UID u -> linked d -> linked (user_inserted u d).
Proof.
  intros Hg [L1 L2 L3 L4 L5 L6]. split; simpl.
  - intros p [Hp| ->%list_elem_of_singleton]%elem_of_app; [by apply L1|done].
  - intros i. rewrite !fmap_app, !elem_of_app, L2. done.
  - intros p [Hp| ->%list_elem_of_singleton]%elem_of_app.
    + destruct (L3 p Hp) as (g & Hin & ?). exists g. split; [|done]. apply elem_of_app. by left.
    + eexists. split; [apply elem_of_app; right; by left|done].
  - intros p [Hp| ->%list_elem_of_singleton]%elem_of_app; apply elem_of_app; [left; by apply L4|right; by left].
  - intros ug [Hu| ->%list_elem_of_singleton]%elem_of_app; [by apply L5|done].
  - intros i. rewrite !fmap_app, !elem_of_app, L6. done.
Qed.

(** Only projections matter. *)
Lemma linked_same_keys d d' :
  (fun p => (p_login p, p_uid p, p_gid p)) <$> t_passwd d' = (fun p => (p_login p, p_uid p, p_gid p)) <$> t_passwd d ->
  t_groups d' = t_groups d -> t_uid_gid d' = t_uid_gid d -> s_uid <$> t_shadow d' = s_uid <$> t_shadow d ->
  linked d -> linked d'.
Proof.
  intros Ep Eg Eu Es [L1 L2 L3 L4 L5 L6]. set (keys := fun p => (p_login p, p_uid p, p_gid p)) in *.
  assert (forall p, p ∈ t_passwd d' -> exists q, q ∈ t_passwd d /\ keys q = keys p) as Hfwd.
  { intros p Hp. assert (keys p ∈ keys <$> t_passwd d') as Hk by by apply list_elem_of_fmap_2.
    rewrite Ep in Hk. apply list_elem_of_fmap in Hk as (q & E & Hq). by exists q. }
  assert (p_uid <$> t_passwd d' = p_uid <$> t_passwd d) as Eid.
  { apply (f_equal (fmap (fun k => k.1.2))) in Ep. by rewrite <- !list_fmap_compose in Ep. }
  unfold keys in Hfwd. split.
  - intros p (q & Hq & [= _ E1 E2])%Hfwd. rewrite <- E1, <- E2. by apply L1.
  - intros i. by rewrite Es, Eid.
  - intros p (q & Hq & [= E1 _ E2])%Hfwd. rewrite Eg, <- E1, <- E2. by apply L3.
  - intros p (q & Hq & [= _ E1 E2])%Hfwd. rewrite Eu, <- E1, <- E2. by apply L4.
  - rewrite Eu. apply L5.
  - rewrite Eu, Eg. apply L6.
Qed.

Lemma linked_refreshed now uid pw d : linked d -> linked (refreshed now uid pw d).
Proof. apply linked_same_keys; simpl; try done; by rewrite fmap_cond_preserve. Qed.

Lemma linked_update_attr attr v login d d' : update_attr attr v login d = Ok (tt, d') -> linked d -> linked d'.
Proof.
  intros Hu. pose proof (update_attr_inv _ _ _ _ _ Hu) as (E1 & E2 & E3 & _).
  apply linked_same_keys; [by eapply update_attr_keys|done..|by rewrite E3].
Qed.

(** The shadow rows follow the users that a purge keeps. *)
Lemma purged_shadow_follows t d : db_wf d -> (forall i, i ∈ s_uid <$> t_shadow d <-> i ∈ p_uid <$> t_passwd d) ->
  forall i, i ∈ s_uid <$> t_shadow (purged t d) <-> i ∈ p_uid <$> t_passwd (purged t d).
Proof.
  intros Hwf Hs i. rewrite !list_elem_of_fmap. split.
  - intros (s & -> & [Hin Hn]%elem_of_purged_shadow).
    assert (s_uid s ∈ p_uid <$> t_passwd d) as (p & Ep & Hp)%list_elem_of_fmap by by apply Hs, list_elem_of_fmap_2.
    exists p. split; [done|]. apply elem_of_purged_passwd. split; [done|]. rewrite Ep in Hn. by apply not_old_uid in Hn.
  - intros (p & -> & [Hp Ho]%elem_of_purged_passwd).
    assert (p_uid p ∈ s_uid <$> t_shadow d) as (s & Es & Hin)%list_elem_of_fmap by by apply Hs, list_elem_of_fmap_2.
    exists s. split; [done|]. apply elem_of_purged_shadow. split; [done|]. rewrite <- Es. by apply not_old_uid.
Qed.

Lemma linked_purged t d : db_wf d -> linked d -> linked (purged t d).
Proof.
  intros Hwf [L1 L2 L3 L4 L5 L6].
  assert (forall p, p ∈ t_passwd (purged t d) -> UidGidRow (p_uid p) (p_gid p) ∈ t_uid_gid (purged t d)) as Hlink.
  { intros p [Hp Ho]%elem_of_purged_passwd. apply elem_of_purged_link. split; [by apply L4|]. by apply not_old_uid. }
  split; [|by apply purged_shadow_follows| |exact Hlink| |].
  - intros p [Hp _]%elem_of_purged_passwd. by apply L1.
  - intros p Hpp. pose proof Hpp as [Hp Ho]%elem_of_purged_passwd. destruct (L3 p Hp) as (g & Hg & En & E).
    exists g. split; [|done]. apply elem_of_purged_group. split; [done|]. eexists. split; [by apply Hlink|done].
  - intros u [Hu _]%elem_of_purged_link. by apply L5.
  - intros i. rewrite !list_elem_of_fmap. split.
    + intros (g & -> & [Hg (u & Hu & E)]%elem_of_purged_group). by exists u.
    + intros (u & -> & Hu). pose proof Hu as [Hu0 _]%elem_of_purged_link.
      assert (ug_gid u ∈ g_gid <$> t_groups d) as (g & E & Hg)%list_elem_of_fmap by by apply L6, list_elem_of_fmap_2.
      exists g. split; [done|]. apply elem_of_purged_group. split; [done|]. by exists u.
Qed.

Lemma elem_of_rust_groups t d g : linked d -> g ∈ t_groups (rust_purged t d) <-> g ∈ t_groups d.
Proof.
  intros [_ _ _ _ _ L6]. simpl. rewrite list_elem_of_filter. split; [tauto|]. intros Hg. split; [|done].
  by apply L6, list_elem_of_fmap_2.
Qed.

Lemma linked_rust_purged t d : db_wf d -> linked d -> linked (rust_purged t d).
Proof.
  intros Hwf Hl. pose proof Hl as [L1 L2 L3 L4 L5 L6].
  assert (forall p, p ∈ t_passwd (rust_purged t d) -> p ∈ t_passwd d) as Hsub
    by (intros p; simpl; rewrite list_elem_of_filter; tauto).
  split; [|by apply (purged_shadow_follows t)| | |exact L5|].
  - intros p Hp%Hsub. by apply L1.
  - intros p Hp%Hsub. destruct (L3 p Hp) as (g & Hg & ?). exists g. split; [|done]. by apply elem_of_rust_groups.
  - intros p Hp%Hsub. by apply L4.
  - intros i. change (t_uid_gid (rust_purged t d)) with (t_uid_gid d). rewrite <- L6, !list_elem_of_fmap.
    by setoid_rewrite (elem_of_rust_groups t d); [|done].
Qed.

(** The weaker coherence, where the name service writes to the tables too. *)
#[export, refine] Instance linked_invariant : TableInvariant linked := {|
  ti_empty := linked_empty;
  ti_inserted := linked_inserted;
  ti_refreshed := linked_refreshed;
  ti_value _ := True;
  ti_update_attr attr v login d d' _ := linked_update_attr attr v login d d';
  ti_purged := linked_purged;
|}.
Proof. intros d p Hl. apply (lk_gid _ Hl). Defined.

(** With attributes that are never NULL, the texts of the users are there. *)
Definition linked_present (d : database) : Prop := linked d /\ all_present d.

#[export, refine] Instance linked_present_invariant : TableInvariant linked_present := {|
  ti_value v := v <> VNull;
|}.
Proof.
  - split; [apply linked_empty|constructor].
  - intros d p [Hl _]. apply (lk_gid _ Hl).
  - intros u d Hg [Hl Hp]. split; [by apply linked_inserted|by apply present_inserted].
  - intros now uid pw d [Hl Hp]. split; [by apply linked_refreshed|by apply present_refreshed].
  - intros attr v login d d' Hv Hu [Hl Hp]. split; [by eapply linked_update_attr|by eapply present_update_attr].
  - intros t d Hwf [Hl Hp]. split; [by apply linked_purged|by apply present_purged].
Defined.

Lemma present_rust_purged t d : all_present d -> all_present (rust_purged t d).
Proof. unfold all_present. rewrite !Forall_forall. intros Hd p [_ Hp]%list_elem_of_filter. by apply Hd. Qed.

Lemma typed_rust_purged t d : typed d -> typed (rust_purged t d).
Proof.
  intros [Hu Hg Hs]. rewrite Forall_forall in Hu. rewrite Forall_forall in Hg. rewrite Forall_forall in Hs.
  split; apply Forall_forall; intros x [_ Hx]%list_elem_of_filter; auto.
Qed.

(** ** A purged login cannot be registered again *)

(** The group and the link of a user that is gone. *)
Definition orphan (n : string) (d : database) : Prop := exists i,
  (n ∉ (p_login <$> t_passwd d)) /\ (i ∉ (p_uid <$> t_passwd d)) /\
  (exists g, g ∈ t_groups d /\ g_name g = n /\ g_gid g = i) /\ UidGidRow i i ∈ t_uid_gid d.

Lemma rust_purge_orphans t d p : db_wf d -> linked d -> p ∈ t_passwd d -> older t p ->
  orphan (p_login p) (rust_purged t d).
Proof.
  intros Hwf Hl Hp Ho. destruct (lk_group _ Hl p Hp) as (g & Hg & En & Eg). pose proof (lk_gid _ Hl p Hp) as E.
  exists (p_uid p). split_and!.
  - intros (q & Eq & [Hno Hq]%list_elem_of_filter)%list_elem_of_fmap. apply Hno.
    by rewrite (NoDup_fmap_inj p_login (t_passwd d) q p (wf_login _ Hwf) Hq Hp (eq_sym Eq)).
  - intros (q & Eq & [Hno Hq]%list_elem_of_filter)%list_elem_of_fmap. apply Hno.
    by rewrite (NoDup_fmap_inj p_uid (t_passwd d) q p (wf_uid _ Hwf) Hq Hp (eq_sym Eq)).
  - exists g. split; [by apply elem_of_rust_groups|]. by rewrite Eg.
  - rewrite <- E at 2. by apply (lk_link _ Hl).
Qed.

Lemma orphan_inserted n u d : GID u = UID u -> fresh_user u d -> orphan n d -> orphan n (user_inserted u d).
Proof.
  intros Eg [F1 F2 F3 F4 F5 F6] (i & Hn & Hi & (g & Hg & <- & <-) & Hl). exists (g_gid g). simpl.
  rewrite !fmap_app, !elem_of_app. simpl. rewrite !list_elem_of_singleton. split_and!.
  - intros [?|E]; [done|]. apply F4. rewrite <- E. by apply list_elem_of_fmap_2.
  - intros [?|E]; [done|]. apply F5. rewrite Eg, <- E. by apply list_elem_of_fmap_2.
  - exists g. split; [|done]. apply elem_of_app. by left.
  - by left.
Qed.

Lemma orphan_same n d d' : p_login <$> t_passwd d' = p_login <$> t_passwd d -> p_uid <$> t_passwd d' = p_uid <$> t_passwd d ->
  t_groups d' = t_groups d -> t_uid_gid d' = t_uid_gid d -> orphan n d -> orphan n d'.
Proof. intros E1 E2 E3 E4. unfold orphan. by rewrite E1, E2, E3, E4. Qed.

Lemma orphan_refreshed n now uid h d : orphan n d -> orphan n (refreshed now uid h d).
Proof. apply orphan_same; simpl; try done; by rewrite fmap_cond_preserve. Qed.

Lemma orphan_update_attr n attr v login d d' : update_attr attr v login d = Ok (tt, d') -> orphan n d -> orphan n d'.
Proof.
  intros Hu. pose proof (update_attr_inv _ _ _ _ _ Hu) as (E1 & E2 & _).
  pose proof (update_attr_keys _ _ _ _ _ Hu) as Ek. apply orphan_same; [| |done..].
  - apply (f_equal (fmap (fun k => k.1.1))) in Ek. by rewrite <- !list_fmap_compose in Ek.
  - apply (f_equal (fmap (fun k => k.1.2))) in Ek. by rewrite <- !list_fmap_compose in Ek.
Qed.

(** Neither purge removes an orphan: its link belongs to no user. *)
Lemma orphan_filtered n d d' : (forall p, p ∈ t_passwd d' -> p ∈ t_passwd d) ->
  (forall i, i ∉ p_uid <$> t_passwd d -> UidGidRow i i ∈ t_uid_gid d -> UidGidRow i i ∈ t_uid_gid d') ->
  (forall g, g ∈ t_groups d -> g_gid g ∈ ug_gid <$> t_uid_gid d' -> g ∈ t_groups d') ->
  orphan n d -> orphan n d'.
Proof.
  intros Hp Hl Hg (i & Hn & Hi & (g & Hgin & En & Ei) & Hlin). exists i. split_and!.
  - intros (p & -> & Hin)%list_elem_of_fmap. apply Hn, list_elem_of_fmap_2. by apply Hp.
  - intros (p & -> & Hin)%list_elem_of_fmap. apply Hi, list_elem_of_fmap_2. by apply Hp.
  - exists g. split; [|done]. apply Hg; [done|]. apply list_elem_of_fmap. exists (UidGidRow i i). split; [done|]. by apply Hl.
  - by apply Hl.
Qed.

Lemma orphan_purged n t d : orphan n d -> orphan n (purged t d).
Proof.
  apply orphan_filtered.
  - by intros p [Hp _]%elem_of_purged_passwd.
  - intros i Hi Hl. apply elem_of_purged_link. split; [done|]. simpl. intros (p & -> & [_ Hp]%list_elem_of_filter)%list_elem_of_fmap.
    by apply Hi, list_elem_of_fmap_2.
  - intros g Hg (u & E & Hu)%list_elem_of_fmap. apply elem_of_purged_group. split; [done|]. by exists u.
Qed.

Lemma orphan_rust_purged n t d : orphan n d -> orphan n (rust_purged t d).
Proof.
  apply orphan_filtered; [by intros p [_ ?]%list_elem_of_filter|done|].
  intros g Hg Hu. by apply list_elem_of_filter.
Qed.

Section Locked.
Context `{Decorator} `{Bcrypt} `{RowOrder}.

(** No row of the tables is that of the login, and none can be. *)
Lemma orphan_not_fresh n home sh id d : orphan n d -> ~ fresh_user (new_user n home sh id) d.
Proof. intros (i & _ & _ & (g & Hg & <- & _) & _) Hf. apply (fresh_name _ _ Hf). simpl. by apply list_elem_of_fmap_2. Qed.

Lemma orphan_Update n c pw pat sh w : orphan n (w_db w) ->
  is_ok (Update c n pw pat sh w).1 = false /\ w_db (Update c n pw pat sh w).2 = w_db w.
Proof.
  intros Ho. destruct (Update c n pw pat sh w) as [r w'] eqn:Eu.
  apply Update_inv in Eu as [_ [(_ & _ & uid & h & d1 & Hs & _)|[Hr Hd]]]; simpl.
  - exfalso. destruct Hs as [(_ & p & _ & _ & Hp & E & _)|(id & home & _ & (Hf & _) & _)]; [|by eapply orphan_not_fresh].
    destruct Ho as (i & Hn & _). apply Hn. rewrite <- E. by apply list_elem_of_fmap_2.
  - split; [by destruct r as [[]| |]|]. destruct Hd as [?|(id & home & _ & (Hf & _) & _)]; [done|].
    by destruct (orphan_not_fresh _ _ _ _ _ Ho Hf).
Qed.

Lemma orphan_other_Update n n' c pw pat sh w : orphan n (w_db w) -> orphan n (w_db (Update c n' pw pat sh w).2).
Proof.
  intros Ho. destruct (Update c n' pw pat sh w) as [r w'] eqn:Eu. simpl.
  apply Update_inv in Eu as [_ [(_ & _ & uid & h & d1 & Hs & _ & ->)|[_ [->|(id & home & _ & (Hf & _) & ->)]]]]; [|done|].
  - apply orphan_refreshed. destruct Hs as [[-> _]|(id & home & _ & (Hf & _) & ->)]; [done|]. by apply orphan_inserted.
  - by apply orphan_inserted.
Qed.

Lemma orphan_lookup n c w : orphan n (w_db w) -> is_ok (GetUserByName c n w).1 = false.
Proof.
  intros (i & Hn & _). destruct (GetUserByName c n w) as [[u| |] w'] eqn:Eg; [|done..].
  exfalso. apply GetUserByName_Ok in Eg as (p & pw & Hp & E & _). apply Hn. rewrite <- E. by apply list_elem_of_fmap_2.
Qed.

Lemma orphan_CanAuthenticate n c pw w : orphan n (w_db w) -> is_ok (CanAuthenticate c n pw w).1 = false.
Proof.
  intros Ho. destruct (CanAuthenticate c n pw w) as [[[]| |] w'] eqn:Ec; [|done..].
  apply CanAuthenticate_inv in Ec as (_ & _ & u & Hg & _). pose proof (orphan_lookup n c w Ho) as Hl. by rewrite Hg in Hl.
Qed.

Lemma orphan_run_call n c k w : orphan n (w_db w) -> orphan n (w_db (run_call c k w).2).
Proof.
  intros Ho. destruct k as [n' pw pat sh|n' pw|n'|login attr v|dur]; cbn [run_call].
  - pose proof (orphan_other_Update n n' c pw pat sh w Ho) as Hu. unfold mbind, M_bind.
    by destruct (Update c n' pw pat sh w) as [[]].
  - pose proof (CanAuthenticate_ro c n' pw w) as (Ed & _). unfold mbind, M_bind.
    destruct (CanAuthenticate c n' pw w) as [[]]; simpl in *; by rewrite Ed.
  - pose proof (GetUserByName_ro c n' w) as (Ed & _). unfold mbind, M_bind.
    destruct (GetUserByName c n' w) as [[]]; simpl in *; by rewrite Ed.
  - unfold mbind, M_bind. destruct (UpdateUserAttribute login attr v w) as [r w'] eqn:Eu.
    assert (orphan n (w_db w')) as Ho'.
    { apply UpdateUserAttribute_inv in Eu as [(_ & _ & _ & Eu)|[_ ->]]; [by eapply orphan_update_attr|done]. }
    by destruct r.
  - unfold mbind, M_bind. destruct (cleanUpDB dur w) as [r w'] eqn:Ec.
    assert (orphan n (w_db w')) as Ho' by (apply cleanUpDB_inv in Ec as [[_ ->]|[_ ->]]; [by apply orphan_purged|done]).
    by destruct r.
Qed.

(** What happens to the tables of an opened cache: an operation of the package,
    by any client and whatever fails, or a purge of the name service. *)
Inductive cache_step : database -> database -> Prop :=
  | StepCall c k w : cache_step (w_db w) (w_db (run_call c k w).2)
  | StepRustPurge t d : cache_step d (rust_purged t d).

Lemma orphan_stays n d d' : orphan n d -> rtc cache_step d d' -> orphan n d'.
Proof.
  intros Ho Hr. revert Ho. induction Hr as [|x y z [c k w|t d0] _ IH]; [done|..]; intros Ho.
  - by apply IH, orphan_run_call.
  - by apply IH, orphan_rust_purged.
Qed.

(** C15: a user that the purge of the name service has removed can never log in
    again on that cache, online or offline: whatever operations run afterwards,
    with whichever failures, each attempt to record a verified login of that user
    fails and leaves the tables as they were, and each offline login is refused. *)
Theorem purged_user_locked_out c0 w0 w1 p w : db_wf (w_db w0) -> linked (w_db w0) -> p ∈ t_passwd (w_db w0) ->
  cleanup_expired_entries c0 w0 = (Done tt, w1) -> p ∉ t_passwd (w_db w1) -> rtc cache_step (w_db w1) (w_db w) ->
  (forall c pw pat sh, is_ok (Update c (p_login p) pw pat sh w).1 = false
     /\ w_db (Update c (p_login p) pw pat sh w).2 = w_db w) /\
  (forall c pw, is_ok (CanAuthenticate c (p_login p) pw w).1 = false).
Proof.
  intros Hwf Hl Hp Hc Hn Hr. apply cleanup_inv in Hc as (_ & _ & [E|(_ & _ & _ & t & _ & E)]); [by rewrite E in Hn|].
  assert (orphan (p_login p) (w_db w)) as Hor.
  { rewrite E in Hn, Hr. eapply orphan_stays, Hr. apply rust_purge_orphans; [done..|].
    destruct (decide (older t p)) as [|Ho]; [done|]. destruct Hn. by apply list_elem_of_filter. }
  split; [intros c pw pat sh; by apply orphan_Update|intros c pw; by apply orphan_CanAuthenticate].
Qed.
End Locked.
