(* ===== verification/RustOpens.v ===== *)
(** * A cache that the Go packages open is one that the library in Rust opens

    The Go packages compare the whole mode of a file, the library in Rust the
    bits that it expects: what the first accept, the second accepts, and when no
    call fails it opens the cache, in the mode of the process, with the purge if
    the process can write. *)

From S2P Require Import Prelude GoStrings Interfaces Tables CacheDB CacheFacts HomeDir UidGen CacheAuth.
From S2P Require Import CacheOpen CacheLife RustStd RustCache RustNss RustFacts RustService.
Open Scope string_scope.
Open Scope list_scope.
Open Scope Z_scope.

(** ** Calls that succeed *)

Definition still (s : sys) : Prop := s_faults s = [].

Lemma syscall_still s : still s -> syscall s = (Ok tt, s).
Proof. unfold still, syscall. by intros ->. Qed.

Lemma stat_still dir f s m : still s -> meta f (dir_of dir s) = Some m -> stat dir f s = (Ok m, s).
Proof. intros Hs Hm. unfold stat, mbind, M_bind, step. by rewrite syscall_still, Hm. Qed.

Lemma call_still {E} (g : string -> E) s : still s -> map_failed g (foreign syscall) s = (Done tt, s).
Proof. intros Hs. unfold map_failed, foreign. by rewrite syscall_still. Qed.

(** One step of a computation whose first part is known. *)
Lemma R_bind_known {S E A B} (m : R S E A) (f : A -> R S E B) s a s' : m s = (Done a, s') -> (m ≫= f) s = f a s'.
Proof. intros E1. unfold mbind, R_bind. by rewrite E1. Qed.

Lemma check_still dir files s : still s -> Forall (file_accepted dir s) files ->
  check_file_permissions dir files s = (Done tt, s).
Proof.
  intros Hs. induction 1 as [|file files (m & Hm & Ep & Eu & Eg) _ IH]; [done|]. cbn [check_file_permissions].
  erewrite R_bind_known; [|unfold map_failed, foreign; by rewrite (stat_still _ _ _ m)].
  by rewrite Ep, Z.eqb_refl, Eu, Eg, !Z.eqb_refl.
Qed.

Lemma exists_still dir files s found : still s -> Forall (file_accepted dir s) files -> files <> [] \/ found = true ->
  any_exists dir files found s = (Done true, s).
Proof.
  intros Hs Hf. revert found. induction Hf as [|file files (m & Hm & _) _ IH]; intros found Hne.
  - by destruct Hne as [?| ->].
  - cbn [any_exists]. erewrite R_bind_known; [|unfold exists_; erewrite R_bind_known; [done|]].
    2: { unfold outcome_of, foreign. by rewrite (stat_still _ _ _ m). }
    apply IH. right. by rewrite orb_true_r.
Qed.

(** ** The connection *)

Section Opens.
Variables readable writable : string -> checked -> sys -> bool.
Variable get_group_by_name_sys : string -> option Z.

Abbreviation open_connection := (open_connection readable writable get_group_by_name_sys new).
Abbreviation build := (build readable writable get_group_by_name_sys new).

(** What the process can do with the files of the cache. *)
Definition rights (s : sys) : ShadowMode :=
  if writable DB_PATH (TheFile ShadowDB) s then ReadWrite
  else if readable DB_PATH (TheFile ShadowDB) s then ReadOnly
  else Unavailable.

Definition args_of (s : sys) : string :=
  if writable DB_PATH (TheFile PasswdDB) s
  then if writable DB_PATH TheDirectory s then DB_CONN_OPT_RW else DB_CONN_OPT_RO
  else DB_CONN_OPT_RO.

Definition connection_of (s : sys) : CacheDB :=
  MkCacheDB (MkConnection DB_PATH (DB_CONN_PREFIX +:+ (DB_PATH +:+ "/" +:+ "passwd.db") +:+ args_of s) (args_of s)
               (open_flags (rights s)) (mode_value ReadOnly <=? mode_value (rights s)))
    (rights s) OFFLINE_CREDENTIALS_EXPIRATION.

Lemma open_still gid s : still s -> get_group_by_name_sys "shadow" = Some gid ->
  Forall (file_accepted DB_PATH s) (db_files new gid) -> open_connection s = (Done (connection_of s), s).
Proof.
  intros Hs Hg Hf. unfold RustCache.open_connection. change (b_db_path new) with DB_PATH.
  assert (shadow_gid_of get_group_by_name_sys new s = (Done gid, s)) as Eg by (unfold shadow_gid_of; cbn; by rewrite Hg).
  rewrite (R_bind_known _ _ _ _ _ Eg).
  erewrite R_bind_known; [|by apply exists_still; [| |left]]. cbn [negb].
  erewrite R_bind_known; [|by apply check_still].
  assert (detect_mode readable writable new s = (Done (rights s), s)) as Em by done. rewrite (R_bind_known _ _ _ _ _ Em).
  assert (passwd_db_args writable DB_PATH s = (Done (args_of s), s)) as Ea by done. rewrite (R_bind_known _ _ _ _ _ Ea).
  erewrite R_bind_known; [|done]. erewrite R_bind_known; [|by apply call_still]. unfold connection_of.
  destruct (mode_value ReadOnly <=? mode_value (rights s)); [|done].
  erewrite R_bind_known; [done|]. erewrite R_bind_known; [|done]. by apply call_still.
Qed.

Lemma execute_calm c stmt w : calm w -> conn_args c = DB_CONN_OPT_RW ->
  execute c stmt w = (Ok tt, set_db (stmt (w_db w)) w).
Proof.
  intros Hw Hc. unfold execute. rewrite Hc, bool_decide_eq_false_2 by done.
  unfold exec_ok. by rewrite exec_calm.
Qed.

Lemma cleanup_calm c w t : calm w -> offline_credentials_expiration c <> 0 -> conn_args (conn c) = DB_CONN_OPT_RW ->
  purge_before (w_now w) (i32 (EXPIRATION_PURGE_MULTIPLIER * offline_credentials_expiration c)) = Ok t ->
  cleanup_expired_entries c w = (Done tt, set_db (rust_purged t (w_db w)) w).
Proof.
  intros Hw Hx Hc Ht. unfold cleanup_expired_entries. rewrite (proj2 (Z.eqb_neq _ _) Hx). unfold foreign.
  erewrite transaction_calm_Ok; [done|done| |done]. unfold get, lift, mbind, M_bind. rewrite Ht.
  unfold exec_ok at 1. rewrite exec_calm by done. rewrite execute_calm by done. by rewrite execute_calm by done.
Qed.

(** ** The files that the Go packages leave *)

Lemma accepted_exactly gid s :
  meta PasswdDB (dir_of DB_PATH s) = Some (FileMeta perm_0644 0 0) ->
  meta ShadowDB (dir_of DB_PATH s) = Some (FileMeta perm_0640 0 gid) ->
  Forall (file_accepted DB_PATH s) (db_files new gid).
Proof. intros Hp Hs. repeat constructor; eexists; (split; [done|]); by rewrite Z.land_diag. Qed.

(** C22: when the Go packages have opened the cache with their default files and
    owners, and no call fails, the library in Rust opens it too: with the access
    to the shadow file that the process has, the tables as they are for a
    process that cannot write to that file, and purged for one that can. *)
Theorem opens_what_go_opens euid egid groups passwd_first gid force s0 mode s :
  initDB euid egid groups passwd_first DB_PATH 0 0 gid force perm_0644 perm_0640 s0 = (Ok mode, s) ->
  still s -> get_group_by_name_sys "shadow" = Some gid ->
  (rights s = ReadWrite -> args_of s = DB_CONN_OPT_RW
     /\ in_rng (-377705116800) 253402300799 (rust_purge_time (s_now s)) = true) ->
  exists s', build s = (Done (connection_of s), s') /\
    d_tables (dir_of DB_PATH s') =
      (if decide (rights s = ReadWrite) then rust_purged (rust_purge_time (s_now s)) else id) (d_tables (dir_of DB_PATH s)).
Proof.
  intros Hi Hs Hg Hw. apply initDB_metas in Hi as [Hp Hsh].
  pose proof (open_still gid s Hs Hg (accepted_exactly gid s Hp Hsh)) as Ho.
  unfold RustCache.build. rewrite (R_bind_known _ _ _ _ _ Ho). change (shadow_mode (connection_of s)) with (rights s).
  destruct (decide (rights s = ReadWrite)) as [E|E].
  2: { exists s. by destruct (rights s). }
  destruct (Hw E) as [Ha Ht]. rewrite E. simpl (_ <=? _).
  assert (cleanup_expired_entries (connection_of s) (world_of DB_PATH s)
    = (Done tt, set_db (rust_purged (rust_purge_time (s_now s)) (d_tables (dir_of DB_PATH s))) (world_of DB_PATH s))) as Ec.
  { apply cleanup_calm; [done|done|done|]. unfold purge_before. cbn [w_now world_of].
    change (i32 _) with 180. change (Unix _) with (rust_purge_time (s_now s)). by rewrite Ht. }
  set (w := set_db _ _) in Ec.
  assert (map_failed DatabaseError (on_tables DB_PATH (cleanup_expired_entries (connection_of s))) s
    = (Done tt, put_world DB_PATH w s)) as Em by (unfold map_failed, on_tables; by rewrite Ec).
  exists (put_world DB_PATH w s). rewrite (R_bind_known _ _ _ _ _ Em). split; [done|].
  unfold put_world, dir_of at 1. simpl. by rewrite lookup_insert_eq.
Qed.
End Opens.
