(* ===== verification/Sessions.v ===== *)
(** * The whole system: sessions over the files of a machine

    Logins, lookups, attribute changes, purges and the end of idle caches, in
    any order, by any process of the machine, with any failing call. The
    tables of every cache directory stay well formed and coherent, and an
    offline session is always backed by an online verification. *)

From S2P Require Import Prelude GoStrings Interfaces Tables CacheDB CacheFacts HomeDir UidGen CacheAuth.
From S2P Require Import CacheUpdate CacheIter CacheOpen CacheLife Clients Configured Typed Offline Config Aad.
From S2P Require Import User Pam RustStd RustCache RustNss RustFacts RustService RustOrphans.
Open Scope string_scope.
Open Scope list_scope.
Open Scope Z_scope.

Section Sessions.
Context `{Decorator} `{Bcrypt} `{RowOrder} `{IniLib} `{JsonCodes} `{UnicodeLower} `{UnicodeCase}.

(** Up to the machine, the links of the tables are any invariant. *)
Section Steps.
Context (I : database -> Prop) `{!TableInvariant I}.

(** ** What the operations do to the tables of every directory *)

Definition all_ok (log : list verified) (s : sys) : Prop := forall d, tables_ok I log (tables_at d s).

(** The clock stands still, the handles keep their options, and the tables
    stay right, whatever was verified. *)
Record safe (s s' : sys) : Prop := {
  sf_now : s_now s' = s_now s;
  sf_configured : configured s -> configured s';
  sf_tables log : all_ok log s -> all_ok log s';
}.

#[export] Instance safe_preorder : PreOrder safe.
Proof. split; [by split|]. intros s1 s2 s3 [] []. split; [congruence|auto..]. Qed.
Hint Resolve safe_preorder : frames.

(** The tables of a directory are kept or dropped. *)
Lemma safe_tables s s' : s_now s' = s_now s -> same_life s s' ->
  (forall d, tables_at d s' = tables_at d s \/ tables_at d s' = empty_db) -> safe s s'.
Proof.
  intros En Hl Ht. split; [done|by apply configured_life|]. intros log Hok d. destruct (Ht d) as [->| ->]; [apply Hok|].
  split; [apply empty_wf|by apply ti_empty|apply typed_empty|]. by intros p q ?%elem_of_nil.
Qed.

(** The files are the same. *)
Lemma safe_dirs s s' : s_now s' = s_now s -> s_dirs s' = s_dirs s -> (configured s -> configured s') -> safe s s'.
Proof.
  intros En Ed Hc. split; [done..|]. intros log Hok d. unfold tables_at, dir_of. rewrite Ed. apply Hok.
Qed.

Lemma safe_syscall : frames safe syscall.
Proof.
  intros s. apply safe_dirs; [|apply syscall_files|apply configured_life, syscall_life].
  unfold syscall. by destruct (s_faults s) as [|[]].
Qed.

Lemma safe_stat cacheDir f : frames safe (stat cacheDir f).
Proof.
  unfold stat. apply frames_bind; [apply _|apply safe_syscall|]. intros _ s. unfold step.
  by destruct (meta f (dir_of cacheDir s)).
Qed.

Lemma safe_on_dir cacheDir g : (forall d, d_tables (g d) = d_tables d \/ d_tables (g d) = empty_db) ->
  frames safe (on_dir cacheDir g).
Proof.
  intros Hg s. apply safe_tables; [done|done|]. intros d. unfold tables_at, dir_of at 1 3. simpl.
  destruct (decide (d = cacheDir)) as [->|Hn].
  - rewrite lookup_insert_eq. apply Hg.
  - rewrite lookup_insert_ne by done. by left.
Qed.

Lemma safe_set_meta cacheDir f (m : dir -> option file_meta) :
  frames safe (on_dir cacheDir (fun d => set_meta f (m d) d)).
Proof. apply safe_on_dir. intros d. left. by destruct f. Qed.

(** An operation on the tables, given what it does to them. *)
Lemma safe_put_world d0 w s :
  (forall log, tables_ok I log (tables_at d0 s) -> tables_ok I log (w_db w)) -> safe s (put_world d0 w s).
Proof.
  intros Hw. split; [done|by apply configured_same|]. intros log Hok d. rewrite tables_at_put_world.
  case_bool_decide; [apply Hw, Hok|apply Hok].
Qed.

Section Process.
Variables euid egid : Z.
Variable groups : list Z.
Variable LookupGroup : string -> result string.
Variable passwd_first : nat -> bool.

Lemma safe_errorf {A} fmt (m : M sys A) : frames safe m -> frames safe (errorf fmt m).
Proof. apply frames_map_err. Qed.

Lemma safe_needs_create cacheDir fs : frames safe (needs_create cacheDir fs).
Proof.
  induction fs as [|f fs IH]; cbn [needs_create]; [auto with frames|].
  apply frames_bind; [apply _| |intros b; apply frames_bind; [apply _|done|auto with frames]].
  unfold is_missing. apply frames_bind; [apply _|apply frames_attempt, safe_stat|]. intros []; auto with frames.
Qed.

Lemma safe_removeAll cacheDir : frames safe (removeAll cacheDir).
Proof.
  unfold removeAll. apply frames_bind; [apply _| |intros _; apply safe_on_dir; by right].
  apply syscall_partly_frames; [apply _|apply safe_syscall|]. intros n. apply safe_on_dir. intros d. left.
  unfold some_removed. by repeat destruct (Nat.testbit n _).
Qed.

Lemma safe_exec_schema cacheDir f : frames safe (exec_schema euid egid cacheDir f).
Proof.
  assert (frames safe (on_dir cacheDir (made euid egid f))) as Hm
    by exact (safe_set_meta cacheDir f (fun _ => Some (FileMeta perm_0644 euid egid))).
  unfold exec_schema. apply frames_bind; [apply _| |intros _; exact Hm].
  apply syscall_partly_frames; [apply _|apply safe_syscall|]. intros n. destruct (Nat.testbit n 0); [done|auto with frames].
Qed.

Lemma safe_create_file cacheDir ow gow perm f : frames safe (create_file euid egid cacheDir ow gow perm f).
Proof.
  unfold create_file.
  repeat first [apply safe_exec_schema | apply frames_bind; [apply _| |intros _] | apply safe_errorf | apply safe_syscall
    | apply safe_set_meta].
Qed.

Lemma safe_check cacheDir f ow gow perm : frames safe (checkFilePermission cacheDir f ow gow perm).
Proof.
  unfold checkFilePermission, on_error. apply frames_map_err, frames_bind; [apply _|apply safe_stat|]. intros m.
  destruct (negb _); [auto with frames|]. destruct (negb _); auto with frames.
Qed.

Lemma safe_accessible cacheDir bit : frames safe (accessible euid groups cacheDir bit).
Proof.
  unfold accessible. apply frames_bind; [apply _|apply frames_attempt, safe_syscall|]. intros r.
  apply frames_bind; [apply _|auto with frames|]. intros s.
  destruct r, (d_shadow (dir_of cacheDir s)); auto with frames.
Qed.

Lemma safe_initDB cacheDir ru rg sg force pp sp :
  frames safe (initDB euid egid groups passwd_first cacheDir ru rg sg force pp sp).
Proof.
  unfold initDB, on_error. apply frames_map_err, frames_bind; [apply _|apply safe_needs_create|]. intros b.
  apply frames_bind; [apply _| |intros _].
  - destruct b; [|auto with frames]. destruct (negb _); [auto with frames|].
    repeat first [apply safe_removeAll | apply frames_bind; [apply _| |intros _] | apply safe_syscall].
    apply each_file_frames; [apply _|]. intros f. apply safe_create_file.
  - apply frames_bind; [apply _|apply each_file_frames; [apply _|intros f; apply safe_check]|intros _].
    apply frames_bind; [apply _|apply safe_syscall|intros _].
    apply frames_bind; [apply _|destruct (_ =? _); [|auto with frames]|intros m].
    + unfold shadow_access. do 2 (apply frames_bind; [apply _|apply safe_accessible|intros ?]). auto with frames.
    + apply frames_bind; [apply _|destruct (_ <? _); [apply safe_syscall|]; auto with frames|auto with frames].
Qed.

Lemma safe_purge cacheDir dur : frames safe (with_tables cacheDir (cleanUpDB dur)).
Proof.
  intros s. unfold with_tables. destruct (cleanUpDB dur (world_of cacheDir s)) as [r w] eqn:E.
  apply safe_put_world. intros log Hok.
  apply cleanUpDB_inv in E as [[_ ->]|[_ ->]]; [by apply tables_ok_purged|done].
Qed.

Lemma safe_open_cache o : frames safe (open_cache euid egid groups LookupGroup passwd_first o).
Proof.
  unfold open_cache. apply frames_bind; [apply _| |intros gid].
  { unfold shadow_gid, errorf. destruct (_ <? _); [|auto with frames].
    apply frames_bind; [apply _|auto with frames|]. auto with frames. }
  apply frames_bind; [apply _|apply safe_initDB|intros mode].
  apply frames_bind; [apply _|destruct (_ && _); [apply safe_purge|auto with frames]|].
  intros _ s. apply safe_dirs; [done..|]. by eapply configured_opened.
Qed.

Lemma safe_New opts : frames safe (New euid egid groups LookupGroup passwd_first opts).
Proof.
  intros s. split; [|intros C; by apply New_configured|]; unfold New, on_error, map_err, mbind, M_bind, lift, get;
    (destruct (apply_options opts default_options) as [o|e|why]; [|done..]);
    (destruct (s_opened s !! o) as [h|]; [unfold reuse; by destruct (s_handles s !! h) as [[]|]|]);
    pose proof (safe_open_cache o s) as [En _ Ht]; by destruct (open_cache _ _ _ _ _ o s) as [[] ?].
Qed.
End Process.

Lemma Close_dirs h s : s_dirs (Close h s).2 = s_dirs s /\ s_now (Close h s).2 = s_now s.
Proof. unfold Close. destruct (s_handles s !! h) as [[c b]|]; [|done]. by destruct (negb _). Qed.

Lemma safe_Close h : frames safe (Close h).
Proof. intros s. apply safe_dirs; [apply Close_dirs..|apply Close_configured]. Qed.

(** Operations that leave the tables alone, cursors included. *)
Definition tables_kept {A} (m : M (Cache * world) A) : Prop := frames (fun x y => w_db y.2 = w_db x.2) m.

Lemma safe_on_handle {A} h (m : M (Cache * world) A) : tables_kept m -> frames same_use m ->
  frames safe (on_handle h m).
Proof.
  intros Hm Hu s. assert (configured s -> configured (on_handle h m s).2) as Hc by by apply on_handle_configured.
  revert Hc. unfold on_handle. destruct (s_handles s !! h) as [[c []]|]; [|done..].
  unfold run_on. specialize (Hm (c, world_of (o_cacheDir (sig c)) s)).
  destruct (m _) as [r [c' w]]. simpl in Hm.
  assert (safe s (put_world (o_cacheDir (sig c)) w s)) as [En _ Ht]
    by (apply safe_put_world; intros log; by rewrite Hm).
  intros Hc. split; [exact En|exact Hc|]. intros log Hok d. apply (Ht log Hok d).
Qed.

(** The goroutine that closes an idle cache. *)
#[local] Instance tables_kept_preorder : PreOrder (fun x y : Cache * world => w_db y.2 = w_db x.2).
Proof. split; [done|]. intros x y z E1 E2. congruence. Qed.

Lemma on_world_kept {A} (m : M world A) : readonly m -> tables_kept (on_world m).
Proof.
  intros Hm [c w]. unfold on_world, zoom. simpl. specialize (Hm w). destruct (m w) as [r w']. apply Hm.
Qed.

Lemma driver_kept : tables_kept (on_world driver).
Proof. apply on_world_kept, ro_driver. Qed.

Lemma rows_close_ro {Row} (r : sql_rows Row) : readonly (rows_close r).
Proof. unfold rows_close. destruct (rows_closed r); auto with ro. Qed.

Lemma close_iterator_kept {Row} (cursor : Cache -> option (sql_rows Row)) set_cursor msg :
  tables_kept (close_iterator cursor set_cursor msg).
Proof.
  unfold tables_kept, close_iterator. apply frames_bind; [apply _|apply frames_get, _|]. intros s.
  destruct (cursor s.1); [|apply frames_ret, _].
  apply frames_bind; [apply _|apply frames_attempt, on_world_kept, rows_close_ro|]. intros r.
  apply frames_bind; [apply _|by intros [c w]|]. intros _. destruct r; [apply frames_ret, _|apply frames_fail, _].
Qed.

Lemma close_all_kept : tables_kept close_all.
Proof.
  unfold close_all, tables_kept.
  repeat first [apply frames_bind; [apply _| |intros _] | apply frames_attempt | apply driver_kept
    | apply close_iterator_kept | apply frames_ret, _].
Qed.

(** The lookups and the iterations are such operations. *)
Lemma method_kept {A} (op : Cache -> M world A) : (forall c, readonly (op c)) -> tables_kept (method op).
Proof.
  intros Hop. unfold tables_kept, method. apply frames_bind; [apply _|apply frames_get, _|].
  intros s. by apply on_world_kept.
Qed.

Lemma iterators_kept : tables_kept NextPasswdEntry /\ tables_kept NextGroupEntry /\ tables_kept NextShadowEntry.
Proof. apply iterators_frames; [apply _|done|]. intros A m. apply on_world_kept. Qed.

Lemma safe_fire n s : safe s (fire n s).
Proof.
  pose proof (fire_configured n s) as Hc. revert Hc.
  unfold fire. destruct (s_timers s !! n) as [h|]; [|done]. unfold teardown. simpl.
  destruct (s_handles s !! h) as [[c b]|]; [|by apply safe_dirs]. destruct (negb _); [by apply safe_dirs|].
  unfold run_on. set (s1 := set_timers _ s).
  pose proof (close_all_kept (c, world_of (o_cacheDir (sig c)) s1)) as Hk.
  destruct (close_all _) as [r [c' w]]. simpl in Hk.
  assert (safe s1 (put_world (o_cacheDir (sig c)) w s1)) as [En _ Ht]
    by (apply safe_put_world; intros log; by rewrite Hk).
  intros Hc. split; [exact En|exact Hc|]. intros log Hok d. apply (Ht log Hok d).
Qed.

(** ** The operations that write, on a handle *)

Lemma on_handle_ok {A} h (op : Cache -> M world A) log log' s :
  (forall d, tables_ok I log d -> tables_ok I log' d) ->
  (forall c w, w_now w = s_now s -> tables_ok I log (w_db w) -> tables_ok I log' (w_db (op c w).2)) ->
  all_ok log s -> all_ok log' (on_handle h (method op) s).2 /\ s_now (on_handle h (method op) s).2 = s_now s.
Proof.
  intros Hlog Hop Hok. destruct (handle_cases h s) as [[c Hh]|Hn].
  - destruct (op c (world_of (o_cacheDir (sig c)) s)) as [r w] eqn:E.
    rewrite (on_handle_method h op c _ _ _ Hh E). simpl. split; [|done]. intros d.
    change (tables_ok I log' (tables_at d (put_world (o_cacheDir (sig c)) w s))).
    rewrite tables_at_put_world. case_bool_decide; [|apply Hlog, Hok].
    specialize (Hop c (world_of (o_cacheDir (sig c)) s) eq_refl (Hok _)). by rewrite E in Hop.
  - rewrite (proj2 (on_handle_closed h _ s Hn)). split; [|done]. intros d. apply Hlog, Hok.
Qed.

Lemma safe_attribute h login attr v : ti_value v ->
  frames safe (on_handle h (method (fun _ => UpdateUserAttribute login attr v))).
Proof.
  intros Hv s. assert (forall log, all_ok log s ->
    all_ok log (on_handle h (method (fun _ => UpdateUserAttribute login attr v)) s).2
    /\ s_now (on_handle h (method (fun _ => UpdateUserAttribute login attr v)) s).2 = s_now s) as Hok.
  { intros log Hok. eapply (on_handle_ok h _ log log s); [done| |done]. intros c w _ Hw.
    destruct (UpdateUserAttribute login attr v w) as [r w'] eqn:E.
    apply UpdateUserAttribute_inv in E as [(_ & _ & _ & E)|[_ E]]; simpl; [by eapply tables_ok_update_attr|by rewrite E]. }
  split; [|by apply on_handle_configured, method_use|by intros log Hlog; apply Hok].
  unfold on_handle. destruct (s_handles s !! h) as [[c []]|]; [|done..].
  unfold run_on. by destruct (method _ _) as [r [c' w]].
Qed.

(** ** A login *)

(** The log of online verifications after a verdict. *)
Definition log_verdict (errAAD : option gerror) (n pw : string) (now : Z) (log : list verified) : list verified :=
  match errAAD with None => Verified n pw now :: log | Some _ => log end.

Lemma tables_ok_verdict errAAD n pw now log d : tables_ok I log d -> tables_ok I (log_verdict errAAD n pw now log) d.
Proof. destruct errAAD; [done|]. apply tables_ok_more. Qed.

Section Login.
Variables euid egid : Z.
Variable groups : list Z.
Variable LookupGroup : string -> result string.
Variable passwd_first : nat -> bool.
Variable ReadFile : string -> result string.
Variable publicNewRealClient : client_maker.

Abbreviation with_verdict := (with_verdict euid egid groups LookupGroup passwd_first).
Abbreviation Authenticate := (Authenticate euid egid groups LookupGroup passwd_first ReadFile publicNewRealClient).

(** The step on the opened cache. *)
Lemma verdict_body_ok errAAD cfg h n pw log p :
  (errAAD = None \/ is_err errAAD ErrNoNetwork = true) -> all_ok log (p_sys p) ->
  let p' := ((if is_err errAAD ErrNoNetwork then check_offline h n pw else record_online h cfg n pw) p).2 in
  all_ok (log_verdict errAAD n pw (s_now (p_sys p)) log) (p_sys p') /\ s_now (p_sys p') = s_now (p_sys p).
Proof.
  intros Hv Hok. destruct (is_err errAAD ErrNoNetwork) eqn:En.
  - destruct errAAD as [e|]; [|done]. simpl. destruct (check_offline h n pw p) as [r p'] eqn:E. simpl.
    apply check_offline_spec in E as (-> & _). eapply (on_handle_ok h _ log log); [done| |done].
    intros c w _. simpl. by destruct (CanAuthenticate_ro c n pw w) as (-> & _).
  - destruct Hv as [->|?]; [|done]. simpl. destruct (record_online h cfg n pw p) as [r p'] eqn:E. simpl.
    apply record_online_spec in E as (-> & _). eapply on_handle_ok; [|intros c w Ew Hw|done].
    + intros d. apply tables_ok_more.
    + destruct (Update c n pw _ _ w) as [r0 w'] eqn:Eu. rewrite <- Ew. by eapply tables_ok_Update.
Qed.

Lemma with_verdict_ok errAAD o cfg n pw log p : all_ok log (p_sys p) ->
  all_ok (log_verdict errAAD n pw (s_now (p_sys p)) log) (p_sys (with_verdict errAAD o cfg n pw p).2).
Proof.
  intros Hok. assert (forall s, all_ok log s -> all_ok (log_verdict errAAD n pw (s_now (p_sys p)) log) s) as Hmore
    by (intros s Hs d; by apply tables_ok_verdict).
  unfold Pam.with_verdict. destruct (is_err errAAD ErrDeny); [by apply Hmore|].
  destruct (bool_decide (errAAD <> None) && negb (is_err errAAD ErrNoNetwork)) eqn:Eb; [by apply Hmore|].
  assert (errAAD = None \/ is_err errAAD ErrNoNetwork = true) as Hv.
  { apply andb_false_iff in Eb as [Eb%bool_decide_eq_false_1|Eb%negb_false_iff]; [left|by right].
    by destruct errAAD; [destruct Eb|]. }
  unfold mbind, M_bind, map_err. rewrite on_sys_run.
  pose proof (safe_New euid egid groups LookupGroup passwd_first (cacheOpts o) (p_sys p)) as [Hn _ Hs].
  destruct (New _ _ _ _ _ (cacheOpts o) (p_sys p)) as [[h|e|why] s1]; simpl in *; [|by apply Hmore, Hs..].
  unfold defer. pose proof (verdict_body_ok errAAD cfg h n pw log (PamState s1 (p_messages p)) Hv (Hs _ Hok)) as [Hb _].
  simpl in Hb. rewrite Hn in Hb. 
  destruct ((if is_err errAAD ErrNoNetwork then check_offline h n pw else record_online h cfg n pw)
    (PamState s1 (p_messages p))) as [r p2].
  simpl in *. by apply safe_Close.
Qed.

(** A login keeps the options of the handles. *)
Lemma with_verdict_configured errAAD o cfg n pw p : configured (p_sys p) ->
  configured (p_sys (with_verdict errAAD o cfg n pw p).2).
Proof.
  intros C. unfold Pam.with_verdict. destruct (is_err errAAD ErrDeny); [done|].
  destruct (bool_decide (errAAD <> None) && _); [done|]. unfold mbind, M_bind, map_err. rewrite on_sys_run.
  pose proof (sf_configured _ _ (safe_New euid egid groups LookupGroup passwd_first (cacheOpts o) (p_sys p)) C) as C1.
  destruct (New _ _ _ _ _ (cacheOpts o) (p_sys p)) as [[h|e|why] s1]; simpl in *; [|done..]. unfold defer.
  destruct ((if is_err errAAD ErrNoNetwork then check_offline h n pw else record_online h cfg n pw)
    (PamState s1 (p_messages p))) as [r p2] eqn:E. simpl. apply safe_Close. revert E.
  destruct (is_err errAAD ErrNoNetwork); [intros (-> & _)%check_offline_spec|intros (-> & _)%record_online_spec];
    by apply on_handle_configured; [apply method_use|].
Qed.

(** The log after a session. *)
Definition session_log (username password conf : string) (opts : list PamOption) (now : Z) (log : list verified)
    : list verified :=
  match session_config ReadFile username conf with
  | Ok cfg =>
      log_verdict (auth (pam_options publicNewRealClient cfg opts) cfg (NormalizeName username) password)
        (NormalizeName username) password now log
  | _ => log
  end.

Lemma Authenticate_ok username password conf opts log p : all_ok log (p_sys p) ->
  all_ok (session_log username password conf opts (s_now (p_sys p)) log)
    (p_sys (Authenticate username password conf opts p).2).
Proof.
  intros Hok. unfold Pam.Authenticate, session_log, session_config.
  destruct (Load _ _ _ _) as [cfg|e|why]; [by apply with_verdict_ok|done..].
Qed.

Lemma Authenticate_configured username password conf opts p : configured (p_sys p) ->
  configured (p_sys (Authenticate username password conf opts p).2).
Proof.
  intros C. unfold Pam.Authenticate. destruct (Load _ _ _ _) as [cfg|e|why]; [by apply with_verdict_configured|done..].
Qed.

(** The options of the cache of a session. *)
Definition session_options (cfg : AAD) (opts : list PamOption) : result options :=
  apply_options (cacheOpts (pam_options publicNewRealClient cfg opts)) default_options.

(** The acceptance of an offline session. *)
Lemma Authenticate_backed username password conf opts log p p' cfg : all_ok log (p_sys p) -> configured (p_sys p) ->
  session_config ReadFile username conf = Ok cfg ->
  auth (pam_options publicNewRealClient cfg opts) cfg (NormalizeName username) password <> None ->
  Authenticate username password conf opts p = (Ok tt, p') ->
  exists o, session_options cfg opts = Ok o /\
    backed log (o_offlineCredentialsExpiration o) (NormalizeName username) password (s_now (p_sys p)).
Proof.
  intros Hok Hcf Hcfg Hv E. unfold Pam.Authenticate in E. unfold session_config in Hcfg. rewrite Hcfg in E.
  apply with_verdict_Ok in E as (h & s1 & s2 & Hnew & _ & [[? _]|[_ Hrun]]); [done|].
  set (copts := cacheOpts _) in Hnew.
  pose proof (safe_New euid egid groups LookupGroup passwd_first copts (p_sys p)) as [Hn _ Hs].
  pose proof (New_configured euid egid groups LookupGroup passwd_first copts (p_sys p) Hcf) as [_ Hc].
  rewrite Hnew in Hn, Hs, Hc. destruct (Hc h eq_refl) as (o & c' & b' & Ho & Hh & Ee). simpl in Hn, Hs, Hh.
  apply on_handle_method_Ok in Hrun as (c & Hh2 & Ha). rewrite Hh in Hh2. injection Hh2 as -> ->.
  destruct (CanAuthenticate c (NormalizeName username) password (world_of (o_cacheDir (sig c)) s1)) as [r w'] eqn:E.
  simpl in Ha. subst r. exists o. split; [exact Ho|]. rewrite <- Hn, <- Ee.
  eapply (CanAuthenticate_backed I log c _ _ (world_of (o_cacheDir (sig c)) s1)); [|done]. by apply Hs.
Qed.
End Login.

(** ** The machine *)

(** What a process has in memory; the files are shared. *)
Record process := Process { pr_opened : gmap options nat; pr_handles : gmap nat handle; pr_timers : list nat }.
Record host := Host { ho_dirs : gmap string dir; ho_processes : gmap nat process }.

Definition new_process : process := Process ∅ ∅ [].

(** The [i]-th process runs, at some time and with some failures to come. *)
Definition load (i : nat) (faults : list (option string)) (now : Z) (entropy : nat) (m : host) : sys :=
  let p := default new_process (ho_processes m !! i) in
  Sys (ho_dirs m) faults now entropy (pr_opened p) (pr_handles p) (pr_timers p).

Definition store (i : nat) (s : sys) (m : host) : host :=
  Host (s_dirs s) (<[i := Process (s_opened s) (s_handles s) (s_timers s)]> (ho_processes m)).

(** A step of a process, with the log of the online verifications. Nothing is
    assumed of the callers: handles may be closed twice, or never. A process may
    also look users up through the name service in Rust, if the machine has it,
    and update an attribute to one of the [values]. *)
Inductive process_step (rust : bool) (values : sqlval -> Prop) : list verified * sys -> list verified * sys -> Prop :=
  | StepSession euid egid groups LookupGroup passwd_first ReadFile client username password conf opts log p :
      process_step rust values (log, p_sys p)
        (session_log ReadFile client username password conf opts (s_now (p_sys p)) log,
         p_sys (Authenticate euid egid groups LookupGroup passwd_first ReadFile client
                  username password conf opts p).2)
  | StepOpen euid egid groups LookupGroup passwd_first opts log s :
      process_step rust values (log, s) (log, (New euid egid groups LookupGroup passwd_first opts s).2)
  | StepRelease h log s : process_step rust values (log, s) (log, (Close h s).2)
  | StepTeardown n log s : process_step rust values (log, s) (log, fire n s)
  | StepLookup A h (m : M (Cache * world) A) log s :
      tables_kept m -> frames same_use m -> process_step rust values (log, s) (log, (on_handle h m s).2)
  | StepAttribute h login attr v log s :
      values v -> process_step rust values (log, s) (log, (on_handle h (method (fun _ => UpdateUserAttribute login attr v)) s).2)
  | StepNameService readable writable get_group_by_name_sys cfg env uid gid q log s :
      rust = true ->
      process_step rust values (log, s) (log, (serve readable writable get_group_by_name_sys cfg env uid gid q s).2).

(** Any process takes a step. *)
Inductive machine_step_of (rust : bool) (values : sqlval -> Prop) : list verified * host -> list verified * host -> Prop :=
  | MachineStep i faults now entropy log m log' s' :
      process_step rust values (log, load i faults now entropy m) (log', s') ->
      machine_step_of rust values (log, m) (log', store i s' m).

(** Any value for an attribute, NULL included. *)
Definition any_value (v : sqlval) : Prop := True.
Definition machine_step (rust : bool) : list verified * host -> list verified * host -> Prop :=
  machine_step_of rust any_value.

(** What the purge of the name service keeps. *)
Definition rust_keeps : Prop := forall t d, db_wf d -> I d -> I (rust_purged t d).

Lemma tables_ok_rust_purged log t d : rust_keeps -> tables_ok I log d -> tables_ok I log (rust_purged t d).
Proof.
  intros Hk [Hwf Hco Hty Hh]. split; [by apply rust_purged_wf|by apply Hk|by apply typed_rust_purged|].
  intros p s [_ Hp]%list_elem_of_filter [_ Hs]%list_elem_of_filter. by apply Hh.
Qed.

Lemma safe_serve readable writable ggn cfg env uid gid q : rust_keeps ->
  keeps safe (serve readable writable ggn cfg env uid gid q).
Proof.
  intros Hk s. destruct (serve_served readable writable ggn cfg env uid gid q s)
    as [[En _ El Ed]|(b & t & _ & _ & _ & [En _ El Ed Eo])]; (split; [done|by apply configured_life|]);
    intros log Hok d; unfold tables_at.
  - rewrite Ed. apply Hok.
  - destruct (decide (d = b_db_path b)) as [->|Hn]; [|rewrite Eo by done; apply Hok].
    rewrite Ed. apply tables_ok_rust_purged; [done|apply Hok].
Qed.

Lemma process_step_ok rust values x y : (rust = true -> rust_keeps) -> (forall v, values v -> ti_value v) ->
  process_step rust values x y ->
  all_ok x.1 x.2 -> configured x.2 -> all_ok y.1 y.2 /\ configured y.2.
Proof.
  intros Hk Hv. destruct 1 as [| | | |A h m log s Hm Hu|h login attr v log s Hav|]; simpl; intros Hok C; split.
  - by apply Authenticate_ok.
  - by apply Authenticate_configured.
  - by apply safe_New.
  - by apply safe_New.
  - by apply safe_Close.
  - by apply safe_Close.
  - by apply safe_fire.
  - by apply safe_fire.
  - by apply safe_on_handle.
  - by apply safe_on_handle.
  - by apply safe_attribute; [apply Hv|].
  - by apply safe_attribute; [apply Hv|].
  - by apply safe_serve; [apply Hk|].
  - by apply safe_serve; [apply Hk|].
Qed.

(** The tables of a directory of the machine. *)
Definition host_tables (d : string) (m : host) : database := d_tables (default no_dir (ho_dirs m !! d)).

(** The tables are right, and so is every process. *)
Record machine_ok (log : list verified) (m : host) : Prop := {
  mo_tables d : tables_ok I log (host_tables d m);
  mo_configured i : configured (load i [] 0 0 m);
}.

Lemma machine_ok_load log m i faults now entropy : machine_ok log m ->
  all_ok log (load i faults now entropy m) /\ configured (load i faults now entropy m).
Proof. intros [Ht Hc]. split; [exact Ht|]. by apply (configured_same (load i [] 0 0 m)). Qed.

Lemma load_store i j faults now entropy s m :
  load j faults now entropy (store i s m) =
  if decide (j = i) then Sys (s_dirs s) faults now entropy (s_opened s) (s_handles s) (s_timers s)
  else let p := default new_process (ho_processes m !! j) in
       Sys (s_dirs s) faults now entropy (pr_opened p) (pr_handles p) (pr_timers p).
Proof.
  unfold load, store. simpl. destruct (decide (j = i)) as [->|Hn].
  - by rewrite lookup_insert_eq.
  - by rewrite lookup_insert_ne.
Qed.

Lemma machine_step_ok rust values x y : (rust = true -> rust_keeps) -> (forall v, values v -> ti_value v) ->
  machine_step_of rust values x y ->
  machine_ok x.1 x.2 -> machine_ok y.1 y.2.
Proof.
  intros Hk Hv. destruct 1 as [i faults now entropy log m log' s' Hs]. simpl. intros Hm.
  destruct (machine_ok_load log m i faults now entropy Hm) as [Hok Hc].
  destruct (process_step_ok _ _ _ _ Hk Hv Hs Hok Hc) as [Hok' Hc']. simpl in *. split; [exact Hok'|].
  intros j. rewrite load_store. destruct (decide (j = i)) as [->|Hn]; [by apply (configured_same s')|].
  apply (configured_same (load j [] 0 0 m)); [done..|]. apply (mo_configured _ _ Hm).
Qed.

(** A machine on which nothing was ever cached and nothing runs. *)
Definition pristine (m : host) : Prop := (forall d, host_tables d m = empty_db) /\ ho_processes m = ∅.

Lemma reachable_machine_ok rust values m0 x : (rust = true -> rust_keeps) -> (forall v, values v -> ti_value v) ->
  pristine m0 -> rtc (machine_step_of rust values) ([], m0) x -> machine_ok x.1 x.2.
Proof.
  intros Hk Hv [Hp Hi] Hr. set (x0 := ([] : list verified, m0)) in Hr.
  assert (machine_ok x0.1 x0.2) as Hok.
  { split; simpl; [intros d; rewrite Hp; exact (tables_ok_empty I)|].
    intros i. apply configured_empty. unfold load. by rewrite Hi, lookup_empty. }
  clearbody x0. induction Hr as [|x y z Hxy _ IH]; [done|]. by eapply IH, machine_step_ok.
Qed.
End Steps.

(** Without the name service in Rust the tables are coherent; in any case they
    are linked. *)
Lemma reachable_linked rust values m0 x : pristine m0 -> rtc (machine_step_of rust values) ([], m0) x ->
  machine_ok linked x.1 x.2.
Proof. apply (reachable_machine_ok linked); [|done]. intros _ t d. apply linked_rust_purged. Qed.

Lemma reachable_coherent m0 x : pristine m0 -> rtc (machine_step false) ([], m0) x -> machine_ok coherent x.1 x.2.
Proof. by apply (reachable_machine_ok coherent). Qed.

Lemma reachable_present rust values m0 x : (forall v, values v -> v <> VNull) -> pristine m0 ->
  rtc (machine_step_of rust values) ([], m0) x -> machine_ok linked_present x.1 x.2.
Proof.
  intros Hv. apply (reachable_machine_ok linked_present); [|done].
  intros _ t d Hwf [Hl Hp]. split; [by apply linked_rust_purged|by apply present_rust_purged].
Qed.

(** C7: on a machine that starts without any cached user, whatever sequence
    of logins, lookups, purges, attribute changes and closings its processes
    go through, and whichever calls fail on the way, the tables of every
    cache directory satisfy the constraints of the schema and are coherent:
    every user has exactly its shadow row, its own group and the row that
    links them, and there is nothing else. *)
Theorem machine_tables m0 log m d : pristine m0 -> rtc (machine_step false) ([], m0) (log, m) ->
  db_wf (host_tables d m) /\ coherent (host_tables d m).
Proof.
  intros Hp Hr. pose proof (reachable_coherent m0 (log, m) Hp Hr) as Hm.
  by destruct (mo_tables _ _ _ Hm d).
Qed.

(** C8: with the name service in Rust on the machine, whose lookups purge the
    tables in their own way, the tables still satisfy the constraints of the
    schema, every user still has its shadow row, its own group and its link, no
    one else has a shadow row, and the groups are those of the links; what is
    lost is that a group and a link belong to a user. *)
Theorem machine_tables_shared m0 log m d : pristine m0 -> rtc (machine_step true) ([], m0) (log, m) ->
  db_wf (host_tables d m) /\ linked (host_tables d m).
Proof. intros Hp Hr. by destruct (mo_tables _ _ _ (reachable_linked true any_value m0 (log, m) Hp Hr) d). Qed.

(** C12: on such a machine, with the name service in Rust or without it, the
    columns have their types: the numbers of a user and of its group are uint32
    values, which the buffers of the name service narrow without loss, the
    password that they show is the placeholder, and the ages of a password stay
    disabled. The scan of a group never fails, and that of a user fails exactly
    when its gecos, home or shell is NULL. If no attribute update writes a NULL,
    as aad-cli never does, these columns are not NULL and no scan fails. *)
Theorem machine_types rust values m0 log m d : pristine m0 -> rtc (machine_step_of rust values) ([], m0) (log, m) ->
  (forall p pw, p ∈ t_passwd (host_tables d m) ->
     u32 (p_uid p) = p_uid p /\ u32 (p_gid p) = p_gid p /\ p_password p = Some "x" /\
     (is_ok (scan_user (user_cols_of (Some pw) p)) = true <->
      is_Some (p_gecos p) /\ is_Some (p_home p) /\ is_Some (p_shell p)) /\
     ((forall v, values v -> v <> VNull) -> is_ok (scan_user (user_cols_of (Some pw) p)) = true)) /\
  (forall g members, g ∈ t_groups (host_tables d m) ->
     u32 (g_gid g) = g_gid g /\
     scan_group (GroupCols (Some (g_name g)) (g_password g) (Some (g_gid g)) (Some members))
     = Ok (MkGroupRecord (g_name g) (g_gid g) "x" (Split "," members))) /\
  Forall typed_shadow (t_shadow (host_tables d m)).
Proof.
  intros Hp Hr. destruct (mo_tables _ _ _ (reachable_linked rust values m0 (log, m) Hp Hr) d) as [_ Hco [Hu Hg Hs] _].
  rewrite Forall_forall in Hu. rewrite Forall_forall in Hg. split; [|split; [|done]].
  - intros p pw Hin. pose proof (Hu p Hin) as Ht. rewrite (lk_gid _ Hco p Hin), typed_uid by done.
    split_and!; [done..|apply Ht|by apply typed_scan_user|]. intros Hv. apply typed_scan_user; [done|].
    destruct (mo_tables _ _ _ (reachable_present rust values m0 (log, m) Hv Hp Hr) d) as [_ [_ Ha] _ _].
    unfold all_present in Ha. rewrite Forall_forall in Ha. by apply Ha.
  - intros g members Hin. pose proof (Hg g Hin) as Ht. split; [by apply u32_small, Ht|by apply typed_scan_group].
Qed.

(** C1: on such a machine, with the name service in Rust or without it, a login
    that the provider did not verify succeeds only if the provider verified a
    login of that very user before, with a password whose hash the given one
    matches, and no longer ago than the expiration that the configuration of the
    session asks for. *)
Theorem offline_session_backed euid egid groups LookupGroup passwd_first ReadFile client
    username password conf opts rust m0 log m i faults now entropy messages p' cfg :
  pristine m0 -> rtc (machine_step rust) ([], m0) (log, m) ->
  session_config ReadFile username conf = Ok cfg ->
  auth (pam_options client cfg opts) cfg (NormalizeName username) password <> None ->
  Authenticate euid egid groups LookupGroup passwd_first ReadFile client username password conf opts
    (PamState (load i faults now entropy m) messages) = (Ok tt, p') ->
  exists o, session_options client cfg opts = Ok o /\
    backed log (o_offlineCredentialsExpiration o) (NormalizeName username) password now.
Proof.
  intros Hp Hr Hc Hv E.
  destruct (machine_ok_load linked log m i faults now entropy (reachable_linked rust any_value m0 (log, m) Hp Hr)) as [Hok Hcf].
  by eapply (Authenticate_backed linked euid egid groups LookupGroup passwd_first ReadFile client username password conf opts
    log (PamState (load i faults now entropy m) messages) p' cfg).
Qed.
End Sessions.

(** ** Concrete runs *)

Import Concrete.

Definition new_host : host := Host ∅ ∅.

Lemma new_host_pristine : pristine new_host.
Proof. split; [|done]. intros d. unfold host_tables. simpl. by rewrite lookup_empty. Qed.

(** The user logs in online, from the process 0. *)
Definition online_host : host := store 0 (p_sys after_online) new_host.
Definition online_log : list verified := [Verified "success@domain.com" "secret" (1700000000 * Second)].

Lemma online_reachable_of rust values : rtc (machine_step_of rust values) ([], new_host) (online_log, online_host).
Proof.
  eapply rtc_l; [|apply rtc_refl]. apply (MachineStep rust values 0 [] (1700000000 * Second) 0).
  exact (StepSession rust values 0 0 root_groups shadow_group in_order machine_files publicNewMockClient
    "Success@Domain.com" "secret" "/etc/aad.conf" [] [] Pam.machine).
Qed.

Lemma online_reachable rust : rtc (machine_step rust) ([], new_host) (online_log, online_host).
Proof. apply online_reachable_of. Qed.

Lemma machine_tables_witness : coherent (host_tables "/var/lib/aad/cache" online_host).
Proof. exact (proj2 (machine_tables _ _ _ _ new_host_pristine (online_reachable false))). Defined.

(** No attribute is written: nothing is NULL. *)
Definition no_value (v : sqlval) : Prop := False.

Definition online_row : passwd_row :=
  Eval vm_compute in default (PasswdRow "" None 0 0 None None None None) (head (t_passwd (host_tables "/var/lib/aad/cache" online_host))).

Lemma machine_types_witness : is_ok (scan_user (user_cols_of (Some "hash") online_row)) = true.
Proof.
  assert (t_passwd (host_tables "/var/lib/aad/cache" online_host) = [online_row]) as E by (vm_compute; reflexivity).
  assert (online_row ∈ t_passwd (host_tables "/var/lib/aad/cache" online_host)) as Hin by (rewrite E; left).
  destruct (proj1 (machine_types true no_value _ _ _ "/var/lib/aad/cache" new_host_pristine
    (online_reachable_of true no_value)) online_row "hash" Hin) as (_ & _ & _ & _ & Hs).
  apply Hs. intros v Hv. destruct Hv.
Defined.

(** An hour later another process lets the user in without a network. *)
Definition later : pam_state := PamState (load 1 [] (1700003600 * Second) 7 online_host) [].
Definition after_offline : pam_state := (login "success@domain.com" "secret" "/etc/offline.conf" later).2.

Lemma offline_login_run : login "success@domain.com" "secret" "/etc/offline.conf" later = (Ok tt, after_offline).
Proof.
  assert ((login "success@domain.com" "secret" "/etc/offline.conf" later).1 = Ok tt) as E by (vm_compute; reflexivity).
  unfold after_offline. destruct (login _ _ _ later) as [r p']. simpl in E. by subst.
Qed.

Definition offline_cfg : AAD := MkAAD "T" "force offline" None "/srv/home/%f" "/bin/zsh".

Lemma offline_session_backed_witness : backed online_log 90 "success@domain.com" "secret" (1700003600 * Second).
Proof.
  destruct (offline_session_backed 0 0 root_groups shadow_group in_order machine_files publicNewMockClient
    "success@domain.com" "secret" "/etc/offline.conf" [] true new_host online_log online_host 1 [] (1700003600 * Second) 7 []
    after_offline offline_cfg new_host_pristine (online_reachable true) ltac:(vm_compute; reflexivity)
    ltac:(vm_compute; discriminate) offline_login_run) as (o & Ho & Hb).
  injection Ho as <-. exact Hb.
Defined.
