(* ===== verification/Progress.v ===== *)
(** * On a machine where nothing fails, a login that should succeed does

    The invariant of the machine makes every account usable: a verified login is
    recorded, unless a call fails or a condition on the account does not hold. It
    needs the coherence that the Go packages keep and that the purge of the name
    service in Rust breaks (RustRuns). *)

From S2P Require Import Prelude GoStrings Interfaces Tables CacheDB CacheFacts HomeDir UidGen CacheAuth CacheUpdate.
From S2P Require Import CacheTheorems Typed CacheSpec CacheProgress CacheOpen CacheLife Clients Configured Offline Config.
From S2P Require Import Aad User Pam RustStd Sessions.
Open Scope string_scope.
Open Scope list_scope.
Open Scope Z_scope.

Section Progress.
Context `{Decorator} `{Bcrypt} `{RowOrder} `{IniLib} `{JsonCodes} `{UnicodeLower} `{UnicodeCase}.
Variables euid egid : Z.
Variable groups : list Z.
Variable LookupGroup : string -> result string.
Variable passwd_first : nat -> bool.
Variable ReadFile : string -> result string.
Variable client : client_maker.

Abbreviation New := (New euid egid groups LookupGroup passwd_first).
Abbreviation Authenticate := (Authenticate euid egid groups LookupGroup passwd_first ReadFile client).

(** What the tables of the cache must be for the login of a verified user: the
    row of a known one has no NULL, and for a new one there is room, and a home
    can be made of the pattern. *)
Definition can_record (cfg : AAD) (n : string) (d : database) : Prop :=
  (forall p, p ∈ t_passwd d -> p_login p = n -> is_Some (p_gecos p) /\ is_Some (p_home p) /\ is_Some (p_shell p)) /\
  (n ∉ (p_login <$> t_passwd d) ->
     Z.of_nat (length (t_passwd d)) < 2 ^ 31 /\
     forall id, uint32 id -> is_ok (parseHomeDir (HomeDirPattern cfg) n (pretty id)) = true).

Lemma can_record_enabled c cfg n pw now salt d : db_wf d -> coherent d -> typed d -> shadowMode c = shadowRWMode ->
  is_ok (bcrypt_generate salt pw) = true -> can_record cfg n d ->
  enabled c now salt (accounts_of d) (CallUpdate n pw (HomeDirPattern cfg) (Shell cfg)).
Proof.
  intros Hwf Hco Hty Hm Hb [Hold Hnew]. pose proof (represents_accounts_of d Hwf Hco Hty) as R.
  split; [done|]. split; [done|]. destruct (accounts_of d !! n) as [a|] eqn:Ea.
  - apply (rp_accounts _ _ R) in Ea as (p & s & Hp & _ & _ & En & ->). by apply Hold.
  - apply (represents_none _ _ _ R) in Ea. destruct (Hnew Ea) as [Hl Hh]. split; [|done].
    by rewrite <- (proj1 (represents_size _ _ R)).
Qed.

(** The recording, on an opened cache. *)
Lemma record_online_calm h c cfg n pw p : s_handles (p_sys p) !! h = Some (Handle c true) -> shadowMode c = shadowRWMode ->
  s_faults (p_sys p) = [] -> is_ok (bcrypt_generate (s_entropy (p_sys p)) pw) = true ->
  (exists log, tables_ok coherent log (tables_at (o_cacheDir (sig c)) (p_sys p))) ->
  can_record cfg n (tables_at (o_cacheDir (sig c)) (p_sys p)) ->
  (record_online h cfg n pw p).1 = Ok tt.
Proof.
  intros Hh Hm Hf Hb [log [Hwf Hco Hty _]] Hc.
  set (w := world_of (o_cacheDir (sig c)) (p_sys p)).
  destruct (Update_calm c n pw (HomeDirPattern cfg) (Shell cfg) w (accounts_of (w_db w))) as [w' E].
  - by apply represents_accounts_of.
  - done.
  - by apply can_record_enabled.
  - unfold record_online, map_err. rewrite on_sys_run.
    by rewrite (on_handle_method h _ c _ _ _ Hh E).
Qed.

(** C13: on a machine whose caches only the Go packages use, whatever happened
    before, a login that the provider verifies succeeds when the cache opens with
    write access and no call fails from there on: the user is recorded, whether
    known or new, as long as bcrypt takes the password, there are fewer than 2^31
    users, no attribute was set to NULL and the home pattern is valid. *)
Theorem verified_login_succeeds username password conf opts m0 log m i faults now entropy messages cfg h s1 c :
  pristine m0 -> rtc (machine_step false) ([], m0) (log, m) ->
  session_config ReadFile username conf = Ok cfg ->
  auth (pam_options client cfg opts) cfg (NormalizeName username) password = None ->
  New (cacheOpts (pam_options client cfg opts)) (load i faults now entropy m) = (Ok h, s1) ->
  s_faults s1 = [] -> s_handles s1 !! h = Some (Handle c true) -> shadowMode c = shadowRWMode ->
  is_ok (bcrypt_generate (s_entropy s1) password) = true ->
  can_record cfg (NormalizeName username) (tables_at (o_cacheDir (sig c)) s1) ->
  (Authenticate username password conf opts (PamState (load i faults now entropy m) messages)).1 = Ok tt.
Proof.
  intros Hp Hr Hcfg Hv Hnew Hf Hh Hm Hb Hc.
  assert (machine_ok coherent log m) as Hmo by by apply (reachable_coherent m0 (log, m)).
  destruct (machine_ok_load coherent log m i faults now entropy Hmo) as [Hok _].
  pose proof (safe_New coherent euid egid groups LookupGroup passwd_first (cacheOpts (pam_options client cfg opts))
    (load i faults now entropy m)) as [_ _ Hs]. rewrite Hnew in Hs. simpl in Hs. specialize (Hs log Hok).
  unfold Pam.Authenticate. unfold session_config in Hcfg. rewrite Hcfg, Hv. unfold with_verdict.
  change (is_err None ErrDeny) with false. change (is_err None ErrNoNetwork) with false.
  rewrite bool_decide_eq_false_2 by (intros Hx; by apply Hx). cbn [andb].
  unfold mbind, M_bind, map_err. rewrite on_sys_run. cbn [p_sys]. rewrite Hnew. unfold defer.
  pose proof (record_online_calm h c cfg (NormalizeName username) password (PamState s1 messages) Hh Hm Hf Hb
    (ex_intro _ log (Hs _)) Hc) as Hrec. simpl fst. simpl snd. cbn [p_messages].
  destruct (record_online h cfg (NormalizeName username) password (PamState s1 messages)) as [r p2]. exact Hrec.
Qed.
End Progress.

(** ** The same user again, and its tables *)

Import Concrete RustStd.LatinCase.

Definition next_day : sys := load 1 [] (1700086400 * Second) 7 online_host.
Definition online_cfg : AAD := default (MkAAD "" "" None "" "") (match session_config machine_files
  "success@domain.com" "/etc/aad.conf" with Ok cfg => Some cfg | _ => None end).
Definition cache_options : list Option := cacheOpts (pam_options publicNewMockClient online_cfg []).
Definition next_opened : sys := (New 0 0 root_groups shadow_group in_order cache_options next_day).2.
Definition next_cache : Cache :=
  match s_handles next_opened !! 0%nat with Some h => h_cache h | None => rw_cache 0 end.

Definition online_tables : database := Eval vm_compute in host_tables "/var/lib/aad/cache" online_host.

Lemma next_opened_run : New 0 0 root_groups shadow_group in_order cache_options next_day = (Ok 0%nat, next_opened).
Proof. apply injective_projections; [vm_compute; reflexivity|done]. Qed.

Lemma next_can_record : can_record online_cfg "success@domain.com" (tables_at (o_cacheDir (sig next_cache)) next_opened).
Proof.
  replace (tables_at (o_cacheDir (sig next_cache)) next_opened) with online_tables by (vm_compute; reflexivity).
  split.
  - intros p ->%list_elem_of_singleton _. repeat split; by eexists.
  - intros Hn. destruct Hn. by left.
Qed.

Lemma verified_login_succeeds_witness :
  (Authenticate 0 0 root_groups shadow_group in_order machine_files publicNewMockClient "success@domain.com" "secret"
     "/etc/aad.conf" [] (PamState next_day [])).1 = Ok tt.
Proof.
  assert (session_config machine_files "success@domain.com" "/etc/aad.conf" = Ok online_cfg) as E1
    by (vm_compute; reflexivity).
  assert (auth (pam_options publicNewMockClient online_cfg []) online_cfg (NormalizeName "success@domain.com") "secret" = None)
    as E2 by (vm_compute; reflexivity).
  assert (s_faults next_opened = []) as E3 by (vm_compute; reflexivity).
  assert (s_handles next_opened !! 0%nat = Some (Handle next_cache true)) as E4 by (vm_compute; reflexivity).
  assert (shadowMode next_cache = shadowRWMode) as E5 by (vm_compute; reflexivity).
  assert (is_ok (bcrypt_generate (s_entropy next_opened) "secret") = true) as E6 by (vm_compute; reflexivity).
  assert (can_record online_cfg (NormalizeName "success@domain.com") (tables_at (o_cacheDir (sig next_cache)) next_opened))
    as E7 by exact next_can_record.
  exact (verified_login_succeeds _ _ _ _ _ _ _ _ _ _ _ _ _ _ _ _ _ _ _ _ _ _ _ new_host_pristine (online_reachable false)
    E1 E2 next_opened_run E3 E4 E5 E6 E7).
Defined.
