(* ===== verification/Listing.v ===== *)
(** * getent: a whole listing through the name service

    The iteration of the name service from its start to its end, by a process of
    the machine that opens the cache for it: what passwd, group and shadow list
    is the map of accounts that the tables represent, each account once. *)

From S2P Require Import Prelude GoStrings Interfaces Tables CacheDB CacheFacts HomeDir UidGen CacheAuth CacheUpdate.
From S2P Require Import CacheTheorems CacheIter Typed CacheSpec CacheProgress CacheOpen CacheLife Clients Configured.
From S2P Require Import Offline Config Aad User Pam NssBuffers Nss RustStd Sessions Progress.
Open Scope string_scope.
Open Scope list_scope.
Open Scope Z_scope.

(** ** A loop over a handle *)

(** What the calls of an iteration do not change. *)
Definition stays (x y : Cache * world) : Prop := sig y.1 = sig x.1 /\ same_data x.2 y.2.

#[export] Instance stays_preorder : PreOrder stays.
Proof. split; [done|]. intros x y z [E1 D1] [E2 D2]. split; [congruence|by etrans]. Qed.

Lemma on_world_stays {A} (m : M world A) : readonly m -> frames stays (on_world m).
Proof. intros Hm [c w]. unfold on_world, zoom. simpl. specialize (Hm w). by destruct (m w). Qed.

Lemma world_of_put_world d w s : w_now w = s_now s -> world_of d (put_world d w s) = w.
Proof.
  intros En. unfold world_of, put_world, dir_of. simpl. rewrite lookup_insert_eq, <- En. by destruct w.
Qed.

(** A call through an opened handle: the handle and the world that it leaves. *)
Lemma on_handle_stays {A} h (m : M (Cache * world) A) c s r c' w' : frames stays m ->
  s_handles s !! h = Some (Handle c true) -> m (c, world_of (o_cacheDir (sig c)) s) = (r, (c', w')) ->
  exists s', on_handle h m s = (r, s') /\ s_handles s' !! h = Some (Handle c' true)
    /\ world_of (o_cacheDir (sig c')) s' = w' /\ sig c' = sig c.
Proof.
  intros Hm Hh E. specialize (Hm (c, world_of (o_cacheDir (sig c)) s)). rewrite E in Hm.
  destruct Hm as [Es (_ & En & _)]. simpl in *. unfold on_handle, run_on. rewrite Hh, E. eexists. split; [done|].
  simpl. rewrite Es. split; [apply lookup_insert_eq|]. split; [|done]. by apply world_of_put_world.
Qed.

Section Loop.
Context `{Decorator}.

(** The end of the rows is NOTFOUND for the name service. *)
Lemma end_of_rows e fmt : errors_is e ErrNoEnt = true -> errors_is (OnError fmt (ConvertErr e)) ErrNotFoundENoEnt = true.
Proof.
  intros He. rewrite OnError_is. apply converted_status. destruct (ConvertErr_status e) as (_ & _ & Hs).
  rewrite Hs, He; [done|]. intros t Ht. apply not_true_is_false. intros Ht'.
  assert (t = ErrNoEnt) as -> by by eapply errors_is_functional.
  unfold nss_statuses in Ht. rewrite !elem_of_cons, elem_of_nil in Ht. by intuition.
Qed.

Context {Rec Entry : Type} (database fmt : string) (next : M (Cache * world) Rec) (of_record : Rec -> Entry).
Context (close : M (Cache * world) unit).
Hypothesis next_stays : frames stays next.

Abbreviation NextEntry := (NextEntry database fmt next of_record).

Lemma NextEntry_run h s r s' : on_handle h next s = (r, s') ->
  NextEntry (IterState (Some h) s) =
  (match r with Ok x => Ok (of_record x) | Err e => Err (OnError fmt (ConvertErr e)) | Panic p => Panic p end,
   IterState (Some h) s').
Proof.
  intros E. unfold Nss.NextEntry, on_error, map_err, mbind, M_bind, get. simpl. rewrite on_isys_run. simpl.
  rewrite E. by destruct r.
Qed.

(** The loop of the client is the loop over the rows. *)
Lemma drain_through h n c s xs c' w' : s_handles s !! h = Some (Handle c true) ->
  drain next n (c, world_of (o_cacheDir (sig c)) s) = (Ok xs, (c', w')) ->
  exists s', drain_until ErrNotFoundENoEnt NextEntry n (IterState (Some h) s)
      = (Ok (of_record <$> xs), IterState (Some h) s')
    /\ s_handles s' !! h = Some (Handle c' true).
Proof.
  revert c s xs. induction n as [|n IH]; intros c s xs Hh E; [done|].
  cbn [drain_until] in E. unfold mbind at 1, M_bind at 1, attempt in E.
  destruct (next (c, world_of (o_cacheDir (sig c)) s)) as [r [c1 w1]] eqn:En.
  destruct (on_handle_stays h next c s r c1 w1 next_stays Hh En) as (s1 & Es & Hh1 & Hw1 & _).
  apply NextEntry_run in Es. destruct r as [x|e|p]; [| |done].
  - apply bind_Ok in E as (ys & [c2 w2] & E & [= <- <- <-]). rewrite <- Hw1 in E.
    apply IH in E as (s' & E & Hh'); [|done]. exists s'. split; [|done].
    erewrite drain_row by exact Es. unfold mbind, M_bind. by rewrite E.
  - destruct (errors_is e ErrNoEnt) eqn:He; [|done]. injection E as <- <- <-. exists s1. split; [|done].
    by eapply drain_end; [exact Es|apply end_of_rows].
Qed.

Lemma EndEntryIteration_run h c s : s_handles s !! h = Some (Handle c true) -> (forall w, close (c, w) = (Ok tt, (c, w))) ->
  exists s', EndEntryIteration close (IterState (Some h) s) = (Ok tt, IterState None s').
Proof.
  intros Hh Hc. unfold EndEntryIteration, defer, step, mbind, M_bind, get, map_err. simpl. rewrite on_isys_run. simpl.
  unfold on_handle at 1, run_on. rewrite Hh, Hc. simpl. by eexists.
Qed.
End Loop.

(** ** The entries of an account *)

Definition account_passwd (na : string * account) : Passwd :=
  MkPasswd na.1 "x" (a_uid na.2) (a_uid na.2) (default "" (a_gecos na.2)) (default "" (a_home na.2))
    (default "" (a_shell na.2)).

Definition account_group (na : string * account) : Group := MkGroup na.1 "x" (a_uid na.2) [na.1].

Definition account_shadow (na : string * account) : Shadow :=
  MkShadow na.1 (a_hash na.2) (-1) (-1) (-1) (-1) (-1) (-1).

(** Records that are named as the accounts, each as its account says, are a
    listing of the map. *)
Lemma list_of_map {Rec Entry} (name : Rec -> string) (f : Rec -> Entry) (e : string * account -> Entry)
    (m : accounts) (xs : list Rec) :
  NoDup (name <$> xs) -> (forall n, n ∈ name <$> xs <-> is_Some (m !! n)) ->
  (forall x a, x ∈ xs -> m !! name x = Some a -> f x = e (name x, a)) ->
  exists qs, qs ≡ₚ map_to_list m /\ qs.*1 = name <$> xs /\ f <$> xs = e <$> qs.
Proof.
  intros Hnd Hdom Hf.
  assert (exists qs, qs.*1 = name <$> xs /\ f <$> xs = e <$> qs /\ forall q, q ∈ qs -> m !! q.1 = Some q.2)
    as (qs & En & Ef & Hq).
  { assert (forall n, n ∈ name <$> xs -> is_Some (m !! n)) as Hin by (intros n; apply Hdom).
    clear Hnd Hdom. induction xs as [|x xs IH]; [exists []; split_and!; [done..|by intros q ?%elem_of_nil]|].
    destruct (Hin (name x)) as [a Ha]; [by left|].
    destruct IH as (qs & En & Ef & Hq); [by intros y b Hy; apply Hf; right|by intros n Hn; apply Hin; right|].
    exists ((name x, a) :: qs). csimpl. rewrite En, Ef, (Hf x a) by (done || by left). split_and!; [done..|].
    intros q [->|Hin']%elem_of_cons; [done|by apply Hq]. }
  exists qs. split_and!; [|done..]. rewrite <- En in Hnd. apply NoDup_Permutation; [by eapply NoDup_fmap_1|apply NoDup_map_to_list|].
  intros [n a]. rewrite elem_of_map_to_list. split; [apply (Hq (n, a))|]. intros Ha.
  assert (n ∈ qs.*1) as ([n' a'] & -> & Hin)%list_elem_of_fmap by (rewrite En; apply Hdom; by exists a).
  simpl in *. pose proof (Hq _ Hin) as Ha'. simpl in Ha'. by simplify_eq.
Qed.

(** The same, when the names are those of the users. *)
Lemma listing_of {Rec Entry} (name : Rec -> string) (f : Rec -> Entry) (e : string * account -> Entry) d m xs :
  represents d m -> name <$> xs ≡ₚ p_login <$> t_passwd d ->
  (forall x p s, x ∈ xs -> p ∈ t_passwd d -> s ∈ t_shadow d -> s_uid s = p_uid p -> name x = p_login p ->
     f x = e (p_login p, account_of p s)) ->
  exists qs, qs ≡ₚ map_to_list m /\ qs.*1 = name <$> xs /\ f <$> xs = e <$> qs.
Proof.
  intros R Hp Hf. apply list_of_map.
  - rewrite Hp. apply R.
  - intros n. rewrite Hp, <- not_eq_None_Some, (represents_none _ _ _ R). split; [tauto|]. intros Hn.
    destruct (decide (n ∈ p_login <$> t_passwd d)); tauto.
  - intros x a Hx (p & s & Hin & Hs & E & En & ->)%(rp_accounts _ _ R). rewrite <- En. by apply Hf.
Qed.

(** A row that a condition selects. *)
Lemma elem_of_selected {A} (b : bool) (x y : A) : x ∈ (if b then [y] else []) <-> b = true /\ x = y.
Proof.
  destruct b; rewrite ?list_elem_of_singleton, ?elem_of_nil; intuition discriminate.
Qed.

Lemma NoDup_selected {A} (b : bool) (y : A) : NoDup (if b then [y] else []).
Proof. destruct b; [apply NoDup_singleton|constructor]. Qed.

(** What getent does: start, read until there is nothing left, end. *)
Definition getent {Entry} (start : list Option -> M iter_state unit) (next : M iter_state Entry)
    (stop : M iter_state unit) (opts : list Option) (fuel : nat) : M iter_state (list Entry) :=
  start opts ;; xs ← drain_until ErrNotFoundENoEnt next fuel; stop ;; mret xs.

Section Listing.
Context `{Decorator} `{Bcrypt} `{RowOrder} `{IniLib} `{JsonCodes} `{UnicodeLower} `{UnicodeCase}.
Variables euid egid : Z.
Variable groups : list Z.
Variable LookupGroup : string -> result string.
Variable passwd_first : nat -> bool.

Abbreviation New := (New euid egid groups LookupGroup passwd_first).
Abbreviation StartEntryIteration := (StartEntryIteration euid egid groups LookupGroup passwd_first).

Lemma getent_run {Rec Entry} database fmt (next : M (Cache * world) Rec) (of_record : Rec -> Entry) close
    opts s h s1 c n xs w :
  frames stays next -> (forall w, close (c, w) = (Ok tt, (c, w))) ->
  New opts s = (Ok h, s1) -> s_handles s1 !! h = Some (Handle c true) ->
  drain next n (c, world_of (o_cacheDir (sig c)) s1) = (Ok xs, (c, w)) ->
  exists s2, getent (StartEntryIteration database) (NextEntry database fmt next of_record) (EndEntryIteration close)
      opts n (IterState None s) = (Ok (of_record <$> xs), IterState None s2).
Proof.
  intros Hn Hc En Hh Hd.
  destruct (drain_through database fmt next of_record Hn h n c s1 xs c w Hh Hd) as (s2 & E2 & Hh2).
  destruct (EndEntryIteration_run close h c s2 Hh2 Hc) as [s3 E3].
  assert (StartEntryIteration database opts (IterState None s) = (Ok tt, IterState (Some h) s1)) as E1.
  { unfold Nss.StartEntryIteration, map_err, mbind, M_bind, get, step. simpl. rewrite on_isys_run. simpl. by rewrite En. }
  exists s3. unfold getent, mbind, M_bind. rewrite E1, E2, E3. done.
Qed.

(** A process that has opened nothing gets a new handle, without cursors. *)
Lemma New_fresh opts s h s1 : s_opened s = ∅ -> New opts s = (Ok h, s1) ->
  exists o mode, s_handles s1 !! h = Some (Handle (new_cache o mode) true).
Proof.
  intros Ho E. unfold CacheOpen.New, on_error in E. apply map_err_Ok, bind_Ok in E as (o & s2 & Eo & E).
  apply bind_Ok in E as (s3 & s4 & [= <- <-] & E).
  assert (s2 = s) as -> by (unfold lift in Eo; congruence).
  rewrite Ho, lookup_empty in E. unfold open_cache in E.
  apply bind_Ok in E as (gid & s5 & _ & E). apply bind_Ok in E as (mode & s6 & _ & E).
  apply bind_Ok in E as ([] & s7 & _ & E). unfold step in E. injection E as <- <-.
  exists o, mode. simpl. apply lookup_insert_eq.
Qed.

(** ** The three databases of a handle *)

Section Databases.
Variables (d : database) (m : accounts).
Hypothesis R : represents d m.

(** The number of a user. *)
Lemma user_number p : p ∈ t_passwd d -> u64 (p_uid p) = p_uid p /\ p_gid p = p_uid p.
Proof.
  intros Hp. destruct R as [_ Hco [Hu _ _] _]. rewrite Forall_forall in Hu. destruct (Hu p Hp) as [Hn _].
  split; [apply u64_small; unfold uint32 in Hn; lia|by apply Hco].
Qed.

Lemma same_login p q : p ∈ t_passwd d -> q ∈ t_passwd d -> p_login p = p_login q -> p = q.
Proof. intros Hp Hq. apply (NoDup_fmap_inj p_login _ _ _ (wf_login _ (rp_wf _ _ R)) Hp Hq). Qed.

(** Its group has one member, itself. *)
Lemma only_member p : p ∈ t_passwd d -> members_of d (p_uid p) = [p_login p].
Proof.
  intros Hp. apply Permutation_singleton_r, NoDup_Permutation; [|by apply NoDup_singleton|].
  - unfold members_of. apply NoDup_bind; [| |apply R].
    + intros [i1 g1] [i2 g2] y _ _ (p1 & [[E1 F1]%andb_true_iff Hy1]%elem_of_selected & Hp1)%list_elem_of_bind
        (p2 & [[E2 F2]%andb_true_iff Hy2]%elem_of_selected & Hp2)%list_elem_of_bind.
      assert (p1 = p2) as <- by (apply same_login; congruence). simpl in *. f_equal; lia.
    + intros u _. apply NoDup_bind; [|intros q _; apply NoDup_selected|eapply NoDup_fmap_1, R].
      intros p1 p2 y Hp1 Hp2 [_ Hy1]%elem_of_selected [_ Hy2]%elem_of_selected. apply same_login; congruence.
  - intros n. rewrite elem_of_members_of, list_elem_of_singleton. split.
    + intros (q & u & Hq & Hu & Eg & Eu & ->). apply (co_link _ (rp_coherent _ _ R)) in Hu as (q' & Hq' & ->).
      simpl in *. assert (q' = q) as -> by (eapply (NoDup_fmap_inj p_uid); [apply R|done..]).
      f_equal. eapply (NoDup_fmap_inj p_uid); [apply R|done..|]. rewrite <- Eg. symmetry. by apply user_number.
    + intros ->. exists p, (UidGidRow (p_uid p) (p_gid p)). split; [done|]. split.
      { apply (co_link _ (rp_coherent _ _ R)). by exists p. }
      split; [by apply user_number|done].
Qed.

Lemma names_of_groups : g_name <$> t_groups d ≡ₚ p_login <$> t_passwd d.
Proof.
  apply NoDup_Permutation; [apply R..|]. intros n. rewrite !list_elem_of_fmap.
  pose proof (co_group _ (rp_coherent _ _ R)) as Hco. split.
  - intros (g & -> & Hg). destruct (proj1 (Hco (g_name g) (g_gid g))) as (p & Hp & E & _); [by eauto|]. by exists p.
  - intros (p & -> & Hp). destruct (proj2 (Hco (p_login p) (p_gid p))) as (g & Hg & E & _); [by eauto|]. by exists g.
Qed.

Lemma group_user g : g ∈ t_groups d -> exists p, p ∈ t_passwd d /\ p_login p = g_name g /\ p_uid p = g_gid g.
Proof.
  intros Hg. destruct (proj1 (co_group _ (rp_coherent _ _ R) (g_name g) (g_gid g))) as (p & Hp & E & Eg); [by eauto|].
  exists p. split_and!; [done..|]. rewrite <- Eg. symmetry. by apply user_number.
Qed.

(** Every user has one shadow row. *)
Lemma join_shadow_users : (join_shadow (t_passwd d) (t_shadow d)).*1 ≡ₚ t_passwd d.
Proof.
  apply NoDup_Permutation; [|eapply NoDup_fmap_1, R|].
  - apply NoDup_fmap_2_strong.
    + intros [p s] [p' s'] (_ & Hs & E)%elem_of_join_shadow (_ & Hs' & E')%elem_of_join_shadow. simpl. intros <-.
      f_equal. eapply (NoDup_fmap_inj s_uid); [apply R|done..|congruence].
    + unfold join_shadow. apply NoDup_bind; [| |eapply NoDup_fmap_1, R].
      * intros p1 p2 y _ _ (s1 & [_ Hy1]%elem_of_selected & _)%list_elem_of_bind
          (s2 & [_ Hy2]%elem_of_selected & _)%list_elem_of_bind. congruence.
      * intros p _. apply NoDup_bind; [|intros s _; apply NoDup_selected|eapply NoDup_fmap_1, R].
        intros s1 s2 y _ _ [_ Hy1]%elem_of_selected [_ Hy2]%elem_of_selected. congruence.
  - intros p. rewrite list_elem_of_fmap. split.
    + by intros ([p' s] & -> & (Hp & _)%elem_of_join_shadow).
    + intros Hp. destruct (represents_row _ _ _ R Hp) as (s & Hs & E & _). exists (p, s). split; [done|].
      by apply elem_of_join_shadow.
Qed.

(** ** The three iterations are listings of the map *)

Variables (c : Cache) (w : world).
Hypothesis Hw : calm w.
Hypothesis Hd : w_db w = d.

(** The entries of some database, in some order, for a loop with room for them. *)
Definition lists {Rec Entry} (next : M (Cache * world) Rec) (f : Rec -> Entry) (e : string * account -> Entry)
    (P : list (string * account) -> Prop) : Prop :=
  exists xs qs, drain next (S (size m)) (c, w) = (Ok xs, (c, w)) /\ f <$> xs = e <$> qs
    /\ qs ≡ₚ map_to_list m /\ P qs.

Lemma lists_of {Rec Entry} (next : M (Cache * world) Rec) (name : Rec -> string) (f : Rec -> Entry) e xs
    (P : list (string * account) -> Prop) :
  drain next (S (length xs)) (c, w) = (Ok xs, (c, w)) -> name <$> xs ≡ₚ p_login <$> t_passwd d ->
  (forall x p s, x ∈ xs -> p ∈ t_passwd d -> s ∈ t_shadow d -> s_uid s = p_uid p -> name x = p_login p ->
     f x = e (p_login p, account_of p s)) ->
  (forall qs, qs.*1 = name <$> xs -> P qs) -> lists next f e P.
Proof.
  intros E Hn Hf HP. destruct (listing_of name f e d m xs R Hn Hf) as (qs & Hq & Eq & Ef).
  exists xs, qs. split_and!; [|done|done|by apply HP].
  replace (size m) with (length xs); [done|].
  rewrite <- (length_fmap f), Ef, length_fmap, Hq. apply length_map_to_list.
Qed.

Lemma passwd_lists : cursorPasswd c = None -> map_Forall (fun _ => complete) m ->
  lists NextPasswdEntry passwd_of_user account_passwd (fun qs => StronglySorted string_le qs.*1).
Proof.
  intros Hc Hm. destruct (NextPasswdEntry_all c w Hw Hc) as (us & ps & E & Hp & Hus & Hs).
  { rewrite Hd. apply Forall_forall. intros p Hp. destruct (represents_row _ _ _ R Hp) as (s & _ & _ & Em).
    destruct (Hm _ _ Em) as (? & ? & ?). apply typed_scan_user; [|by split_and!].
    destruct R as [_ _ [Hu _ _] _]. rewrite Forall_forall in Hu. by apply Hu. }
  rewrite Hd in Hp. apply (lists_of _ Name) with us; [done| | |by intros qs ->].
  - by rewrite (records_names ps), Hp by done.
  - intros u p s [i Hi]%list_elem_of_lookup Hin _ _ En.
    destruct (Forall2_lookup_r _ _ _ _ _ Hus Hi) as (p' & Hp' & Hu).
    apply list_elem_of_lookup_2 in Hp'. rewrite Hp in Hp'.
    apply scan_user_Ok in Hu as (E1 & E2 & E3 & E4 & E5 & E6 & E7 & _). simpl in *.
    assert (p' = p) as -> by (apply same_login; congruence).
    destruct (user_number p Hin) as [Eu Eg].
    pose proof (proj1 (Forall_forall _ _) (ty_users _ (rp_typed _ _ R)) p Hin) as (_ & Ex & _).
    unfold passwd_of_user, account_passwd, account_of. simpl. rewrite E5, E6, E7. simpl.
    f_equal; congruence.
Qed.

Lemma group_lists : cursorGroup c = None -> Forall (fun p => no_byte "," (p_login p)) (t_passwd d) ->
  lists NextGroupEntry group_of_record account_group (fun qs => StronglySorted string_le qs.*1).
Proof.
  intros Hc Hcomma. destruct (NextGroupEntry_all c w Hw) as (rs & E & Hp & Hs & Hr); rewrite ?Hd.
  - apply R.
  - done.
  - apply Forall_forall. intros g Hg. destruct (group_user g Hg) as (p & Hp & _ & <-). rewrite only_member by done.
    pose proof (proj1 (Forall_forall _ _) (ty_groups _ (rp_typed _ _ R)) g Hg) as (_ & ->). by split.
  - done.
  - rewrite Hd in Hp, Hr. apply (lists_of _ gName) with rs; [done|by rewrite Hp, names_of_groups| |by intros qs ->].
    intros r p s Hin Hpin _ _ En. rewrite Forall_forall in Hr. destruct (Hr r Hin) as (g & Hg & pw & ms & Hpw & Hms & ->).
    simpl in *. destruct (group_user g Hg) as (p' & Hp' & El & Eu). assert (p' = p) as -> by (apply same_login; congruence).
    rewrite <- Eu, only_member in Hms by done. apply Permutation_singleton_r in Hms as ->.
    pose proof (proj1 (Forall_forall _ _) (ty_groups _ (rp_typed _ _ R)) g Hg) as (_ & Ex).
    unfold group_of_record, account_group. simpl. destruct (user_number p Hpin) as [E64 _].
    f_equal; congruence.
Qed.

Lemma shadow_lists : cursorShadow c = None -> ShadowReadable c = true ->
  lists NextShadowEntry shadow_of_record account_shadow (fun _ => True).
Proof.
  intros Hc Hm. destruct (proj1 (NextShadowEntry_all c w Hw Hc) Hm) as (rows & Hp & E). rewrite Hd in Hp.
  apply (lists_of _ swName) with (shadow_of_rows <$> rows); [by rewrite length_fmap| | |done].
  - pose proof (fmap_Permutation p_login _ _ join_shadow_users) as <-. rewrite Hp, <- !list_fmap_compose.
    apply reflexive_eq, list_fmap_ext. by intros i [p s] _.
  - intros x p s ([p' s'] & -> & Hin)%list_elem_of_fmap Hpin Hs Es En. rewrite Hp in Hin.
    apply elem_of_join_shadow in Hin as (Hp' & Hs' & E'). simpl in En.
    assert (p' = p) as -> by by apply same_login.
    assert (s' = s) as -> by (eapply (NoDup_fmap_inj s_uid); [apply R|done..|congruence]).
    pose proof (proj1 (Forall_forall _ _) (ty_shadow _ (rp_typed _ _ R)) s Hs) as (E1 & E2 & E3 & E4 & E5 & E6).
    unfold shadow_of_record, account_shadow. simpl. by rewrite E1, E2, E3, E4, E5, E6.
Qed.
End Databases.

(** ** A process of the machine *)

(** The tables that a process of a reachable machine opens are those of a map. *)
Lemma opened_represents m0 log m i faults now entropy opts h s1 dir :
  pristine m0 -> rtc (machine_step false) ([], m0) (log, m) -> New opts (load i faults now entropy m) = (Ok h, s1) ->
  represents (tables_at dir s1) (accounts_of (tables_at dir s1)).
Proof.
  intros Hp Hr Hnew.
  assert (machine_ok coherent log m) as Hmo by by apply (reachable_coherent m0 (log, m)).
  destruct (machine_ok_load coherent log m i faults now entropy Hmo) as [Hok _].
  pose proof (safe_New coherent euid egid groups LookupGroup passwd_first opts (load i faults now entropy m)) as [_ _ Hs].
  rewrite Hnew in Hs. destruct (Hs log Hok dir) as [? ? ? _]. by apply represents_accounts_of.
Qed.

(** C27: on a machine whose caches only the Go packages use, whatever happened
    before, a process that opens its cache for an iteration and meets no failure
    is given the whole map of accounts by getent and then the end: passwd has an
    entry per account in the order of the logins, if no attribute was set to
    NULL; group has, in the same order, a group per account whose only member is
    the user, if no login has a comma; and shadow, for a process that can read
    it, has the hash of each account. *)
Theorem getent_lists_accounts m0 log m i faults now entropy opts h s1 c :
  pristine m0 -> rtc (machine_step false) ([], m0) (log, m) -> ho_processes m !! i = None ->
  New opts (load i faults now entropy m) = (Ok h, s1) -> s_faults s1 = [] -> s_handles s1 !! h = Some (Handle c true) ->
  let start := IterState None (load i faults now entropy m) in
  let d := tables_at (o_cacheDir (sig c)) s1 in
  let all := accounts_of d in
  (map_Forall (fun _ => complete) all -> exists qs, qs ≡ₚ map_to_list all /\ StronglySorted string_le qs.*1 /\
     (getent (passwd_StartEntryIteration euid egid groups LookupGroup passwd_first) passwd_NextEntry
        passwd_EndEntryIteration opts (S (size all)) start).1 = Ok (account_passwd <$> qs)) /\
  (Forall (no_byte ",") (p_login <$> t_passwd d) -> exists qs, qs ≡ₚ map_to_list all /\ StronglySorted string_le qs.*1 /\
     (getent (group_StartEntryIteration euid egid groups LookupGroup passwd_first) group_NextEntry
        group_EndEntryIteration opts (S (size all)) start).1 = Ok (account_group <$> qs)) /\
  (ShadowReadable c = true -> exists qs, qs ≡ₚ map_to_list all /\
     (getent (shadow_StartEntryIteration euid egid groups LookupGroup passwd_first) shadow_NextEntry
        shadow_EndEntryIteration opts (S (size all)) start).1 = Ok (account_shadow <$> qs)).
Proof.
  intros Hp Hr Hi Hnew Hf Hh start d all.
  assert (represents d all) as R by by eapply opened_represents.
  assert (exists o mode, c = new_cache o mode) as (o & mode & ->).
  { destruct (New_fresh opts (load i faults now entropy m) h s1) as (o & mode & Ho); [unfold load; simpl; by rewrite Hi|done|].
    rewrite Ho in Hh. injection Hh as <-. by exists o, mode. }
  pose proof (iterators_frames stays) as (Sp & Sg & Ss); [by intros|apply @on_world_stays|].
  assert (forall Rec Entry database fmt (next : M (Cache * world) Rec) (f : Rec -> Entry) close e P,
    frames stays next -> (forall w, close (new_cache o mode, w) = (Ok tt, (new_cache o mode, w))) ->
    lists all (new_cache o mode) (world_of (o_cacheDir (sig (new_cache o mode))) s1) next f e P ->
    exists qs, qs ≡ₚ map_to_list all /\ P qs /\
      (getent (StartEntryIteration database) (NextEntry database fmt next f) (EndEntryIteration close)
         opts (S (size all)) start).1 = Ok (e <$> qs)) as Hall.
  { intros Rec Entry database fmt next f close e P Hn Hc (xs & qs & E & Ef & Hq & HP).
    destruct (getent_run database fmt next f close opts _ h s1 _ _ xs _
      Hn Hc Hnew Hh E) as [s2 Es]. exists qs. split_and!; [done..|]. unfold start. by rewrite Es, <- Ef. }
  split_and!; intros Hx.
  - apply Hall; [done..|]. by apply (passwd_lists d).
  - apply Hall; [done..|]. apply (group_lists d); [done..|]. rewrite Forall_fmap in Hx. exact Hx.
  - destruct (Hall _ _ "shadow" "failed to get a shadow entry" NextShadowEntry shadow_of_record CloseShadowIterator
      account_shadow (fun _ => True)) as (qs & Hq & _ & E); [done..|by apply (shadow_lists d)|by exists qs].
Qed.
End Listing.

(** ** The machine of Progress, the day after its first login *)

Import Concrete RustStd.LatinCase.

Definition next_entries : list Passwd :=
  match (getent (passwd_StartEntryIteration 0 0 root_groups shadow_group in_order) passwd_NextEntry
           passwd_EndEntryIteration cache_options 2 (IterState None next_day)).1 with Ok es => es | _ => [] end.

Example next_entries_run : passwd_String <$> next_entries
  = ["success@domain.com:x:9448096:9448096::/srv/home/success@domain.com:/bin/sh"].
Proof. vm_compute. reflexivity. Qed.

Lemma getent_lists_accounts_witness : exists qs, qs ≡ₚ map_to_list (accounts_of online_tables) /\
  (getent (shadow_StartEntryIteration 0 0 root_groups shadow_group in_order) shadow_NextEntry
     shadow_EndEntryIteration cache_options 2 (IterState None next_day)).1 = Ok (account_shadow <$> qs).
Proof.
  assert (ho_processes online_host !! 1%nat = None) as E1 by (vm_compute; reflexivity).
  assert (s_faults next_opened = []) as E2 by (vm_compute; reflexivity).
  assert (s_handles next_opened !! 0%nat = Some (Handle next_cache true)) as E3 by (vm_compute; reflexivity).
  assert (ShadowReadable next_cache = true) as E4 by (vm_compute; reflexivity).
  assert (tables_at (o_cacheDir (sig next_cache)) next_opened = online_tables) as E5 by (vm_compute; reflexivity).
  assert (size (accounts_of online_tables) = 1%nat) as E6 by (vm_compute; reflexivity).
  destruct (getent_lists_accounts 0 0 root_groups shadow_group in_order _ _ _ 1%nat _ _ _ _ _ _ _ new_host_pristine
    (online_reachable false) E1 next_opened_run E2 E3) as (_ & _ & Hs).
  rewrite E5, E6 in Hs. exact (Hs E4).
Defined.
