(* ===== verification/Lookups.v ===== *)
(** * The lookups of the name service are those of the map of accounts

    When no call fails, a process of the machine that opens its cache is given
    for a key the entry of the account that has it, whichever of the five lookups
    it asks, and NOTFOUND for a key that no account has. *)

From S2P Require Import Prelude GoStrings Interfaces Tables CacheDB CacheFacts HomeDir UidGen CacheAuth CacheUpdate.
From S2P Require Import CacheTheorems CacheIter Typed CacheSpec CacheProgress CacheOpen CacheLife Clients Configured.
From S2P Require Import Offline Config Aad User Pam NssBuffers Nss RustStd Sessions Progress Listing.
Open Scope string_scope.
Open Scope list_scope.
Open Scope Z_scope.

(** NOTFOUND, for the name service. *)
Definition not_found {A} (r : result A) : Prop := exists e, r = Err e /\ errors_is e ErrNotFoundENoEnt = true.

(** The entry of a shadow lookup: the hash is masked. *)
Definition account_masked (na : string * account) : Shadow := MkShadow na.1 "*" (-1) (-1) (-1) (-1) (-1) (-1).

Section Lookups.
Context `{Decorator} `{RowOrder}.

(** ** On the tables *)

Section Tables.
Variables (c : Cache) (w : world) (m : accounts).
Hypothesis R : represents (w_db w) m.
Hypothesis Hw : calm w.

(** No row is an absence. *)
Lemma user_noent (q : database -> list user_cols) fmt : q (w_db w) = [] ->
  exists e, errorf fmt (newUserFromScanner (query_row q)) w = (Err e, w) /\ errors_is e ErrNoEnt = true.
Proof.
  intros Hq. unfold errorf, newUserFromScanner, map_err, mbind, M_bind. rewrite query_row_calm, Hq by done. by eexists.
Qed.

Lemma group_noent (q : database -> list group_cols) fmt : q (w_db w) = [] ->
  exists e, errorf fmt (newGroupFromScanner (query_row q)) w = (Err e, w) /\ errors_is e ErrNoEnt = true.
Proof.
  intros Hq. unfold errorf, newGroupFromScanner, map_err, mbind, M_bind. rewrite query_row_calm, Hq by done. by eexists.
Qed.

Lemma shadow_noent (q : database -> list (passwd_row * shadow_row)) fmt : q (w_db w) = [] ->
  exists e, errorf fmt (newShadowFromScanner (query_row q)) w = (Err e, w) /\ errors_is e ErrNoEnt = true.
Proof.
  intros Hq. unfold errorf, newShadowFromScanner, map_err, mbind, M_bind. rewrite query_row_calm, Hq by done. by eexists.
Qed.

Lemma no_rows {A} (l : list A) : (forall x, x ∉ l) -> l = [].
Proof. destruct l as [|x l]; [done|]. intros Hx. destruct (Hx x). by left. Qed.

(** The row of an account, as the cache reads it. *)
Lemma account_row n a : m !! n = Some a -> complete a ->
  exists p pw u, p ∈ t_passwd (w_db w) /\ p_login p = n /\ p_uid p = a_uid a /\ shadow_seen c (w_db w) p pw
    /\ scan_user (user_cols_of (Some pw) p) = Ok u /\ passwd_of_user u = account_passwd (n, a).
Proof.
  intros Ea (Hg & Hh & Hs). pose proof Ea as (p & s & Hp & Hin & Es & <- & ->)%(rp_accounts _ _ R). simpl in *.
  assert (exists pw, shadow_seen c (w_db w) p pw) as [pw Hpw]
    by (unfold shadow_seen; destruct (_ <? _); [by exists (s_password s), s|by exists ""]).
  pose proof (proj1 (Forall_forall _ _) (ty_users _ (rp_typed _ _ R)) p Hp) as Hty.
  pose proof (proj2 (typed_scan_user pw p Hty) (conj Hg (conj Hh Hs))) as Hok.
  destruct (scan_user (user_cols_of (Some pw) p)) as [u| |] eqn:Eu; [|done..].
  exists p, pw, u. split_and!; [done..|].
  destruct (scanned_shows _ _ _ _ _ _ R Hp Hpw Eu) as (a & Ha & E1 & E2 & E3 & E4 & E5 & E6 & E7 & _).
  rewrite Ea in Ha. injection Ha as <-. simpl in *.
  destruct (user_number _ _ R p Hp) as [E64 _].
  unfold passwd_of_user, account_passwd. simpl. rewrite E5, E6, E7, E1, E2, E3, E4, E64. done.
Qed.

Lemma user_by_name n a : m !! n = Some a -> complete a ->
  exists u, GetUserByName c n w = (Ok u, w) /\ passwd_of_user u = account_passwd (n, a).
Proof.
  intros Ea Hc. destruct (account_row n a Ea Hc) as (p & pw & u & Hp & <- & _ & Hs & Hu & E). exists u. split; [|done].
  by apply (GetUserByName_calm c w p pw Hw (rp_wf _ _ R) Hp Hs).
Qed.

Lemma user_by_uid n a : m !! n = Some a -> complete a ->
  exists u, GetUserByUID c (a_uid a) w = (Ok u, w) /\ passwd_of_user u = account_passwd (n, a).
Proof.
  intros Ea Hc. destruct (account_row n a Ea Hc) as (p & pw & u & Hp & _ & <- & Hs & Hu & E). exists u. split; [|done].
  by apply (GetUserByUID_calm c w p pw Hw (rp_wf _ _ R) Hp Hs).
Qed.

Lemma user_by_uid_none id : (forall n a, m !! n = Some a -> a_uid a <> id) ->
  exists e, GetUserByUID c id w = (Err e, w) /\ errors_is e ErrNoEnt = true.
Proof.
  intros Hn. apply user_noent, no_rows. intros cols (p & pw & _ & Hp & Eu%Z.eqb_eq & _)%elem_of_select_users.
  destruct (represents_row _ _ _ R Hp) as (s & _ & _ & Em). by apply (Hn _ _ Em).
Qed.

(** ** Groups *)

Lemma account_group_row n a : m !! n = Some a ->
  exists g, g ∈ t_groups (w_db w) /\ g_name g = n /\ g_gid g = a_uid a /\ g_password g = Some "x"
    /\ members_of (w_db w) (g_gid g) = [n] /\ u64 (a_uid a) = a_uid a.
Proof.
  intros (p & s & Hp & _ & _ & <- & ->)%(rp_accounts _ _ R). simpl.
  destruct (user_number _ _ R p Hp) as [E64 Eg].
  destruct (proj2 (co_group _ (rp_coherent _ _ R) (p_login p) (p_gid p))) as (g & Hg & En & Egid); [by eauto|].
  pose proof (proj1 (Forall_forall _ _) (ty_groups _ (rp_typed _ _ R)) g Hg) as [_ Ex].
  exists g. rewrite Egid, Eg. split_and!; [done..| |done]. by apply (only_member _ _ R).
Qed.

Lemma group_found where_ n a g fmt : m !! n = Some a -> no_byte "," n ->
  g_name g = n -> g_gid g = a_uid a -> g_password g = Some "x" -> members_of (w_db w) (g_gid g) = [n] ->
  filter (fun g' => where_ g' = true) (t_groups (w_db w)) = [g] ->
  exists r, errorf fmt (newGroupFromScanner (query_row (select_group where_))) w = (Ok r, w)
    /\ group_of_record r = account_group (n, a).
Proof.
  intros Ea Hcomma En Eg Ex Em Hf.
  destruct (select_group_one where_ (w_db w) g Hf) as (ms & Hms & Hs); [by rewrite Em|].
  rewrite Em in Hms. apply Permutation_singleton_r in Hms as ->. rewrite Ex in Hs.
  eexists. split; [apply map_err_Ok; eapply scan_group_members; [done|exact Hs|done|by constructor]|].
  destruct (account_group_row n a Ea) as (_ & _ & _ & _ & _ & _ & E64).
  unfold group_of_record, account_group. simpl. by rewrite En, Eg, E64.
Qed.

Lemma group_by_name n a : m !! n = Some a -> no_byte "," n ->
  exists r, GetGroupByName n w = (Ok r, w) /\ group_of_record r = account_group (n, a).
Proof.
  intros Ea Hcomma. destruct (account_group_row n a Ea) as (g & Hg & En & Eg & Ex & Em & _).
  eapply group_found; [done..|]. apply (filter_unique g_name); [|apply R|done].
  intros y. by rewrite bool_decide_eq_true, En.
Qed.

Lemma group_by_gid n a : m !! n = Some a -> no_byte "," n ->
  exists r, GetGroupByGID (a_uid a) w = (Ok r, w) /\ group_of_record r = account_group (n, a).
Proof.
  intros Ea Hcomma. destruct (account_group_row n a Ea) as (g & Hg & En & Eg & Ex & Em & _).
  eapply group_found; [done..|]. apply (filter_unique g_gid); [|apply R|done].
  intros y. by rewrite Z.eqb_eq, Eg.
Qed.

(** No group satisfies the condition. *)
Lemma group_none where_ fmt : (forall p, p ∈ t_passwd (w_db w) -> forall g, g_name g = p_login p -> g_gid g = p_uid p -> where_ g = false) ->
  exists e, errorf fmt (newGroupFromScanner (query_row (select_group where_))) w = (Err e, w) /\ errors_is e ErrNoEnt = true.
Proof.
  intros Hn. apply group_noent. unfold select_group, group_rows. rewrite filter_none; [csimpl; by rewrite row_order_nil|].
  intros g Hg Hg'. destruct (group_user _ _ R g Hg) as (p & Hp & El & Eu). by rewrite (Hn p Hp g) in Hg'.
Qed.

Lemma group_by_name_none n : m !! n = None -> exists e, GetGroupByName n w = (Err e, w) /\ errors_is e ErrNoEnt = true.
Proof.
  intros Hn. apply group_none. intros p Hp g El _. apply bool_decide_eq_false_2. rewrite El. intros <-.
  destruct (represents_row _ _ _ R Hp) as (s & _ & _ & Em). congruence.
Qed.

Lemma group_by_gid_none id : (forall n a, m !! n = Some a -> a_uid a <> id) ->
  exists e, GetGroupByGID id w = (Err e, w) /\ errors_is e ErrNoEnt = true.
Proof.
  intros Hn. apply group_none. intros p Hp g _ Eg. apply Z.eqb_neq. rewrite Eg.
  destruct (represents_row _ _ _ R Hp) as (s & _ & _ & Em). by apply (Hn _ _ Em).
Qed.

(** ** Shadow *)

Lemma elem_of_shadow_rows n x :
  x ∈ row_order (join_shadow (filter (fun p => p_login p = n) (t_passwd (w_db w))) (t_shadow (w_db w))) <->
  p_login x.1 = n /\ x.1 ∈ t_passwd (w_db w) /\ x.2 ∈ t_shadow (w_db w) /\ p_uid x.1 = s_uid x.2.
Proof. destruct x as [p s]. rewrite elem_of_row_order, elem_of_join_shadow, list_elem_of_filter. simpl. tauto. Qed.

Lemma shadow_by_name n a : m !! n = Some a -> ShadowReadable c = true ->
  exists r, GetShadowByName c n w = (Ok r, w) /\ shadow_masked r = account_masked (n, a).
Proof.
  intros (p & s & Hp & Hs & Es & <- & ->)%(rp_accounts _ _ R) Hm.
  unfold GetShadowByName. unfold ShadowReadable, shadowNotAvailableMode, shadowROMode in *.
  rewrite (proj2 (Z.ltb_ge _ _)) by (apply Z.ltb_lt in Hm; lia).
  unfold errorf, newShadowFromScanner, map_err, mbind, M_bind. rewrite query_row_calm by done.
  pose proof (elem_of_shadow_rows (p_login p)) as Hrows.
  set (rows := row_order _) in *. destruct rows as [|[p' s'] rows].
  { assert ((p, s) ∈ []) as []%elem_of_nil by by apply Hrows. }
  destruct (proj1 (Hrows (p', s')) (list_elem_of_here _ _)) as (_ & _ & Hs' & _). simpl in *.
  pose proof (proj1 (Forall_forall _ _) (ty_shadow _ (rp_typed _ _ R)) s' Hs') as (E1 & E2 & E3 & E4 & E5 & E6).
  eexists. split; [done|]. unfold shadow_masked, account_masked. simpl. rewrite E1, E2, E3, E4, E5, E6.
  f_equal. by destruct (proj1 (Hrows (p', s')) (list_elem_of_here _ _)) as (El & _).
Qed.

Lemma shadow_by_name_none n : m !! n = None -> ShadowReadable c = true ->
  exists e, GetShadowByName c n w = (Err e, w) /\ errors_is e ErrNoEnt = true.
Proof.
  intros Hn Hm. unfold GetShadowByName. unfold ShadowReadable, shadowNotAvailableMode, shadowROMode in *.
  rewrite (proj2 (Z.ltb_ge _ _)) by (apply Z.ltb_lt in Hm; lia).
  apply shadow_noent, no_rows. intros x (El & Hp & _)%elem_of_shadow_rows.
  destruct (represents_row _ _ _ R Hp) as (s & _ & _ & Em). congruence.
Qed.
End Tables.
End Lookups.

(** ** Through the name service *)

Section Machine.
Context `{Decorator} `{Bcrypt} `{RowOrder} `{IniLib} `{JsonCodes} `{UnicodeLower} `{UnicodeCase}.
Variables euid egid : Z.
Variable groups : list Z.
Variable LookupGroup : string -> result string.
Variable passwd_first : nat -> bool.

Abbreviation New := (New euid egid groups LookupGroup passwd_first).
Abbreviation with_cache := (with_cache euid egid groups LookupGroup passwd_first).

(** A lookup answers what the operation of the opened cache does. *)
Lemma lookup_run {A B} fmt (op : Cache -> M world A) (f : A -> B) opts s h s1 c r w :
  New opts s = (Ok h, s1) -> s_handles s1 !! h = Some (Handle c true) ->
  op c (world_of (o_cacheDir (sig c)) s1) = (r, w) ->
  (on_error fmt (with_cache ConvertErr opts (fun h => x ← map_err ConvertErr (on_handle h (method op)); mret (f x))) s).1
  = match r with Ok x => Ok (f x) | Err e => Err (OnError fmt (ConvertErr e)) | Panic why => Panic why end.
Proof.
  intros En Hh E. unfold on_error, map_err at 1.
  set (body := fun h : nat => _).
  pose proof (with_cache_result euid egid groups LookupGroup passwd_first ConvertErr opts body s) as Hr.
  rewrite En in Hr.
  assert ((body h s1).1 = match r with Ok x => Ok (f x) | Err e => Err (ConvertErr e) | Panic why => Panic why end) as Eb.
  { unfold body, mbind, M_bind, map_err. rewrite (on_handle_method h op c _ _ _ Hh E). by destruct r. }
  rewrite Eb in Hr. destruct (with_cache ConvertErr opts body s) as [r' s']. simpl in Hr. subst r'. by destruct r.
Qed.

Lemma lookup_found {A B} fmt (op : Cache -> M world A) (f : A -> B) opts s h s1 c x :
  New opts s = (Ok h, s1) -> s_handles s1 !! h = Some (Handle c true) ->
  (exists a, op c (world_of (o_cacheDir (sig c)) s1) = (Ok a, world_of (o_cacheDir (sig c)) s1) /\ f a = x) ->
  (on_error fmt (with_cache ConvertErr opts (fun h => x ← map_err ConvertErr (on_handle h (method op)); mret (f x))) s).1
  = Ok x.
Proof. intros En Hh (a & E & <-). by rewrite (lookup_run fmt op f opts s h s1 c _ _ En Hh E). Qed.

Lemma lookup_not_found {A B} fmt (op : Cache -> M world A) (f : A -> B) opts s h s1 c :
  New opts s = (Ok h, s1) -> s_handles s1 !! h = Some (Handle c true) ->
  (exists e, op c (world_of (o_cacheDir (sig c)) s1) = (Err e, world_of (o_cacheDir (sig c)) s1)
     /\ errors_is e ErrNoEnt = true) ->
  not_found (on_error fmt (with_cache ConvertErr opts (fun h =>
    x ← map_err ConvertErr (on_handle h (method op)); mret (f x))) s).1.
Proof.
  intros En Hh (e & E & He). rewrite (lookup_run fmt op f opts s h s1 c _ _ En Hh E).
  eexists. split; [done|by apply end_of_rows].
Qed.

(** C28: on a machine whose caches only the Go packages use, whatever happened
    before, a process that opens its cache and meets no failure is given by the
    lookups the entries of the map of accounts: for the name or the number of an
    account its passwd entry, if no attribute was set to NULL, its group with the
    user as its only member, if the name has no comma (by name for any name but
    shadow, which the lookup always refuses), and, with access to the
    shadow database, its masked shadow entry; for a name or a number that no
    account has, NOTFOUND. *)
Theorem lookups_complete m0 log m i faults now entropy opts h s1 c :
  pristine m0 -> rtc (machine_step false) ([], m0) (log, m) ->
  New opts (load i faults now entropy m) = (Ok h, s1) -> s_faults s1 = [] -> s_handles s1 !! h = Some (Handle c true) ->
  let s := load i faults now entropy m in
  let all := accounts_of (tables_at (o_cacheDir (sig c)) s1) in
  (forall n a, all !! n = Some a ->
    (complete a ->
      (passwd_NewByName euid egid groups LookupGroup passwd_first n opts s).1 = Ok (account_passwd (n, a)) /\
      (passwd_NewByUID euid egid groups LookupGroup passwd_first (a_uid a) opts s).1 = Ok (account_passwd (n, a))) /\
    (no_byte "," n ->
      (n <> "shadow" ->
       (group_NewByName euid egid groups LookupGroup passwd_first n opts s).1 = Ok (account_group (n, a))) /\
      (group_NewByGID euid egid groups LookupGroup passwd_first (a_uid a) opts s).1 = Ok (account_group (n, a))) /\
    (ShadowReadable c = true ->
      (shadow_NewByName euid egid groups LookupGroup passwd_first n opts s).1 = Ok (account_masked (n, a)))) /\
  (forall n, all !! n = None ->
    not_found (passwd_NewByName euid egid groups LookupGroup passwd_first n opts s).1 /\
    not_found (group_NewByName euid egid groups LookupGroup passwd_first n opts s).1 /\
    (ShadowReadable c = true ->
      not_found (shadow_NewByName euid egid groups LookupGroup passwd_first n opts s).1)) /\
  (forall id, (forall n a, all !! n = Some a -> a_uid a <> id) ->
    not_found (passwd_NewByUID euid egid groups LookupGroup passwd_first id opts s).1 /\
    not_found (group_NewByGID euid egid groups LookupGroup passwd_first id opts s).1).
Proof.
  intros Hp Hr Hnew Hf Hh s all.
  set (w := world_of (o_cacheDir (sig c)) s1).
  assert (represents (w_db w) all) as R by by eapply opened_represents.
  assert (calm w) as Hw by exact Hf.
  split; [|split].
  - intros n a Ea. split; [|split].
    + intros Hc. split; (eapply lookup_found; [exact Hnew|exact Hh|]).
      * by apply (user_by_name c w all R Hw).
      * by apply (user_by_uid c w all R Hw).
    + intros Hcomma. split; [intros Hn; unfold group_NewByName; rewrite bool_decide_eq_false_2 by done|];
        (eapply lookup_found; [exact Hnew|exact Hh|]).
      * by apply (group_by_name w all R Hw).
      * by apply (group_by_gid w all R Hw).
    + intros Hm. eapply lookup_found; [exact Hnew|exact Hh|]. by apply (shadow_by_name c w all R Hw).
  - intros n Hn. split; [|split].
    + eapply lookup_not_found; [exact Hnew|exact Hh|]. apply GetUserByName_noent; [done|]. by apply (represents_none _ _ _ R).
    + unfold group_NewByName. case_bool_decide.
      { eexists. split; [reflexivity|]. by rewrite OnError_is. }
      eapply lookup_not_found; [exact Hnew|exact Hh|]. by apply (group_by_name_none w all R Hw).
    + intros Hm. eapply lookup_not_found; [exact Hnew|exact Hh|]. by apply (shadow_by_name_none c w all R Hw).
  - intros id Hid. split; (eapply lookup_not_found; [exact Hnew|exact Hh|]).
    + by apply (user_by_uid_none c w all R Hw).
    + by apply (group_by_gid_none w all R Hw).
Qed.
End Machine.

(** ** The machine of Progress, the day after its first login *)

Import Concrete RustStd.LatinCase.

Definition online_account : account := Eval vm_compute in
  default (Account 0 None None None None "") (accounts_of online_tables !! "success@domain.com").

Lemma online_accounts : map_to_list (accounts_of online_tables) = [("success@domain.com", online_account)].
Proof. vm_compute. reflexivity. Qed.

Lemma online_accounts_lookup n a : accounts_of online_tables !! n = Some a <->
  n = "success@domain.com" /\ a = online_account.
Proof.
  rewrite <- elem_of_map_to_list, online_accounts, list_elem_of_singleton. split; [by intros [= -> ->]|by intros [-> ->]].
Qed.

Lemma lookups_complete_witness :
  (passwd_NewByName 0 0 root_groups shadow_group in_order "success@domain.com" cache_options next_day).1
    = Ok (account_passwd ("success@domain.com", online_account)) /\
  not_found (group_NewByGID 0 0 root_groups shadow_group in_order 1 cache_options next_day).1.
Proof.
  assert (s_faults next_opened = []) as E2 by (vm_compute; reflexivity).
  assert (s_handles next_opened !! 0%nat = Some (Handle next_cache true)) as E3 by (vm_compute; reflexivity).
  assert (tables_at (o_cacheDir (sig next_cache)) next_opened = online_tables) as E5 by (vm_compute; reflexivity).
  destruct (lookups_complete 0 0 root_groups shadow_group in_order _ _ _ 1%nat _ _ _ _ _ _ _ new_host_pristine
    (online_reachable false) next_opened_run E2 E3) as (Hsome & _ & Hnone).
  rewrite E5 in Hsome, Hnone. split.
  - destruct (Hsome "success@domain.com" online_account) as [Hpw _].
    { apply online_accounts_lookup. split; reflexivity. }
    refine (proj1 (Hpw _)). repeat split; eexists; reflexivity.
  - refine (proj2 (Hnone 1 _)). intros n a [-> ->]%online_accounts_lookup. discriminate.
Defined.
