(* ===== verification/RustRuns.v ===== *)
(** * Concrete runs of the name service in Rust

    A cached user is looked up, listed, purged and locked out; rows that cannot
    be read, calls that fail, and files that one side accepts and the other
    refuses. *)

From S2P Require Import Prelude GoStrings Interfaces Tables CacheDB CacheFacts HomeDir UidGen CacheAuth CacheUpdate.
From S2P Require Import CacheTheorems CacheIter CacheOpen CacheLife Clients Configured Typed Offline Config Aad User Pam.
From S2P Require Import RustStd RustCache RustNss RustFacts RustService RustSound RustAgree RustOrphans RustOpens Sessions.
Open Scope string_scope.
Open Scope list_scope.
Open Scope Z_scope.
Import Concrete LatinCase.

(** ** The processes *)

(** Root can write to everything, any other user reads passwd.db only. *)
Definition anything (dir : string) (f : checked) (s : sys) : bool := true.
Definition nothing (dir : string) (f : checked) (s : sys) : bool := false.
Definition passwd_only (dir : string) (f : checked) (s : sys) : bool :=
  match f with TheFile ShadowDB => false | _ => true end.

Definition system_groups (name : string) : option Z := if bool_decide (name = "shadow") then Some 42 else None.
Definition no_env (name : string) : option string := None.

Definition root_asks : request -> R sys Empty_set reply :=
  serve anything anything system_groups released no_env 0 0.
Definition user_asks : request -> R sys Empty_set reply :=
  serve passwd_only nothing system_groups released no_env 1000 1000.

(** The machine on which a user has logged in, some days after, with calls that
    may fail. *)
Definition days_after (days : Z) (faults : list (option string)) : sys :=
  load 1 faults (1700000000 * Second + days * 24 * Hour) 7 online_host.

Definition cached_uid : Z := 9448096.


(** ** What is answered *)

Definition shown : NssPasswd := MkNssPasswd "success@domain.com" "x" cached_uid cached_uid "" "/srv/home/success@domain.com" "/bin/sh".

Example by_name_any_case :
  (user_asks (PasswdByName "SUCCESS@Domain.com") (days_after 1 [])).1 = Done (OnePasswd (Success shown)).
Proof. vm_compute. done. Qed.

Example by_uid : (user_asks (PasswdByUid cached_uid) (days_after 1 [])).1 = Done (OnePasswd (Success shown)).
Proof. vm_compute. done. Qed.

Example all_groups : (user_asks GroupAll (days_after 1 [])).1
  = Done (Groups (Success [MkNssGroup "success@domain.com" "x" cached_uid ["success@domain.com"]])).
Proof. vm_compute. done. Qed.

(** A stranger is absent, and the shadow entries are not for everyone. *)
Example stranger : (user_asks (PasswdByName "nobody@domain.com") (days_after 1 [])).1 = Done (OnePasswd NotFound).
Proof. vm_compute. done. Qed.

Example shadow_denied : (user_asks (ShadowByName "success@domain.com") (days_after 1 [])).1 = Done (OneShadow Unavail).
Proof. vm_compute. done. Qed.

(** To root, a lookup by name hides the hash; the enumeration shows it. *)
Definition shadow_shown (pw : string) : NssShadow :=
  MkNssShadow "success@domain.com" pw (-1) (-1) (-1) (-1) (-1) (-1) usize_MAX.

Example hash_masked :
  (root_asks (ShadowByName "success@domain.com") (days_after 1 [])).1 = Done (OneShadow (Success (shadow_shown "*"))).
Proof. vm_compute. done. Qed.

Example hash_listed : (root_asks ShadowAll (days_after 1 [])).1 = Done (Shadows (Success [shadow_shown "$2a$secret"])).
Proof. vm_compute. done. Qed.

(** A machine without a cache *)
Example no_cache : (root_asks (PasswdByName "success@domain.com") (fresh_sys [])).1 = Done (OnePasswd Unavail).
Proof. vm_compute. done. Qed.

(** ** What fails *)

(** The step that would give the row fails: the user is reported absent. *)
Example failure_is_absence :
  (user_asks (PasswdByName "success@domain.com")
     (days_after 1 [None; None; None; None; None; None; None; Some "disk I/O error"])).1 = Done (OnePasswd NotFound).
Proof. vm_compute. done. Qed.

(** The same failure cuts an enumeration short, and it is a success. *)
Example failure_truncates :
  (user_asks PasswdAll
     (days_after 1 [None; None; None; None; None; None; None; Some "disk I/O error"])).1 = Done (Passwds (Success [])).
Proof. vm_compute. done. Qed.

(** The cached user with another gecos *)
Definition with_gecos (v : option string) (s : sys) : sys :=
  let d := dir_of DB_PATH s in
  let t := d_tables d in
  set_dirs (<[DB_PATH := Dir (d_passwd d) (d_shadow d)
    (Database ((fun p => PasswdRow (p_login p) (p_password p) (p_uid p) (p_gid p) v (p_home p) (p_shell p)
                           (p_last_online_auth p)) <$> t_passwd t) (t_groups t) (t_uid_gid t) (t_shadow t))]> (s_dirs s)) s.

(** A text that is not UTF-8, or a NULL, panics in whichever process looks the
    user up or lists the users. *)
Example bad_gecos_panics :
  (user_asks (PasswdByUid cached_uid) (with_gecos (Some (String (ascii_of_nat 233) "")) (days_after 1 []))).1
  = Panicked "invalid gecos".
Proof. vm_compute. done. Qed.

Example null_gecos_panics :
  (user_asks PasswdAll (with_gecos None (days_after 1 []))).1 = Panicked "invalid gecos".
Proof. vm_compute. done. Qed.

(** ** What is accepted *)

(** A shadow file that everyone can read is refused by the Go packages, and
    served by the library in Rust. *)
Definition exposed (s : sys) : sys :=
  let d := dir_of DB_PATH s in
  set_dirs (<[DB_PATH := Dir (d_passwd d) (Some (FileMeta perm_0644 0 42)) (d_tables d)]> (s_dirs s)) s.

Example exposed_refused_by_go :
  is_ok (checkFilePermission DB_PATH ShadowDB 0 42 perm_0640 (exposed (days_after 1 []))).1 = false.
Proof. vm_compute. done. Qed.

Example exposed_served_by_rust :
  (serve anything nothing system_groups released no_env 1000 1000 ShadowAll (exposed (days_after 1 []))).1
  = Done (Shadows (Success [shadow_shown "$2a$secret"])).
Proof. vm_compute. done. Qed.

(** ** The purge and what follows *)

(** Half a year later root lists the groups: the user goes, its group stays. *)
Definition listed_late : sys := (root_asks GroupAll (days_after 181 [])).2.

Example purged_late :
  (root_asks (PasswdByName "success@domain.com") listed_late).1 = Done (OnePasswd NotFound)
  /\ t_groups (d_tables (dir_of DB_PATH listed_late)) = [GroupRow "success@domain.com" (Some "x") cached_uid].
Proof. vm_compute. done. Qed.

(** Another user lists them: nothing is purged. *)
Example kept_late : dir_of DB_PATH (user_asks GroupAll (days_after 181 [])).2 = dir_of DB_PATH (days_after 181 []).
Proof. vm_compute. done. Qed.

(** The provider verifies the user again, and the login is refused. *)
Example locked_out :
  (login "success@domain.com" "secret" "/etc/aad.conf"
     (PamState (load 0 [] (1700000000 * Second + 181 * 24 * Hour) 7 (store 1 listed_late online_host)) [])).1
  = Err (Sentinel ErrPamAuth).
Proof. vm_compute. done. Qed.

(** Without that listing, it would have been accepted. *)
Example not_locked_out :
  (login "success@domain.com" "secret" "/etc/aad.conf"
     (PamState (load 0 [] (1700000000 * Second + 181 * 24 * Hour) 7 online_host) [])).1 = Ok tt.
Proof. vm_compute. done. Qed.

(** ** The theorems on these runs *)

(** The purge of the run above is the only effect it has. *)
Lemma request_effect_witness :
  same_life (days_after 181 []) listed_late /\ d_shadow (dir_of DB_PATH listed_late) = Some (FileMeta perm_0640 0 42).
Proof.
  destruct (request_effect anything anything system_groups no_env 0 0 GroupAll (days_after 181 []) _ listed_late
    (surjective_pairing _)) as (_ & Hl & _ & _ & Hs & _).
  split; [exact Hl|]. rewrite Hs. vm_compute. reflexivity.
Defined.

Definition cached_tables : database := Eval vm_compute in d_tables (dir_of DB_PATH (p_sys after_online)).

Lemma tables_after days faults : d_tables (dir_of DB_PATH (days_after days faults)) = cached_tables.
Proof. vm_compute. done. Qed.

Lemma readable_cached days faults : readable_tables (d_tables (dir_of DB_PATH (days_after days faults))).
Proof. rewrite tables_after. by repeat constructor. Qed.

Lemma requests_never_panic_witness :
  (user_asks PasswdAll (days_after 1 [None; Some "disk I/O error"])).1 <> Panicked "invalid gecos".
Proof.
  exact (requests_never_panic passwd_only nothing system_groups no_env 1000 1000 PasswdAll
    (days_after 1 [None; Some "disk I/O error"]) (readable_cached _ _) eq_refl "invalid gecos").
Defined.


(** ** The two libraries on the same tables *)

Lemma two_db_common : common two_db.
Proof.
  split.
  - exact two_db_wf.
  - intros p Hp. apply (co_shadow _ two_db_coherent). by apply list_elem_of_fmap_2.
  - intros p Hp. assert (Forall (fun p => is_Some (p_last_online_auth p)) (t_passwd two_db)) as Hall
      by (repeat constructor; by eexists).
    rewrite Forall_forall in Hall. by apply Hall.
  - by repeat constructor.
Qed.

Definition rust_root : CacheDB :=
  MkCacheDB (MkConnection DB_PATH "file:/var/lib/aad/cache/passwd.db" DB_CONN_OPT_RW SQLITE_OPEN_READ_WRITE true)
    ReadWrite OFFLINE_CREDENTIALS_EXPIRATION.

Lemma lookups_agree_witness :
  agrees same_user (GetUserByName cache_rw "alice@d" (World two_db [] 0 0)).1
    (get_passwd_by_name "Alice@D" (World two_db [] 0 0)).1.
Proof.
  exact (proj1 (proj2 (lookups_agree cache_rw rust_root "Alice@D" 0 (World two_db [] 0 0) eq_refl two_db_common
    ltac:(vm_compute; discriminate) eq_refl))).
Defined.

(** A name that is not in lower case is found by the library only. *)
Example name_as_given :
  is_ok (GetUserByName cache_rw "Alice@D" (World two_db [] 0 0)).1 = false /\
  exists p, (get_passwd_by_name "Alice@D" (World two_db [] 0 0)).1 = Done p.
Proof. split; [vm_compute; reflexivity|]. eexists. vm_compute. reflexivity. Qed.

Lemma listings_agree_witness : exists us,
  drain NextPasswdEntry (S (length us)) (cache_rw, World two_db [] 0 0) = (Ok us, (cache_rw, World two_db [] 0 0))
  /\ get_all_passwds (World two_db [] 0 0) = (Done (same_user <$> us), World two_db [] 0 0).
Proof.
  exact (proj1 (listings_agree cache_rw rust_root (World two_db [] 0 0) eq_refl two_db_common eq_refl eq_refl eq_refl
    eq_refl eq_refl)).
Defined.

(** A cache that the Go packages create is one that the library opens. *)
Definition created_by_go : sys :=
  (initDB 0 0 root_groups in_order DB_PATH 0 0 42 (-1) perm_0644 perm_0640 (fresh_sys [])).2.

Lemma opens_what_go_opens_witness : exists s',
  build passwd_only nothing system_groups new created_by_go = (Done (connection_of passwd_only nothing created_by_go), s').
Proof.
  assert ((initDB 0 0 root_groups in_order DB_PATH 0 0 42 (-1) perm_0644 perm_0640 (fresh_sys [])).1 = Ok shadowRWMode) as E
    by (vm_compute; reflexivity).
  destruct (opens_what_go_opens passwd_only nothing system_groups 0 0 root_groups in_order 42 (-1) (fresh_sys [])
    shadowRWMode created_by_go) as (s' & Hb & _).
  - unfold created_by_go. by rewrite <- E, <- surjective_pairing.
  - vm_compute. reflexivity.
  - reflexivity.
  - discriminate.
  - exists s'. exact Hb.
Defined.

(** ** The purge *)

Definition alice_row : passwd_row :=
  PasswdRow "alice@d" (Some "x") 200000 200000 (Some "") (Some "/home/alice") (Some "/bin/sh") (Some 1000).

Lemma alice_in : alice_row ∈ t_passwd two_db.
Proof. left. Qed.

Lemma rust_purge_effect_witness : exists g, g ∈ t_groups (rust_purged 2000 two_db) /\ g ∉ t_groups (purged 2000 two_db).
Proof.
  destruct (rust_purge_effect 2000 two_db two_db_wf two_db_coherent) as (_ & _ & _ & _ & Hg).
  exists (GroupRow "alice@d" (Some "x") 200000).
  exact (Hg alice_row _ alice_in ltac:(vm_compute; done) ltac:(left) eq_refl).
Defined.

(** Long after her last login, alice is purged by a connection of root. *)
Definition before_purge : world := World two_db [] (180 * 24 * Hour + 2000 * Second) 0.
Definition after_purge : world := set_db (rust_purged 2000 two_db) before_purge.

Lemma purged_user_locked_out_witness : is_ok (CanAuthenticate cache_rw "alice@d" "h1" after_purge).1 = false.
Proof.
  exact (proj2 (purged_user_locked_out rust_root before_purge after_purge alice_row after_purge two_db_wf
    (coherent_linked _ two_db_coherent) alice_in ltac:(vm_compute; reflexivity)
    ltac:(apply (bool_decide_unpack _); vm_compute; done) (rtc_refl _ _)) cache_rw "h1").
Defined.

(** ** The machine after a purge by the library *)

Definition listed_host : host := store 1 listed_late online_host.

Lemma listed_reachable : rtc (machine_step true) ([], new_host) (online_log, listed_host).
Proof.
  eapply rtc_r; [exact (online_reachable true)|].
  apply (MachineStep true any_value 1 [] (1700000000 * Second + 181 * 24 * Hour) 7).
  by apply (StepNameService true any_value anything anything system_groups released no_env 0 0 GroupAll).
Qed.

Lemma machine_tables_shared_witness : linked (host_tables DB_PATH listed_host).
Proof. exact (proj2 (machine_tables_shared _ _ _ DB_PATH new_host_pristine listed_reachable)). Defined.
