(* ===== verification/CliUser.v ===== *)
(** * cmd/aad-cli/cli/user.go: the user command

    runUser reads or writes a record of the cache; a change of the home can
    move the directory. The file system under the homes is a finite map from
    paths to what is there; mv, /proc, the time zone and the ini writer of a
    record are parameters. *)

From S2P Require Import Prelude GoStrings Interfaces Tables CacheDB CacheFacts CacheTheorems HomeDir UidGen.
From S2P Require Import CacheAuth CacheIter CacheOpen CacheLife Clients Config User.
Open Scope string_scope.
Open Scope list_scope.
Open Scope Z_scope.

(** A file or a directory, with its identity. *)
Inductive node := NDir (inode : nat) | NFile (inode : nat).

#[export] Instance node_eq_dec : EqDecision node.
Proof. solve_decision. Defined.

Definition home_fs : Type := gmap string node.

(** The process, the homes, and what has been printed. *)
Record cli := Cli { k_sys : sys; k_fs : home_fs; k_out : list string }.

Definition on_ksys {A} (m : M sys A) : M cli A :=
  zoom k_sys (fun s k => Cli s (k_fs k) (k_out k)) m.

Definition set_fs (f : home_fs) (k : cli) : cli := Cli (k_sys k) f (k_out k).

Definition Println (line : string) : M cli unit := fun k =>
  (Ok tt, Cli (k_sys k) (k_fs k) (k_out k ++ [line])).

(** [fmt.Sprint] and [fmt.Sprintf] with [%v] of a value read from a column. *)
Definition Sprint (v : sqlval) : string :=
  match v with VNull => "<nil>" | VInt z => pretty z | VText s => s end.

(** The directory at [p] is now at [v]. *)
Definition moved (p v : string) (n : node) (f : home_fs) : home_fs := <[v := n]> (delete p f).

Section CliUser.
Context `{Decorator} `{RowOrder} `{IniLib}.
Variables euid egid : Z.
Variable groups : list Z.
Variable LookupGroup : string -> result string.
Variable passwd_first : nat -> bool.
(* /proc *)
Variable Stat : string -> result (Z * Z).
Variable Glob : string -> result (list string).
Variable Open : string -> result opened_file.
(* exec.Command("mv", ...).Run() *)
Variable mv : string -> string -> home_fs -> result unit * home_fs.
(* ini.ReflectFrom of a record; time.Unix(i, 0).Format(time.RFC3339) *)
Variable ReflectUser : UserRecord -> result ini_file.
Variable FormatRFC3339 : Z -> string.

Abbreviation New := (New euid egid groups LookupGroup passwd_first).

Definition IniString (u : UserRecord) : result string := out ← ReflectUser u; ini_write out.

(** os.Rename fails when the system says so, else moves the entry. *)
Definition Rename (p v : string) : M cli unit :=
  on_ksys syscall ;;
  step (fun k => match k_fs k !! p with
                 | Some n => (Ok tt, set_fs (moved p v n (k_fs k)) k)
                 | None => (Err (Sentinel OsErrNotExist), k)
                 end).

(** unix.Access on the destination, where any failure means that it is free, and
    os.Stat on the source, which may also fail on what is there. *)
Definition moveUserHome (username prevValue value : string) : M cli unit :=
  on_error "unable to move home directory for %s"
    (k ← get;
     if bool_decide (is_Some (k_fs k !! value)) then fail (Opaque "directory %q already exists")
     else on_ksys syscall ;;
          match k_fs k !! prevValue with
          | None => fail (Sentinel OsErrNotExist)
          | Some (NFile _) => fail (Opaque "%q was not a directory, it is not removed and no home directories are created")
          | Some (NDir _) =>
              r ← attempt (Rename prevValue value);
              match r with
              | inl _ => mret tt
              | inr _ => step (fun k => let '(r, f) := mv prevValue value (k_fs k) in (r, set_fs f k))
              end
          end).

Definition query_attr (h : nat) (username key : string) : M cli sqlval :=
  on_ksys (on_handle h (method (fun _ => QueryPasswdAttribute username key))).

(** The uid of the user must not be in use. *)
Definition check_not_busy (h : nat) (procFs username : string) : M cli unit :=
  uid ← query_attr h username "uid";
  match uid with
  | VInt id => lift (IsBusy Stat Glob Open procFs id)
  | _ => fail (Opaque "invalid uid type: %T")
  end.

Definition updateUserAttribute (h : nat) (procFs username key value : string) (moveHome : bool) : M cli unit :=
  on_error "couldn't update attribute"
    (prevValue ← query_attr h username key;
     if bool_decide (prevValue = VText value) then mret tt
     else
       (if moveHome then check_not_busy h procFs username else mret tt) ;;
       on_ksys (on_handle h (method (fun _ => UpdateUserAttribute username key (VText value)))) ;;
       (if bool_decide (key = "home") && moveHome then moveUserHome username (Sprint prevValue) value
        else mret tt)).

(** What the command prints when it only reads. *)
Definition read_value (args : list string) (h : nat) (username : string) (allUsers : bool) : M cli string :=
  match args with
  | [] =>
      if allUsers then
        users ← on_ksys (on_handle h (method (fun _ => GetAllUserNames)));
        mret (Join (str1 User.newline) users)
      else
        user ← on_ksys (on_handle h (method (fun c => GetUserByName c username)));
        mret (match IniString user with Ok s => s | _ => "" end)
  | [key] =>
      if bool_decide (key = "shadow_password") then
        k ← get;
        if match s_handles (k_sys k) !! h with Some (Handle c _) => negb (ShadowReadable c) | None => false end
        then fail (Opaque "You do not have permission to read the shadow database")
        else
          user ← on_ksys (on_handle h (method (fun c => GetUserByName c username)));
          mret (ShadowPasswd user)
      else
        let wrap := if bool_decide (key = "last_online_auth")
                    then Wrapped "failed to parse last_online_auth as the value isn't valid: %w" else id in
        value ← map_err wrap (query_attr h username key);
        if bool_decide (key = "last_online_auth") then
          match value with
          | VInt i => mret (FormatRFC3339 i)
          | _ => fail (Opaque "failed to parse last_online_auth as the value isn't valid: %w")
          end
        else mret (Sprint value)
  | _ => mret (Sprint VNull)
  end.

Definition runUser (args : list string) (h : nat) (procFs username : string) (allUsers moveHome : bool)
    : M cli unit :=
  match args with
  | [key; value] => updateUserAttribute h procFs username key value moveHome
  | _ => value ← read_value args h username allUsers; Println (TrimSpace value)
  end.

(** PreRunE: whether the flags are accepted; a flag that is given is changed,
    even to its default. *)
Definition PreRunE (changed_move_home : bool) (args : list string) : option gerror :=
  if changed_move_home && ((Z.of_nat (length args) <? 2) || bool_decide ("home" ∉ args))
  then Some (Opaque "move-home can only be used when modifying home attribute") else None.

(** getCache, with the cache that the options may override. *)
Definition getCache (override_cache : option nat) : M cli nat :=
  match override_cache with Some h => mret h | None => on_ksys (New []) end.

Definition user_command (override_cache : option nat) (args : list string) (procFs username : string)
    (allUsers changed_move_home moveHome : bool) : M cli unit :=
  match PreRunE changed_move_home args with
  | Some e => fail e
  | None => h ← getCache override_cache; runUser args h procFs username allUsers moveHome
  end.

(** The completion of user names: any failure is no completion. *)
Definition completeWithAvailableUsers (override_cache : option nat) : M cli (list string) :=
  r ← attempt (getCache override_cache);
  match r with
  | inr _ => mret []
  | inl h =>
      defer (fun k => Cli (Close h (k_sys k)).2 (k_fs k) (k_out k))
        (u ← attempt (on_ksys (on_handle h (method (fun _ => GetAllUserNames))));
         mret (match u with inl users => users | inr _ => [] end))
  end.

(** The arguments that can be completed: keys first, then the value. *)
Definition ValidArgs (args : list string) : list string :=
  match args with [] => PasswdQueryAttributes | _ => [] end.
End CliUser.

(** main.go: the exit code of the command. *)
Definition exit_code (err : option gerror) (usage_error : bool) : Z :=
  match err with None => 0 | Some _ => if usage_error then 2 else 1 end.
