(* ===== verification/CliUserFacts.v ===== *)
(** * The user command of aad-cli: what it changes

    The reads leave the tables and the homes alone; a change of the home that
    moves the directory happens for idle users only; what is updated, what is
    moved, and what a failed move leaves behind. *)

From S2P Require Import Prelude GoStrings Interfaces Tables CacheDB CacheFacts CacheTheorems HomeDir UidGen.
From S2P Require Import CacheAuth CacheIter CacheOpen CacheLife Clients Config User CliUser.
Open Scope string_scope.
Open Scope list_scope.
Open Scope Z_scope.

(** ** What the command leaves alone *)

(** The homes and every table are the same, and so is the handle. *)
Record untouched (h : nat) (k k' : cli) : Prop := {
  ut_fs : k_fs k' = k_fs k;
  ut_handle : s_handles (k_sys k') !! h = s_handles (k_sys k) !! h;
  ut_tables d : tables_at d (k_sys k') = tables_at d (k_sys k);
}.

#[export] Instance untouched_preorder h : PreOrder (untouched h).
Proof.
  split; [by split|]. intros k1 k2 k3 [] []. split; [congruence..|]. intros d. congruence.
Qed.

Lemma on_ksys_run {A} (m : M sys A) k : on_ksys m k = ((m (k_sys k)).1, Cli (m (k_sys k)).2 (k_fs k) (k_out k)).
Proof. unfold on_ksys, zoom. by destruct (m (k_sys k)). Qed.

Lemma readonly_untouched {A} h (op : Cache -> M world A) : (forall c, readonly (op c)) ->
  frames (untouched h) (on_ksys (on_handle h (method op))).
Proof.
  intros Hro k. rewrite on_ksys_run. simpl.
  destruct (handle_cases h (k_sys k)) as [[c Hh]|Hn]; [|by rewrite (proj2 (on_handle_closed h _ _ Hn))].
  destruct (op c (world_of (o_cacheDir (sig c)) (k_sys k))) as [r w] eqn:E.
  pose proof (Hro c (world_of (o_cacheDir (sig c)) (k_sys k))) as (Ed & _). rewrite E in Ed.
  rewrite (on_handle_method h op c _ _ _ Hh E). simpl in *.
  split; simpl; [done|by rewrite lookup_insert_eq|]. intros d.
  change (tables_at d (put_world (o_cacheDir (sig c)) w (k_sys k)) = tables_at d (k_sys k)).
  rewrite tables_at_put_world. case_bool_decide; [by subst|done].
Qed.

Section Facts.
Context `{Decorator} `{RowOrder}.

Lemma QueryPasswdAttribute_ro u key : readonly (QueryPasswdAttribute u key).
Proof.
  unfold QueryPasswdAttribute, on_error, errorf. apply ro_map_err. case_bool_decide; [apply ro_fail|].
  apply ro_bind; [apply user_must_exist_ro|]. auto with ro.
Qed.

Lemma QueryPasswdAttribute_Ok u key w v w' : QueryPasswdAttribute u key w = (Ok v, w') ->
  exists p, p ∈ t_passwd (w_db w) /\ p_login p = u /\ get_attr key p = Some v.
Proof.
  unfold QueryPasswdAttribute, on_error. rewrite map_err_Ok. case_bool_decide; [done|].
  intros ([] & w1 & Hu & Hq)%bind_Ok. pose proof (user_must_exist_ro u w) as Hro. rewrite Hu in Hro.
  destruct Hro as (Ed & _). simpl in Ed. unfold errorf in Hq. rewrite map_err_Ok in Hq.
  apply query_row_Ok in Hq. rewrite Ed in Hq. unfold select_attr in Hq.
  rewrite elem_of_row_order, list_elem_of_omap in Hq.
  destruct Hq as (p & [Hl Hp]%list_elem_of_filter & Hg). by exists p.
Qed.

Lemma query_attr_untouched h u key : frames (untouched h) (query_attr h u key).
Proof. apply readonly_untouched. intros _. apply QueryPasswdAttribute_ro. Qed.

Lemma query_attr_Ok h u key k v k' : query_attr h u key k = (Ok v, k') ->
  exists c p, s_handles (k_sys k) !! h = Some (Handle c true)
    /\ p ∈ t_passwd (tables_at (o_cacheDir (sig c)) (k_sys k)) /\ p_login p = u /\ get_attr key p = Some v.
Proof.
  unfold query_attr. rewrite on_ksys_run. intros [= Eo _].
  destruct (handle_cases h (k_sys k)) as [[c Hh]|Hn]; [|by eapply (proj1 (on_handle_closed h _ _ Hn)) in Eo].
  destruct (QueryPasswdAttribute u key (world_of (o_cacheDir (sig c)) (k_sys k))) as [r w] eqn:Er.
  rewrite (on_handle_method h _ c _ _ _ Hh Er) in Eo. simpl in Eo. subst r.
  apply QueryPasswdAttribute_Ok in Er as (p & Hp & ?). by exists c, p.
Qed.

(** The update of an attribute, through a handle. *)
Definition update_op (h : nat) (u key value : string) : M cli unit :=
  on_ksys (on_handle h (method (fun _ => UpdateUserAttribute u key (VText value)))).

(** The row of [u] in the tables of the handle has a new value, and nothing
    else is different. *)
Definition attr_updated (h : nat) (u key value : string) (k k' : cli) : Prop :=
  exists c, s_handles (k_sys k) !! h = Some (Handle c true)
    /\ s_handles (k_sys k') !! h = Some (Handle c true)
    /\ key ∈ PasswdUpdateAttributes
    /\ update_attr key (VText value) u (tables_at (o_cacheDir (sig c)) (k_sys k))
       = Ok (tt, tables_at (o_cacheDir (sig c)) (k_sys k'))
    /\ forall d, d <> o_cacheDir (sig c) -> tables_at d (k_sys k') = tables_at d (k_sys k).

Lemma update_op_inv h u key value k r k' : update_op h u key value k = (r, k') ->
  (r = Ok tt /\ k_fs k' = k_fs k /\ attr_updated h u key value k k') \/ (r <> Ok tt /\ untouched h k k').
Proof.
  unfold update_op. rewrite on_ksys_run. intros [= <- <-].
  destruct (handle_cases h (k_sys k)) as [[c Hh]|Hn].
  2:{ right. destruct (on_handle_closed h (method (fun _ => UpdateUserAttribute u key (VText value))) _ Hn) as [Hr Es].
      split; [apply Hr|]. rewrite Es. by split. }
  destruct (UpdateUserAttribute u key (VText value) (world_of (o_cacheDir (sig c)) (k_sys k))) as [r w] eqn:E.
  rewrite (on_handle_method h _ c _ _ _ Hh E). simpl.
  set (s' := set_handles _ _).
  assert (forall d, tables_at d s' = if bool_decide (d = o_cacheDir (sig c)) then w_db w else tables_at d (k_sys k)) as Ht
    by (intros d; apply (tables_at_put_world d)).
  assert (s_handles s' !! h = Some (Handle c true)) as Hh' by apply lookup_insert_eq.
  clearbody s'. apply UpdateUserAttribute_inv in E as [(-> & Ha & _ & Eu)|[Hr Ed]].
  - left. split_and!; [done..|]. exists c. simpl. split_and!; [done..| |].
    + rewrite Ht, bool_decide_eq_true_2 by done. exact Eu.
    + intros d Hd. by rewrite Ht, bool_decide_eq_false_2.
  - right. split; [done|]. split; simpl; [done|congruence|]. intros d. rewrite Ht. case_bool_decide; [by subst|done].
Qed.
End Facts.

(** ** Moving *)

(** mv SOURCE DEST, when it says that it succeeded, has moved an existing
    source to a destination that was free. *)
Class MvLaw (mv : string -> string -> home_fs -> result unit * home_fs) := {
  mv_moved p v n f f' : f !! v = None -> f !! p = Some n -> mv p v f = (Ok tt, f') -> f' = moved p v n f;
}.

Lemma syscall_untouched h : frames (untouched h) (on_ksys syscall).
Proof.
  intros k. rewrite on_ksys_run. pose proof (syscall_files (k_sys k)) as [L E].
  split; simpl; [done| |].
  - destruct L as (_ & E2 & _). by rewrite E2.
  - intros d. unfold tables_at. f_equal. by apply dir_of_same, syscall_files.
Qed.

Section Move.
Context `{Decorator} `{RowOrder}.
Variable mv : string -> string -> home_fs -> result unit * home_fs.
Variable h : nat.

(** A successful move: the destination was free, the source was a directory
    and is now at the destination. *)
Definition home_moved (p v : string) (k k' : cli) : Prop :=
  exists i, k_fs k !! v = None /\ k_fs k !! p = Some (NDir i) /\ k_fs k' = moved p v (NDir i) (k_fs k).

Definition same_tables (k k' : cli) : Prop :=
  s_handles (k_sys k') !! h = s_handles (k_sys k) !! h
  /\ forall d, tables_at d (k_sys k') = tables_at d (k_sys k).

#[local] Instance same_tables_preorder : PreOrder same_tables.
Proof. split; [by split|]. intros k1 k2 k3 [] []. split; [congruence|]. intros d. congruence. Qed.

Lemma untouched_same_tables k k' : untouched h k k' -> same_tables k k'.
Proof. intros []. by split. Qed.

Lemma moveUserHome_tables u p v : frames same_tables (moveUserHome mv u p v).
Proof.
  unfold moveUserHome, on_error. apply frames_map_err, frames_bind; [apply _|auto with frames|]. intros k0.
  case_bool_decide; [auto with frames|].
  apply frames_bind; [apply _|intros k; apply untouched_same_tables, syscall_untouched|intros _].
  destruct (k_fs k0 !! p) as [[]|]; [|auto with frames..].
  apply frames_bind; [apply _| |].
  - apply frames_attempt. unfold Rename. apply frames_bind; [apply _| |].
    + intros k. apply untouched_same_tables, syscall_untouched.
    + intros _ k. unfold step. by destruct (k_fs k !! p).
  - intros [a|e]; [auto with frames|]. intros k. unfold step. by destruct (mv p v (k_fs k)).
Qed.

Lemma Rename_inv p v k : let k' := (Rename p v k).2 in
  ((Rename p v k).1 = Ok tt /\ exists n, k_fs k !! p = Some n /\ k_fs k' = moved p v n (k_fs k))
  \/ ((Rename p v k).1 <> Ok tt /\ k_fs k' = k_fs k).
Proof.
  unfold Rename, mbind, M_bind, step. pose proof (ut_fs _ _ _ (syscall_untouched 0 k)) as Ef.
  destruct (on_ksys syscall k) as [[[]|e|why] k1]; simpl in *; [|by right..].
  destruct (k_fs k1 !! p) as [n|] eqn:En; simpl; [left|by right].
  split; [done|]. exists n. by rewrite <- Ef.
Qed.

Lemma moveUserHome_Ok `{!MvLaw mv} u p v k k' : moveUserHome mv u p v k = (Ok tt, k') -> home_moved p v k k'.
Proof.
  unfold moveUserHome, on_error. rewrite map_err_Ok. intros (k0 & k1 & [= <- <-] & E)%bind_Ok. revert E.
  case_bool_decide as Hv; [done|]. apply eq_None_not_Some in Hv.
  intros ([] & k2 & Es & E)%bind_Ok. assert (k_fs k2 = k_fs k) as Ef0.
  { pose proof (ut_fs _ _ _ (syscall_untouched 0 k)) as Ef. by rewrite Es in Ef. }
  revert E. destruct (k_fs k !! p) as [[i|]|] eqn:Hp; [|done..]. intros (r & k1 & Hr & E)%bind_Ok.
  exists i. split_and!; [done..|]. rewrite <- Ef0 in Hp, Hv |- *. pose proof (Rename_inv p v k2) as Hi.
  apply attempt_Ok in Hr as [([] & Hr & ->)|(e & Hr & ->)]; rewrite Hr in Hi; simpl in Hi.
  - injection E as <-. destruct Hi as [(_ & n & En & ->)|[? _]]; [by simplify_eq|done].
  - destruct Hi as [[? _]|[_ Ef]]; [done|]. unfold step in E. rewrite Ef in E.
    destruct (mv p v (k_fs k2)) as [r f'] eqn:Em. injection E as -> <-. by eapply mv_moved.
Qed.

(** A destination that is taken is an error, and nothing moves. *)
Lemma moveUserHome_taken u p v k : is_Some (k_fs k !! v) ->
  exists e, moveUserHome mv u p v k = (Err e, k).
Proof.
  intros Hv. unfold moveUserHome, on_error, map_err, mbind, M_bind, get.
  rewrite bool_decide_eq_true_2 by done. by eexists.
Qed.
(** What a failed move has done to the homes. *)
Lemma moveUserHome_Err_fs u p v k : (moveUserHome mv u p v k).1 <> Ok tt ->
  k_fs (moveUserHome mv u p v k).2 = k_fs k \/ k_fs (moveUserHome mv u p v k).2 = (mv p v (k_fs k)).2.
Proof.
  unfold moveUserHome, on_error, map_err, mbind, M_bind, get.
  case_bool_decide; [by left|]. pose proof (ut_fs _ _ _ (syscall_untouched 0 k)) as Ef0.
  destruct (on_ksys syscall k) as [[[]|e|why] k2]; simpl in Ef0 |- *; [|by left..]. rewrite <- Ef0.
  destruct (k_fs k2 !! p) as [[i|]|]; [|by left..].
  unfold attempt, step. pose proof (Rename_inv p v k2) as Hi.
  destruct (Rename p v k2) as [[[]|e|why] k1]; simpl in *.
  { by intros []. }
  2:{ destruct Hi as [[? _]|[_ Ef]]; [done|]. intros _. by left. }
  destruct Hi as [[? _]|[_ Ef]]; [done|]. rewrite Ef. intros _. right. by destruct (mv p v (k_fs k2)) as [[] ?].
Qed.
End Move.

(** ** Reading *)

Section Reading.
Context `{Decorator} `{RowOrder} `{IniLib}.
Variable ReflectUser : UserRecord -> result ini_file.
Variable FormatRFC3339 : Z -> string.

Lemma scan_names_ro rows : readonly (scan_names rows).
Proof.
  induction rows as [|n rows IH]; cbn [scan_names].
  - intros w. pose proof (ro_driver w) as Hd. by destruct (driver w) as [[]].
  - apply ro_bind; [auto with ro|]. intros [a|e]; [apply ro_bind; [done|]; auto with ro|auto with ro].
Qed.

Lemma GetAllUserNames_ro : readonly GetAllUserNames.
Proof. unfold GetAllUserNames, errorf. apply ro_bind; [auto with ro|]. apply scan_names_ro. Qed.

(** Nothing changes, and nothing is printed. *)
Definition quiet (h : nat) (k k' : cli) : Prop := untouched h k k' /\ k_out k' = k_out k.

#[local] Instance quiet_preorder h : PreOrder (quiet h).
Proof. split; [by split|]. intros k1 k2 k3 [] []. split; [by etrans|congruence]. Qed.

Lemma method_quiet {A} h (op : Cache -> M world A) : (forall c, readonly (op c)) ->
  frames (quiet h) (on_ksys (on_handle h (method op))).
Proof.
  intros Hro k. split; [by apply readonly_untouched|]. by rewrite on_ksys_run.
Qed.

Lemma read_value_untouched args h u all : frames (quiet h) (read_value ReflectUser FormatRFC3339 args h u all).
Proof.
  assert (forall key, frames (quiet h) (query_attr h u key)) as Hq
    by (intros key; apply method_quiet; intros _; apply QueryPasswdAttribute_ro).
  destruct args as [|key [|? ?]]; cbn [read_value]; [| |auto with frames].
  - destruct all; (apply frames_bind; [apply _|apply method_quiet|auto with frames]).
    + intros _. apply GetAllUserNames_ro.
    + intros c. apply GetUserByName_ro.
  - case_bool_decide.
    + apply frames_bind; [apply _|auto with frames|]. intros k.
      apply frames_if; [auto with frames|]. apply frames_bind; [apply _|apply method_quiet|auto with frames].
      intros c. apply GetUserByName_ro.
    + apply frames_bind; [apply _|auto with frames|]. intros v. apply frames_if; [destruct v; auto with frames|].
      auto with frames.
Qed.

Lemma read_shadow_Ok h u all k value k' :
  read_value ReflectUser FormatRFC3339 ["shadow_password"] h u all k = (Ok value, k') ->
  exists c, s_handles (k_sys k) !! h = Some (Handle c true) /\ ShadowReadable c = true.
Proof.
  cbn [read_value]. rewrite bool_decide_eq_true_2 by done. intros (k0 & k1 & [= <- <-] & E)%bind_Ok.
  destruct (handle_cases h (k_sys k)) as [[c Hh]|Hn].
  - exists c. split; [done|]. rewrite Hh in E. by destruct (ShadowReadable c).
  - exfalso. destruct (match s_handles _ !! h with Some _ => _ | None => _ end) in E; [done|].
    apply bind_Ok in E as (user & k2 & Eg & _). rewrite on_ksys_run in Eg. injection Eg as Eg _.
    by eapply (proj1 (on_handle_closed h _ _ Hn)) in Eg.
Qed.
End Reading.

(** ** The command *)

Section Command.
Context `{Decorator} `{RowOrder} `{IniLib}.
Variable Stat : string -> result (Z * Z).
Variable Glob : string -> result (list string).
Variable Open : string -> result opened_file.
Variable mv : string -> string -> home_fs -> result unit * home_fs.
Variable ReflectUser : UserRecord -> result ini_file.
Variable FormatRFC3339 : Z -> string.

Abbreviation IsBusy := (IsBusy Stat Glob Open).
Abbreviation updateUserAttribute := (updateUserAttribute Stat Glob Open mv).
Abbreviation runUser := (runUser Stat Glob Open mv ReflectUser FormatRFC3339).

(** The columns of a row of the user in the tables of the handle. *)
Definition user_row (h : nat) (u : string) (p : passwd_row) (k : cli) : Prop :=
  exists c, s_handles (k_sys k) !! h = Some (Handle c true)
    /\ p ∈ t_passwd (tables_at (o_cacheDir (sig c)) (k_sys k)) /\ p_login p = u.

Lemma user_row_untouched h u p k k' : untouched h k k' -> user_row h u p k' -> user_row h u p k.
Proof. intros [_ Eh Et] (c & Hh & Hp & Hl). exists c. by rewrite <- Eh, <- Et. Qed.

Lemma attr_updated_untouched h u key v k k1 k' : untouched h k k1 ->
  attr_updated h u key v k1 k' -> attr_updated h u key v k k'.
Proof.
  intros [_ Eh Et] (c & Hh & Hh' & Ha & Hu & Ho). exists c. rewrite <- Eh, <- Et. split_and!; [done..|].
  intros d Hd. by rewrite Ho, Et.
Qed.

Lemma attr_updated_tables h u key v k k1 k' : attr_updated h u key v k k1 -> same_tables h k1 k' ->
  attr_updated h u key v k k'.
Proof.
  intros (c & Hh & Hh' & Ha & Hu & Ho) [Eh Et]. exists c. rewrite Eh, Et. split_and!; [done..|].
  intros d Hd. by rewrite Et, Ho.
Qed.

Lemma check_not_busy_untouched h procFs u : frames (untouched h) (check_not_busy Stat Glob Open h procFs u).
Proof.
  unfold check_not_busy. apply frames_bind; [apply _|apply query_attr_untouched|]. intros []; auto with frames.
Qed.

Lemma get_attr_uid p : get_attr "uid" p = Some (VInt (p_uid p)).
Proof. unfold get_attr. by repeat (case_bool_decide; [done|]). Qed.

Lemma check_not_busy_Ok h procFs u k k' : check_not_busy Stat Glob Open h procFs u k = (Ok tt, k') ->
  exists p, user_row h u p k /\ IsBusy procFs (p_uid p) = Ok tt.
Proof.
  unfold check_not_busy. intros (uid & k1 & Hq & E)%bind_Ok. apply query_attr_Ok in Hq as (c & p & Hh & Hp & Hl & Hg).
  rewrite get_attr_uid in Hg. injection Hg as <-. unfold lift in E. injection E as E _.
  exists p. split; [by exists c|done].
Qed.

(** How far the update of an attribute got: the state in which the move of
    the home, if any, starts. *)
Definition reached_update (h : nat) (procFs u key v : string) (mh : bool) (k k2 : cli) (prev : sqlval) : Prop :=
  attr_updated h u key v k k2 /\ k_fs k2 = k_fs k /\ prev <> VText v
  /\ (exists p, user_row h u p k /\ get_attr key p = Some prev)
  /\ (mh = true -> exists p, user_row h u p k /\ IsBusy procFs (p_uid p) = Ok tt).

Lemma updateUserAttribute_inv h procFs u key v mh k r k' :
  updateUserAttribute h procFs u key v mh k = (r, k') ->
  (untouched h k k' /\ (r = Ok tt -> exists p, user_row h u p k /\ get_attr key p = Some (VText v))) \/
  exists k2 prev, reached_update h procFs u key v mh k k2 prev /\
    let after := if bool_decide (key = "home") && mh then moveUserHome mv u (Sprint prev) v else mret tt in
    (r = Ok tt <-> (after k2).1 = Ok tt) /\ k' = (after k2).2.
Proof.
  unfold CliUser.updateUserAttribute, on_error, map_err.
  destruct ((prev ← query_attr h u key; _) k) as [r0 k0] eqn:E. intros Er.
  assert (k' = k0) as -> by (destruct r0; by simplify_eq).
  assert (r = Ok tt <-> r0 = Ok tt) as Hrr by (destruct r0; by simplify_eq). clear Er. revert E.
  unfold mbind at 1, M_bind at 1. pose proof (query_attr_untouched h u key k) as U1.
  destruct (query_attr h u key k) as [[prev|e|why] k1] eqn:Eq; simpl in U1; [|by intros [= <- <-]; left; (split; [|by intros ?%Hrr])..].
  apply query_attr_Ok in Eq as (c & p & Hh & Hp & Hl & Hg).
  assert (exists p, user_row h u p k /\ get_attr key p = Some prev) as Hprev
    by (exists p; split; [by exists c|done]).
  case_bool_decide as Hn; [intros [= <- <-]; left; split; [done|]; intros _; by subst|].
  unfold mbind at 1, M_bind at 1. 
  destruct ((if mh then check_not_busy Stat Glob Open h procFs u else mret tt) k1) as [[[]|e|why] k2] eqn:Eb.
  2,3: intros [= <- <-]; left; (split; [|by intros ?%Hrr]); etrans; [exact U1|];
    (destruct mh; [|by simplify_eq]); pose proof (check_not_busy_untouched h procFs u k1) as U2; by rewrite Eb in U2.
  assert (untouched h k k2 /\ (mh = true -> exists p, user_row h u p k /\ IsBusy procFs (p_uid p) = Ok tt)) as [U2 Hb].
  { destruct mh; [|by injection Eb as <-].
    split; [etrans; [exact U1|]; pose proof (check_not_busy_untouched h procFs u k1) as U2; by rewrite Eb in U2|].
    intros _. apply check_not_busy_Ok in Eb as (p2 & Hp2 & Hi). exists p2. split; [|done]. by eapply user_row_untouched. }
  unfold mbind, M_bind. fold (update_op h u key v). destruct (update_op h u key v k2) as [r3 k3] eqn:Eu.
  apply update_op_inv in Eu as [(-> & Ef & Hu)|[Hr U3]].
  - intros E. right. exists k3, prev. split; [|by rewrite E, Hrr].
    split_and!; [by eapply attr_updated_untouched|by rewrite Ef, (ut_fs _ _ _ U2)|done..].
  - intros E. left. destruct r3 as [[]|e|why]; [done|injection E as <- <-..]; (split; [by etrans|by intros ?%Hrr]).
Qed.

(** With --move-home the command does nothing at all to a user that runs
    a process: the record and the homes change only if the scan of /proc
    found that the uid of the user is not in use. *)
Theorem move_home_spares_busy_users h procFs u key v k r k' :
  updateUserAttribute h procFs u key v true k = (r, k') ->
  untouched h k k' \/ exists p, user_row h u p k /\ IsBusy procFs (p_uid p) = Ok tt.
Proof.
  intros [[? _]|(k2 & prev & (_ & _ & _ & _ & Hb) & _)]%updateUserAttribute_inv; [by left|].
  right. by apply Hb.
Qed.

(** C37: when a change of the home with --move-home returns no error, either
    the record already had that home and nothing was done, or the record of
    the user, and only it, has the new home, and the directory that was at
    the old home is now at the new one, which was free. *)
Theorem home_recorded_and_moved `{!MvLaw mv} h procFs u v k k' :
  updateUserAttribute h procFs u "home" v true k = (Ok tt, k') ->
  (untouched h k k' /\ exists p, user_row h u p k /\ get_attr "home" p = Some (VText v)) \/
  (attr_updated h u "home" v k k' /\
   exists p prev, user_row h u p k /\ get_attr "home" p = Some prev /\ prev <> VText v
     /\ home_moved (Sprint prev) v k k').
Proof.
  intros [[? Hs]|(k2 & prev & (Hu & Ef & Hn & (p & Hp & Hg) & _) & Hr & ->)]%updateUserAttribute_inv;
    [left; auto|right].
  apply proj1 in Hr. specialize (Hr eq_refl). simpl in Hr |- *.
  pose proof (moveUserHome_tables mv h u (Sprint prev) v k2) as Ht.
  destruct (moveUserHome mv u (Sprint prev) v k2) as [r' k'] eqn:Em. simpl in *. subst r'.
  split; [by eapply attr_updated_tables|]. exists p, prev. split_and!; [done..|].
  apply (moveUserHome_Ok mv) in Em.
  destruct Em as (i & ?). exists i. by rewrite <- Ef.
Qed.

(** C38: a command that fails has changed nothing, with one exception: when
    it is the move of the home that fails, the record of the user already
    has the new home and keeps it, while the homes are as they were, but
    for what a failing mv left. *)
Theorem failed_update h procFs u key v mh k r k' :
  updateUserAttribute h procFs u key v mh k = (r, k') -> r <> Ok tt ->
  untouched h k k' \/
  (key = "home" /\ mh = true /\ attr_updated h u key v k k' /\
   (k_fs k' = k_fs k \/ exists prev, k_fs k' = (mv prev v (k_fs k)).2)).
Proof.
  intros [[? _]|(k2 & prev & (Hu & Ef & _) & Hr & ->)]%updateUserAttribute_inv Hn; [by left|right].
  rewrite Hr in Hn. clear Hr. simpl in *.
  destruct (bool_decide (key = "home")) eqn:Ek; simpl in *; [|done]. destruct mh; [|done].
  apply bool_decide_eq_true_1 in Ek. split_and!; [done..| |].
  - eapply attr_updated_tables; [done|]. apply moveUserHome_tables.
  - rewrite <- Ef. destruct (moveUserHome_Err_fs mv u (Sprint prev) v k2) as [E|E];
      [exact Hn|by left|right; by exists (Sprint prev)].
Qed.

(** Without a value to set the command is a read: the tables and the
    homes stay as they are, one line is printed when it succeeds and none
    when it fails, and the hash of a password is printed only from a cache
    whose shadow database is readable. *)
Theorem runUser_reads args h procFs u all mh k r k' :
  runUser args h procFs u all mh k = (r, k') -> length args <> 2%nat ->
  untouched h k k' /\
  (r = Ok tt -> exists line, k_out k' = k_out k ++ [line]) /\ (r <> Ok tt -> k_out k' = k_out k) /\
  (args = ["shadow_password"] -> r = Ok tt ->
     exists c, s_handles (k_sys k) !! h = Some (Handle c true) /\ ShadowReadable c = true).
Proof.
  intros E Hl. assert (runUser args h procFs u all mh =
    (value ← read_value ReflectUser FormatRFC3339 args h u all; Println (TrimSpace value))) as Er.
  { destruct args as [|a [|b [|c args]]]; done. }
  rewrite Er in E. clear Er Hl. unfold mbind, M_bind in E.
  pose proof (read_value_untouched ReflectUser FormatRFC3339 args h u all k) as [Hu Ho].
  destruct (read_value _ _ args h u all k) as [[value|e|why] k1] eqn:Ev; simpl in Hu, Ho.
  - unfold Println in E. injection E as <- <-. simpl. rewrite Ho.
    split_and!; [by destruct Hu|by eexists|done|]. intros -> _. by eapply read_shadow_Ok.
  - injection E as <- <-. done.
  - injection E as <- <-. done.
Qed.
End Command.

(** ** Concrete runs *)

Import Concrete.

(** A machine with two users, a cache opened by root, the home of alice and
    another directory. *)
Definition cli_sys (faults : list (option string)) : sys :=
  Sys {["/var/lib/aad/cache" := Dir (Some (FileMeta perm_0644 0 0)) (Some (FileMeta perm_0640 0 42)) two_db]}
    faults (2000 * Second) 0 ∅ {[0%nat := Handle cache_rw true]} [].

Definition homes : home_fs := {["/home/alice" := NDir 1; "/srv/taken" := NDir 2]}.

Definition k0 : cli := Cli (cli_sys []) homes [].

(** rename(2) without directories in the way. *)
Definition toy_mv (p v : string) (f : home_fs) : result unit * home_fs :=
  match f !! p with Some n => (Ok tt, moved p v n f) | None => (Err (Opaque "exit status 1"), f) end.

#[export] Instance toy_mv_law : MvLaw toy_mv.
Proof. split. intros p v n f f' _ Hp. unfold toy_mv. rewrite Hp. by intros [= <-]. Qed.

#[local] Existing Instance ConcreteIni.lib.

Definition set_home (value : string) : M cli unit :=
  updateUserAttribute proc_stat proc_glob proc_open toy_mv 0 "/proc" "alice@d" "home" value true.

Example set_home_runs : (set_home "/home/a" k0).1 = Ok tt.
Proof. vm_compute. reflexivity. Qed.
Example set_home_moves : k_fs (set_home "/home/a" k0).2 !! "/home/a" = Some (NDir 1).
Proof. vm_compute. reflexivity. Qed.
(* the rename fails, as it does across devices: mv does it *)
Example set_home_across_devices :
  let k := set_home "/home/a" (Cli (cli_sys (replicate 13 None ++ [Some "EXDEV"])) homes []) in
  k.1 = Ok tt /\ k_fs k.2 !! "/home/a" = Some (NDir 1).
Proof. vm_compute. done. Qed.

(** A /proc in which alice runs a process. *)
Definition alice_runs (path : string) : result opened_file :=
  Ok (whole (lines_of ["Uid:	200000	200000	200000	200000"])).
Example set_home_busy :
  let k := updateUserAttribute proc_stat proc_glob alice_runs toy_mv 0 "/proc" "alice@d" "home" "/home/a" true k0 in
  is_ok k.1 = false /\ k_fs k.2 = homes.
Proof. vm_compute. done. Qed.

Definition k_moved : cli := (set_home "/home/a" k0).2.
Definition k_taken : cli := (set_home "/srv/taken" k0).2.

Lemma set_home_eq : set_home "/home/a" k0 = (Ok tt, k_moved).
Proof.
  pose proof set_home_runs as E. unfold k_moved. destruct (set_home "/home/a" k0) as [r k]. simpl in *. by subst.
Qed.

Lemma k_moved_touched : ~ untouched 0 k0 k_moved.
Proof.
  intros [E _ _]. apply (f_equal (fun f : home_fs => f !! "/home/a")) in E. revert E.
  unfold k_moved. rewrite set_home_moves. vm_compute. discriminate.
Qed.

Lemma move_home_spares_busy_users_witness : exists p,
  user_row 0 "alice@d" p k0 /\ IsBusy proc_stat proc_glob proc_open "/proc" (p_uid p) = Ok tt.
Proof.
  destruct (move_home_spares_busy_users proc_stat proc_glob proc_open toy_mv 0 "/proc" "alice@d" "home" "/home/a"
    k0 _ _ set_home_eq) as [Hu|Hp]; [destruct (k_moved_touched Hu)|exact Hp].
Defined.

Lemma home_recorded_and_moved_witness :
  attr_updated 0 "alice@d" "home" "/home/a" k0 k_moved /\ exists prev, home_moved (Sprint prev) "/home/a" k0 k_moved.
Proof.
  destruct (home_recorded_and_moved proc_stat proc_glob proc_open toy_mv 0 "/proc" "alice@d" "/home/a" k0 k_moved
    set_home_eq) as [[Hu _]|(Ha & p & prev & _ & _ & _ & Hm)]; [destruct (k_moved_touched Hu)|].
  split; [exact Ha|by exists prev].
Defined.

(** The new home is taken: an error, the directory stays, the record changes. *)
Lemma set_home_taken : (set_home "/srv/taken" k0).1 <> Ok tt /\ k_fs k_taken = homes /\
  (query_attr 0 "alice@d" "home" k_taken).1 = Ok (VText "/srv/taken") /\
  (query_attr 0 "alice@d" "home" k0).1 = Ok (VText "/home/alice").
Proof.
  split; [|vm_compute; done].
  assert (is_ok (set_home "/srv/taken" k0).1 = false) as E by (vm_compute; reflexivity).
  by destruct ((set_home "/srv/taken" k0).1).
Qed.

Lemma k_taken_touched : ~ untouched 0 k0 k_taken.
Proof.
  intros [_ _ E]. specialize (E "/var/lib/aad/cache").
  apply (f_equal (fun d => omap (get_attr "home") (t_passwd d))) in E. revert E. vm_compute. discriminate.
Qed.

Lemma failed_update_witness : attr_updated 0 "alice@d" "home" "/srv/taken" k0 k_taken /\ k_fs k_taken = k_fs k0.
Proof.
  destruct (set_home "/srv/taken" k0) as [r k'] eqn:E.
  assert (k' = k_taken) as -> by (unfold k_taken; by rewrite E).
  assert (r <> Ok tt) as Hr by (pose proof (proj1 set_home_taken) as Hr; by rewrite E in Hr).
  destruct (failed_update proc_stat proc_glob proc_open toy_mv 0 "/proc" "alice@d" "home" "/srv/taken" true k0 r k_taken
    E Hr) as [Hu|(_ & _ & Ha & _)]; [destruct (k_taken_touched Hu)|].
  split; [exact Ha|exact (proj1 (proj2 set_home_taken))].
Defined.

Definition toy_reflect (u : UserRecord) : result ini_file := Ok [].

Definition show (args : list string) : result unit * cli :=
  runUser proc_stat proc_glob proc_open toy_mv toy_reflect (fun z => pretty z) args 0 "/proc" "alice@d" false false k0.

Example show_shell : k_out (show ["shell"]).2 = ["/bin/sh"].
Proof. vm_compute. reflexivity. Qed.
Example show_uid : k_out (show ["uid"]).2 = ["200000"].
Proof. vm_compute. reflexivity. Qed.
Example show_hash : k_out (show ["shadow_password"]).2 = ["h1"].
Proof. vm_compute. reflexivity. Qed.
Example show_last_login : k_out (show ["last_online_auth"]).2 = ["1000"].
Proof. vm_compute. reflexivity. Qed.

Lemma runUser_reads_witness :
  untouched 0 k0 (show ["shadow_password"]).2 /\ exists c, s_handles (k_sys k0) !! 0%nat = Some (Handle c true) /\ ShadowReadable c = true.
Proof.
  assert ((show ["shadow_password"]).1 = Ok tt) as Hr by (vm_compute; reflexivity).
  destruct (show ["shadow_password"]) as [r k'] eqn:E. simpl in Hr. subst r.
  destruct (runUser_reads proc_stat proc_glob proc_open toy_mv toy_reflect (fun z => pretty z) ["shadow_password"]
    0 "/proc" "alice@d" false false k0 (Ok tt) k' E ltac:(simpl; discriminate)) as (Hu & _ & _ & Hs).
  split; [exact Hu|exact (Hs eq_refl eq_refl)].
Defined.
