(* ===== verification/CliConfig.v ===== *)
(** * cmd/aad-cli/cli: the config and version commands, and main

    editConfig works on a temporary file next to the configuration and renames
    it over the configuration once it is valid. The files of the system are a
    finite map from paths to contents; the editor and dpkg-query are
    parameters. *)

From S2P Require Import Prelude GoStrings Interfaces CacheDB Config.
Open Scope string_scope.
Open Scope list_scope.
Open Scope Z_scope.

(** conf/aad.conf.template, which conf.go embeds *)
Definition AADConfTemplate : string :=
"### required values
## See https://docs.microsoft.com/en-us/azure/active-directory/develop/howto-create-service-principal-portal
## for more information on how to set up an Azure AD app.
# tenant_id = xxxxxxxx-xxxx-xxxx-xxxx-xxxxxxxxxxxx
# app_id = yyyyyyyy-yyyy-yyyy-yyyy-yyyyyyyyyyyy

### optional values (defaults)
# offline_credentials_expiration = 90 ; duration in days a user can log in without online verification
                                      ; set to 0 to prevent old users from being cleaned and allow offline authentication for an undetermined amount of time
                                      ; set to a negative value to prevent offline authentication
# homedir = /home/%f ; home directory pattern for the user, the following mapping applies:
#                    ; %f - full username
#                    ; %U - UID
#                    ; %l - first char of username
#                    ; %u - username without domain
#                    ; %d - domain
# shell = /bin/bash ; default shell for the user

### overriding values for a specific domain, every value inside a section is optional
# [domain.com]
# tenant_id = aaaaaaaa-aaaa-aaaa-aaaa-aaaaaaaaaaaa
# app_id = bbbbbbbb-bbbb-bbbb-bbbb-bbbbbbbbbbbb
# offline_credentials_expiration = 30
# homedir = /home/domain.com/%u
# shell = /bin/zsh
".

(** The files, the outcomes of the next system calls, and what is printed. *)
Record conf_env := ConfEnv { e_files : gmap string string; e_faults : list (option string); e_out : list string }.

Definition set_files (f : gmap string string) (s : conf_env) : conf_env := ConfEnv f (e_faults s) (e_out s).

Definition os_call : M conf_env unit := fun s =>
  match e_faults s with
  | [] => (Ok tt, s)
  | None :: fs => (Ok tt, ConfEnv (e_files s) fs (e_out s))
  | Some msg :: fs => (Err (Opaque msg), ConfEnv (e_files s) fs (e_out s))
  end.

Definition put_line (line : string) : M conf_env unit := fun s =>
  (Ok tt, ConfEnv (e_files s) (e_faults s) (e_out s ++ [line])).

(** os.ReadFile, as the ini package does it *)
Definition file_content (s : conf_env) (path : string) : result string :=
  match e_files s !! path with Some content => Ok content | None => Err (Sentinel OsErrNotExist) end.

(** os.Create truncates a file that exists. *)
Definition os_Create (path : string) : M conf_env unit :=
  os_call ;; step (fun s => (Ok tt, set_files (<[path := ""]> (e_files s)) s)).

Definition os_Open (path : string) : M conf_env unit :=
  os_call ;; step (fun s => (file_content s path ≫= fun _ => Ok tt, s)).

Definition os_Write (path content : string) : M conf_env unit :=
  os_call ;; step (fun s => (Ok tt, set_files (<[path := content]> (e_files s)) s)).

Definition os_Rename (old new : string) : M conf_env unit :=
  os_call ;;
  step (fun s => match e_files s !! old with
                 | Some content => (Ok tt, set_files (<[new := content]> (delete old (e_files s))) s)
                 | None => (Err (Sentinel OsErrNotExist), s)
                 end).

(** ReadFrom: the whole of a file into another one. *)
Definition copy_file (src dst : string) : M conf_env unit :=
  s ← get; content ← lift (file_content s src); os_Write dst content.

Definition tempName (configFile : string) : string := Join_path [Dir_path configFile; "aad.conf.tmp"].

Definition tempFileWithPreviousConfig (configFile : string) : M conf_env string :=
  let tempfile := tempName configFile in
  errorf "failed to create temporary config file: %w" (os_Create tempfile) ;;
  r ← attempt (os_Open configFile);
  match r with
  | inr e =>
      if errors_is e OsErrNotExist then
        attempt (os_Write tempfile AADConfTemplate) ;; mret tempfile
      else fail (Wrapped "could not open previous config file for writing: %w" e)
  | inl _ => errorf "could not read from config file: %w" (copy_file configFile tempfile) ;; mret tempfile
  end.

Definition DefaultEditor : string := "sensible-editor".
Definition DefaultConfigPath : string := "/etc/aad.conf".

(** getDefaultEditor, with the value of EDITOR. *)
Definition getDefaultEditor (EDITOR : string) : string := if bool_decide (EDITOR = "") then DefaultEditor else EDITOR.

(** getDefaultDomain, with the name of the current user. *)
Definition getDefaultDomain (current : result string) : string :=
  match current with Ok name => (Cut "@" name).1.2 | _ => "" end.

Section CliConfig.
Context `{Decorator} `{IniLib}.
(* exec.Command(editor, file).Run() *)
Variable run_editor : string -> string -> M conf_env unit.
(* exec.Command(dpkg-query, "-W", "--showformat", "${Version}", package).Output() *)
Variable dpkg_query : string -> string -> result string.

Definition editConfig (configFile editor : string) : M conf_env unit :=
  tempfile ← tempFileWithPreviousConfig configFile;
  errorf "failed to edit config: %w" (run_editor editor tempfile) ;;
  s ← get;
  errorf "invalid config: %w The temporary file was saved at: %s" (lift (Validate (file_content s) tempfile)) ;;
  errorf "failed to write config file: %w" (os_Rename tempfile configFile) ;;
  put_line ("The configuration at " +:+ configFile +:+ " has been successfully updated.").

Definition printConfig (path domain : string) : M conf_env unit :=
  s ← get;
  config ← lift (Load (file_content s) path domain []);
  let domainSection := if bool_decide (domain = "") then "default" else domain in
  cfg ← lift (ToIni config);
  buf ← errorf "could not write config to buffer: %w" (lift (ini_write cfg));
  put_line ("[" +:+ domainSection +:+ "]") ;;
  put_line buf.

(** The command: MarkFlagsMutuallyExclusive keeps --edit and --domain apart. *)
Definition config_command (edit : bool) (configFile editor domain : string) : M conf_env unit :=
  if edit then editConfig configFile editor else printConfig configFile domain.

Definition tab : string := str1 (ascii_of_nat 9).

Definition library_line (dpkgQueryCmd pkg : string) : string :=
  pkg +:+ tab +:+ match dpkg_query dpkgQueryCmd pkg with Ok c => c | _ => "not installed" end.

Definition printLibraryVersions (dpkgQueryCmd : string) : list string :=
  library_line dpkgQueryCmd <$> ["libpam-aad"; "libnss-aad"].

Definition printVersion (Version dpkgQueryCmd : string) : list string :=
  ("aad-cli" +:+ tab +:+ tab +:+ Version) :: printLibraryVersions dpkgQueryCmd.
End CliConfig.

(** The options of the application, and New. *)
Record app_options := AppOptions {
  ao_editor : string;
  ao_configFile : string;
  ao_dpkgQueryCmd : string;
  ao_procFs : string;
  ao_currentUser : string;
  ao_cache : option nat;
}.

(** getDefaultUser *)
Definition getDefaultUser (current : result string) : string := match current with Ok name => name | _ => "" end.

Definition App_New (EDITOR : string) (current : result string) (opts : list (app_options -> app_options)) : app_options :=
  fold_left (fun o opt => opt o) opts
    (AppOptions (getDefaultEditor EDITOR) DefaultConfigPath "dpkg-query" "/proc" (getDefaultUser current) None).

(** ** The validity of a file depends on its content and on adduser.conf *)

Section Ext.
Context `{Decorator} `{IniLib}.
Variables (R1 R2 : string -> result string) (p1 p2 : string).
Hypothesis same_content : R1 p1 = R2 p2.
Hypothesis same_adduser : R1 adduserConfPath = R2 adduserConfPath.

Lemma Load_ini_ext : Load_ini R1 p1 = Load_ini R2 p2.
Proof. unfold Load_ini. by rewrite same_content. Qed.

Lemma Load_ext d : Load R1 p1 d [] = Load R2 p2 d [].
Proof.
  unfold Load. rewrite Load_ini_ext. cbn [fold_left addUserConfPath].
  assert (base_config R1 adduserConfPath = base_config R2 adduserConfPath) as ->; [|done].
  unfold base_config, loadDefaultHomeAndShell, Load_ini. by rewrite same_adduser.
Qed.

Lemma Validate_ext : Validate R1 p1 = Validate R2 p2.
Proof.
  unfold Validate. rewrite Load_ini_ext. destruct (Load_ini R2 p2) as [f|e|why]; [|done..]. simpl.
  unfold mbind, result_bind. generalize (ini_sections f) at 2 4 as ds. intros ds.
  induction ds as [|d ds IH]; [done|]. cbn [validate_sections]. rewrite IH, Load_ext. done.
Qed.
End Ext.

(** ** What the operations do to the files *)

(** A path that keeps its content. *)
Definition keeps (p : string) (s s' : conf_env) : Prop := e_files s' !! p = e_files s !! p.

#[export] Instance keeps_preorder p : PreOrder (keeps p).
Proof. split; [done|]. intros s1 s2 s3 E1 E2. unfold keeps in *. congruence. Qed.
#[export] Hint Resolve keeps_preorder : frames.

Lemma os_call_files s : e_files (os_call s).2 = e_files s.
Proof. unfold os_call. by destruct (e_faults s) as [|[msg|] fs]. Qed.

Lemma after_call {A} (f : conf_env -> result A * conf_env) p :
  (forall s, keeps p s (f s).2) -> frames (keeps p) (os_call ;; step f).
Proof.
  intros Hf. apply frames_bind; [apply _| |done]. intros s. unfold keeps. by rewrite os_call_files.
Qed.

Lemma os_Create_keeps p q : p <> q -> frames (keeps p) (os_Create q).
Proof. intros Hn. apply after_call. intros s. unfold keeps. simpl. by rewrite lookup_insert_ne. Qed.

Lemma os_Write_keeps p q content : p <> q -> frames (keeps p) (os_Write q content).
Proof. intros Hn. apply after_call. intros s. unfold keeps. simpl. by rewrite lookup_insert_ne. Qed.

Lemma os_Open_keeps p q : frames (keeps p) (os_Open q).
Proof. apply after_call. intros s. done. Qed.

Lemma os_Rename_inv old new s : let s' := (os_Rename old new s).2 in
  ((os_Rename old new s).1 = Ok tt /\ exists content, e_files s !! old = Some content
     /\ e_files s' = <[new := content]> (delete old (e_files s)))
  \/ ((os_Rename old new s).1 <> Ok tt /\ e_files s' = e_files s).
Proof.
  unfold os_Rename, mbind, M_bind, step. pose proof (os_call_files s) as Ef.
  destruct (os_call s) as [[[]|e|why] s1]; simpl in *; [|by right..].
  destruct (e_files s1 !! old) as [content|] eqn:Eo; simpl; [left|by right].
  split; [done|]. exists content. by rewrite <- Ef.
Qed.

Lemma tempFile_keeps configFile p : p <> tempName configFile ->
  frames (keeps p) (tempFileWithPreviousConfig configFile).
Proof.
  intros Hn. unfold tempFileWithPreviousConfig, errorf.
  apply frames_bind; [apply _|by apply frames_map_err, os_Create_keeps|]. intros _.
  apply frames_bind; [apply _|apply frames_attempt, os_Open_keeps|]. intros [[]|e].
  - apply frames_bind; [apply _| |auto with frames]. apply frames_map_err. unfold copy_file.
    apply frames_bind; [apply _|auto with frames|]. intros s.
    apply frames_bind; [apply _|auto with frames|]. intros content. by apply os_Write_keeps.
  - apply frames_if; [|auto with frames].
    apply frames_bind; [apply _|by apply frames_attempt, os_Write_keeps|auto with frames].
Qed.

Lemma tempFile_name configFile s t s' : tempFileWithPreviousConfig configFile s = (Ok t, s') -> t = tempName configFile.
Proof.
  unfold tempFileWithPreviousConfig. intros ([] & s1 & _ & E)%bind_Ok. apply bind_Ok in E as (r & s2 & _ & E).
  destruct r as [u|e].
  - apply bind_Ok in E as ([] & s3 & _ & [= <- _]). done.
  - destruct (errors_is _ _); [|done]. by apply bind_Ok in E as (? & s3 & _ & [= <- _]).
Qed.

Section Edit.
Context `{Decorator} `{IniLib}.
Variable run_editor : string -> string -> M conf_env unit.
Variables configFile editor : string.
(* the editor changes no other file than the one it is given, or at least
   not the configuration *)
Hypothesis editor_keeps : forall e t, t <> configFile -> frames (keeps configFile) (run_editor e t).
Hypothesis not_temp : configFile <> tempName configFile.

(** C29: the edition of the configuration is all or nothing: when it fails, at
    any step, the configuration has the content it had; when it succeeds,
    the configuration is what the editor left, the temporary file is gone,
    and the installed configuration is valid. *)
Theorem editConfig_installs s r s' :
  configFile <> adduserConfPath -> tempName configFile <> adduserConfPath ->
  editConfig run_editor configFile editor s = (r, s') ->
  (r <> Ok tt /\ e_files s' !! configFile = e_files s !! configFile) \/
  (r = Ok tt /\ e_files s' !! tempName configFile = None
   /\ Validate (file_content s') configFile = Ok tt
   /\ exists content s1, e_files s1 !! tempName configFile = Some content
      /\ s1 = (run_editor editor (tempName configFile) (tempFileWithPreviousConfig configFile s).2).2
      /\ e_files s' !! configFile = Some content).
Proof.
  intros Hc Ht. unfold editConfig, mbind at 1, M_bind at 1.
  pose proof (tempFile_keeps configFile configFile not_temp s) as K1.
  destruct (tempFileWithPreviousConfig configFile s) as [[t|e|why] s1] eqn:Et; [|by intros [= <- <-]; left..].
  apply tempFile_name in Et as ->. simpl in K1.
  unfold mbind at 1, M_bind at 1, errorf at 1, map_err at 1.
  pose proof (editor_keeps editor _ (not_eq_sym not_temp) s1) as K2.
  destruct (run_editor editor (tempName configFile) s1) as [[[]|e|why] s2] eqn:Ee; simpl in K2;
    [|by intros [= <- <-]; left; split; [|etrans]..].
  assert (keeps configFile s s2) as K by by etrans.
  unfold mbind at 1, M_bind at 1, get. unfold mbind at 1, M_bind at 1, errorf at 1, map_err at 1, lift.
  destruct (Validate (file_content s2) (tempName configFile)) as [[]|e|why] eqn:Ev; [|by intros [= <- <-]; left..].
  unfold mbind, M_bind, errorf, map_err. pose proof (os_Rename_inv (tempName configFile) configFile s2) as Hr.
  destruct (os_Rename (tempName configFile) configFile s2) as [[[]|e|why] s3]; simpl in Hr;
    [|by destruct Hr as [[? _]|[_ Ef]]; [|intros [= <- <-]; left; rewrite Ef]..].
  destruct Hr as [(_ & content & Hcont & Ef)|[? _]]; [|done]. unfold put_line. intros [= <- <-]. right. simpl.
  split_and!; [done|by rewrite Ef, lookup_insert_ne, lookup_delete_eq| |].
  - rewrite <- Ev. apply Validate_ext; unfold file_content; simpl; rewrite Ef.
    + by rewrite lookup_insert_eq, Hcont.
    + by rewrite lookup_insert_ne, lookup_delete_ne.
  - exists content, s2. split_and!; [done|by rewrite Ee|]. by rewrite Ef, lookup_insert_eq.
Qed.
End Edit.

(** What the editor opens: the content of the configuration when there is
    one, and the template otherwise; the configuration itself is not
    changed. *)
Theorem tempFile_content configFile s : e_faults s = [] -> configFile <> tempName configFile ->
  exists s', tempFileWithPreviousConfig configFile s = (Ok (tempName configFile), s')
    /\ e_files s' = <[tempName configFile := default AADConfTemplate (e_files s !! configFile)]> (e_files s).
Proof.
  destruct s as [f fs out]. simpl. intros -> Hn. set (t := tempName configFile) in *.
  exists (ConfEnv (<[t := default AADConfTemplate (f !! configFile)]> f) [] out). split; [|done].
  unfold tempFileWithPreviousConfig, errorf, map_err, os_Create, os_Open, os_Write, copy_file,
    attempt, mbind, M_bind, get, step, lift, os_call, file_content, set_files. fold t.
  cbn -[AADConfTemplate]. rewrite lookup_insert_ne by done.
  destruct (f !! configFile) as [content|] eqn:Ec; cbn -[AADConfTemplate].
  - rewrite lookup_insert_ne by done. rewrite Ec. unfold os_Write, mbind, M_bind, os_call, step, set_files.
    cbn -[AADConfTemplate]. by rewrite insert_insert_eq.
  - rewrite bool_decide_eq_true_2 by done. unfold os_Write, mbind, M_bind, os_call, step, set_files.
    cbn -[AADConfTemplate]. by rewrite insert_insert_eq.
Qed.

(** ** Concrete runs *)

Import Concrete ConcreteIni.

(** An editor that appends a line to the file it is given. *)
Definition appending (line : string) (editor file : string) : M conf_env unit := fun s =>
  (Ok tt, set_files (<[file := default "" (e_files s !! file) +:+ str1 newline +:+ line]> (e_files s)) s).

Lemma appending_keeps line p e t : t <> p -> frames (keeps p) (appending line e t).
Proof. intros Hn s. unfold keeps. simpl. by rewrite lookup_insert_ne. Qed.

Definition etc_files : gmap string string :=
  {["/etc/aad.conf" := lines ["tenant_id = T"; "app_id = A"]; adduserConfPath := "DSHELL=/bin/zsh"]}.

Definition edit (line : string) (faults : list (option string)) : result unit * conf_env :=
  editConfig (appending line) "/etc/aad.conf" "vi" (ConfEnv etc_files faults []).

Example edit_ok : (edit "shell = /bin/sh" []).1 = Ok tt.
Proof. vm_compute. reflexivity. Qed.
(* an expiration that is not a number is refused, and kept aside *)
Example edit_invalid : is_ok (edit "offline_credentials_expiration = never" []).1 = false
  /\ is_Some (e_files (edit "offline_credentials_expiration = never" []).2 !! "/etc/aad.conf.tmp").
Proof. vm_compute. split; [done|by eexists]. Qed.
(* the template on its own is not a valid configuration *)
Example template_invalid :
  is_ok (editConfig (appending "") "/etc/aad.conf" "vi" (ConfEnv ∅ [] [])).1 = false.
Proof. vm_compute. reflexivity. Qed.
Example template_completed :
  (editConfig (fun e t => appending "tenant_id = T" e t ;; appending "app_id = A" e t) "/etc/aad.conf" "vi"
     (ConfEnv ∅ [] [])).1 = Ok tt.
Proof. vm_compute. reflexivity. Qed.

Example printed : e_out (printConfig "/etc/aad.conf" "" (ConfEnv etc_files [] [])).2 =
  ["[default]"; lines ["tenant_id = T"; "app_id = A"; "offline_credentials_expiration = "; "homedir = /home/%f";
                       "shell = /bin/zsh"; ""]].
Proof. vm_compute. reflexivity. Qed.

Example versions : printVersion (fun _ pkg => if bool_decide (pkg = "libpam-aad") then Ok "1.0" else Err (Opaque "")) "0.5" "dpkg-query"
  = ["aad-cli" +:+ tab +:+ tab +:+ "0.5"; "libpam-aad" +:+ tab +:+ "1.0"; "libnss-aad" +:+ tab +:+ "not installed"].
Proof. reflexivity. Qed.

Lemma editConfig_installs_witness : exists s',
  edit "shell = /bin/sh" [] = (Ok tt, s') /\ Validate (file_content s') "/etc/aad.conf" = Ok tt
  /\ e_files s' !! "/etc/aad.conf.tmp" = None.
Proof.
  pose proof edit_ok as Hr. destruct (edit "shell = /bin/sh" []) as [r s'] eqn:E. simpl in Hr. subst r.
  exists s'. split; [reflexivity|].
  destruct (editConfig_installs (appending "shell = /bin/sh") "/etc/aad.conf" "vi"
    (appending_keeps "shell = /bin/sh" "/etc/aad.conf") ltac:(vm_compute; discriminate) (ConfEnv etc_files [] []) _ s'
    ltac:(vm_compute; discriminate) ltac:(vm_compute; discriminate) E) as [[Hn _]|(_ & Ht & Hv & _)];
    [by destruct Hn|].
  split; [exact Hv|exact Ht].
Defined.

Lemma tempFile_content_witness : exists s',
  tempFileWithPreviousConfig "/etc/aad.conf" (ConfEnv ∅ [] []) = (Ok "/etc/aad.conf.tmp", s')
  /\ e_files s' !! "/etc/aad.conf.tmp" = Some AADConfTemplate.
Proof.
  destruct (tempFile_content "/etc/aad.conf" (ConfEnv ∅ [] []) eq_refl ltac:(vm_compute; discriminate))
    as (s' & E & Ef).
  exists s'. split; [exact E|]. rewrite Ef. apply lookup_insert_eq.
Defined.
