(* ===== verification/Decimal.v ===== *)
(** * Decimal numbers

    The decimal text of an integer, as strconv.Itoa and the %d of fmt write it,
    is read back by Atoi, and has digits only. *)

From S2P Require Import Prelude GoStrings.
Open Scope string_scope.
Open Scope Z_scope.

Lemma byteZ_pretty_N_char d : (d < 10)%N -> byteZ (pretty_N_char d) = 48 + Z.of_N d.
Proof.
  intros Hd. assert (d ∈ (N.of_nat <$> seq 0 10)) as Hin.
  { apply list_elem_of_fmap. exists (N.to_nat d). rewrite N2Nat.id. split; [done|]. apply elem_of_seq. lia. }
  simpl in Hin. repeat (apply elem_of_cons in Hin as [->|Hin]; [done|]). by apply elem_of_nil in Hin.
Qed.

(** The recursion of [pretty]. *)
Lemma pretty_N_go_ind (P : N -> string -> Prop) :
  (forall s, P 0%N s) ->
  (forall x s, (0 < x)%N -> P (x `div` 10)%N (String (pretty_N_char (x `mod` 10)) s) -> P x s) ->
  forall x s, P x s.
Proof.
  intros P0 Ps x. induction (N.lt_wf_0 x) as [x _ IH]. intros s.
  destruct (decide (x = 0)%N) as [->|Hx]; [done|]. apply Ps; [lia|]. apply IH. apply N.div_lt; lia.
Qed.

Lemma digits_value_go x s : digits_value 0 (pretty_N_go x s) = digits_value (Z.of_N x) s.
Proof.
  revert x s. apply (pretty_N_go_ind (fun x s => digits_value 0 (pretty_N_go x s) = digits_value (Z.of_N x) s)); [done|].
  intros x s Hx IH. rewrite pretty_N_go_step, IH by done. cbn [digits_value].
  assert (x `mod` 10 < 10)%N as Hm by (apply N.mod_lt; lia). rewrite byteZ_pretty_N_char by done.
  pose proof (N.div_mod x 10 ltac:(done)) as Hd. set (q := (x `div` 10)%N) in *. set (r := (x `mod` 10)%N) in *.
  assert (in_rng 48 57 (48 + Z.of_N r) = true) as -> by (apply andb_true_iff; split; apply Z.leb_le; lia).
  f_equal. lia.
Qed.

Lemma digits_value_pretty (n : N) : digits_value 0 (pretty n) = Some (Z.of_N n).
Proof. unfold pretty, pretty_N. destruct (decide (n = 0)%N) as [->|_]; [done|]. by rewrite digits_value_go. Qed.

(** The bytes of a decimal text. *)
Definition decimal_byte (b : Z) : Prop := 48 <= b <= 57.

Lemma pretty_N_bytes (n : N) : Forall decimal_byte (bytes (pretty n)).
Proof.
  unfold pretty, pretty_N. destruct (decide (n = 0)%N) as [->|_]; [by repeat constructor|].
  assert (Forall decimal_byte (bytes EmptyString)) as Hs by constructor. revert Hs.
  apply (pretty_N_go_ind (fun x s => Forall decimal_byte (bytes s) -> Forall decimal_byte (bytes (pretty_N_go x s)))); [done|].
  intros x s Hx IH Hs. rewrite pretty_N_go_step by done. apply IH. constructor; [|done].
  assert (x `mod` 10 < 10)%N by (apply N.mod_lt; lia). unfold decimal_byte. rewrite byteZ_pretty_N_char by done.
  set (r := (x `mod` 10)%N) in *. lia.
Qed.

Lemma pretty_N_nonempty (n : N) : pretty n <> EmptyString.
Proof. intros E. pose proof (digits_value_pretty n) as Hd. rewrite E in Hd. simpl in Hd. injection Hd as Hn.
  assert (n = 0%N) as -> by lia. done. Qed.

Lemma pretty_Z_cases (z : Z) : (0 <= z /\ pretty z = pretty (Z.to_N z)) \/ (z < 0 /\ pretty z = "-" +:+ pretty (Z.to_N (- z))).
Proof. destruct z as [|p|p]; [left|left|right]; (split; [lia|done]). Qed.

Lemma no_byte_bytes c s : Forall (fun b => b <> byteZ c) (bytes s) -> no_byte c s.
Proof.
  induction s as [|a s IH]; [intros _; apply not_elem_of_nil|]. intros [Ha Hs]%Forall_cons.
  apply no_byte_cons. split; [by intros ->|by apply IH].
Qed.

Lemma pretty_Z_no_byte c (z : Z) : ~ decimal_byte (byteZ c) -> c <> "-"%char -> no_byte c (pretty z).
Proof.
  intros Hc Hm. assert (forall n : N, no_byte c (pretty n)) as Hn.
  { intros n. apply no_byte_bytes. eapply Forall_impl; [apply pretty_N_bytes|]. by intros b Hb ->. }
  destruct (pretty_Z_cases z) as [[_ ->]|[_ ->]]; [done|]. rewrite append_cons, append_nil_l.
  apply no_byte_cons. split; [done|apply Hn].
Qed.

Lemma pretty_N_first (n : N) : exists a s, pretty n = String a s /\ decimal_byte (byteZ a).
Proof.
  pose proof (pretty_N_bytes n) as Hb. pose proof (pretty_N_nonempty n) as Hn.
  destruct (pretty n) as [|a s]; [done|]. apply Forall_cons in Hb as [Ha _]. by exists a, s.
Qed.

Lemma Atoi_pretty (z : Z) : - 2 ^ 63 <= z < 2 ^ 63 -> Atoi (pretty z) = Ok z.
Proof.
  intros Hz. assert ((- 2 ^ 63 <=? z) && (z <? 2 ^ 63) = true) as Hr.
  { apply andb_true_iff. split; [apply Z.leb_le|apply Z.ltb_lt]; lia. }
  destruct (pretty_Z_cases z) as [[Hs ->]|[Hs ->]].
  - destruct (pretty_N_first (Z.to_N z)) as (a & s & E & Ha). pose proof (digits_value_pretty (Z.to_N z)) as Hd.
    rewrite E in Hd |- *. unfold Atoi.
    unfold decimal_byte in Ha.
    rewrite bool_decide_eq_false_2 by (intros ->; change (byteZ "-") with 45 in Ha; lia).
    rewrite bool_decide_eq_false_2 by (intros ->; change (byteZ "+") with 43 in Ha; lia).
    rewrite Hd, Z2N.id by done. by rewrite Hr.
  - destruct (pretty_N_first (Z.to_N (- z))) as (a & s & E & Ha). pose proof (digits_value_pretty (Z.to_N (- z))) as Hd.
    rewrite E in Hd |- *. rewrite append_cons, append_nil_l. unfold Atoi. rewrite bool_decide_eq_true_2 by done.
    rewrite Hd, Z2N.id, Z.opp_involutive by lia. by rewrite Hr.
Qed.
