(* ===== verification/EntryText.v ===== *)
(** * internal/nss: the text of an entry

    String of the packages passwd, group and shadow writes an entry as a line
    of the files of /etc, and a reader of those files finds the entry back. *)

From S2P Require Import Prelude GoStrings Interfaces Decimal NssBuffers Nss.
Open Scope string_scope.
Open Scope list_scope.
Open Scope Z_scope.

(** ** The reader of a line *)

Definition number (s : string) : option Z := match Atoi s with Ok z => Some z | _ => None end.

Definition read_passwd (line : string) : option Passwd :=
  match Split ":" line with
  | [n; p; u; g; gecos; dir; shell] =>
      uid ← number u; gid ← number g; Some (MkPasswd n p uid gid gecos dir shell)
  | _ => None
  end.

Definition read_group (line : string) : option Group :=
  match Split ":" line with
  | n :: p :: g :: members => gid ← number g; Some (MkGroup n p gid members)
  | _ => None
  end.

Definition read_shadow (line : string) : option Shadow :=
  match Split ":" line with
  | [n; p; l; mi; ma; w; i; e; _] =>
      lstchg ← number l; min ← number mi; max ← number ma; warn ← number w; inact ← number i; expire ← number e;
      Some (MkShadow n p lstchg min max warn inact expire)
  | _ => None
  end.

Lemma number_pretty (z : Z) : - 2 ^ 63 <= z < 2 ^ 63 -> number (pretty z) = Some z.
Proof. intros Hz. unfold number. by rewrite Atoi_pretty. Qed.

Lemma colon_free (z : Z) : no_byte ":" (pretty z).
Proof. apply pretty_Z_no_byte; [|done]. unfold decimal_byte. vm_compute. tauto. Qed.

#[local] Hint Resolve colon_free : core.

(** The line that String writes of an entry reads back as the entry, when no
    text of it has a colon: the two numbers of a user or the number of a group
    below 2^63, the members one by one, and the six ints of a shadow entry. *)
Theorem String_roundtrip :
  (forall p, Forall (no_byte ":") [pw_name p; pw_passwd p; pw_gecos p; pw_dir p; pw_shell p] ->
     0 <= pw_uid p < 2 ^ 63 -> 0 <= pw_gid p < 2 ^ 63 -> read_passwd (passwd_String p) = Some p) /\
  (forall g, Forall (no_byte ":") (gr_name g :: gr_passwd g :: gr_members g) -> 0 <= gr_gid g < 2 ^ 63 ->
     read_group (group_String g) = Some g) /\
  (forall s, Forall (no_byte ":") [sp_name s; sp_passwd s] -> shadow_ints s ->
     read_shadow (shadow_String s) = Some s).
Proof.
  split; [|split].
  - intros [n p u g ge d s] Hf Hu Hg. simpl in *. decompose_Forall.
    unfold read_passwd, passwd_String. simpl pw_name. change ":" with (str1 ":").
    rewrite Split_Join by (done || (repeat constructor; auto)). by rewrite !number_pretty by (simpl; lia).
  - intros [n p g ms] Hf Hg. simpl in *. apply Forall_cons in Hf as [Hn [Hp Hms]%Forall_cons].
    unfold read_group, group_String. change ":" with (str1 ":").
    rewrite Split_Join; [|done|repeat (constructor; auto)]. simpl. by rewrite number_pretty by lia.
  - intros [n p l mi ma w i e] Hf Hi. unfold shadow_ints in Hi. simpl in *. decompose_Forall.
    unfold read_shadow, shadow_String. change ":" with (str1 ":").
    rewrite Split_Join by (done || (repeat constructor; auto)). by rewrite !number_pretty by (simpl; lia).
Qed.

(** ** Concrete entries *)

Lemma String_roundtrip_witness :
  read_passwd (passwd_String alice_entry) = Some alice_entry /\
  read_group (group_String (MkGroup "g" "x" 7 ["a"; "b"])) = Some (MkGroup "g" "x" 7 ["a"; "b"]).
Proof.
  destruct String_roundtrip as (Hp & Hg & _). split.
  - apply Hp; [apply (bool_decide_unpack _); vm_compute; exact Logic.I|simpl; lia|simpl; lia].
  - apply Hg; [apply (bool_decide_unpack _); vm_compute; exact Logic.I|simpl; lia].
Defined.
