(* ===== verification/Format.v ===== *)
(** * fmt.Sprintf, as the loggers call it

    The loggers of the program expand a format string several times, and most
    of these strings are data: the text of an error, the name of a user. This
    file has the whole loop of fmt.(pp).doPrintf, for any format and any
    operands, and Sprintf, with the operands that the program prints: strings,
    integers and errors. An operand is what printArg does with it, since an
    operand may choose its own rendering (fmt.Formatter). *)

From S2P Require Import Prelude GoStrings.
Open Scope string_scope.
Open Scope Z_scope.

(** ** Directives *)

(** The flags, the width and the precision of a directive (type fmt). *)
Record spec := Spec {
  minus : bool; plus : bool; sharp : bool; space : bool; zero : bool;
  plusV : bool; sharpV : bool;
  wid : option Z; prec : option Z;
}.

Definition clearflags : spec := Spec false false false false false false false None None.

Definition set_wid (w : option Z) (f : spec) : spec :=
  Spec (minus f) (plus f) (sharp f) (space f) (zero f) (plusV f) (sharpV f) w (prec f).
Definition set_prec (p : option Z) (f : spec) : spec :=
  Spec (minus f) (plus f) (sharp f) (space f) (zero f) (plusV f) (sharpV f) (wid f) p.
Definition left_justify (f : spec) : spec :=
  Spec true (plus f) (sharp f) (space f) false (plusV f) (sharpV f) (wid f) (prec f).

(** [verb 'v'] turns the flags # and + into %#v and %+v. *)
Definition v_flags (f : spec) : spec :=
  Spec (minus f) false false (space f) (zero f) (plus f) (sharp f) (wid f) (prec f).

(** An operand: the name of its type, its value when it is an integer (for the
    width [*]), and what printArg writes for a directive and a verb. *)
Record operand := Operand {
  op_type : string;
  op_int : option Z;
  printArg : spec -> Z -> string;
}.

(** The flag that a byte stands for. *)
Definition flag (a : ascii) (f : spec) : option spec :=
  if bool_decide (a = "#"%char) then
    Some (Spec (minus f) (plus f) true (space f) (zero f) (plusV f) (sharpV f) (wid f) (prec f))
  else if bool_decide (a = "0"%char) then
    Some (Spec (minus f) (plus f) (sharp f) (space f) (negb (minus f)) (plusV f) (sharpV f) (wid f) (prec f))
  else if bool_decide (a = "+"%char) then
    Some (Spec (minus f) true (sharp f) (space f) (zero f) (plusV f) (sharpV f) (wid f) (prec f))
  else if bool_decide (a = "-"%char) then Some (left_justify f)
  else if bool_decide (a = " "%char) then
    Some (Spec (minus f) (plus f) (sharp f) true (zero f) (plusV f) (sharpV f) (wid f) (prec f))
  else None.

Fixpoint read_flags (f : spec) (s : string) : spec * string :=
  match s with
  | EmptyString => (f, s)
  | String a s' => match flag a f with Some f' => read_flags f' s' | None => (f, s) end
  end.

Definition tooLarge (x : Z) : bool := (1000000 <? x) || (x <? -1000000).

(** parsenum: the number, whether there is one, and the rest. A number that is
    too large skips everything to the end. *)
Fixpoint parsenum_from (num : Z) (isnum : bool) (s : string) : Z * bool * string :=
  match s with
  | EmptyString => (num, isnum, s)
  | String a s' =>
      if in_rng 48 57 (byteZ a) then
        if tooLarge num then (0, false, EmptyString)
        else parsenum_from (num * 10 + (byteZ a - 48)) true s'
      else (num, isnum, s)
  end.

Definition parsenum (s : string) : Z * bool * string := parsenum_from 0 false s.

(** parseArgNumber of what follows the bracket: the index, counted from zero,
    and the rest. *)
Definition parseArgNumber (s : string) : option Z * string :=
  if (String.length s <? 2)%nat then (None, s)
  else
    let '(inner, after, found) := Cut "]" s in
    if found : bool then
      match parsenum inner with
      | (num, true, EmptyString) => (Some (num - 1), after)
      | _ => (None, after)
      end
    else (None, s).

(** Where a directive is: the next operand, whether an index was used
    (reordered) and whether all indices were good (goodArgNum). *)
Record cursor := Cursor { argNum : Z; reordered : bool; goodArgNum : bool }.

Definition bad_arg (c : cursor) : cursor := Cursor (argNum c) (reordered c) false.
Definition next_arg (c : cursor) : cursor := Cursor (argNum c + 1) (reordered c) (goodArgNum c).

(** argNumber: the optional [[n]] of an explicit index; the boolean is
    afterIndex. *)
Definition argNumber (numArgs : Z) (c : cursor) (s : string) : cursor * string * bool :=
  match s with
  | String a s' =>
      if bool_decide (a = "["%char) then
        match parseArgNumber s' with
        | (Some index, after) =>
            if in_rng 0 (numArgs - 1) index then (Cursor index true (goodArgNum c), after, true)
            else (Cursor (argNum c) true false, after, true)
        | (None, after) => (Cursor (argNum c) true false, after, false)
        end
      else (c, s, false)
  | EmptyString => (c, s, false)
  end.

Definition operand_at (a : list operand) (n : Z) : option operand :=
  if n <? 0 then None else a !! Z.to_nat n.

(** intFromArg *)
Definition intFromArg (a : list operand) (c : cursor) : option Z * cursor :=
  match operand_at a (argNum c) with
  | None => (None, c)
  | Some o =>
      (match op_int o with
       | Some n => if tooLarge n then None else Some n
       | None => None
       end, next_arg c)
  end.

Definition starts (a : ascii) (s : string) : bool :=
  match s with String b _ => bool_decide (b = a) | EmptyString => false end.
Definition tail (s : string) : string := match s with String _ s' => s' | EmptyString => EmptyString end.

(** A width: the state of the directive, what was written, and the rest. *)
Definition read_width (a : list operand) (afterIndex : bool) (f : spec) (c : cursor) (s : string)
    : spec * cursor * string * bool * string :=
  if starts "*" s then
    let '(w, c') := intFromArg a c in
    match w with
    | None => (f, c', "%!(BADWIDTH)", false, tail s)
    | Some w => ((if w <? 0 then set_wid (Some (- w)) (left_justify f) else set_wid (Some w) f), c', EmptyString, false, tail s)
    end
  else
    let '(w, present, s') := parsenum s in
    (set_wid (if present : bool then Some w else None) f,
     (if afterIndex && present then bad_arg c else c), EmptyString, afterIndex, s').

(** A precision. *)
Definition read_precision (a : list operand) (afterIndex : bool) (f : spec) (c : cursor) (s : string)
    : spec * cursor * string * bool * string :=
  if starts "." s then
    let c := if afterIndex then bad_arg c else c in
    let '(c, s, afterIndex) := argNumber (Z.of_nat (length a)) c (tail s) in
    if starts "*" s then
      let '(p, c) := intFromArg a c in
      match p with
      | Some p => if p <? 0 then (set_prec None f, c, "%!(BADPREC)", false, tail s)
                  else (set_prec (Some p) f, c, EmptyString, false, tail s)
      | None => (set_prec None f, c, "%!(BADPREC)", false, tail s)
      end
    else
      let '(p, present, s') := parsenum s in
      (set_prec (Some (if present : bool then p else 0)) f, c, EmptyString, afterIndex, s')
  else (f, c, EmptyString, afterIndex, s).

Definition percent : ascii := "%"%char.

(** The first rune of a string and what follows it. *)
Definition first_rune (s : string) : option (Z * string * string) :=
  match decode s with
  | [] => None
  | (r, b) :: rest => Some (r, b, concat_str rest.*2)
  end.

(** The verb of a directive: what is written and the next operand. The verbs v
    and w read their flags in their own way. *)
Definition print_verb (a : list operand) (f : spec) (c : cursor) (verb : Z) : string * cursor :=
  if verb =? 37 then (str1 percent, c)
  else if negb (goodArgNum c) then ("%!" +:+ encode_rune verb +:+ "(BADINDEX)", c)
  else match operand_at a (argNum c) with
       | None => ("%!" +:+ encode_rune verb +:+ "(MISSING)", c)
       | Some o =>
           let f := if (verb =? 118) || (verb =? 119) then v_flags f else f in
           (printArg o f verb, next_arg c)
       end.

(** One directive, from the byte after the percent sign: what it writes, where
    the operands are and the rest of the format. *)
Definition directive (a : list operand) (argNum0 : Z) (reordered0 : bool) (s : string)
    : string * cursor * string :=
  let c := Cursor argNum0 reordered0 true in
  let n := Z.of_nat (length a) in
  let '(f, s) := read_flags clearflags s in
  let '(c, s, afterIndex) := argNumber n c s in
  let '(f, c, out1, afterIndex, s) := read_width a afterIndex f c s in
  let '(f, c, out2, afterIndex, s) := read_precision a afterIndex f c s in
  let '(c, s, _) := if afterIndex then (c, s, true) else argNumber n c s in
  match first_rune s with
  | None => (out1 +:+ out2 +:+ "%!(NOVERB)", c, EmptyString)
  | Some (verb, _, rest) =>
      let '(out3, c) := print_verb a f c verb in (out1 +:+ out2 +:+ out3, c, rest)
  end.

(** The operands that no directive asked for. *)
Definition extra (a : list operand) (c : Z) : string :=
  let one o := op_type o +:+ "=" +:+ printArg o clearflags 118 in
  match drop (Z.to_nat c) a with
  | [] => EmptyString
  | rest => "%!(EXTRA " +:+ Join ", " (one <$> rest) +:+ ")"
  end.

(** The text before the next percent sign, and what follows the sign. *)
Definition until_percent (s : string) : string * option string :=
  let '(before, after, found) := Cut percent s in (before, if found : bool then Some after else None).

(** doPrintf *)
Fixpoint doPrintf (fuel : nat) (a : list operand) (argNum0 : Z) (reordered0 : bool) (s : string) : string :=
  match fuel with
  | O => EmptyString
  | S fuel =>
      match until_percent s with
      | (text, None) => text +:+ (if reordered0 then EmptyString else extra a argNum0)
      | (text, Some s') =>
          let '(out, c, rest) := directive a argNum0 reordered0 s' in
          text +:+ out +:+ doPrintf fuel a (argNum c) (reordered c) rest
      end
  end.

(** [fmt.Sprintf(format, a...)] *)
Definition Sprintf (format : string) (a : list operand) : string :=
  doPrintf (S (String.length format)) a 0 false format.

(** ** Operands *)

Definition spaces (n : Z) (c : ascii) : string := string_of_list_ascii (replicate (Z.to_nat n) c).

(** fmt.padString *)
Definition pad (f : spec) (s : string) : string :=
  match wid f with
  | None => s
  | Some w =>
      let n := w - Z.of_nat (length (runes s)) in
      if minus f then s +:+ spaces n " "
      else spaces n (if zero f then "0"%char else " "%char) +:+ s
  end.

(** fmt.truncateString: the precision counts runes. *)
Definition truncate (f : spec) (s : string) : string :=
  match prec f with
  | None => s
  | Some n => concat_str (take (Z.to_nat n) (decode s)).*2
  end.

Definition fmtS (f : spec) (s : string) : string := pad f (truncate f s).

Definition backslash : ascii := chr 92.
Definition dquote : ascii := chr 34.
Definition backquote : ascii := chr 96.

Definition hex_digit (n : Z) : ascii := if n <? 10 then chr (48 + n) else chr (87 + n).
Fixpoint hex (digits : nat) (n : Z) : string :=
  match digits with
  | O => EmptyString
  | S d => hex d (n / 16) +:+ str1 (hex_digit (n mod 16))
  end.

(** [unicode.IsPrint]: a table beyond ASCII. *)
Class UnicodePrint := unicode_print : Z -> bool.

Definition is_print `{UnicodePrint} (r : Z) : bool :=
  if r <? 0x80 then in_rng 0x20 0x7E r else unicode_print r.

(** The escape of a control character that has a letter. *)
Definition letter_escape (r : Z) : option ascii :=
  if r =? 7 then Some "a"%char else if r =? 8 then Some "b"%char
  else if r =? 12 then Some "f"%char else if r =? 10 then Some "n"%char
  else if r =? 13 then Some "r"%char else if r =? 9 then Some "t"%char
  else if r =? 11 then Some "v"%char else None.

(** strconv.appendEscapedRune, for [Quote] ([ascii = false]) and
    [QuoteToASCII]; a rune comes with the bytes it was read from, and an
    invalid byte is escaped as such. *)
Definition quote_rune `{UnicodePrint} (ascii : bool) (rb : Z * string) : string :=
  let '(r, b) := rb in
  let esc (s : string) := String backslash s in
  if (r =? RuneError) && (String.length b =? 1)%nat then
    match b with
    | String a _ => esc (String "x" (hex 2 (byteZ a)))
    | EmptyString => EmptyString
    end
  else if (r =? 34) || (r =? 92) then esc (encode_rune r)
  else if (r <? 0x80) && is_print r then encode_rune r
  else if negb ascii && is_print r then encode_rune r
  else match letter_escape r with
       | Some l => esc (str1 l)
       | None =>
           if (r <? 0x20) || (r =? 0x7F) then esc (String "x" (hex 2 r))
           else if r <? 0x10000 then esc (String "u" (hex 4 r))
           else esc (String "U" (hex 8 r))
       end.

Definition Quote `{UnicodePrint} (ascii : bool) (s : string) : string :=
  String dquote (concat_str (quote_rune ascii <$> decode s)) +:+ str1 dquote.

(** [strconv.CanBackquote] *)
Definition CanBackquote (s : string) : bool :=
  forallb (fun '(r, b) =>
    if (1 <? String.length b)%nat then negb (r =? 0xFEFF)
    else negb (r =? RuneError) && negb ((r <? 32) && negb (r =? 9)) && negb (r =? 96) && negb (r =? 127))
    (decode s).

(** fmt.fmtQ *)
Definition fmtQ `{UnicodePrint} (f : spec) (s0 : string) : string :=
  let s := truncate f s0 in
  if sharp f && CanBackquote s then pad f (String backquote s +:+ str1 backquote)
  else pad f (Quote (plus f) s).

(** fmt.fmtInteger in base 10 *)
Definition fmtInteger (f : spec) (n : Z) : string :=
  let neg := n <? 0 in
  let digits := pretty (Z.to_N (Z.abs n)) in
  let signed := neg || plus f || space f in
  let least :=
    match prec f with
    | Some p => p
    | None => match wid f with
              | Some w => if zero f then (if signed then w - 1 else w) else 0
              | None => 0
              end
    end in
  if bool_decide (prec f = Some 0) && (n =? 0) then
    match wid f with Some w => spaces w " " | None => EmptyString end
  else
    let body := spaces (least - Z.of_nat (String.length digits)) "0" +:+ digits in
    let sign := if neg then "-" else if plus f then "+" else if space f then " " else EmptyString in
    let no_zero := Spec (minus f) (plus f) (sharp f) (space f) false (plusV f) (sharpV f) (wid f) (prec f) in
    pad no_zero (sign +:+ body).

Section Operands.
Context `{UnicodePrint}.
(** The renderings that no format of the program asks for: the other verbs of
    a string (x, X) and of an integer (b, o, O, x, X, c, q, U), and what the
    reflection of fmt prints of an error for the verbs of other types. *)
Variable other_verb : string + Z -> spec -> Z -> string.
Variable by_reflection : string -> spec -> Z -> string.

(** fmt.badVerb *)
Definition badVerb (type value : string) (verb : Z) : string :=
  "%!" +:+ encode_rune verb +:+ "(" +:+ type +:+ "=" +:+ value +:+ ")".

Definition str (s : string) : operand := Operand "string" None (fun f verb =>
  if verb =? 118 then (if sharpV f then fmtQ f s else fmtS f s)
  else if verb =? 115 then fmtS f s
  else if verb =? 113 then fmtQ f s
  else if (verb =? 120) || (verb =? 88) then other_verb (inl s) f verb
  else if verb =? 84 then fmtS f "string"
  else badVerb "string" (fmtS f s) verb).

Definition int (n : Z) : operand := Operand "int" (Some n) (fun f verb =>
  if (verb =? 118) || (verb =? 100) then fmtInteger f n
  else if bool_decide (verb ∈ [98; 111; 79; 120; 88; 99; 113; 85]) then other_verb (inr n) f verb
  else if verb =? 84 then fmtS f "int"
  else badVerb "int" (fmtInteger f n) verb).

(** An error with its text. [wrapErrs] is true in Errorf only, where %w is
    %v. *)
Definition error (wrapErrs : bool) (type text : string) : operand := Operand type None (fun f verb0 =>
  let verb := if (verb0 =? 119) && wrapErrs then 118 else verb0 in
  if verb =? 84 then fmtS f type
  else if negb (sharpV f) && bool_decide (verb ∈ [118; 115; 120; 88; 113]) then printArg (str text) f verb
  else by_reflection text f verb).
End Operands.

(** ** The loop ends

    A directive consumes at least the percent sign, so that the fuel of
    [Sprintf] is enough: any larger fuel gives the same text. *)

Lemma Cut_length c s before after found :
  Cut c s = (before, after, found) ->
  (String.length after <= String.length s)%nat /\
  (found = true -> (String.length after < String.length s)%nat).
Proof.
  revert before after found. induction s as [|a s IH]; intros before after found; simpl.
  - intros [= <- <- <-]. done.
  - case_bool_decide; [intros [= <- <- <-]; lia|].
    destruct (Cut c s) as [[b' a'] f'] eqn:E. intros [= <- <- <-].
    destruct (IH _ _ _ eq_refl) as [? Hf]. split; [lia|]. intros Ht. specialize (Hf Ht). lia.
Qed.

Lemma read_flags_length f s : (String.length (read_flags f s).2 <= String.length s)%nat.
Proof. revert f. induction s as [|a s IH]; intros f; simpl; [done|]. destruct (flag a f) as [f'|]; [|done]. specialize (IH f'). lia. Qed.

Lemma parsenum_length s : (String.length (parsenum s).2 <= String.length s)%nat.
Proof.
  unfold parsenum. generalize 0 at 1. generalize false. induction s as [|a s IH]; intros b z; simpl; [done|].
  destruct (in_rng _ _ _); [|done]. destruct (tooLarge z); simpl; [lia|]. specialize (IH true (z * 10 + (byteZ a - 48))). lia.
Qed.

Lemma parseArgNumber_length s : (String.length (parseArgNumber s).2 <= String.length s)%nat.
Proof.
  unfold parseArgNumber. case_match; [done|]. destruct (Cut "]" s) as [[inner after] found] eqn:E.
  apply Cut_length in E as [Hl _]. destruct found; [|done].
  destruct (parsenum inner) as [[num []] []]; simpl; lia.
Qed.

Lemma argNumber_length n c s : (String.length (argNumber n c s).1.2 <= String.length s)%nat.
Proof.
  destruct s as [|a s]; simpl; [done|]. case_bool_decide; [|done]. pose proof (parseArgNumber_length s) as Hl.
  destruct (parseArgNumber s) as [[i|] r]; simpl in *; [destruct (in_rng _ _ _)|]; simpl; lia.
Qed.

Lemma tail_length s : (String.length (tail s) <= String.length s)%nat.
Proof. destruct s; simpl; lia. Qed.

Lemma read_width_length a b f c s : (String.length (read_width a b f c s).2 <= String.length s)%nat.
Proof.
  unfold read_width. pose proof (tail_length s) as Ht. pose proof (parsenum_length s) as Hp.
  destruct (starts "*" s); [destruct (intFromArg a c) as [[w|] c']; simpl; lia|].
  by destruct (parsenum s) as [[w p] s'].
Qed.

Lemma read_precision_length a b f c s : (String.length (read_precision a b f c s).2 <= String.length s)%nat.
Proof.
  unfold read_precision. destruct (starts "." s); [|done]. pose proof (tail_length s) as Ht.
  pose proof (argNumber_length (Z.of_nat (length a)) (if b then bad_arg c else c) (tail s)) as Hn.
  destruct (argNumber _ _ _) as [[c' s'] b']. simpl in Hn. pose proof (tail_length s') as Ht'.
  pose proof (parsenum_length s') as Hp. destruct (starts "*" s').
  - destruct (intFromArg a c') as [[p|] c'']; [destruct (p <? 0)|]; simpl; lia.
  - destruct (parsenum s') as [[w p] s'']. simpl in *. lia.
Qed.

Lemma first_rune_length s r b rest : first_rune s = Some (r, b, rest) -> (String.length rest <= String.length s)%nat.
Proof.
  unfold first_rune. destruct (decide (s = EmptyString)) as [->|Hs]; [done|].
  destruct (decode_step s Hs) as (r0 & b0 & t & -> & -> & _). intros [= <- <- <-].
  rewrite decode_bytes, length_append. lia.
Qed.

Lemma directive_length a n ro s : (String.length (directive a n ro s).2 <= String.length s)%nat.
Proof.
  unfold directive. pose proof (read_flags_length clearflags s) as H1.
  destruct (read_flags clearflags s) as [f s1]. simpl in H1.
  pose proof (argNumber_length (Z.of_nat (length a)) (Cursor n ro true) s1) as H2.
  destruct (argNumber _ _ s1) as [[c s2] ai]. simpl in H2.
  pose proof (read_width_length a ai f c s2) as H3. destruct (read_width a ai f c s2) as [[[[f3 c3] o3] ai3] s3]. simpl in H3.
  pose proof (read_precision_length a ai3 f3 c3 s3) as H4.
  destruct (read_precision a ai3 f3 c3 s3) as [[[[f4 c4] o4] ai4] s4]. simpl in H4.
  pose proof (argNumber_length (Z.of_nat (length a)) c4 s4) as H5.
  destruct (if ai4 then (c4, s4, true) else argNumber (Z.of_nat (length a)) c4 s4) as [[c5 s5] ai5] eqn:E5.
  assert (String.length s5 <= String.length s4)%nat by (destruct ai4; [by injection E5 as <- <- <-|rewrite E5 in H5; done]).
  destruct (first_rune s5) as [[[verb b] rest]|] eqn:E6; [|simpl; lia].
  apply first_rune_length in E6. destruct (print_verb a f4 c5 verb) as [o c6]. simpl. lia.
Qed.

Lemma doPrintf_enough n1 n2 a k ro s :
  (String.length s < n1)%nat -> (String.length s < n2)%nat -> doPrintf n1 a k ro s = doPrintf n2 a k ro s.
Proof.
  revert n2 k ro s. induction n1 as [|n1 IH]; intros [|n2] k ro s L1 L2; [lia..|]. simpl.
  unfold until_percent. destruct (Cut percent s) as [[text rest] []] eqn:E; [|done].
  apply Cut_length in E as [_ El]. specialize (El eq_refl).
  pose proof (directive_length a k ro rest) as Hd. destruct (directive a k ro rest) as [[out c] r]. simpl in Hd.
  do 2 f_equal. apply IH; lia.
Qed.

(** ** Formats made of text and simple verbs

    All the formats that the program writes are such: texts without a percent
    sign, each followed by a lower case verb, and a last text. *)

Definition format_of (pieces : list (string * ascii)) (last : string) : string :=
  concat_str ((fun '(text, verb) => text +:+ String percent (str1 verb)) <$> pieces) +:+ last.

Definition is_verb (a : ascii) : bool := in_rng 97 122 (byteZ a).

(** What a directive without flags prints of its operand. *)
Definition render (verb : ascii) (o : operand) : string :=
  printArg o (if bool_decide (verb = "v"%char \/ verb = "w"%char) then v_flags clearflags else clearflags) (byteZ verb).

Lemma is_verb_facts v : is_verb v = true -> flag v clearflags = None /\ v <> "["%char /\ v <> "*"%char /\ v <> "."%char
  /\ in_rng 48 57 (byteZ v) = false /\ (byteZ v =? 37) = false
  /\ ((byteZ v =? 118) || (byteZ v =? 119)) = bool_decide (v = "v"%char \/ v = "w"%char).
Proof. by destruct v as [[] [] [] [] [] [] [] []]; vm_compute. Qed.

Lemma directive_simple a k ro v s :
  is_verb v = true ->
  directive a k ro (String v s) =
    match operand_at a k with
    | Some o => (render v o, Cursor (k + 1) ro true, s)
    | None => ("%!" +:+ encode_rune (byteZ v) +:+ "(MISSING)", Cursor k ro true, s)
    end.
Proof.
  intros Hv. destruct (is_verb_facts v Hv) as (Hf & Hb & Hs & Hd & Hn & Hp & Hw).
  assert (byteZ v < 0x80) as Hlt.
  { unfold is_verb, in_rng in Hv. apply andb_true_iff in Hv as [_ ?%Z.leb_le]. lia. }
  unfold directive. cbn [read_flags]. rewrite Hf. unfold argNumber, read_width, starts.
  rewrite !(bool_decide_eq_false_2 (v = _)) by done. unfold parsenum. cbn [parsenum_from]. rewrite Hn.
  rewrite andb_false_r. unfold read_precision, starts. rewrite !(bool_decide_eq_false_2 (v = _)) by done.
  unfold first_rune. rewrite decode_ascii_cons, decode_bytes by done. unfold print_verb. rewrite Hp. simpl.
  destruct (operand_at a k) as [o|]; [|done]. rewrite Hw. unfold render. by case_bool_decide.
Qed.

Lemma until_percent_text t s : no_byte percent t -> until_percent (t +:+ String percent s) = (t, Some s).
Proof. intros Ht. unfold until_percent. by rewrite Cut_found. Qed.

Lemma until_percent_none t : no_byte percent t -> until_percent t = (t, None).
Proof. intros Ht. unfold until_percent. by rewrite Cut_not_found. Qed.

Lemma doPrintf_pieces pieces last a k n :
  Forall (fun p => no_byte percent p.1 /\ is_verb p.2 = true) pieces -> no_byte percent last ->
  (String.length (format_of pieces last) < n)%nat ->
  length (drop k a) = length pieces ->
  doPrintf n a (Z.of_nat k) false (format_of pieces last) =
    concat_str (zip_with (fun p o => p.1 +:+ render p.2 o) pieces (drop k a)) +:+ last.
Proof.
  intros Hp Hl. revert k n. induction Hp as [|[t v] pieces [Ht Hv] _ IH]; intros k n Hn Hk; csimpl in *.
  - destruct n as [|n]; [lia|]. unfold format_of. csimpl. rewrite append_nil_l, until_percent_none by done.
    unfold extra. rewrite Nat2Z.id. apply nil_length_inv in Hk as ->. by rewrite append_nil_r.
  - destruct (drop k a) as [|o rest] eqn:Ed; [done|]. assert (a !! k = Some o) as Ho.
    { rewrite <- (Nat.add_0_r k), <- lookup_drop, Ed. done. }
    assert (drop (S k) a = rest) as Er by (rewrite <- Nat.add_1_r, <- drop_drop, Ed; done).
    assert (format_of ((t, v) :: pieces) last = t +:+ String percent (String v (format_of pieces last))) as Ef.
    { unfold format_of. csimpl. by rewrite !append_assoc. }
    rewrite Ef in Hn |- *. destruct n as [|n]; [lia|]. cbn [doPrintf].
    rewrite until_percent_text, directive_simple by done. unfold operand_at.
    rewrite (proj2 (Z.ltb_ge _ _)), Nat2Z.id, Ho by lia. cbn [argNum reordered].
    replace (Z.of_nat k + 1) with (Z.of_nat (S k)) by lia. rewrite IH, Er; [| |by rewrite Er; injection Hk].
    + csimpl. by rewrite !append_assoc.
    + rewrite length_append in Hn. simpl in Hn. lia.
Qed.

(** A format of the program prints its texts as they are and each operand in
    its place, the way its verb asks. *)
Theorem Sprintf_format pieces last a :
  Forall (fun p => no_byte percent p.1 /\ is_verb p.2 = true) pieces -> no_byte percent last ->
  length a = length pieces ->
  Sprintf (format_of pieces last) a =
    concat_str (zip_with (fun p o => p.1 +:+ render p.2 o) pieces a) +:+ last.
Proof. intros Hp Hl Ha. apply (doPrintf_pieces pieces last a 0); [done..|lia|by rewrite drop_0]. Qed.

Lemma Sprintf_text t : no_byte percent t -> Sprintf t [] = t.
Proof. intros Ht. unfold Sprintf. cbn [doPrintf]. rewrite until_percent_none by done. apply append_nil_r. Qed.

Module ConcreteFormat.
#[global] Instance latin1_print : UnicodePrint := fun r => in_rng 0xA1 0xFF r && negb (r =? 0xAD).
Definition no_other (a : string + Z) (f : spec) (verb : Z) : string := EmptyString.
Definition no_reflection (text : string) (f : spec) (verb : Z) : string := EmptyString.
Definition s_ : string -> operand := str no_other.
Definition d_ : Z -> operand := int no_other.
Definition e_ : string -> operand := error no_other no_reflection false "*errors.errorString".
Definition w_ : string -> operand := error no_other no_reflection true "*errors.errorString".

Example verbs_1 : Sprintf "user id for %q is %d" [s_ "alice"; d_ 42] = "user id for " +:+ str1 dquote +:+ "alice" +:+ str1 dquote +:+ " is 42".
Proof. vm_compute. reflexivity. Qed.
Example verbs_2 : Sprintf "%w. Denying access." [w_ "no such user"] = "no such user. Denying access.".
Proof. vm_compute. reflexivity. Qed.
Example verbs_3 : Sprintf "%5d|%-5s|%05d|%+d|%x!" [d_ 42; s_ "ab"; d_ (-7); d_ 3] = "   42|ab   |-0007|+3|%!x(MISSING)!".
Proof. vm_compute. reflexivity. Qed.
Example verbs_4 : Sprintf "%d %[1]s %[5]d %" [s_ "a"; s_ "b"] = "%!d(string=a) a %!d(BADINDEX) %!(NOVERB)".
Proof. vm_compute. reflexivity. Qed.
Example verbs_5 : Sprintf "100%% sure" [s_ "a"; d_ 2] = "100% sure%!(EXTRA string=a, int=2)".
Proof. vm_compute. reflexivity. Qed.
Example verbs_6 : Sprintf "%*d|%.2s|%.*s" [d_ 4; d_ 1; s_ "abc"; d_ 1; s_ "xyz"] = "   1|ab|x".
Proof. vm_compute. reflexivity. Qed.
Example verbs_7 : Sprintf "%!s(MISSING)" [] = "%!!(MISSING)s(MISSING)".
Proof. vm_compute. reflexivity. Qed.
Example verbs_8 : fmtQ clearflags (String (chr 10) (String (chr 200) (str1 dquote)))
  = String dquote (String backslash "n") +:+ String backslash "xc8" +:+ String backslash (str1 dquote) +:+ str1 dquote.
Proof. vm_compute. reflexivity. Qed.
End ConcreteFormat.
