(* ===== verification/Logger.v ===== *)
(** * The loggers

    internal/logger with the three loggers it can carry: syslog for the name
    service (internal/nss/logger.go), PAM for the module
    (internal/pam/logger_c.go, with Info of msg_c.go) and logrus for the
    command line (internal/logger/logrus.go). What is written, where and at
    which priority is the state of the model; package log adds the date in
    front of its lines, which is not kept. *)

From S2P Require Import Prelude GoStrings Format.
Open Scope string_scope.
Open Scope list_scope.
Open Scope Z_scope.

Definition newline : ascii := chr 10.
Definition eol : string := str1 newline.

(** [strings.HasSuffix] *)
Fixpoint HasSuffix (s p : string) : bool :=
  bool_decide (s = p) || match s with EmptyString => false | String _ s' => HasSuffix s' p end.

(** ** What is written *)

Inductive level := Ldebug | Linfo | Lwarn | Lerr | Lcrit.

(** A line of package log, of os.Stderr, of syslog, of the PAM log of a
    transaction, a message to the user of a PAM transaction, and a call of
    logrus. *)
Inductive entry :=
  | LogLine (msg : string)
  | Stderr (msg : string)
  | Syslog (priority : Z) (msg : string)
  | PamSyslog (pamh : nat) (priority : Z) (msg : string)
  | PamMessage (pamh : nat) (msg : string)
  | LogrusCall (l : level) (msg : string).

#[export] Instance level_eq_dec : EqDecision level.
Proof. solve_decision. Defined.
#[export] Instance entry_eq_dec : EqDecision entry.
Proof. solve_decision. Defined.

(** What was written, the outcomes of the next calls of syslog (a call whose
    outcome is an error writes nothing) and of pam_info (the code of PAM). *)
Record log_io := LogIo {
  written : list entry;
  syslog_faults : list (option string);
  pam_info_codes : list Z;
}.

Definition emit (e : entry) : M log_io unit := fun s =>
  (Ok tt, LogIo (written s ++ [e]) (syslog_faults s) (pam_info_codes s)).

Definition syslog_call : M log_io unit := fun s =>
  match syslog_faults s with
  | Some why :: rest => (Err (Opaque why), LogIo (written s) rest (pam_info_codes s))
  | None :: rest => (Ok tt, LogIo (written s) rest (pam_info_codes s))
  | [] => (Ok tt, s)
  end.

(** Package log ends its lines. *)
Definition with_eol (s : string) : string := if HasSuffix s eol then s else s +:+ eol.

(** A C string ends at its first NUL byte. *)
Definition c_string (s : string) : string := (Cut (chr 0) s).1.1.

(** type Logger *)
Record Logger := MkLogger {
  l_Debug : string -> list operand -> M log_io unit;
  l_Info : string -> list operand -> M log_io unit;
  l_Warn : string -> list operand -> M log_io unit;
  l_Err : string -> list operand -> M log_io unit;
  l_Crit : string -> list operand -> M log_io unit;
  l_Close : M log_io unit;
}.

(** The values that the program attaches to a context. *)
Record context := Ctx { ctx_logger : option Logger; ctx_pamh : option nat }.
Definition Background : context := Ctx None None.
Definition CtxWithLogger (ctx : context) (l : Logger) : context := Ctx (Some l) (ctx_pamh ctx).
Definition CtxWithPamh (ctx : context) (pamh : nat) : context := Ctx (ctx_logger ctx) (Some pamh).

Section Loggers.
Context `{UnicodePrint}.
Variable other_verb : string + Z -> spec -> Z -> string.
Variable by_reflection : string -> spec -> Z -> string.

Definition text_ : string -> operand := str other_verb.
Definition int_ : Z -> operand := int other_verb.
Definition err_ : string -> operand := error other_verb by_reflection false "error".
(* the operand of Errorf *)
Definition wrapped_ : string -> operand := error other_verb by_reflection true "error".

(** [log.Printf] *)
Definition log_Printf (format : string) (a : list operand) : M log_io unit :=
  emit (LogLine (with_eol (Sprintf format a))).

(** ** internal/logger *)

Definition normalizeMsg (format : string) (a : list operand) : string :=
  let format := if negb (HasSuffix format eol) then format +:+ eol else format in
  Sprintf format a.

Definition CloseLoggerFromContext (ctx : context) : M log_io unit :=
  match ctx_logger ctx with
  | None =>
      log_Printf "ERROR: %v" [err_ "no logger attached to context"] ;;
      fail (Opaque "no logger attached to context")
  | Some l => l_Close l
  end.

Definition Debug (ctx : context) (format : string) (a : list operand) : M log_io unit :=
  let msg := normalizeMsg (Sprintf format a) [] in
  match ctx_logger ctx with
  | None => log_Printf "DEBUG: %v" [text_ msg]
  | Some l => l_Debug l msg []
  end.

Definition Info (ctx : context) (format : string) (a : list operand) : M log_io unit :=
  let msg := normalizeMsg (Sprintf format a) [] in
  match ctx_logger ctx with
  | None => log_Printf "INFO: %v" [text_ msg]
  | Some l => l_Info l msg []
  end.

Definition Warn (ctx : context) (format : string) (a : list operand) : M log_io unit :=
  let msg := normalizeMsg (Sprintf format a) [] in
  match ctx_logger ctx with
  | None => log_Printf "WARNING: %v" [text_ msg]
  | Some l => l_Warn l msg []
  end.

Definition Err_ (ctx : context) (format : string) (a : list operand) : M log_io unit :=
  let msg := normalizeMsg (Sprintf format a) [] in
  match ctx_logger ctx with
  | None => log_Printf "ERROR: %v" [text_ msg]
  | Some l => l_Err l msg []
  end.

Definition Crit (ctx : context) (format : string) (a : list operand) : M log_io unit :=
  let msg := normalizeMsg (Sprintf format a) [] in
  match ctx_logger ctx with
  | None => log_Printf "CRITICAL: %v" [text_ msg]
  | Some l => l_Crit l msg []
  end.

(** ** internal/nss/logger.go *)

Definition LOG_CRIT : Z := 2.
Definition LOG_ERR : Z := 3.
Definition LOG_WARNING : Z := 4.
Definition LOG_INFO : Z := 6.
Definition LOG_DEBUG : Z := 7.

(** type logWriter *)
Record logWriter := MkLogWriter {
  w_Debug : string -> M log_io unit;
  w_Info : string -> M log_io unit;
  w_Warning : string -> M log_io unit;
  w_Err : string -> M log_io unit;
  w_Crit : string -> M log_io unit;
  w_Close : M log_io unit;
}.

(** A message of a connected syslog.Writer. *)
Definition syslog_write (priority : Z) (msg : string) : M log_io unit :=
  syslog_call ;; emit (Syslog priority (with_eol msg)).

Definition syslog_writer : logWriter :=
  MkLogWriter (syslog_write LOG_DEBUG) (syslog_write LOG_INFO) (syslog_write LOG_WARNING)
    (syslog_write LOG_ERR) (syslog_write LOG_CRIT) syslog_call.

(** [syslog.New] *)
Definition syslog_New : M log_io logWriter := syslog_call ;; mret syslog_writer.

Record nss_options := NssOptions { o_debug : bool; o_writer : option logWriter }.
Definition NssOption : Type := nss_options -> nss_options.
Definition apply_options (opts : list NssOption) : nss_options :=
  fold_left (fun o opt => opt o) opts (NssOptions false None).

(** type Logger of internal/nss *)
Record nss_logger := NssLogger { w : logWriter; priority : Z }.

Definition prefixWithNss (format : string) (a : list operand) : string :=
  let format := Sprintf "nss_aad: %v" [text_ format] in
  Sprintf format a.

(** A call whose error is not looked at. *)
Definition ignore {A} (m : M log_io A) : M log_io unit := attempt m ;; mret tt.

Definition nss_Debug (l : nss_logger) (format : string) (a : list operand) : M log_io unit :=
  if priority l <? LOG_DEBUG then mret tt else ignore (w_Debug (w l) (prefixWithNss format a)).
Definition nss_Info (l : nss_logger) (format : string) (a : list operand) : M log_io unit :=
  ignore (w_Info (w l) (prefixWithNss format a)).
Definition nss_Warn (l : nss_logger) (format : string) (a : list operand) : M log_io unit :=
  ignore (w_Warning (w l) (prefixWithNss format a)).
Definition nss_Err (l : nss_logger) (format : string) (a : list operand) : M log_io unit :=
  ignore (w_Err (w l) (prefixWithNss format a)).
Definition nss_Crit (l : nss_logger) (format : string) (a : list operand) : M log_io unit :=
  ignore (w_Crit (w l) (prefixWithNss format a)).
Definition nss_Close (l : nss_logger) : M log_io unit := w_Close (w l).

Definition NssAsLogger (l : nss_logger) : Logger :=
  MkLogger (nss_Debug l) (nss_Info l) (nss_Warn l) (nss_Err l) (nss_Crit l) (nss_Close l).

Definition newLogger (priority : Z) (opts : list NssOption) : M log_io nss_logger :=
  let o := apply_options opts in
  writer ← match o_writer o with
           | Some writer => mret writer
           | None => map_err (Wrapped "can't create nss logger: %w") syslog_New
           end;
  let l := NssLogger writer priority in
  nss_Debug l ("NSS AAD DEBUG enabled" +:+ eol) [] ;;
  mret l.

(** [debug_env] is the value of NSS_AAD_DEBUG, empty when it is not set. The
    text of an error of syslog is [error_text]. *)
Definition CtxWithSyslogLogger (debug_env : string) (error_text : gerror -> string) (ctx : context)
    (opts : list NssOption) : M log_io context :=
  let o := apply_options opts in
  let debug := o_debug o || negb (bool_decide (debug_env = EmptyString)) in
  if bool_decide (debug_env = "stderr") then mret ctx
  else
    r ← attempt (newLogger (if debug then LOG_DEBUG else LOG_INFO) opts);
    match r with
    | inr err =>
        emit (Stderr (Sprintf ("ERROR: can't find syslog to write to, defaulting to stderr: %v" +:+ eol)
                        [err_ (error_text err)])) ;;
        mret ctx
    | inl nssLogger => mret (CtxWithLogger ctx (NssAsLogger nssLogger))
    end.

(** ** internal/pam/logger_c.go and msg_c.go *)

Definition LogInfo : Z := 6.
Definition LogDebug : Z := 7.

Definition log_func : Type := nat -> Z -> string -> list operand -> M log_io unit.

Definition pamSyslog : log_func := fun pamh priority format a =>
  emit (PamSyslog pamh priority (c_string (Sprintf format a))).

(** type Logger of internal/pam *)
Record pam_logger := PamLogger { pamHandle : nat; pam_priority : Z; logWithPam : log_func }.

Definition pam_Debug (l : pam_logger) (format : string) (a : list operand) : M log_io unit :=
  if pam_priority l <? LogDebug then mret tt else logWithPam l (pamHandle l) LOG_DEBUG format a.
Definition pam_Info (l : pam_logger) (format : string) (a : list operand) : M log_io unit :=
  logWithPam l (pamHandle l) LOG_INFO format a.
Definition pam_Warn (l : pam_logger) (format : string) (a : list operand) : M log_io unit :=
  logWithPam l (pamHandle l) LOG_WARNING format a.
Definition pam_Err (l : pam_logger) (format : string) (a : list operand) : M log_io unit :=
  logWithPam l (pamHandle l) LOG_ERR format a.
Definition pam_Crit (l : pam_logger) (format : string) (a : list operand) : M log_io unit :=
  logWithPam l (pamHandle l) LOG_CRIT format a.
Definition pam_Close (l : pam_logger) : M log_io unit := mret tt.

Definition PamAsLogger (l : pam_logger) : Logger :=
  MkLogger (pam_Debug l) (pam_Info l) (pam_Warn l) (pam_Err l) (pam_Crit l) (pam_Close l).

Definition OptionLogger : Type := log_func -> log_func.

Definition NewLogger (pamHandle : nat) (priority : Z) (opts : list OptionLogger) : M log_io pam_logger :=
  let f := fold_left (fun o opt => opt o) opts pamSyslog in
  let l := PamLogger pamHandle priority f in
  pam_Debug l ("aad auth debug enabled" +:+ eol) [] ;;
  mret l.

(** C.pam_info: the code of PAM, and the message when it is PAM_SUCCESS. *)
Definition pam_info (pamh : nat) (msg : string) : M log_io Z := fun s =>
  match pam_info_codes s with
  | code :: rest =>
      (Ok code, LogIo (if code =? 0 then written s ++ [PamMessage pamh (c_string msg)] else written s)
                  (syslog_faults s) rest)
  | [] => (Ok 0, LogIo (written s ++ [PamMessage pamh (c_string msg)]) (syslog_faults s) [])
  end.

(** Info of msg_c.go *)
Definition InfoUser (ctx : context) (format : string) (a : list operand) : M log_io unit :=
  let msg := Sprintf format a in
  match ctx_pamh ctx with
  | None => log_Printf ("WARNING: Failed to display message to user (no pam attached): %v" +:+ eol) [text_ msg]
  | Some pamh =>
      errInt ← pam_info pamh msg;
      if negb (errInt =? 0) then
        pamSyslog pamh LOG_WARNING ("Failed to display message to user (error %d): %v" +:+ eol)
          [int_ errInt; text_ msg]
      else mret tt
  end.

(** logError of pam.go: [err] is the text of the error. *)
Definition logError (ctx : context) (format : string) (err : string) : M log_io unit :=
  Err_ ctx (Sprintf format [wrapped_ err]) [].
End Loggers.

(** ** internal/logger/logrus.go *)

(** logrus.FieldLogger: the methods that the program calls. *)
Record FieldLogger := MkFieldLogger {
  Debugf : string -> list operand -> M log_io unit;
  Infof : string -> list operand -> M log_io unit;
  Warningf : string -> list operand -> M log_io unit;
  Errorf : string -> list operand -> M log_io unit;
  Fatalf : string -> list operand -> M log_io unit;
}.

(** type LogrusLogger embeds a FieldLogger. *)
Definition LogrusLogger (l : FieldLogger) : Logger :=
  MkLogger (Debugf l) (Infof l) (Warningf l) (Errorf l) (Fatalf l) (mret tt).

(** The levels of logrus, and the state of its standard logger that the program
    sets. *)
Definition ErrorLevel : Z := 2.
Definition WarnLevel : Z := 3.
Definition InfoLevel : Z := 4.
Definition DebugLevel : Z := 5.

Record logrus_state := LogrusState { lr_level : Z; ReportCaller : bool }.
Definition DefaultLogLevel : Z := WarnLevel.

Definition SetLevel (l : Z) (s : logrus_state) : logrus_state := LogrusState l (ReportCaller s).
Definition SetReportCaller (b : bool) (s : logrus_state) : logrus_state := LogrusState (lr_level s) b.

Definition SetVerboseMode (level : Z) (s : logrus_state) : logrus_state :=
  if level =? 0 then SetLevel DefaultLogLevel s
  else if level =? 1 then SetLevel InfoLevel s
  else if level =? 3 then SetLevel DebugLevel (SetReportCaller true s)
  else SetLevel DebugLevel s.

(** [strings.ToUpper] of the name of a level, which is ASCII. *)
Fixpoint ToUpper (s : string) : string :=
  match s with
  | EmptyString => EmptyString
  | String a s => String (if in_rng 97 122 (byteZ a) then chr (byteZ a - 32) else a) (ToUpper s)
  end.

(** logrus.Entry: the time in the format that is asked for, the name of the
    level, the message and what the buffer of the entry holds. *)
Record log_entry := LogEntry {
  Time_Format : string -> string;
  Level_String : string;
  Message : string;
  Buffer : option string;
}.

(** The name of the calling function and the line of the call, when the stack
    has the frame. *)
Definition Format (other_verb : string + Z -> spec -> Z -> string) `{UnicodePrint} (st : logrus_state)
    (caller : option (string * Z)) (e : log_entry) : string :=
  default EmptyString (Buffer e) +:+ Time_Format e "2006/01/02 15:04:05" +:+ " " +:+ ToUpper (Level_String e)
  +:+ (if ReportCaller st then
         match caller with
         | Some (name, line) => Sprintf ":%s:%d" [str other_verb name; int other_verb line]
         | None => EmptyString
         end
       else EmptyString)
  +:+ ": " +:+ Message e.
