(* ===== verification/LoggerFacts.v ===== *)
(** * What the loggers write

    A message without a percent sign arrives as it is, once, with an end of
    line and at its priority; logging never fails its caller; the texts quoted
    with %q stay on one line; how the environment selects the logger. *)

From S2P Require Import Prelude GoStrings Format Logger.
Open Scope string_scope.
Open Scope list_scope.
Open Scope Z_scope.

(** ** Ends of line *)

Ltac no_byte_closed :=
  match goal with |- no_byte ?c ?t => apply (bool_decide_eq_true_1 (no_byte c t)); vm_compute; reflexivity end.

Lemma HasSuffix_app s p : HasSuffix (s +:+ p) p = true.
Proof.
  induction s as [|a s IH]; [rewrite append_nil_l; destruct p; cbn [HasSuffix]; by rewrite bool_decide_eq_true_2|].
  rewrite append_cons. simpl. rewrite IH. apply orb_true_r.
Qed.

Lemma HasSuffix_inv s p : HasSuffix s p = true -> exists t, s = t +:+ p.
Proof.
  induction s as [|a s IH]; simpl; intros [Hs%bool_decide_eq_true|Hs]%orb_true_iff; [by exists EmptyString; subst|done|..].
  - exists EmptyString. by rewrite append_nil_l.
  - destruct (IH Hs) as (t & ->). exists (String a t). by rewrite append_cons.
Qed.

Lemma with_eol_suffix s : HasSuffix (with_eol s) eol = true.
Proof. unfold with_eol. destruct (HasSuffix s eol) eqn:E; [done|apply HasSuffix_app]. Qed.

Lemma with_eol_id s : HasSuffix s eol = true -> with_eol s = s.
Proof. unfold with_eol. by intros ->. Qed.

Lemma with_eol_idem s : with_eol (with_eol s) = with_eol s.
Proof. apply with_eol_id, with_eol_suffix. Qed.

Lemma HasSuffix_prefix p s q : HasSuffix s q = true -> HasSuffix (p +:+ s) q = true.
Proof. intros (t & ->)%HasSuffix_inv. rewrite <- append_assoc. apply HasSuffix_app. Qed.

Lemma no_byte_app c s t : no_byte c (s +:+ t) <-> no_byte c s /\ no_byte c t.
Proof.
  induction s as [|a s IH]; [rewrite append_nil_l; split; [split; [apply not_elem_of_nil|done]|by intros [_ ?]]|].
  rewrite append_cons, !no_byte_cons, IH. tauto.
Qed.

Lemma no_percent_with_eol m : no_byte percent m -> no_byte percent (with_eol m).
Proof. intros Hm. unfold with_eol. case_match; [done|]. apply no_byte_app. split; [done|]. no_byte_closed. Qed.

Lemma normalizeMsg_text m : no_byte percent m -> normalizeMsg m [] = with_eol m.
Proof.
  intros Hm%no_percent_with_eol. unfold normalizeMsg. unfold with_eol in *.
  destruct (HasSuffix m eol); simpl; by apply Sprintf_text.
Qed.

Lemma last_byte v u c d : v +:+ str1 c = u +:+ str1 d -> c = d.
Proof.
  revert v. induction u as [|b u IH]; intros [|a v]; rewrite ?append_cons, ?append_nil_l.
  - by intros [= ->].
  - by destruct v.
  - by destruct u.
  - intros [= _ Heq]. by apply (IH v).
Qed.

(** The directive that a last percent sign makes with the end of line. *)
Lemma normalizeMsg_last_percent t : no_byte percent t ->
  normalizeMsg (t +:+ "%") [] = t +:+ "%!" +:+ eol +:+ "(MISSING)".
Proof.
  intros Ht. unfold normalizeMsg. replace (HasSuffix (t +:+ "%") eol) with false.
  - simpl. rewrite append_assoc. unfold Sprintf. cbn [doPrintf].
    change ("%" +:+ eol) with (String percent eol). rewrite until_percent_text by done.
    rewrite length_append, Nat.add_comm. by cbn.
  - symmetry. apply not_true_is_false. intros (u & Hu)%HasSuffix_inv. by apply last_byte in Hu.
Qed.

(** A message without a percent sign is normalized to itself with one end of
    line; a percent sign at its end swallows the end of line, although the
    code says that there always is one. *)
Theorem normalizeMsg_eol m :
  no_byte percent m ->
  normalizeMsg m [] = with_eol m /\ HasSuffix (normalizeMsg m []) eol = true /\
  HasSuffix (normalizeMsg (m +:+ "%") []) eol = false.
Proof.
  intros Hm. rewrite normalizeMsg_text, normalizeMsg_last_percent by done. split_and!; [done|apply with_eol_suffix|].
  apply not_true_is_false. intros (u & Hu)%HasSuffix_inv.
  change (m +:+ "%!" +:+ eol +:+ "(MISSING)") with (m +:+ (("%!" +:+ eol +:+ "(MISSING") +:+ str1 ")")) in Hu.
  rewrite <- append_assoc in Hu. by apply last_byte in Hu.
Qed.

Lemma normalizeMsg_eol_witness :
  normalizeMsg "Cache initialization" [] = "Cache initialization" +:+ eol /\
  HasSuffix (normalizeMsg "Cache initialization" []) eol = true /\
  HasSuffix (normalizeMsg "Cache initialization%" []) eol = false.
Proof. refine (normalizeMsg_eol "Cache initialization" _). no_byte_closed. Defined.

(** ** Where a message goes *)

(** The loggers that a context of the program carries: none, syslog for the
    name service, PAM for the module. *)
Inductive destination := NoLogger | ToSyslog (priority : Z) | ToPam (pamh : nat) (priority : Z).

Definition label (l : level) : string :=
  match l with
  | Ldebug => "DEBUG" | Linfo => "INFO" | Lwarn => "WARNING" | Lerr => "ERROR" | Lcrit => "CRITICAL"
  end.

Definition severity (l : level) : Z :=
  match l with
  | Ldebug => LOG_DEBUG | Linfo => LOG_INFO | Lwarn => LOG_WARNING | Lerr => LOG_ERR | Lcrit => LOG_CRIT
  end.

(** Only debug messages are filtered. *)
Definition shown (priority : Z) (l : level) : bool :=
  match l with Ldebug => LOG_DEBUG <=? priority | _ => true end.

(** What the text [m] of a message becomes. *)
Definition delivered (d : destination) (l : level) (m : string) : list entry :=
  match d with
  | NoLogger => [LogLine (label l +:+ ": " +:+ m)]
  | ToSyslog p => if shown p l then [Syslog (severity l) ("nss_aad: " +:+ m)] else []
  | ToPam h p => if shown p l then [PamSyslog h (severity l) (c_string m)] else []
  end.

Definition wrote (out : list entry) (s : log_io) : log_io :=
  LogIo (written s ++ out) (syslog_faults s) (pam_info_codes s).

Section Facts.
Context `{UnicodePrint}.
Variable other_verb : string + Z -> spec -> Z -> string.
Variable by_reflection : string -> spec -> Z -> string.

Definition attached (d : destination) : context :=
  match d with
  | NoLogger => Background
  | ToSyslog p => CtxWithLogger Background (NssAsLogger other_verb (NssLogger syslog_writer p))
  | ToPam h p => CtxWithLogger Background (PamAsLogger (PamLogger h p pamSyslog))
  end.

Definition log (l : level) : context -> string -> list operand -> M log_io unit :=
  match l with
  | Ldebug => Debug other_verb | Linfo => Info other_verb | Lwarn => Warn other_verb
  | Lerr => Err_ other_verb | Lcrit => Crit other_verb
  end.

Lemma render_text t : render "v" (text_ other_verb t) = t.
Proof. done. Qed.

(** A text in a format that has a single %v. *)
Lemma Sprintf_v pre post o :
  no_byte percent pre -> no_byte percent post ->
  Sprintf (pre +:+ "%v" +:+ post) [o] = pre +:+ render "v" o +:+ post.
Proof.
  intros Hpre Hpost. pose proof (Sprintf_format [(pre, "v"%char)] post [o]) as Hs.
  unfold format_of in Hs. csimpl in Hs. rewrite !append_nil_r, !append_assoc in Hs.
  change (String percent (str1 "v")) with "%v" in Hs.
  rewrite Hs; [done| |done|done]. by repeat constructor.
Qed.

Lemma prefixWithNss_text m : no_byte percent m -> prefixWithNss other_verb m [] = "nss_aad: " +:+ m.
Proof.
  intros Hm. unfold prefixWithNss.
  change "nss_aad: %v" with ("nss_aad: " +:+ "%v" +:+ "").
  rewrite Sprintf_v, render_text, append_nil_r by (no_byte_closed).
  apply Sprintf_text, no_byte_app. split; [no_byte_closed|done].
Qed.

Lemma log_Printf_label l m : HasSuffix m eol = true ->
  log_Printf (label l +:+ ": %v") [text_ other_verb m] = emit (LogLine (label l +:+ ": " +:+ m)).
Proof.
  intros Hm. unfold log_Printf. do 2 f_equal.
  replace (label l +:+ ": %v") with ((label l +:+ ": ") +:+ "%v" +:+ "") by (by destruct l).
  rewrite Sprintf_v, render_text, append_nil_r; [|destruct l; no_byte_closed|no_byte_closed].
  rewrite append_assoc. apply with_eol_id. by apply HasSuffix_prefix, HasSuffix_prefix.
Qed.

Lemma ignore_write prio m s : HasSuffix m eol = true -> syslog_faults s = [] ->
  ignore (syslog_write prio m) s = (Ok tt, wrote [Syslog prio m] s).
Proof.
  intros Hm Hf. unfold ignore, attempt, syslog_write, syslog_call, emit, mbind, M_bind. rewrite Hf. simpl.
  by rewrite with_eol_id.
Qed.

Lemma log_text l d m s : no_byte percent m -> HasSuffix m eol = true -> syslog_faults s = [] ->
  match ctx_logger (attached d), l with
  | None, _ => log_Printf (label l +:+ ": %v") [text_ other_verb m]
  | Some lg, Ldebug => l_Debug lg m [] | Some lg, Linfo => l_Info lg m [] | Some lg, Lwarn => l_Warn lg m []
  | Some lg, Lerr => l_Err lg m [] | Some lg, Lcrit => l_Crit lg m []
  end s = (Ok tt, wrote (delivered d l m) s).
Proof.
  intros Hm He Hf. assert (wrote [] s = s) as Hw by (destruct s; unfold wrote; simpl; by rewrite app_nil_r).
  pose proof (HasSuffix_prefix "nss_aad: " _ _ He) as He'.
  destruct d as [|p|h p]; [by rewrite log_Printf_label|destruct l..]; simpl;
    unfold nss_Debug, nss_Info, nss_Warn, nss_Err, nss_Crit, pam_Debug, pam_Info, pam_Warn, pam_Err, pam_Crit,
      pam_priority, logWithPam, priority, pamHandle, pamSyslog; change LogDebug with LOG_DEBUG;
    rewrite ?prefixWithNss_text, ?Sprintf_text by done; try done; try (by apply ignore_write);
    rewrite Z.ltb_antisym; destruct (LOG_DEBUG <=? p); simpl; try done; try (by rewrite Hw); by apply ignore_write.
Qed.

(** A message without a percent sign is written as it is, with one end of
    line, at its priority and to the logger of the context, or with its label
    on package log when there is none; debug messages are the only ones that a
    priority keeps out. *)
Theorem logged_as_is l d format a s :
  no_byte percent (Sprintf format a) -> syslog_faults s = [] ->
  log l (attached d) format a s = (Ok tt, wrote (delivered d l (with_eol (Sprintf format a))) s).
Proof.
  intros Hm Hf. rewrite <- (log_text l d (with_eol (Sprintf format a)) s); [|by apply no_percent_with_eol|apply with_eol_suffix|done].
  rewrite <- normalizeMsg_text by done. destruct l, d; done.
Qed.

(** An error that the PAM module reports. *)
Lemma logError_text d err s : no_byte percent err -> syslog_faults s = [] ->
  logError other_verb by_reflection (attached d) "%w. Denying access." err s
  = (Ok tt, wrote (delivered d Lerr (with_eol (err +:+ ". Denying access."))) s).
Proof.
  intros He Hf. unfold logError.
  assert (Sprintf "%w. Denying access." [wrapped_ other_verb by_reflection err] = err +:+ ". Denying access.") as Hw.
  { pose proof (Sprintf_format [("", "w"%char)] ". Denying access." [wrapped_ other_verb by_reflection err]) as Hs.
    unfold format_of in Hs. csimpl in Hs. rewrite !append_nil_l, !append_nil_r in Hs.
    apply Hs; [|no_byte_closed|done]. constructor; [|done]. split; [no_byte_closed|done]. }
  assert (no_byte percent (err +:+ ". Denying access.")) as Hp by (apply no_byte_app; split; [done|no_byte_closed]).
  rewrite Hw. pose proof (logged_as_is Lerr d (err +:+ ". Denying access.") [] s) as Hl.
  rewrite Sprintf_text in Hl by done. by apply Hl.
Qed.

(** ** Logging never fails *)

Definition grew_by_one (s s' : log_io) : Prop :=
  exists out, (length out <= 1)%nat /\ written s' = written s ++ out.

Lemma grew_refl s : grew_by_one s s.
Proof. exists []. simpl. split; [lia|by rewrite app_nil_r]. Qed.

Lemma emit_grows e s : exists s', emit e s = (Ok tt, s') /\ grew_by_one s s'.
Proof. eexists. split; [done|]. exists [e]. simpl. split; [lia|done]. Qed.

Lemma ignore_grows prio m s : exists s', ignore (syslog_write prio m) s = (Ok tt, s') /\ grew_by_one s s'.
Proof.
  destruct s as [out [|[why|] rest] codes]; (eexists; split; [done|]); unfold grew_by_one; simpl.
  - eexists [_]. simpl. split; [lia|done].
  - exists []. simpl. split; [lia|by rewrite app_nil_r].
  - eexists [_]. simpl. split; [lia|done].
Qed.

(** Logging never fails and never panics, whatever the format, the operands
    and the state of syslog: the caller goes on, and at most one entry was
    written. *)
Theorem log_never_fails l d format a s :
  exists s', log l (attached d) format a s = (Ok tt, s') /\ grew_by_one s s'.
Proof.
  destruct d as [|p|h p]; destruct l; simpl;
    unfold Debug, Info, Warn, Err_, Crit, log_Printf; simpl;
    unfold nss_Debug, nss_Info, nss_Warn, nss_Err, nss_Crit, pam_Debug, pam_Info, pam_Warn, pam_Err, pam_Crit; simpl;
    try case_match; try apply emit_grows; try apply ignore_grows; by eexists; split; [|apply grew_refl].
Qed.

(** ** The logger of the name service *)

Definition nss_welcome : list entry := [Syslog LOG_DEBUG ("nss_aad: NSS AAD DEBUG enabled" +:+ eol)].

Lemma newLogger_run p s : syslog_faults s = [] ->
  newLogger other_verb p [] s
  = (Ok (NssLogger syslog_writer p), wrote (if LOG_DEBUG <=? p then nss_welcome else []) s).
Proof.
  intros Hf. destruct s as [out faults codes]. simpl in Hf. subst faults. unfold newLogger. simpl.
  unfold nss_Debug. simpl. rewrite Z.ltb_antisym. destruct (LOG_DEBUG <=? p); [|by unfold wrote; simpl; rewrite app_nil_r].
  simpl. rewrite prefixWithNss_text by no_byte_closed.
  reflexivity.
Qed.

(** NSS_AAD_DEBUG selects the logger of the name service: without it only
    the messages above debug reach syslog; with any value they all do, and
    with the value stderr, or when syslog does not answer, the context is
    left without a logger, so that everything goes to package log. *)
Theorem CtxWithSyslogLogger_select env error_text s :
  let run := CtxWithSyslogLogger other_verb by_reflection env error_text Background [] in
  (env = "stderr" -> run s = (Ok (attached NoLogger), s)) /\
  (env <> "stderr" -> syslog_faults s = [] ->
     run s = if bool_decide (env = "") then (Ok (attached (ToSyslog LOG_INFO)), wrote [] s)
             else (Ok (attached (ToSyslog LOG_DEBUG)), wrote nss_welcome s)) /\
  (forall why rest, env <> "stderr" -> syslog_faults s = Some why :: rest ->
     exists s' line, run s = (Ok (attached NoLogger), s') /\ written s' = written s ++ [Stderr line]).
Proof.
  simpl. unfold CtxWithSyslogLogger. split_and!.
  - intros ->. by rewrite bool_decide_eq_true_2.
  - intros He Hf. rewrite bool_decide_eq_false_2 by done. unfold mbind, M_bind, attempt.
    rewrite newLogger_run by done. simpl. by destruct (decide (env = "")) as [->|Hn]; [|rewrite !bool_decide_eq_false_2].
  - intros why rest He Hf. rewrite bool_decide_eq_false_2 by done. destruct s as [out faults codes]. simpl in Hf. subst.
    eexists _, _. split; [by destruct env|]. done.
Qed.
End Facts.

(** ** Quoted operands *)

Definition on_one_line (s : string) : Prop := Forall (fun b => 32 <= b /\ b <> 127) (bytes s).

Lemma bytes_app s t : bytes (s +:+ t) = bytes s ++ bytes t.
Proof. induction s as [|a s IH]; [done|]. rewrite append_cons. simpl. by rewrite IH. Qed.

Lemma one_line_app s t : on_one_line s -> on_one_line t -> on_one_line (s +:+ t).
Proof. unfold on_one_line. rewrite bytes_app, Forall_app. done. Qed.

Lemma one_line_chr z t : 32 <= z < 256 -> z <> 127 -> on_one_line t -> on_one_line (String (chr z) t).
Proof. intros Hz Hn Ht. constructor; [|done]. rewrite byteZ_chr by lia. lia. Qed.

Lemma one_line_hex d n : 0 <= n -> on_one_line (hex d n).
Proof.
  revert n. induction d as [|d IH]; intros n Hn; simpl; [by constructor|].
  apply one_line_app; [apply IH, Z.div_pos; lia|]. unfold hex_digit. pose proof (Z.mod_pos_bound n 16).
  destruct (Z.ltb_spec (n mod 16) 10); apply one_line_chr; try lia; constructor.
Qed.

(** Encodings of runes beyond ASCII have bytes beyond ASCII only. *)
Lemma one_line_rune r : (0x20 <= r < 0x7F \/ 0x80 <= r) -> on_one_line (encode_rune r).
Proof.
  intros Hr. unfold encode_rune. set (v := if valid_rune r then r else RuneError).
  assert (0x20 <= v <= 0x10FFFF /\ v <> 0x7F) as [Hv Hn].
  { unfold v, RuneError. destruct (valid_rune r) eqn:E; [apply valid_rune_range in E|]; lia. }
  clearbody v.
  destruct (Z.ltb_spec v 0x80); [apply one_line_chr; [lia..|constructor]|].
  pose proof (Z.mod_pos_bound v 64). pose proof (Z.mod_pos_bound (v / 64) 64). pose proof (Z.mod_pos_bound (v / 4096) 64).
  assert (v / 262144 < 5) by (apply Z.div_lt_upper_bound; lia).
  assert (0 <= v / 64 /\ 0 <= v / 4096 /\ 0 <= v / 262144) as (? & ? & ?) by (split_and!; apply Z.div_pos; lia).
  destruct (Z.ltb_spec v 0x800); [|destruct (Z.ltb_spec v 0x10000)]; unfold str1.
  - assert (v / 64 < 32) by (apply Z.div_lt_upper_bound; lia). repeat apply one_line_chr; try lia. constructor.
  - assert (v / 4096 < 16) by (apply Z.div_lt_upper_bound; lia). repeat apply one_line_chr; try lia. constructor.
  - repeat apply one_line_chr; try lia. constructor.
Qed.

Ltac split_rng H :=
  unfold two_ok, three_ok, four_ok, in_rng in H;
  repeat match type of H with _ && _ = true => let H' := fresh in apply andb_true_iff in H as [H H'] end;
  apply Z.leb_le in H.

Lemma decode_nonneg s : Forall (fun rb => 0 <= rb.1) (decode s).
Proof.
  induction s as [s IH] using string_length_ind. destruct s as [|a0 r1]; [constructor|].
  assert (forall t r b, 0 <= r -> (String.length t <= String.length r1)%nat -> Forall (fun rb => 0 <= rb.1) ((r, b) :: decode t))
    as IH' by (intros t r b Hr Ht; constructor; [done|]; apply IH; simpl; lia).
  assert (0 <= RuneError) as He by done. pose proof (byteZ_range a0) as [Ha _]. cbn [decode].
  destruct (byteZ a0 <? 0x80); [by apply IH'|]. destruct r1 as [|a1 r2]; [by apply IH'|].
  destruct (two_ok _ _) eqn:E2; [split_rng E2; apply IH'; [|simpl; lia]|].
  { repeat match goal with X : (_ <=? _) = true |- _ => apply Z.leb_le in X end. lia. }
  destruct r2 as [|a2 r3]; [by apply IH'|].
  destruct (three_ok _ _ _) eqn:E3; [split_rng E3; apply IH'; [|simpl; lia]|].
  { repeat match goal with X : (_ <=? _) = true |- _ => apply Z.leb_le in X end. case_match; lia. }
  destruct r3 as [|a3 r4]; [by apply IH'|].
  destruct (four_ok _ _ _ _) eqn:E4; [split_rng E4; apply IH'; [|simpl; lia]|by apply IH'].
  repeat match goal with X : (_ <=? _) = true |- _ => apply Z.leb_le in X end. case_match; lia.
Qed.

Section QuoteFacts.
Context `{UnicodePrint}.

Lemma one_line_quote_rune ascii r b : 0 <= r -> on_one_line (quote_rune ascii (r, b)).
Proof.
  intros Hr. unfold quote_rune.
  assert (forall t, on_one_line t -> on_one_line (String backslash t)) as Hesc by (intros; by apply one_line_chr).
  assert (forall n z, 0 <= z -> on_one_line (String "x" (hex n z)) /\ on_one_line (String "u" (hex n z))
    /\ on_one_line (String "U" (hex n z))) as Hhex.
  { intros n z Hz. pose proof (one_line_hex n z Hz). by split_and!; constructor. }
  destruct (_ && (_ =? 1)%nat).
  { destruct b as [|a b]; [constructor|]. pose proof (byteZ_range a). apply Hesc, Hhex. lia. }
  destruct ((r =? 34) || (r =? 92)) eqn:E1.
  { apply Hesc, one_line_rune. apply orb_true_iff in E1 as [?%Z.eqb_eq|?%Z.eqb_eq]; lia. }
  assert (is_print r = true -> on_one_line (encode_rune r)) as Hp.
  { unfold is_print, in_rng. destruct (Z.ltb_spec r 0x80); [|intros _; apply one_line_rune; lia].
    intros [?%Z.leb_le ?%Z.leb_le]%andb_true_iff. apply one_line_rune. lia. }
  destruct (_ && is_print r) eqn:E2; [apply andb_true_iff in E2 as [_ ?]; auto|].
  destruct (negb ascii && is_print r) eqn:E3; [apply andb_true_iff in E3 as [_ ?]; auto|].
  unfold letter_escape. repeat case_match; simplify_eq; apply Hesc; by apply Hhex || by repeat constructor.
Qed.

(** An operand printed with %q holds no control character: it cannot end
    the line of the log that it is printed on, and start another one. *)
Theorem Quote_one_line ascii s : on_one_line (Quote ascii s).
Proof.
  unfold Quote. apply one_line_chr; [lia..|]. apply one_line_app; [|by repeat constructor].
  pose proof (decode_nonneg s) as Hs. induction Hs as [|[r b] l Hr _ IH]; [constructor|].
  csimpl. apply one_line_app; [by apply one_line_quote_rune|done].
Qed.
End QuoteFacts.

(** ** The verbosity of the command line *)

(** -v, -vv and -vvv show one more level each; any other count shows
    everything, and only -vvv adds the caller. *)
Theorem SetVerboseMode_levels n s :
  let s' := SetVerboseMode n s in
  (InfoLevel <= lr_level s' <-> n <> 0) /\ (DebugLevel <= lr_level s' <-> n <> 0 /\ n <> 1) /\
  WarnLevel <= lr_level s' /\ ReportCaller s' = ReportCaller s || (n =? 3).
Proof.
  simpl. unfold SetVerboseMode, InfoLevel, DebugLevel, WarnLevel.
  destruct (Z.eqb_spec n 0), (Z.eqb_spec n 1), (Z.eqb_spec n 3); simpl; unfold DefaultLogLevel, WarnLevel, InfoLevel, DebugLevel;
    rewrite ?orb_false_r, ?orb_true_r; split_and!; try done; lia.
Qed.

(** ** Concrete messages *)

Import ConcreteFormat.

Definition quiet : log_io := LogIo [] [] [].

Lemma logged_as_is_witness :
  no_byte percent (Sprintf "user id for %q is %d" [s_ "alice"; d_ 42]) /\
  Info no_other (attached no_other (ToSyslog LOG_INFO)) "user id for %q is %d" [s_ "alice"; d_ 42] quiet
  = (Ok tt, wrote [Syslog LOG_INFO ("nss_aad: user id for " +:+ str1 dquote +:+ "alice" +:+ str1 dquote +:+ " is 42" +:+ eol)] quiet).
Proof.
  assert (no_byte percent (Sprintf "user id for %q is %d" [s_ "alice"; d_ 42])) as Hp by no_byte_closed.
  split; [exact Hp|]. etransitivity.
  - exact (logged_as_is no_other Linfo (ToSyslog LOG_INFO) "user id for %q is %d" [s_ "alice"; d_ 42] quiet Hp eq_refl).
  - vm_compute. reflexivity.
Defined.

Lemma CtxWithSyslogLogger_select_witness :
  CtxWithSyslogLogger no_other no_reflection "1" (fun _ => "refused") Background [] quiet
  = (Ok (attached no_other (ToSyslog LOG_DEBUG)), wrote nss_welcome quiet).
Proof.
  exact (proj1 (proj2 (CtxWithSyslogLogger_select no_other no_reflection "1" (fun _ => "refused") quiet)) ltac:(discriminate) eq_refl).
Defined.

(** A percent sign in an error is read again at each of the three passes: the
    name of a user is not what the log shows. *)
Example percent_in_name :
  (logError no_other no_reflection (attached no_other (ToPam 0 LogInfo)) "%w. Denying access." "no user 50%off" quiet).2
  = wrote [PamSyslog 0 LOG_ERR ("no user 50%!!(MISSING)!(MISSING)o(MISSING)ff. Denying access." +:+ eol)] quiet.
Proof. vm_compute. reflexivity. Qed.

(** A debug message of the module reaches PAM with the debug argument only. *)
Example debug_filtered :
  (Debug no_other (attached no_other (ToPam 0 LogInfo)) "x" [] quiet).2 = quiet /\
  (Debug no_other (attached no_other (ToPam 0 LogDebug)) "x" [] quiet).2 = wrote [PamSyslog 0 LOG_DEBUG ("x" +:+ eol)] quiet.
Proof. vm_compute. split; reflexivity. Qed.
