(* ===== verification/CliApp.v ===== *)
(** * cmd/aad-cli: the application around its commands

    main.go (the exit code and the handler of signals) and cli/main.go (the
    hooks of the root command). What cobra makes of the command line is a
    parameter: an error before any hook, an error of flag groups after the
    hooks, or a command with its flags. *)

From S2P Require Import Prelude GoStrings Interfaces Tables CacheDB CacheOpen CacheLife Config User.
From S2P Require Import CliUser CliConfig Decimal Format Logger LoggerFacts.
Open Scope string_scope.
Open Scope list_scope.
Open Scope Z_scope.

(** ** The commands and their flags *)

Inductive command :=
  | CmdUser (args : list string) (name : string) (all changed_move_home move_home : bool)
  | CmdConfig (edit : bool) (domain : string)
  | CmdVersion.

Inductive cobra_outcome :=
  | BeforeHooks (e : gerror)
  | AfterHooks (verbosity : Z) (cmd : command) (e : gerror)
  | Runs (verbosity : Z) (cmd : command).

(** The application: what its commands work on, what is printed by the version
    command and logged, the level of logrus, and the fields of the App. *)
Record app_state := AppState {
  as_cli : cli;
  as_conf : conf_env;
  as_out : list string;
  as_log : log_io;
  as_logrus : logrus_state;
  SilenceUsage : bool;
  as_ctx : context;
}.

Definition on_cli {A} (m : M cli A) : M app_state A :=
  zoom as_cli (fun k a => AppState k (as_conf a) (as_out a) (as_log a) (as_logrus a) (SilenceUsage a) (as_ctx a)) m.
Definition on_conf {A} (m : M conf_env A) : M app_state A :=
  zoom as_conf (fun c a => AppState (as_cli a) c (as_out a) (as_log a) (as_logrus a) (SilenceUsage a) (as_ctx a)) m.
Definition on_app_log {A} (m : M log_io A) : M app_state A :=
  zoom as_log (fun l a => AppState (as_cli a) (as_conf a) (as_out a) l (as_logrus a) (SilenceUsage a) (as_ctx a)) m.

(** PersistentPreRunE of the root command; [std] is the standard logger of
    logrus. *)
Definition PersistentPreRunE (std : FieldLogger) (verbosity : Z) (a : app_state) : app_state :=
  AppState (as_cli a) (as_conf a) (as_out a) (as_log a) (SetVerboseMode verbosity (as_logrus a)) true
    (CtxWithLogger (as_ctx a) (LogrusLogger std)).

Definition UsageError (a : app_state) : bool := negb (SilenceUsage a).

Section App.
Context `{Decorator} `{RowOrder} `{IniLib} `{UnicodePrint}.
Variables euid egid : Z.
Variable groups : list Z.
Variable LookupGroup : string -> result string.
Variable passwd_first : nat -> bool.
Variable Stat : string -> result (Z * Z).
Variable Glob : string -> result (list string).
Variable Open : string -> result opened_file.
Variable mv : string -> string -> home_fs -> result unit * home_fs.
Variable ReflectUser : UserRecord -> result ini_file.
Variable FormatRFC3339 : Z -> string.
Variable run_editor : string -> string -> M conf_env unit.
Variable dpkg_query : string -> string -> result string.
Variable other_verb : string + Z -> spec -> Z -> string.
Variable std : FieldLogger.
Variable Version : string.
(* err.Error() *)
Variable error_text : gerror -> string.
(* the options of the App *)
Variable options : app_options.

(** PreRunE of a command, when it has one. *)
Definition pre_run (cmd : command) : option gerror :=
  match cmd with CmdUser args _ _ changed _ => PreRunE changed args | _ => None end.

(** RunE of a command *)
Definition run_e (cmd : command) : M app_state unit :=
  match cmd with
  | CmdUser args name all _ move_home =>
      on_cli (h ← getCache euid egid groups LookupGroup passwd_first (ao_cache options);
              runUser Stat Glob Open mv ReflectUser FormatRFC3339 args h (ao_procFs options) name all move_home)
  | CmdConfig edit domain => on_conf (config_command run_editor edit (ao_configFile options) (ao_editor options) domain)
  | CmdVersion => fun a =>
      (Ok tt, AppState (as_cli a) (as_conf a) (as_out a ++ printVersion dpkg_query Version (ao_dpkgQueryCmd options))
                (as_log a) (as_logrus a) (SilenceUsage a) (as_ctx a))
  end.

(** Run *)
Definition Run (o : cobra_outcome) : M app_state unit :=
  match o with
  | BeforeHooks e => fail e
  | AfterHooks verbosity cmd e =>
      step (fun a => (Ok tt, PersistentPreRunE std verbosity a)) ;;
      match pre_run cmd with Some e0 => fail e0 | None => fail e end
  | Runs verbosity cmd =>
      step (fun a => (Ok tt, PersistentPreRunE std verbosity a)) ;;
      match pre_run cmd with Some e => fail e | None => run_e cmd end
  end.

(** run of main.go: the exit code. The error goes to the logger of an empty
    context. *)
Definition run (o : cobra_outcome) : M app_state Z :=
  r ← attempt (Run o);
  match r with
  | inl _ => mret 0
  | inr err =>
      a ← get;
      if UsageError a then mret 2
      else on_app_log (Err_ other_verb Background (error_text err) []) ;; mret 1
  end.

(** ** The exit code *)

Lemma on_cli_silence {A} (m : M cli A) a : SilenceUsage (on_cli m a).2 = SilenceUsage a.
Proof. unfold on_cli, zoom. by destruct (m _). Qed.
Lemma on_conf_silence {A} (m : M conf_env A) a : SilenceUsage (on_conf m a).2 = SilenceUsage a.
Proof. unfold on_conf, zoom. by destruct (m _). Qed.

Lemma run_e_silence cmd a : SilenceUsage (run_e cmd a).2 = SilenceUsage a.
Proof. destruct cmd; [apply on_cli_silence|apply on_conf_silence|done]. Qed.

(** Once the hooks have run, no error is one of usage. *)
Lemma Run_silences o a : (forall e, o <> BeforeHooks e) -> SilenceUsage (Run o a).2 = true.
Proof.
  intros Ho. destruct o as [e|v cmd e|v cmd]; [by destruct (Ho e)|..]; cbn [Run]; unfold mbind, M_bind, step;
    destruct (pre_run cmd); try done. by rewrite run_e_silence.
Qed.

(** Logging an error on package log adds one line. *)
Lemma Err_background format s :
  Err_ other_verb Background format [] s = (Ok tt, LogIo (written s ++ [LogLine (with_eol (Sprintf "ERROR: %v"
    [text_ other_verb (normalizeMsg (Sprintf format []) [])]))]) (syslog_faults s) (pam_info_codes s)).
Proof. done. Qed.

Lemma run_after_hooks o a : (forall e, o <> BeforeHooks e) ->
  match Run o a with
  | (Ok _, a') => run o a = (Ok 0, a')
  | (Err e, a') => exists line a'', run o a = (Ok 1, a'') /\ as_cli a'' = as_cli a' /\ as_conf a'' = as_conf a' /\
                     written (as_log a'') = written (as_log a') ++ [LogLine line]
  | (Panic why, a') => run o a = (Panic why, a')
  end.
Proof.
  intros Ho. pose proof (Run_silences o a Ho) as Hr. unfold run, mbind, M_bind, attempt.
  destruct (Run o a) as [[[]|e1|why] a']; simpl in Hr; [done| |done].
  unfold get, UsageError. rewrite Hr. cbn [negb]. unfold on_app_log, zoom. rewrite Err_background. by do 2 eexists.
Qed.

(** The exit code of a run: 2 for a command line that cobra refuses, with
    nothing done; 0 for a command that succeeds; 1 for an error after the hooks,
    with one more line in the log and nothing else; and no other end but a
    panic of the command. *)
Theorem run_exit_code o a : SilenceUsage a = false ->
  match o with
  | BeforeHooks e => run o a = (Ok 2, a)
  | _ =>
      match Run o a with
      | (Ok _, a') => run o a = (Ok 0, a')
      | (Err e, a') => exists line a'', run o a = (Ok 1, a'') /\ as_cli a'' = as_cli a' /\ as_conf a'' = as_conf a' /\
                         written (as_log a'') = written (as_log a') ++ [LogLine line]
      | (Panic why, a') => run o a = (Panic why, a')
      end
  end.
Proof.
  intros Hs. destruct o as [e|v cmd e|v cmd].
  - unfold run. cbn [Run]. unfold mbind, M_bind, attempt, fail, get, UsageError. by rewrite Hs.
  - by apply run_after_hooks.
  - by apply run_after_hooks.
Qed.
End App.

(** ** The handler of signals

    installSignalHandler starts a goroutine on a channel of one place; what it
    returns stops the notification, closes the channel and waits for the
    goroutine. *)

Inductive signal := SIGINT | SIGTERM.

(** The thread of main, in the function that is returned. *)
Inductive main_at := Running | AtClose | AtWait | Returned.

Record handler := Handler {
  main_thread : main_at;
  chan : option signal;
  chan_closed : bool;
  goroutine_done : bool;
  quits : nat;
}.

Definition installed : handler := Handler Running None false false 0.

(** [signal.Notify] drops a signal when the channel is full; a receive from a
    closed channel that is empty is not ok. *)
Inductive handler_step : handler -> handler -> Prop :=
  | Notified (v : signal) g q :
      handler_step (Handler Running None false g q) (Handler Running (Some v) false g q)
  | Dropped (v w : signal) g q :
      handler_step (Handler Running (Some w) false g q) (Handler Running (Some w) false g q)
  | Quits v m b q : handler_step (Handler m (Some v) b false q) (Handler m None b true (S q))
  | Exits m q : handler_step (Handler m None true false q) (Handler m None true true q)
  | Stops c b g q : handler_step (Handler Running c b g q) (Handler AtClose c b g q)
  | Closes c g q : handler_step (Handler AtClose c false g q) (Handler AtWait c true g q)
  | Waits c b q : handler_step (Handler AtWait c b true q) (Handler Returned c b true q).

(** The steps that are left once the notification is stopped. *)
Definition left_to_do (s : handler) : nat :=
  match main_thread s with Running => 4 | AtClose => 3 | AtWait => 2 | Returned => 1 end
  + (if goroutine_done s then 0 else 1).

Definition handler_ok (s : handler) : Prop :=
  (chan_closed s = true <-> main_thread s = AtWait \/ main_thread s = Returned) /\
  (quits s <= if goroutine_done s then 1 else 0)%nat /\
  (main_thread s = Returned -> goroutine_done s = true).

Lemma handler_step_ok s s' : handler_step s s' -> handler_ok s -> handler_ok s'.
Proof.
  unfold handler_ok. destruct 1; simpl; intros (Hc & Hq & Hr); split_and!; try done; try lia.
  - rewrite Hc. by split; intros [|].
  - by split; [left|].
  - rewrite Hc. split; intros _; [by right|by left].
Qed.

Lemma installed_ok : handler_ok installed.
Proof. unfold handler_ok. simpl. split_and!; [by split; [done|intros [|]]|lia|done]. Qed.

Lemma reachable_handler_ok s : rtc handler_step installed s -> handler_ok s.
Proof.
  intros Hr. pose proof installed_ok as Hok. induction Hr as [|x y z Hxy _ IH]; [done|].
  by eapply IH, handler_step_ok.
Qed.

(** A signal that is received does not end the command: Quit of the App does
    nothing, and the default action is disabled while the handler is installed. *)
Definition Quit (s : app_state) : result unit * app_state := (Ok tt, s).

(** The handler never keeps the command from ending: whatever signals arrive
    and whenever, Quit is called at most once, the function that run defers is
    never stuck, it is over after a bounded number of steps once the
    notification is stopped, and then the goroutine is over too. *)
Theorem handler_returns s : rtc handler_step installed s ->
  (quits s <= 1)%nat /\
  (main_thread s <> Running -> main_thread s <> Returned -> exists s', handler_step s s') /\
  (forall s', handler_step s s' -> main_thread s <> Running -> (left_to_do s' < left_to_do s)%nat) /\
  (main_thread s = Returned -> goroutine_done s = true /\ forall s', ~ handler_step s s').
Proof.
  intros (Hc & Hq & Hr)%reachable_handler_ok. split_and!.
  - destruct (goroutine_done s); lia.
  - intros H1 H2. destruct s as [m c b g q]. simpl in *. destruct m; [done|..|done].
    + destruct b; [by destruct (proj1 Hc eq_refl)|]. eexists. apply Closes.
    + destruct g; [eexists; apply Waits|]. destruct c as [v|]; [eexists; apply Quits|].
      assert (b = true) as -> by (apply Hc; by left). eexists. apply Exits.
  - intros s' Hs Hm. destruct Hs; unfold left_to_do; simpl in *; try done; destruct g || idtac; lia.
  - intros Hm. split; [by apply Hr|]. intros s' Hs. specialize (Hr Hm).
    destruct Hs; simpl in *; done.
Qed.

(** A signal while the command runs, then the end of the command. *)
Definition interrupted : handler := Handler AtWait None true true 1.

Lemma interrupted_reachable : rtc handler_step installed interrupted.
Proof.
  eapply rtc_l; [apply (Notified SIGINT)|]. eapply rtc_l; [apply Quits|]. eapply rtc_l; [apply Stops|].
  eapply rtc_l; [apply Closes|]. apply rtc_refl.
Qed.

Lemma handler_returns_witness : exists s', handler_step interrupted s'.
Proof.
  exact (proj1 (proj2 (handler_returns interrupted interrupted_reachable)) ltac:(discriminate) ltac:(discriminate)).
Defined.
