(* ===== verification/CliTree.v ===== *)
(** * cmd/aad-cli: the commands, their flags and what the command line can be

    The tree of commands that New registers with cobra, and the flags that the
    hooks and the commands read back from it. How cobra parses a command line is
    a parameter; what its documentation promises of a command that runs is a
    class. *)

From S2P Require Import Prelude GoStrings Interfaces Tables CacheDB CacheOpen CacheLife Config User.
From S2P Require Import CliUser CliConfig Decimal Format Logger LoggerFacts CliApp.
Open Scope string_scope.
Open Scope list_scope.
Open Scope Z_scope.

(** ** Commands and flags *)

Inductive flag_value := FString (s : string) | FBool (b : bool) | FCount (n : Z).

(** StringP, BoolP and CountP, with the letter and the value by default *)
Record flag := Flag { fl_name : string; fl_shorthand : string; fl_default : flag_value; fl_usage : string }.

(** The rules on the positional arguments *)
Inductive positional := ArbitraryArgs | NoArgs | MaximumNArgs (n : nat).

Record cobra_command := Command {
  Use : string;
  Short : string;
  Long : string;
  Args : positional;
  Flags : list flag;
  MutuallyExclusive : list (list string);
  completed_flags : list string;
}.

Definition installUser (o : app_options) : cobra_command := {|
  Use := "user [key] [value]";
  Short := "Manage local Azure AD user information";
  Long := "Manage local Azure AD user information

When called without arguments, this command will retrieve the cache record for the current user.

Specific values can be retrieved by passing an attribute name.
Values can be set by passing an attribute name and a value.

Currently the only modifiable attributes are: " +:+ Join ", " PasswdUpdateAttributes +:+ ".";
  Args := MaximumNArgs 2;
  Flags := [Flag "name" "n" (FString (ao_currentUser o)) "username to operate on";
            Flag "all" "a" (FBool false) "list all users";
            Flag "move-home" "m" (FBool false)
              "if updating home, move the content of the home directory to the new location"];
  MutuallyExclusive := [["name"; "all"]; ["move-home"; "all"]];
  completed_flags := ["name"];
|}.

Definition installConfig (o : app_options) (current : result string) : cobra_command := {|
  Use := "config";
  Short := "Manage aad-auth configuration";
  Long := "Manage aad-auth configuration

Edit or print the configuration file at " +:+ ao_configFile o +:+ ".";
  Args := NoArgs;
  Flags := [Flag "edit" "e" (FBool false) "Edit the configuration file in an external editor";
            Flag "domain" "d" (FString (getDefaultDomain current)) "Domain to use for parsing configuration"];
  MutuallyExclusive := [["edit"; "domain"]];
  completed_flags := [];
|}.

Definition installVersion : cobra_command := {|
  Use := "version";
  Short := "Returns the version of aad-cli and the PAM/NSS libraries if available";
  Long := "";
  Args := NoArgs;
  Flags := [];
  MutuallyExclusive := [];
  completed_flags := [];
|}.

(** The root command: its flags are those of every command. *)
Record root_command := Root { root : cobra_command; commands : list cobra_command }.

Definition rootCmd (o : app_options) (current : result string) : root_command := {|
  root := {|
    Use := "aad-cli [COMMAND]";
    Short := "Azure AD CLI";
    Long := "Manage Azure AD accounts configuration";
    Args := ArbitraryArgs;
    Flags := [Flag "verbose" "v" (FCount 0) "issue INFO (-v), DEBUG (-vv) or DEBUG with caller (-vvv) output"];
    MutuallyExclusive := [];
    completed_flags := [];
  |};
  commands := [installUser o; installConfig o current; installVersion];
|}.

(** The name of a command is the first word of its use. *)
Definition command_name (c : cobra_command) : string := default "" (head (Split " " (Use c))).

(** ** What the registration relies on

    pflag panics when a name or a letter is registered twice, cobra when a group
    or a completion names a flag that does not exist. *)

Definition all_flags (r : root_command) (c : cobra_command) : list flag := Flags (root r) ++ Flags c.

Definition well_formed_command (r : root_command) (c : cobra_command) : bool :=
  let names := fl_name <$> all_flags r c in
  bool_decide (NoDup names) && bool_decide (NoDup (filter (fun l => l <> "") (fl_shorthand <$> all_flags r c)))
  && forallb (fun n => bool_decide (n ∈ names)) (concat (MutuallyExclusive c) ++ completed_flags c).

Definition well_formed (r : root_command) : bool :=
  bool_decide (NoDup (command_name <$> commands r)) && forallb (well_formed_command r) (commands r).

Lemma New_well_formed o current : well_formed (rootCmd o current) = true.
Proof. reflexivity. Qed.

(** ** A command line that cobra has parsed *)

Record parsed := Parsed { pa_args : list string; pa_set : gmap string flag_value }.

Definition lookup_flag (r : root_command) (c : cobra_command) (name : string) : option flag :=
  head (filter (fun f => fl_name f = name) (all_flags r c)).

Section Flags.
Variables (r : root_command) (c : cobra_command) (p : parsed).

Definition flag_of (name : string) : option flag_value :=
  f ← lookup_flag r c name; mret (default (fl_default f) (pa_set p !! name)).

(** The error of a flag that does not exist, or of another type, is dropped. *)
Definition GetString (name : string) : string := match flag_of name with Some (FString s) => s | _ => "" end.
Definition GetBool (name : string) : bool := match flag_of name with Some (FBool b) => b | _ => false end.
Definition GetCount (name : string) : Z := match flag_of name with Some (FCount n) => n | _ => 0 end.
Definition Changed (name : string) : bool := bool_decide (is_Some (pa_set p !! name)).

(** What RunE passes on. *)
Definition command_of : option command :=
  if bool_decide (command_name c = "user") then
    Some (CmdUser (pa_args p) (GetString "name") (GetBool "all") (Changed "move-home") (GetBool "move-home"))
  else if bool_decide (command_name c = "config") then Some (CmdConfig (GetBool "edit") (GetString "domain"))
  else if bool_decide (command_name c = "version") then Some CmdVersion
  else None.
End Flags.

(** ** cobra *)

Definition args_ok (a : positional) (args : list string) : Prop :=
  match a with
  | ArbitraryArgs => True
  | NoArgs => args = []
  | MaximumNArgs n => (length args <= n)%nat
  end.

Definition same_type (v w : flag_value) : Prop :=
  match v, w with FString _, FString _ | FBool _, FBool _ | FCount _, FCount _ => True | _, _ => False end.

(** The flags that are set exist and have their type. *)
Definition flags_ok (r : root_command) (c : cobra_command) (p : parsed) : Prop :=
  forall name v, pa_set p !! name = Some v -> exists f, lookup_flag r c name = Some f /\ same_type v (fl_default f).

(** No two flags of a group are set. *)
Definition groups_ok (c : cobra_command) (p : parsed) : Prop :=
  forall g a b, g ∈ MutuallyExclusive c -> a ∈ g -> b ∈ g -> a <> b -> Changed p a = true -> Changed p b = false.

Inductive parse_result :=
  | Help
  | ParseError (e : gerror)
  | GroupError (c : cobra_command) (p : parsed) (e : gerror)
  | Accepted (c : cobra_command) (p : parsed).

(** [parse r argv]: what Execute makes of the arguments, up to RunE. *)
Class Cobra := {
  parse : root_command -> list string -> parse_result;
  parse_args r argv c p : parse r argv = Accepted c p -> c ∈ commands r /\ args_ok (Args c) (pa_args p);
  parse_flags r argv c p : parse r argv = Accepted c p -> flags_ok r c p;
  parse_refused r argv c p e : parse r argv = GroupError c p e -> c ∈ commands r;
  parse_groups r argv c p : parse r argv = Accepted c p -> groups_ok c p;
}.

Section Execute.
Context `{Cobra}.

(** What CliApp takes for the outcome of the parsing; nothing runs for a help. *)
Definition execute (o : app_options) (current : result string) (argv : list string) : option cobra_outcome :=
  let r := rootCmd o current in
  match parse r argv with
  | Help => None
  | ParseError e => Some (BeforeHooks e)
  | GroupError c p e => (fun cmd => AfterHooks (GetCount r c p "verbose") cmd e) <$> command_of r c p
  | Accepted c p => (fun cmd => Runs (GetCount r c p "verbose") cmd) <$> command_of r c p
  end.

(** A flag that is read has a value of the type that it is read with. *)
Lemma flag_of_typed r c p f : flags_ok r c p -> lookup_flag r c (fl_name f) = Some f ->
  exists v, flag_of r c p (fl_name f) = Some v /\ same_type v (fl_default f).
Proof.
  intros Hf Hl. unfold flag_of. rewrite Hl. simpl. destruct (pa_set p !! fl_name f) as [v|] eqn:Ev; simpl.
  - exists v. split; [done|]. destruct (Hf _ _ Ev) as (f' & Hl' & Ht). congruence.
  - exists (fl_default f). split; [done|]. by destruct (fl_default f).
Qed.

(** An excluded flag keeps its value by default. *)
Lemma unchanged_default r c p name f : lookup_flag r c name = Some f -> Changed p name = false ->
  flag_of r c p name = Some (fl_default f).
Proof.
  intros Hl Hc. unfold flag_of. rewrite Hl. simpl. unfold Changed in Hc. apply bool_decide_eq_false_1 in Hc.
  by apply eq_None_not_Some in Hc as ->.
Qed.

(** What a user command that runs was given. *)
Lemma execute_user o current argv v args name all changed move_home :
  execute o current argv = Some (Runs v (CmdUser args name all changed move_home)) ->
  exists p, parse (rootCmd o current) argv = Accepted (installUser o) p /\ args = pa_args p /\
    name = GetString (rootCmd o current) (installUser o) p "name" /\
    all = GetBool (rootCmd o current) (installUser o) p "all" /\
    changed = Changed p "move-home" /\ move_home = GetBool (rootCmd o current) (installUser o) p "move-home".
Proof.
  unfold execute. destruct (parse _ argv) as [|e|c p e|c p] eqn:E; [done|done|by destruct (command_of _ c p)|].
  destruct (command_of _ c p) as [cmd|] eqn:Ec; [|done]. simpl. intros [= <- ->]. exists p.
  pose proof (parse_args _ _ _ _ E) as [Hin _]. simpl in Hin. rewrite !elem_of_cons, elem_of_nil in Hin.
  destruct Hin as [->|[->|[->|[]]]]; [|done..]. unfold command_of in Ec. simpl in Ec. by injection Ec as <- <- <- <- <-.
Qed.

Lemma command_of_commands o current c p : c ∈ commands (rootCmd o current) -> is_Some (command_of (rootCmd o current) c p).
Proof.
  simpl. rewrite !elem_of_cons, elem_of_nil. intros [->|[->|[->|[]]]]; unfold command_of; simpl; by eexists.
Qed.

(** Every command that cobra knows is one that is dispatched. *)
Lemma execute_total o current argv : execute o current argv = None <-> parse (rootCmd o current) argv = Help.
Proof.
  unfold execute. destruct (parse _ argv) as [|e|c p e|c p] eqn:E; [done|done|..].
  - destruct (command_of_commands o current c p (parse_refused _ _ _ _ _ E)) as [cmd ->]. done.
  - destruct (command_of_commands o current c p (proj1 (parse_args _ _ _ _ E))) as [cmd ->]. done.
Qed.

(** Whatever the command line, when runUser is reached there are at most
    two arguments; with --all the user is the current one and no home directory
    is moved; and a home directory is only moved with two arguments, one of which
    is the word home. Every flag is read with the type that it was declared with,
    so that no error that is dropped hides a value. *)
Theorem user_command_line o current argv v args name all changed move_home :
  execute o current argv = Some (Runs v (CmdUser args name all changed move_home)) -> PreRunE changed args = None ->
  (length args <= 2)%nat /\
  (all = true -> name = ao_currentUser o /\ move_home = false) /\
  (move_home = true -> length args = 2%nat /\ "home" ∈ args) /\
  (exists p, parse (rootCmd o current) argv = Accepted (installUser o) p /\
    flag_of (rootCmd o current) (installUser o) p "name" = Some (FString name) /\
    flag_of (rootCmd o current) (installUser o) p "all" = Some (FBool all) /\
    flag_of (rootCmd o current) (installUser o) p "move-home" = Some (FBool move_home)).
Proof.
  intros E Hpre. apply execute_user in E as (p & Ep & -> & -> & -> & -> & ->).
  pose proof (parse_args _ _ _ _ Ep) as [_ Ha]. pose proof (parse_flags _ _ _ _ Ep) as Hf.
  pose proof (parse_groups _ _ _ _ Ep) as Hg. set (r := rootCmd o current) in *. set (c := installUser o) in *.
  destruct (flag_of_typed r c p (Flag "name" "n" (FString (ao_currentUser o)) "username to operate on") Hf eq_refl)
    as (vn & En & Tn). destruct vn as [name| |]; [|done..].
  destruct (flag_of_typed r c p (Flag "all" "a" (FBool false) "list all users") Hf eq_refl) as (va & Ea & Ta).
  destruct va as [|all|]; [done| |done].
  destruct (flag_of_typed r c p (Flag "move-home" "m" (FBool false)
    "if updating home, move the content of the home directory to the new location") Hf eq_refl) as (vm & Em & Tm).
  destruct vm as [|mh|]; [done| |done]. cbn [fl_name] in *. unfold GetString, GetBool. rewrite En, Ea, Em.
  assert (forall name b, lookup_flag r c name = Some b -> fl_default b = FBool false ->
    flag_of r c p name = Some (FBool true) -> Changed p name = true) as Hset.
  { intros n b Hl Hd Hn. destruct (Changed p n) eqn:Hc; [done|]. rewrite (unchanged_default r c p n b Hl Hc), Hd in Hn. done. }
  split; [exact Ha|]. split; [|split; [|by exists p]].
  - intros ->. pose proof (Hset "all" _ eq_refl eq_refl Ea) as Hall. split.
    + rewrite (unchanged_default r c p "name" _ eq_refl) in En; [by injection En|].
      apply (Hg ["name"; "all"] "all" "name"); [by left|by right; left|by left|done|done].
    + rewrite (unchanged_default r c p "move-home" _ eq_refl) in Em; [by injection Em|].
      apply (Hg ["move-home"; "all"] "all" "move-home"); [by right; left|by right; left|by left|done|done].
  - intros ->. pose proof (Hset "move-home" _ eq_refl eq_refl Em) as Hm. unfold PreRunE in Hpre. rewrite Hm in Hpre.
    destruct (Z.ltb_spec (Z.of_nat (length (pa_args p))) 2); [done|]. simpl in Hpre.
    case_bool_decide as Hh; [done|]. split; [simpl in Ha; lia|]. by destruct (decide ("home" ∈ pa_args p)).
Qed.
End Execute.

(** ** A parser for the long flags *)

Module LongFlags.
Fixpoint take_flags (r : root_command) (c : cobra_command) (p : parsed) (argv : list string) : option parsed :=
  match argv with
  | [] => Some p
  | arg :: argv =>
      if String.prefix "--" arg then
        let name := String.substring 2 (String.length arg - 2) arg in
        let set v := Parsed (pa_args p) (<[name := v]> (pa_set p)) in
        f ← lookup_flag r c name;
        match fl_default f, argv with
        | FString _, v :: argv => take_flags r c (set (FString v)) argv
        | FString _, [] => None
        | FBool _, argv => take_flags r c (set (FBool true)) argv
        | FCount _, argv => take_flags r c (set (FCount (GetCount r c p name + 1))) argv
        end
      else take_flags r c (Parsed (pa_args p ++ [arg]) (pa_set p)) argv
  end.

Definition accepts_args (a : positional) (args : list string) : bool :=
  match a with ArbitraryArgs => true | NoArgs => bool_decide (args = []) | MaximumNArgs n => (length args <=? n)%nat end.

Definition accepts_type (v w : flag_value) : bool :=
  match v, w with FString _, FString _ | FBool _, FBool _ | FCount _, FCount _ => true | _, _ => false end.

Definition accepts_flags (r : root_command) (c : cobra_command) (p : parsed) : bool :=
  forallb (fun nv => match lookup_flag r c nv.1 with Some f => accepts_type nv.2 (fl_default f) | None => false end)
    (map_to_list (pa_set p)).

Definition accepts_groups (c : cobra_command) (p : parsed) : bool :=
  forallb (fun g => forallb (fun a => forallb (fun b => bool_decide (a = b) || negb (Changed p a && Changed p b)) g) g)
    (MutuallyExclusive c).

Definition long_parse (r : root_command) (argv : list string) : parse_result :=
  match argv with
  | [] => Help
  | name :: argv =>
      match head (filter (fun c => command_name c = name) (commands r)) with
      | None => ParseError (Opaque "unknown command %q for %q")
      | Some c =>
          match take_flags r c (Parsed [] ∅) argv with
          | Some p =>
              if negb (accepts_args (Args c) (pa_args p) && accepts_flags r c p)
              then ParseError (Opaque "accepts at most %d arg(s), received %d")
              else if accepts_groups c p then Accepted c p
              else GroupError c p (Opaque "if any flags in the group [%v] are set none of the others can be")
          | None => ParseError (Opaque "unknown flag: --%s")
          end
      end
  end.

Lemma long_parse_command r argv c p : long_parse r argv = Accepted c p \/ (exists e, long_parse r argv = GroupError c p e) ->
  c ∈ commands r.
Proof.
  unfold long_parse. destruct argv as [|name argv]; [by intros [|[]]|].
  destruct (head _) as [c'|] eqn:Eh; [|by intros [|[]]].
  destruct (filter _ (commands r)) as [|c0 cs] eqn:Ef; [done|]. injection Eh as ->.
  assert (c' ∈ commands r) as Hin by (apply (list_elem_of_filter (fun c => command_name c = name)); rewrite Ef; by left).
  destruct (take_flags _ _ _ _) as [p'|]; [|by intros [|[]]]. destruct (negb _); [by intros [|[]]|].
  destruct (accepts_groups _ _); intros [E|[e E]]; by simplify_eq.
Qed.

Lemma long_parse_accepted r argv c p : long_parse r argv = Accepted c p ->
  accepts_args (Args c) (pa_args p) = true /\ accepts_flags r c p = true /\ accepts_groups c p = true.
Proof.
  unfold long_parse. destruct argv as [|name argv]; [done|]. destruct (head _) as [c'|]; [|done].
  destruct (take_flags _ _ _ _) as [p'|]; [|done].
  destruct (accepts_args (Args c') (pa_args p') && accepts_flags r c' p') eqn:E; cbn [negb]; [|done].
  destruct (accepts_groups c' p') eqn:Eg; [|done]. intros [= -> ->]. by apply andb_true_iff in E as [? ?].
Qed.

#[global, program] Instance long_flags : Cobra := {| parse := long_parse |}.
Next Obligation.
  intros r argv c p E. split; [by apply (long_parse_command r argv c p); left|].
  apply long_parse_accepted in E as (Ha & _). unfold accepts_args, args_ok in *.
  destruct (Args c); [done|by apply bool_decide_eq_true_1 in Ha|by apply Nat.leb_le].
Qed.
Next Obligation.
  intros r argv c p (_ & Hf & _)%long_parse_accepted name v Hv. unfold accepts_flags in Hf. rewrite forallb_forall in Hf.
  specialize (Hf (name, v)). simpl in Hf. destruct (lookup_flag r c name) as [f|].
  - exists f. split; [done|]. cut (accepts_type v (fl_default f) = true); [by destruct v, (fl_default f)|].
    apply Hf. by apply list_elem_of_In, elem_of_map_to_list.
  - cut (false = true); [done|]. apply Hf. by apply list_elem_of_In, elem_of_map_to_list.
Qed.
Next Obligation. intros r argv c p e E. apply (long_parse_command r argv c p). right. by exists e. Qed.
Next Obligation.
  intros r argv c p (_ & _ & Hg)%long_parse_accepted g a b Hin Ha Hb Hne Hc. unfold accepts_groups in Hg.
  rewrite forallb_forall in Hg. specialize (Hg g ltac:(by apply list_elem_of_In)).
  rewrite forallb_forall in Hg. specialize (Hg a ltac:(by apply list_elem_of_In)).
  rewrite forallb_forall in Hg. specialize (Hg b ltac:(by apply list_elem_of_In)).
  rewrite bool_decide_eq_false_2, Hc in Hg by done. by destruct (Changed p b).
Qed.
End LongFlags.
Import LongFlags.

(** ** Command lines *)

Definition default_app : app_options := App_New "" (Ok "alice@d") [].

Example run_user_all : execute default_app (Ok "alice@d") ["user"; "--all"; "--verbose"; "--verbose"]
  = Some (Runs 2 (CmdUser [] "alice@d" true false false)).
Proof. vm_compute. done. Qed.
Example run_config : execute default_app (Ok "alice@d") ["config"; "--domain"; "d"] = Some (Runs 0 (CmdConfig false "d")).
Proof. vm_compute. done. Qed.
Example refused_group : exists e, execute default_app (Ok "alice@d") ["config"; "--edit"; "--domain"; "d"]
  = Some (AfterHooks 0 (CmdConfig true "d") e).
Proof. eexists. vm_compute. done. Qed.
Example refused_args : exists e, execute default_app (Ok "alice@d") ["user"; "home"; "/a"; "/b"] = Some (BeforeHooks e).
Proof. eexists. vm_compute. done. Qed.

(** The check of --move-home looks for the word among both arguments: setting
    the gecos to the word home passes it. *)
Example move_home_for_gecos : PreRunE true ["gecos"; "home"] = None.
Proof. done. Qed.

Example move_home_line :
  execute default_app (Ok "alice@d") ["user"; "home"; "/b"; "--move-home"; "--name"; "bob@d"]
  = Some (Runs 0 (CmdUser ["home"; "/b"] "bob@d" false true true)).
Proof. vm_compute. done. Qed.

Lemma user_command_line_witness : (length ["home"; "/b"] <= 2)%nat /\ "home" ∈ ["home"; "/b"].
Proof.
  destruct (user_command_line _ _ _ _ _ _ _ _ _ move_home_line eq_refl) as (Hl & _ & Hm & _).
  split; [exact Hl|]. exact (proj2 (Hm eq_refl)).
Defined.
