(* ===== verification/PamGlue.v ===== *)
(** * pam/utils_c.go and the messages of the PAM module

    What the C helpers make of the arguments and of the items of a PAM
    transaction, the loop over the arguments with the logger that it sets up,
    and pam_sm_authenticate with both. Pam models the same entry point without
    its messages and from what the helpers return; the theorems of this file
    relate the two. *)

From S2P Require Import Prelude GoStrings Interfaces Tables CacheDB CacheAuth CacheOpen CacheLife.
From S2P Require Import Config Aad User Pam.
From S2P Require Import Format Logger LoggerFacts.
Open Scope string_scope.
Open Scope list_scope.
Open Scope Z_scope.

(** ** C strings

    A [char *] is NULL or a string without a NUL byte; reading through NULL
    ends the process. *)

Definition c_pointer : Type := option string.

Definition segfault {A} : result A := Panic "SIGSEGV".

(** [strdup] *)
Definition strdup (p : c_pointer) : result string :=
  match p with Some s => Ok (c_string s) | None => segfault end.

(** string_from_argv *)
Definition string_from_argv (i : nat) (argv : list c_pointer) : result string :=
  match argv !! i with Some p => strdup p | None => segfault end.

(** The loop of sliceFromArgv, for the [n] arguments from [i] on. *)
Fixpoint slice_from (n i : nat) (argv : list c_pointer) : result (list string) :=
  match n with
  | O => Ok []
  | S n => s ← string_from_argv i argv; r ← slice_from n (S i) argv; Ok (s :: r)
  end.

(** sliceFromArgv: [make] refuses a negative capacity. *)
Definition sliceFromArgv (argc : Z) (argv : list c_pointer) : result (list string) :=
  if argc <? 0 then Panic "makeslice: cap out of range"
  else slice_from (Z.to_nat argc) 0 argv.

(** An item of a transaction, as [pam_get_item] gives it: the code, and the
    pointer when the code is PAM_SUCCESS. *)
Record pam_items := PamItems {
  item_user : Z * c_pointer;
  item_authtok : Z * c_pointer;
}.

(** The C function get_user, for a handle that may be NULL. *)
Definition get_user (pamh : option pam_items) : result c_pointer :=
  match pamh with
  | None => Ok None
  | Some it =>
      let '(code, user) := item_user it in
      if negb (code =? PAM_SUCCESS) then Ok None
      else s ← strdup user; Ok (Some s)
  end.

(** The C function get_password *)
Definition get_password (pamh : option pam_items) : result c_pointer :=
  match pamh with
  | None => Ok None
  | Some it =>
      let '(code, passwd) := item_authtok it in
      if negb (code =? PAM_SUCCESS) then Ok None
      else match passwd with
           | None => Ok None
           | Some _ => s ← strdup passwd; Ok (Some s)
           end
  end.

Definition getUser (pamh : option pam_items) : result string :=
  cUsername ← get_user pamh;
  match cUsername with Some s => Ok s | None => Err (Opaque "no user found") end.

Definition getPassword (pamh : option pam_items) : result string :=
  cPasswd ← get_password pamh;
  match cPasswd with Some s => Ok s | None => Err (Opaque "no password found") end.

(** ** pam_sm_authenticate, with its messages *)

(** The process and what it logs. *)
Record module_state := ModuleState { ms_pam : pam_state; ms_log : log_io }.

Definition on_log {A} (m : M log_io A) : M module_state A :=
  zoom ms_log (fun l s => ModuleState (ms_pam s) l) m.
Definition on_pam {A} (m : M pam_state A) : M module_state A :=
  zoom ms_pam (fun p s => ModuleState p (ms_log s)) m.

Section Module.
Context `{Decorator} `{Bcrypt} `{RowOrder} `{IniLib} `{JsonCodes} `{UnicodeLower} `{UnicodePrint}.
Variables euid egid : Z.
Variable groups : list Z.
Variable LookupGroup : string -> result string.
Variable passwd_first : nat -> bool.
Variable ReadFile : string -> result string.
Variable publicNewRealClient : client_maker.
Variable other_verb : string + Z -> spec -> Z -> string.

(** supportedOption: whether the name is known and the options after it, with
    the warnings that it logs. *)
Variable supportedOption : pam_logger -> list PamOption -> string -> string -> M log_io (bool * list PamOption).

(** The arguments read so far and the logger that they ask for. *)
Definition log_arg (pamh : nat) (st : arguments * pam_logger) (arg : string) : M log_io (arguments * pam_logger) :=
  let '(a, pamLogger) := st in
  let '(opt, optarg, _) := Cut "=" arg in
  if bool_decide (opt = "conf") then mret (Arguments_ optarg (debug a) (sm_opts a), pamLogger)
  else if bool_decide (opt = "debug") then
    pamLogger ← NewLogger pamh LogDebug [];
    pam_Debug pamLogger "PAM AAD DEBUG enabled" [] ;;
    mret (Arguments_ (conf_path a) true (sm_opts a), pamLogger)
  else
    r ← supportedOption pamLogger (sm_opts a) opt optarg;
    let '(supported, opts) := r in
    let a := Arguments_ (conf_path a) (debug a) opts in
    if supported : bool then mret (a, pamLogger)
    else
      pam_Warn pamLogger ("unknown option: %s" +:+ eol) [text_ other_verb opt] ;;
      mret (a, pamLogger).

Fixpoint log_args (pamh : nat) (st : arguments * pam_logger) (args : list string) : M log_io (arguments * pam_logger) :=
  match args with
  | [] => mret st
  | arg :: args => st ← log_arg pamh st arg; log_args pamh st args
  end.

(** [pamh] names the transaction, [items] is what libpam holds for it. The lines
    that Authenticate itself logs are not kept. *)
Definition module_authenticate (pamh : nat) (items : option pam_items) (argc : Z) (argv : list c_pointer)
    (opts : list PamOption) : M module_state Z :=
  pamLogger ← on_log (NewLogger pamh LogInfo []);
  args ← lift (sliceFromArgv argc argv);
  st ← on_log (log_args pamh (Arguments_ DefaultConfigPath false opts, pamLogger) args);
  let '(a, pamLogger) := st in
  ru ← attempt (lift (getUser items));
  match ru with
  | inr err => on_log (pam_Err pamLogger "no user found" []) ;; mret PAM_SYSTEM_ERR
  | inl username =>
      rp ← attempt (lift (getPassword items));
      match rp with
      | inr err => on_log (pam_Err pamLogger "no password found" []) ;; mret PAM_SYSTEM_ERR
      | inl password =>
          r ← attempt (on_pam (Authenticate euid egid groups LookupGroup passwd_first ReadFile publicNewRealClient
                         username password (conf_path a) (sm_opts a)));
          match r with
          | inl _ => mret (pam_code None)
          | inr err => mret (pam_code (Some err))
          end
      end
  end.
End Module.

(** supportedOption of a production build *)
Definition supported_nomock (l : pam_logger) (opts : list PamOption) (opt arg : string)
    : M log_io (bool * list PamOption) := mret (supportedOption_nomock opts opt arg).

(** What [strconv.Atoi] returns with an error: 0, or the bound that was passed. *)
Definition Atoi_on_error (s : string) : Z :=
  match Atoi s with
  | Err (Opaque why) =>
      if bool_decide (why = "strconv.Atoi: parsing %q: value out of range") then
        (if starts "-" s then - 2 ^ 63 else 2 ^ 63 - 1)
      else 0
  | _ => 0
  end.

(** supportedOption of an integration test build: an argument that is not an
    integer is reported, with an operand that is missing. *)
Definition supported_testmock `{JsonCodes} `{UnicodePrint} (other_verb : string + Z -> spec -> Z -> string)
    (l : pam_logger) (opts : list PamOption) (opt arg : string) : M log_io (bool * list PamOption) :=
  (if bool_decide (opt ∈ ["rootUID"; "rootGID"; "shadowGID"]) && negb (is_ok (Atoi arg)) then
     pam_Warn l "%v for %s parameter is not an int" [int_ other_verb (Atoi_on_error arg)]
   else mret tt) ;;
  mret (supportedOption_testmock opts opt arg).

(** ** The glue does what the model of the module assumes *)

(** argv as C gives it: [argc] strings. *)
Definition argv_of (args : list string) : list c_pointer := Some <$> args.

Lemma c_string_id s : no_byte (chr 0) s -> c_string s = s.
Proof. intros Hs. unfold c_string. by rewrite Cut_not_found. Qed.

Lemma c_string_no_nul s : no_byte (chr 0) (c_string s).
Proof.
  unfold c_string. induction s as [|a s IH]; [apply not_elem_of_nil|]. simpl.
  case_bool_decide; [apply not_elem_of_nil|]. destruct (Cut (chr 0) s) as [[b c] f]. by apply no_byte_cons.
Qed.



(** A transaction without a user ends the process: get_user duplicates the
    NULL that libpam returns with PAM_SUCCESS, where get_password answers
    that there is none. *)
Theorem unset_user_crashes it :
  item_user it = (PAM_SUCCESS, None) -> item_authtok it = (PAM_SUCCESS, None) ->
  getUser (Some it) = segfault /\ getPassword (Some it) = Err (Opaque "no password found").
Proof. unfold getUser, getPassword, get_user, get_password. intros -> ->. done. Qed.

Lemma unset_user_crashes_witness :
  getUser (Some (PamItems (0, None) (0, None))) = segfault /\
  getPassword (Some (PamItems (0, None) (0, None))) = Err (Opaque "no password found").
Proof. exact (unset_user_crashes (PamItems (0, None) (0, None)) eq_refl eq_refl). Defined.



Section Refinement.
Context `{Decorator} `{Bcrypt} `{RowOrder} `{IniLib} `{JsonCodes} `{UnicodeLower} `{UnicodePrint}.
Variables euid egid : Z.
Variable groups : list Z.
Variable LookupGroup : string -> result string.
Variable passwd_first : nat -> bool.
Variable ReadFile : string -> result string.
Variable publicNewRealClient : client_maker.
Variable other_verb : string + Z -> spec -> Z -> string.
(** Any supportedOption that decides as its model does, whatever it logs. *)
Variable pure : list PamOption -> string -> string -> bool * list PamOption.
Variable supportedOption : pam_logger -> list PamOption -> string -> string -> M log_io (bool * list PamOption).
Hypothesis supportedOption_pure : forall l opts opt arg s,
  exists s', supportedOption l opts opt arg s = (Ok (pure opts opt arg), s').




End Refinement.

(** ** The messages of a production build *)

Section Messages.
Context `{UnicodePrint}.
Variable other_verb : string + Z -> spec -> Z -> string.

Definition arg_lines (pamh : nat) (arg : string) : list entry :=
  let opt := (Cut "=" arg).1.1 in
  if bool_decide (opt = "conf") then []
  else if bool_decide (opt = "debug") then
    [PamSyslog pamh LOG_DEBUG ("aad auth debug enabled" +:+ eol); PamSyslog pamh LOG_DEBUG "PAM AAD DEBUG enabled"]
  else [PamSyslog pamh LOG_WARNING (c_string ("unknown option: " +:+ opt +:+ eol))].

(** The logger that a list of arguments leaves. *)
Definition logger_for (pamh : nat) (a : arguments) : pam_logger :=
  PamLogger pamh (if debug a then LogDebug else LogInfo) pamSyslog.

Lemma wrote_wrote o1 o2 s : wrote o2 (wrote o1 s) = wrote (o1 ++ o2) s.
Proof. unfold wrote. simpl. by rewrite app_assoc. Qed.

Lemma wrote_nil s : wrote [] s = s.
Proof. unfold wrote. destruct s. simpl. by rewrite app_nil_r. Qed.

Lemma unknown_option_text opt :
  Sprintf ("unknown option: %s" +:+ eol) [text_ other_verb opt] = "unknown option: " +:+ opt +:+ eol.
Proof.
  pose proof (Sprintf_format [("unknown option: ", "s"%char)] eol [text_ other_verb opt]) as Hs.
  unfold format_of in Hs. csimpl in Hs. rewrite !append_nil_r, !append_assoc in Hs.
  apply Hs; [|no_byte_closed|done]. constructor; [|done]. split; [no_byte_closed|done].
Qed.

Lemma log_arg_production pamh a arg s :
  log_arg other_verb supported_nomock pamh (a, logger_for pamh a) arg s
  = (Ok (read_arg supportedOption_nomock a arg, logger_for pamh (read_arg supportedOption_nomock a arg)),
     wrote (arg_lines pamh arg) s).
Proof.
  unfold log_arg, read_arg, arg_lines. destruct (Cut "=" arg) as [[opt optarg] found]. simpl.
  destruct (bool_decide (opt = "conf")); [by rewrite wrote_nil|].
  destruct (bool_decide (opt = "debug")).
  { replace (wrote _ s) with (wrote [PamSyslog pamh LOG_DEBUG "PAM AAD DEBUG enabled"]
      (wrote [PamSyslog pamh LOG_DEBUG ("aad auth debug enabled" +:+ eol)] s)) by apply wrote_wrote. reflexivity. }
  unfold pam_Warn, logWithPam, pamSyslog, logger_for. simpl. unfold mbind, M_bind, emit.
  by rewrite unknown_option_text.
Qed.

(** In production every argument of the module has its effect and its lines
    in the PAM log, in the order of the arguments: conf is silent, debug
    announces itself at each of its occurrences, anything else is reported
    by name; and the logger that stays lets debug messages through exactly
    when debug was given. *)
Theorem log_args_production pamh args a s :
  log_args other_verb supported_nomock pamh (a, logger_for pamh a) args s
  = (Ok (fold_left (read_arg supportedOption_nomock) args a,
         logger_for pamh (fold_left (read_arg supportedOption_nomock) args a)),
     wrote (args ≫= arg_lines pamh) s).
Proof.
  revert a s. induction args as [|arg args IH]; intros a s; [by rewrite wrote_nil|].
  cbn [log_args]. unfold mbind at 1, M_bind. rewrite log_arg_production, IH, wrote_wrote. done.
Qed.
End Messages.

(** ** Concrete runs *)

Import Concrete ConcreteIni ConcreteJson ConcreteFormat.

Definition root_items : option pam_items := Some (PamItems (0, Some "success@domain.com") (0, Some "secret")).

Definition run_module (items : option pam_items) (args : list string) : result Z * module_state :=
  module_authenticate 0 0 root_groups shadow_group in_order machine_files publicNewMockClient no_other supported_nomock
    0 items (Z.of_nat (length args)) (argv_of args) [] (ModuleState machine quiet).

Example run_success : (run_module root_items ["debug"]).1 = Ok PAM_SUCCESS.
Proof. vm_compute. reflexivity. Qed.
Example run_lines : written (ms_log (run_module None ["typo=1"]).2)
  = [PamSyslog 0 LOG_WARNING ("unknown option: typo" +:+ eol); PamSyslog 0 LOG_ERR "no user found"].
Proof. vm_compute. reflexivity. Qed.
Example run_no_password :
  (run_module (Some (PamItems (0, Some "u@domain.com") (0, None))) []).1 = Ok PAM_SYSTEM_ERR.
Proof. vm_compute. reflexivity. Qed.
Example run_no_user : (run_module (Some (PamItems (0, None) (0, Some "x"))) []).1 = segfault.
Proof. vm_compute. reflexivity. Qed.


(** The warning of the test build lacks an operand. *)
Example testmock_warning :
  (supported_testmock no_other (PamLogger 0 LogInfo pamSyslog) [] "rootUID" "abc" quiet).2
  = wrote [PamSyslog 0 LOG_WARNING "0 for %!s(MISSING) parameter is not an int"] quiet.
Proof. vm_compute. reflexivity. Qed.
