(* ===== verification/TestDump.v ===== *)
(** * internal/testutils/db.go: dumps of the cache for the tests

    The tests of the program compare and load its databases as text: dumpTable
    writes a table line by line, ReadDumpAsTables reads a dump back, and
    loadDumpIntoDB inserts it, with the time wildcards of the dump files. A
    failed [require] ends the test: it is an error. *)

From S2P Require Import Prelude GoStrings Interfaces Tables CacheDB CacheFacts CacheAuth Logger LoggerFacts.
Open Scope string_scope.
Open Scope list_scope.
Open Scope Z_scope.

(** ** Reading a dump *)

(** type Table *)
Record Table := MkTable { Cols : list string; Rows : list (gmap string string) }.

#[export] Instance Table_eq_dec : EqDecision Table.
Proof. solve_decision. Defined.

Definition prepend (s : string) (l : list string) : list string :=
  match l with [] => [s] | x :: l => (s +:+ x) :: l end.

(** [strings.Split(s, "\n\n")] *)
Fixpoint Split_blank (s : string) : list string :=
  match s with
  | EmptyString => [EmptyString]
  | String a s' =>
      match s' with
      | String b s'' =>
          if bool_decide (a = newline /\ b = newline) then EmptyString :: Split_blank s''
          else prepend (str1 a) (Split_blank s')
      | EmptyString => [str1 a]
      end
  end.

(** The cells of a line, under their columns: [table.Cols[i]] panics when there
    are more cells than columns. *)
Fixpoint read_cells (cols cells : list string) (row : gmap string string) : result (gmap string string) :=
  match cells, cols with
  | [], _ => Ok row
  | v :: cells, col :: cols => read_cells cols cells (<[col := v]> row)
  | _ :: _, [] => Panic "index out of range"
  end.

Fixpoint read_rows (cols : list string) (lines : list string) : result (list (gmap string string)) :=
  match lines with
  | [] => Ok []
  | data :: lines =>
      row ← read_cells cols (Split "," data) ∅;
      rows ← read_rows cols lines;
      Ok (row :: rows)
  end.

(** One group of lines: the name, the columns, the rows. *)
Definition read_table (lines : list string) : result (string * Table) :=
  match lines with
  | name :: cols :: (_ :: _) as content =>
      let cols := Split "," cols in
      rows ← read_rows cols (drop 2 lines);
      Ok (name, MkTable cols rows)
  | _ => Err (Opaque "%q should contain 3 lines at least: name/row names/data")
  end.

Fixpoint read_tables (groups : list string) (tables : gmap string Table) : result (gmap string Table) :=
  match groups with
  | [] => Ok tables
  | table :: groups =>
      let lines := Split newline table in
      if (length lines =? 1)%nat then Ok tables
      else
        t ← read_table lines;
        read_tables groups (<[t.1 := t.2]> tables)
  end.

Definition ReadDumpAsTables (data : string) : result (gmap string Table) :=
  read_tables (Split_blank data) ∅.

(** ** Writing a dump *)

(** A table as SQLite gives it: its columns and the cells of its rows, NULL
    being [None]. *)
Record sql_table := SqlTable {
  tbl_name : string;
  tbl_cols : list string;
  tbl_rows : list (list (option string));
}.

(** Scanning a row into strings: a NULL does not fit. *)
Definition scan_strings (row : list (option string)) : result (list string) :=
  match mapM id row with
  | Some cells => Ok cells
  | None => Err (Opaque "Failed to scan row")
  end.

(** The first cell of a column is replaced. *)
Fixpoint replace_col (col value : string) (cols data : list string) : list string :=
  match cols, data with
  | c :: cols, d :: data =>
      if bool_decide (c = col) then value :: data else d :: replace_col col value cols data
  | _, _ => data
  end.

Definition predicatableFieldValues (name : string) (data cols : list string) : list string :=
  if bool_decide (name = "shadow") then replace_col "password" "HASHED_PASSWORD" cols data
  else if bool_decide (name = "passwd") then replace_col "last_online_auth" "4242" cols data
  else data.

Definition line (s : string) : string := s +:+ eol.

Fixpoint dump_rows (name : string) (cols : list string) (rows : list (list (option string)))
    (usePredicatableFieldValues : bool) : result string :=
  match rows with
  | [] => Ok EmptyString
  | row :: rows =>
      data ← scan_strings row;
      let data := if usePredicatableFieldValues then predicatableFieldValues name data cols else data in
      rest ← dump_rows name cols rows usePredicatableFieldValues;
      Ok (line (Join "," data) +:+ rest)
  end.

Definition dumpTable (t : sql_table) (usePredicatableFieldValues : bool) : result string :=
  rows ← dump_rows (tbl_name t) (tbl_cols t) (tbl_rows t) usePredicatableFieldValues;
  Ok (line (Join "," (tbl_cols t)) +:+ rows).

(** The tables of a database file, in the order of sqlite_schema. *)
Fixpoint dbToCsv (ts : list sql_table) (usePredicatableFieldValues : bool) : result string :=
  match ts with
  | [] => Ok EmptyString
  | t :: ts =>
      content ← dumpTable t usePredicatableFieldValues;
      rest ← dbToCsv ts usePredicatableFieldValues;
      Ok (line (tbl_name t) +:+ content +:+ eol +:+ rest)
  end.

(** The files of the cache as such tables. *)
Definition int_cell (z : Z) : option string := Some (pretty z).

Definition passwd_cells (r : passwd_row) : list (option string) :=
  [Some (p_login r); p_password r; int_cell (p_uid r); int_cell (p_gid r); p_gecos r; p_home r; p_shell r;
   pretty <$> p_last_online_auth r].
Definition group_cells (r : group_row) : list (option string) :=
  [Some (g_name r); g_password r; int_cell (g_gid r)].
Definition uid_gid_cells (r : uid_gid_row) : list (option string) := [int_cell (ug_uid r); int_cell (ug_gid r)].
Definition shadow_cells (r : shadow_row) : list (option string) :=
  [int_cell (s_uid r); Some (s_password r); int_cell (s_last_pwd_change r); int_cell (s_min_pwd_age r);
   int_cell (s_max_pwd_age r); int_cell (s_pwd_warn_period r); int_cell (s_pwd_inactivity r);
   int_cell (s_expiration_date r)].

Definition passwd_cols : list string :=
  ["login"; "password"; "uid"; "gid"; "gecos"; "home"; "shell"; "last_online_auth"].
Definition shadow_cols : list string :=
  ["uid"; "password"; "last_pwd_change"; "min_pwd_age"; "max_pwd_age"; "pwd_warn_period"; "pwd_inactivity";
   "expiration_date"].

Section Dump.
Context `{RowOrder}.

Definition passwd_file (d : database) : list sql_table :=
  [SqlTable "passwd" passwd_cols (row_order (passwd_cells <$> t_passwd d));
   SqlTable "groups" ["name"; "password"; "gid"] (row_order (group_cells <$> t_groups d));
   SqlTable "uid_gid" ["uid"; "gid"] (row_order (uid_gid_cells <$> t_uid_gid d))].
Definition shadow_file (d : database) : list sql_table :=
  [SqlTable "shadow" shadow_cols (row_order (shadow_cells <$> t_shadow d))].
End Dump.

(** ** Loading a dump *)

Definition days (n : Z) : Z := n * 24 * Hour.

(** ParseTimeWildcard, at the time [now] *)
Definition ParseTimeWildcard (now : Z) (value : string) : Z :=
  let c := Hour * 48 in
  let expirationDays := i64 (i64 (i64 defaultCredentialsExpiration * 24) * Hour) in
  let addend :=
    if bool_decide (value = "RECENT_TIME") then - c
    else if bool_decide (value = "PURGED_TIME") then - (2 * expirationDays + c)
    else if bool_decide (value = "EXPIRED_TIME") then - (expirationDays + c)
    else if bool_decide (value = "FUTURE_TIME") then c
    else 0 in
  now + addend.

(** The values of a row in the order of the columns: [values] has one place per
    cell of the row. A bound value is a text or the integer of a time. *)
Definition row_values (now : Z) (cols : list string) (row : gmap string string) : result (list sqlval) :=
  if (size row <? length cols)%nat then Panic "index out of range"
  else Ok ((fun col => let text := default EmptyString (row !! col) in
              if bool_decide (col = "last_online_auth") then VInt (Unix (ParseTimeWildcard now text))
              else VText text) <$> cols).

(** What a column of the schema stores: an INTEGER column turns a text that is a
    number into it. A text that is not a number would be stored as it is; the
    rows of the model cannot hold it, and [None] stands for this. *)
Definition text_value (v : sqlval) : option string :=
  match v with VText s => Some s | VInt z => Some (pretty z) | VNull => None end.
Definition int_value (v : sqlval) : option Z :=
  match v with
  | VInt z => Some z
  | VText s => match Atoi s with Ok z => Some z | _ => None end
  | VNull => None
  end.

Definition unfit {A} : result A := Err (Opaque "datatype mismatch").
Definition fits {A} (o : option A) : result A := match o with Some a => Ok a | None => unfit end.

(** [INSERT INTO name VALUES (...)] on a file that has the tables [present]. *)
Definition insert_into (present : list string) (name : string) (vs : list sqlval) (d : database) : result database :=
  if negb (bool_decide (name ∈ present)) then Err (Opaque "no such table")
  else match vs with
  | [login; password; uid; gid; gecos; home; shell; last] =>
      if bool_decide (name = "passwd") then
        uid ← fits (int_value uid); gid ← fits (int_value gid); last ← fits (int_value last);
        login ← fits (text_value login);
        if unique login (p_login <$> t_passwd d) && unique uid (p_uid <$> t_passwd d) then
          Ok (Database (t_passwd d ++ [PasswdRow login (text_value password) uid gid (text_value gecos)
                                         (text_value home) (text_value shell) (Some last)])
                (t_groups d) (t_uid_gid d) (t_shadow d))
        else constraint_failed
      else if bool_decide (name = "shadow") then
        u ← fits (int_value login); pw ← fits (text_value password); a ← fits (int_value uid);
        b ← fits (int_value gid); c ← fits (int_value gecos); w ← fits (int_value home);
        i ← fits (int_value shell); e ← fits (int_value last);
        if unique u (s_uid <$> t_shadow d) then
          Ok (Database (t_passwd d) (t_groups d) (t_uid_gid d) (t_shadow d ++ [ShadowRow u pw a b c w i e]))
        else constraint_failed
      else Err (Opaque "no such table")
  | [name_; password; gid] =>
      if bool_decide (name = "groups") then
        n ← fits (text_value name_); gid ← fits (int_value gid);
        if unique n (g_name <$> t_groups d) && unique gid (g_gid <$> t_groups d) then
          Ok (Database (t_passwd d) (t_groups d ++ [GroupRow n (text_value password) gid]) (t_uid_gid d) (t_shadow d))
        else constraint_failed
      else Err (Opaque "no such table")
  | [uid; gid] =>
      if bool_decide (name = "uid_gid") then
        uid ← fits (int_value uid); gid ← fits (int_value gid);
        if unique (UidGidRow uid gid) (t_uid_gid d) then
          Ok (Database (t_passwd d) (t_groups d) (t_uid_gid d ++ [UidGidRow uid gid]) (t_shadow d))
        else constraint_failed
      else Err (Opaque "no such table")
  | _ => Err (Opaque "wrong number of values")
  end.

Fixpoint load_rows (now : Z) (present : list string) (name : string) (cols : list string) (rows : list (gmap string string)) (d : database)
    : result database :=
  match rows with
  | [] => Ok d
  | row :: rows =>
      vs ← row_values now cols row;
      d ← insert_into present name vs d;
      load_rows now present name cols rows d
  end.

Fixpoint load_tables (now : Z) (present : list string) (tables : list (string * Table)) (d : database) : result database :=
  match tables with
  | [] => Ok d
  | (name, table) :: tables =>
      d ← load_rows now present name (Cols table) (Rows table) d; load_tables now present tables d
  end.

(** [order] is the order in which Go ranges over the map of the tables. *)
Definition loadDumpIntoDB (now : Z) (order : list (string * Table) -> list (string * Table)) (present : list string)
    (dump : string) (d : database) : result database :=
  tables ← ReadDumpAsTables dump;
  load_tables now present (order (map_to_list tables)) d.

(** The two files that PrepareDBsForTests loads in a new cache. *)
Definition passwd_tables : list string := ["passwd"; "groups"; "uid_gid"].
Definition shadow_tables : list string := ["shadow"].

Definition PrepareDBsForTests (now : Z) (order : list (string * Table) -> list (string * Table))
    (passwd_dump shadow_dump : string) : result database :=
  d ← loadDumpIntoDB now order passwd_tables passwd_dump empty_db;
  loadDumpIntoDB now order shadow_tables shadow_dump d.

(** testutils.go: TimeBetweenOrEquals *)
Definition TimeBetweenOrEquals (tt start end_ : Z) : bool :=
  negb (tt <? start - Second) && negb (end_ <? tt).

(** ** What is dumped is read back *)

Definition cell_ok (s : string) : Prop := no_byte newline s /\ no_byte "," s.

Record printable (t : sql_table) : Prop := {
  print_name : tbl_name t <> EmptyString /\ no_byte newline (tbl_name t);
  print_cols : NoDup (tbl_cols t) /\ (2 <= length (tbl_cols t))%nat /\ Forall cell_ok (tbl_cols t);
  print_cells : Forall (fun row => exists cells, row = Some <$> cells /\
    length cells = length (tbl_cols t) /\ Forall cell_ok cells) (tbl_rows t);
}.

(** A reader asks for a row of data at least. *)
Definition dumpable (t : sql_table) : Prop := printable t /\ tbl_rows t <> [].

(** The table that a reader should find: each cell under its column. *)
Definition row_map (cols : list string) (row : list (option string)) : gmap string string :=
  list_to_map (zip cols (default EmptyString <$> row)).
Definition table_of (t : sql_table) : Table := MkTable (tbl_cols t) (row_map (tbl_cols t) <$> tbl_rows t).

(** The lines of a dump. *)
Definition cells_line (row : list (option string)) : string := Join "," (default EmptyString <$> row).
Definition table_lines (t : sql_table) : list string :=
  tbl_name t :: Join "," (tbl_cols t) :: (cells_line <$> tbl_rows t).

Lemma mapM_id_Some (cells : list string) : mapM id (Some <$> cells) = Some cells.
Proof. apply mapM_Some. induction cells; by constructor. Qed.

Lemma default_Some (cells : list string) : default EmptyString <$> (Some <$> cells) = cells.
Proof. rewrite <- list_fmap_compose. by apply list_fmap_id. Qed.

Lemma dump_rows_lines name cols rows :
  Forall (fun row => exists cells : list string, row = Some <$> cells) rows ->
  dump_rows name cols rows false = Ok (concat_str (line <$> (cells_line <$> rows))).
Proof.
  induction 1 as [|row rows [cells ->] _ IH]; [done|]. cbn [dump_rows]. unfold scan_strings.
  rewrite mapM_id_Some. simpl. rewrite IH. simpl. unfold cells_line. by rewrite default_Some.
Qed.

Lemma concat_lines l ls : concat_str (line <$> (l :: ls)) = Join eol (l :: ls) +:+ eol.
Proof.
  revert l. induction ls as [|l' ls IH]; intros l; [csimpl; by rewrite append_nil_r|].
  change (concat_str (line <$> l :: l' :: ls)) with (line l +:+ concat_str (line <$> (l' :: ls))).
  rewrite IH. change (Join eol (l :: l' :: ls)) with (l +:+ eol +:+ Join eol (l' :: ls)).
  unfold line. by rewrite !append_assoc.
Qed.

Lemma dumpTable_lines t : printable t -> exists content,
  dumpTable t false = Ok content /\ line (tbl_name t) +:+ content = Join eol (table_lines t) +:+ eol.
Proof.
  intros Ht. unfold dumpTable. rewrite dump_rows_lines.
  - eexists. split; [done|]. unfold table_lines. by rewrite <- concat_lines.
  - eapply Forall_impl; [apply print_cells, Ht|]. intros row (cells & -> & _). by exists cells.
Qed.

Definition group_text (t : sql_table) : string := Join eol (table_lines t) +:+ eol +:+ eol.

Lemma dbToCsv_lines ts : Forall printable ts -> dbToCsv ts false = Ok (concat_str (group_text <$> ts)).
Proof.
  induction 1 as [|t ts Ht _ IH]; [done|]. cbn [dbToCsv].
  destruct (dumpTable_lines t Ht) as (content & -> & Hc). rewrite IH. unfold mbind, result_bind. f_equal. csimpl.
  unfold group_text at 2. by rewrite <- append_assoc, Hc, !append_assoc.
Qed.

(** Splitting at the blank lines. *)
Lemma Split_blank_skip a b s : a <> newline \/ b <> newline ->
  Split_blank (String a (String b s)) = prepend (str1 a) (Split_blank (String b s)).
Proof.
  intros Hab. change (Split_blank (String a (String b s)))
    with (if bool_decide (a = newline /\ b = newline) then EmptyString :: Split_blank s
          else prepend (str1 a) (Split_blank (String b s))).
  by rewrite bool_decide_eq_false_2 by tauto.
Qed.

Definition good_line (l : string) : Prop := l <> EmptyString /\ no_byte newline l.

Lemma Split_blank_line l t : no_byte newline l -> l <> EmptyString ->
  Split_blank (l +:+ eol +:+ eol +:+ t) = l :: Split_blank t.
Proof.
  induction l as [|a l IH]; [done|]. intros [Ha Hl]%no_byte_cons _.
  destruct l as [|b l].
  - change (String a "" +:+ eol +:+ eol +:+ t) with (String a (String newline (String newline t))).
    by rewrite Split_blank_skip by auto.
  - rewrite !append_cons, Split_blank_skip, <- append_cons, IH by auto. done.
Qed.

Lemma Split_blank_cons l t : good_line l -> (forall u, t <> String newline u) -> t <> EmptyString ->
  Split_blank (l +:+ eol +:+ t) = prepend (l +:+ eol) (Split_blank t).
Proof.
  intros [Hn Hl]. induction l as [|a l IH]; [done|]. apply no_byte_cons in Hl as [Ha Hl]. intros Ht Ht0.
  assert (forall s, prepend (str1 a) (prepend s (Split_blank t)) = prepend (String a s) (Split_blank t)) as Hp.
  { intros s. destruct (Split_blank t); simpl; unfold str1; by rewrite ?append_cons, ?append_nil_l. }
  destruct l as [|b l].
  - destruct t as [|c t]; [done|]. assert (c <> newline) by (intros ->; by destruct (Ht t)).
    change (String a "" +:+ eol +:+ String c t) with (String a (String newline (String c t))).
    rewrite !Split_blank_skip by auto. apply Hp.
  - rewrite !append_cons, Split_blank_skip, <- append_cons, IH by auto. rewrite Hp. done.
Qed.

Lemma Split_blank_group l ls t : Forall good_line (l :: ls) ->
  Split_blank (Join eol (l :: ls) +:+ eol +:+ eol +:+ t) = Join eol (l :: ls) :: Split_blank t.
Proof.
  revert l. induction ls as [|l' ls IH]; intros l Hg.
  - apply Forall_cons in Hg as [[Hl Hn] _]. by apply Split_blank_line.
  - apply Forall_cons in Hg as [Hl Hg]. change (Join eol (l :: l' :: ls)) with (l +:+ eol +:+ Join eol (l' :: ls)).
    rewrite !append_assoc, Split_blank_cons, IH; [|done..| |].
    + simpl. by rewrite append_assoc.
    + intros u. apply Forall_cons in Hg as [[Hl' Hn'] _]. destruct l' as [|c l']; [done|].
      apply no_byte_cons in Hn' as [Hc _]. destruct ls; simpl; rewrite !append_cons; by intros [= ->].
    + apply Forall_cons in Hg as [[Hl' _] _]. destruct l' as [|c l']; [done|]. by destruct ls.
Qed.

(** Reading the lines. *)
Lemma read_cells_zip cols cells row :
  NoDup cols -> length cells = length cols -> (forall c, c ∈ cols -> row !! c = None) ->
  read_cells cols cells row = Ok (list_to_map (zip cols cells) ∪ row).
Proof.
  intros Hc. revert cells row. induction Hc as [|c cols Hc Hcols IH]; intros [|v cells] row [=] Hr.
  - simpl. by rewrite (left_id_L ∅ (∪)).
  - cbn [read_cells zip zip_with]. rewrite IH; [|done|].
    + f_equal. simpl. rewrite <- insert_union_l. symmetry. apply insert_union_r.
      apply not_elem_of_list_to_map_1. rewrite fst_zip by lia. done.
    + intros c' Hc'. rewrite lookup_insert_ne by (by intros ->). apply Hr. by constructor.
Qed.

Lemma comma_line cells : (1 <= length cells)%nat -> Forall cell_ok cells -> Split "," (Join "," cells) = cells.
Proof.
  intros Hl Hc. apply (Split_Join ","); [by destruct cells; [simpl in Hl; lia|]|].
  eapply Forall_impl; [done|]. by intros s [_ ?].
Qed.

Lemma read_rows_table cols rows : NoDup cols -> (2 <= length cols)%nat ->
  Forall (fun row => exists cells : list string, row = Some <$> cells /\ length cells = length cols /\ Forall cell_ok cells) rows ->
  read_rows cols (cells_line <$> rows) = Ok (row_map cols <$> rows).
Proof.
  intros Hc Hn. induction 1 as [|row rows (cells & -> & Hl & Hok) _ IH]; [done|].
  rewrite !fmap_cons. cbn [read_rows]. unfold row_map at 1.
  change (cells_line (Some <$> cells)) with (Join "," (default EmptyString <$> (Some <$> cells))).
  rewrite default_Some, comma_line by (done || lia).
  rewrite read_cells_zip by (done || (intros; apply lookup_empty)). rewrite (right_id_L ∅ (∪)). simpl. by rewrite IH.
Qed.

Lemma read_table_lines t : dumpable t -> read_table (table_lines t) = Ok (tbl_name t, table_of t).
Proof.
  intros [[_ (Hnd & Hn & Hc) Hrows] Hs]. unfold table_lines, read_table.
  destruct (tbl_rows t) as [|row rows] eqn:Er; [done|]. rewrite !fmap_cons. cbn [drop].
  rewrite <- (fmap_cons cells_line), comma_line by (done || lia). rewrite read_rows_table by done.
  unfold table_of. by rewrite Er.
Qed.

Lemma join_no_newline cells : Forall cell_ok cells -> no_byte newline (Join "," cells).
Proof.
  induction 1 as [|s cells [Hs _] _ IH]; [apply not_elem_of_nil|]. destruct cells as [|s' cells]; [done|].
  change (Join "," (s :: s' :: cells)) with (s +:+ "," +:+ Join "," (s' :: cells)).
  rewrite !no_byte_app. split_and!; [done|no_byte_closed|done].
Qed.

Lemma join_nonempty cells : (2 <= length cells)%nat -> Join "," cells <> EmptyString.
Proof.
  destruct cells as [|s [|s' cells]]; simpl; [lia..|]. intros _. by destruct s.
Qed.

Lemma table_lines_good t : printable t -> Forall good_line (table_lines t).
Proof.
  intros [[Hn1 Hn2] (_ & Hl & Hc) Hrows]. unfold table_lines. constructor; [done|]. constructor.
  - split; [by apply join_nonempty|by apply join_no_newline].
  - apply Forall_fmap. eapply Forall_impl; [done|]. intros row (cells & -> & Hlen & Hok).
    simpl. unfold good_line, cells_line. rewrite default_Some. split; [apply join_nonempty; lia|by apply join_no_newline].
Qed.

Lemma split_group t s : printable t ->
  Split_blank (group_text t +:+ s) = Join eol (table_lines t) :: Split_blank s.
Proof.
  intros Ht. pose proof (table_lines_good t Ht) as Hg. unfold group_text. rewrite !append_assoc.
  destruct (table_lines t) as [|l ls] eqn:El; [done|]. by apply Split_blank_group.
Qed.

Lemma split_lines t : printable t -> Split newline (Join eol (table_lines t)) = table_lines t.
Proof.
  intros Ht. apply Split_Join; [done|]. eapply Forall_impl; [by apply table_lines_good|]. by intros l [_ ?].
Qed.

(** A table without a row stops the reader. *)
Lemma read_tables_short ts acc : Forall printable ts -> Exists (fun t => tbl_rows t = []) ts ->
  read_tables (Split_blank (concat_str (group_text <$> ts))) acc
  = Err (Opaque "%q should contain 3 lines at least: name/row names/data").
Proof.
  intros Hts. revert acc. induction Hts as [|t ts Ht _ IH]; intros acc He; [by apply Exists_nil in He|]. csimpl.
  rewrite split_group by done. cbn [read_tables]. rewrite split_lines by done.
  assert ((length (table_lines t) =? 1)%nat = false) as -> by by apply Nat.eqb_neq.
  destruct (decide (tbl_rows t = [])) as [E|Hn].
  - unfold table_lines, read_table. by rewrite E.
  - rewrite read_table_lines by done. simpl. apply IH. by apply Exists_cons in He as [?|?].
Qed.

Lemma read_tables_groups ts acc : Forall dumpable ts ->
  read_tables (Split_blank (concat_str (group_text <$> ts))) acc
  = Ok (foldl (fun m t => <[tbl_name t := table_of t]> m) acc ts).
Proof.
  intros Hts. revert acc. induction Hts as [|t ts Ht _ IH]; intros acc; [done|]. csimpl. pose proof Ht as [Hp _].
  rewrite split_group by done. cbn [read_tables]. rewrite split_lines by done.
  assert ((length (table_lines t) =? 1)%nat = false) as -> by by apply Nat.eqb_neq.
  rewrite read_table_lines by done. simpl. apply IH.
Qed.

(** A dump is read back: for tables whose rows are complete and whose cells
    hold no comma and no end of line, ReadDumpAsTables finds under each name
    the columns and the rows that dbToCsv wrote, in their order. *)
Lemma ReadDump_read ts :
  Forall dumpable ts ->
  exists dump, dbToCsv ts false = Ok dump /\
    ReadDumpAsTables dump = Ok (foldl (fun m t => <[tbl_name t := table_of t]> m) ∅ ts).
Proof.
  intros Hts. eexists. split; [|by apply read_tables_groups].
  apply dbToCsv_lines. eapply Forall_impl; [done|]. by intros t [? _].
Qed.

(** Without a row in each table, the dump is refused by its reader. *)
Lemma ReadDump_short ts : Forall printable ts -> Exists (fun t => tbl_rows t = []) ts ->
  exists dump, dbToCsv ts false = Ok dump /\
    ReadDumpAsTables dump = Err (Opaque "%q should contain 3 lines at least: name/row names/data").
Proof. intros Hts He. eexists. split; [by apply dbToCsv_lines|]. by apply read_tables_short. Qed.

(** ** The time wildcards

    With the default retention of 90 days, the wildcards of the dump files put
    a user where the tests want it. *)

(** RECENT_TIME and FUTURE_TIME may log in offline, EXPIRED_TIME may not but
    stays in the cache, and PURGED_TIME is what the purge of New removes. *)
Theorem wildcards_sort_users c now u p value :
  offlineCredentialsExpiration c = 90 -> 0 <= now < 2 ^ 62 ->
  LastOnlineAuth u = timeUnix (Unix (ParseTimeWildcard now value)) ->
  p_last_online_auth p = Some (Unix (ParseTimeWildcard now value)) ->
  let recent := recent_enough c u now in
  let purged := older (purge_time now (maxCacheEntryDuration 90)) p in
  (value = "RECENT_TIME" -> recent /\ ~ purged) /\
  (value = "FUTURE_TIME" -> recent /\ ~ purged) /\
  (value = "EXPIRED_TIME" -> ~ recent /\ ~ purged) /\
  (value = "PURGED_TIME" -> ~ recent /\ purged).
Proof.
  intros Hc Hnow Hu Hp. simpl. unfold recent_enough, older, purge_time. rewrite Hc, Hu, Hp.
  rewrite maxCacheEntryDuration_exact, days_to_duration_exact, i64_small by (unfold Hour, Second; lia).
  unfold timeUnix, Unix, ParseTimeWildcard.
  change (i64 (i64 (i64 defaultCredentialsExpiration * 24) * Hour)) with (90 * 24 * Hour).
  split_and!; intros ->; simpl; unfold Hour, Second; (split; [|try intros Hlt]); Z.div_mod_to_equations; lia.
Qed.
