(* ===== verification/DumpLoad.v ===== *)
(** * A cache that is dumped and loaded again

    DumpDb on the two files of a cache and PrepareDBsForTests on the two texts
    give the cache back, up to the order of the rows and the time of the last
    online login, whatever the order in which Go ranges over the tables. *)

From S2P Require Import Prelude GoStrings Interfaces Tables CacheDB CacheFacts CacheAuth.
From S2P Require Import CacheOpen Logger LoggerFacts Decimal TestDump.
Open Scope string_scope.
Open Scope list_scope.
Open Scope Z_scope.

Definition is_int64 (z : Z) : Prop := - 2 ^ 63 <= z < 2 ^ 63.

(** ** Rows that a dump can hold: no NULL, no comma, no end of line *)

Definition text_ok (o : option string) : Prop := exists s, o = Some s /\ cell_ok s.

Record passwd_ok (r : passwd_row) : Prop := {
  pok_login : cell_ok (p_login r);
  pok_texts : text_ok (p_password r) /\ text_ok (p_gecos r) /\ text_ok (p_home r) /\ text_ok (p_shell r);
  pok_ints : is_int64 (p_uid r) /\ is_int64 (p_gid r);
  pok_last : is_Some (p_last_online_auth r);
}.

Definition group_ok (r : group_row) : Prop := cell_ok (g_name r) /\ text_ok (g_password r) /\ is_int64 (g_gid r).
Definition uid_gid_ok (r : uid_gid_row) : Prop := is_int64 (ug_uid r) /\ is_int64 (ug_gid r).
Definition shadow_ok (r : shadow_row) : Prop :=
  cell_ok (s_password r) /\ Forall is_int64 [s_uid r; s_last_pwd_change r; s_min_pwd_age r; s_max_pwd_age r;
                                             s_pwd_warn_period r; s_pwd_inactivity r; s_expiration_date r].

Record database_ok (d : database) : Prop := {
  dok_wf : db_wf d;
  dok_passwd : Forall passwd_ok (t_passwd d);
  dok_groups : Forall group_ok (t_groups d);
  dok_uid_gid : Forall uid_gid_ok (t_uid_gid d);
  dok_shadow : Forall shadow_ok (t_shadow d);
}.

(** The complaint of the reader of a dump. *)
Definition too_short : gerror := Opaque "%q should contain 3 lines at least: name/row names/data".

(** Every table of the two files has a row. *)
Definition passwd_filled (d : database) : Prop := t_passwd d <> [] /\ t_groups d <> [] /\ t_uid_gid d <> [].
Definition filled (d : database) : Prop := passwd_filled d /\ t_shadow d <> [].

Ltac not_decimal := let Hd := fresh in intros Hd; vm_compute in Hd; destruct Hd; exfalso; auto.

Lemma pretty_cell_ok (z : Z) : cell_ok (pretty z).
Proof. split; (apply pretty_Z_no_byte; [not_decimal|done]). Qed.

(** The cells of the rows. *)
Ltac each_cell := repeat (apply Forall_cons; split; [first [assumption|apply pretty_cell_ok]|]); constructor.

Definition row_dumps (n : nat) (row : list (option string)) : Prop :=
  exists cells : list string, row = Some <$> cells /\ length cells = n /\ Forall cell_ok cells.

Lemma passwd_dumps r : passwd_ok r -> row_dumps 8 (passwd_cells r).
Proof.
  intros [Hl ((pw & Epw & ?) & (ge & Ege & ?) & (ho & Eho & ?) & (sh & Esh & ?)) _ [la Ela]].
  unfold passwd_cells. rewrite Epw, Ege, Eho, Esh, Ela.
  exists [p_login r; pw; pretty (p_uid r); pretty (p_gid r); ge; ho; sh; pretty la].
  split_and!; [done..|]. each_cell.
Qed.

Lemma group_dumps r : group_ok r -> row_dumps 3 (group_cells r).
Proof.
  intros (Hn & (pw & Epw & ?) & _). unfold group_cells. rewrite Epw. exists [g_name r; pw; pretty (g_gid r)].
  split_and!; [done..|]. each_cell.
Qed.

Lemma uid_gid_dumps r : uid_gid_ok r -> row_dumps 2 (uid_gid_cells r).
Proof.
  intros _. exists [pretty (ug_uid r); pretty (ug_gid r)]. split_and!; [done..|]. each_cell.
Qed.

Lemma shadow_dumps r : shadow_ok r -> row_dumps 8 (shadow_cells r).
Proof.
  intros [Hp _]. exists [pretty (s_uid r); s_password r; pretty (s_last_pwd_change r); pretty (s_min_pwd_age r);
    pretty (s_max_pwd_age r); pretty (s_pwd_warn_period r); pretty (s_pwd_inactivity r); pretty (s_expiration_date r)].
  split_and!; [done..|]. each_cell.
Qed.

(** ** The values that are bound *)

Definition bound_value (now : Z) (col text : string) : sqlval :=
  if bool_decide (col = "last_online_auth") then VInt (Unix (ParseTimeWildcard now text)) else VText text.

Lemma row_map_lookup cols cells i c s : NoDup cols -> length cells = length cols ->
  cols !! i = Some c -> cells !! i = Some s -> row_map cols (Some <$> cells) !! c = Some s.
Proof.
  intros Hn Hl Hc Hs. unfold row_map. rewrite default_Some. apply elem_of_list_to_map_1.
  - by rewrite fst_zip by lia.
  - apply list_elem_of_lookup. exists i. rewrite lookup_zip_with, Hc, Hs. done.
Qed.

Lemma row_values_cells now cols cells : NoDup cols -> length cells = length cols ->
  row_values now cols (row_map cols (Some <$> cells)) = Ok (zip_with (bound_value now) cols cells).
Proof.
  intros Hn Hl. unfold row_values.
  assert (size (row_map cols (Some <$> cells)) = length cols) as ->.
  { unfold row_map. rewrite default_Some, map_size_list_to_map by (by rewrite fst_zip by lia).
    rewrite length_zip_with. lia. }
  rewrite Nat.ltb_irrefl. f_equal. apply list_eq. intros i. rewrite list_lookup_fmap, lookup_zip_with.
  destruct (cols !! i) as [c|] eqn:Ec; [|done]. simpl.
  destruct (lookup_lt_is_Some_2 cells i) as [s Es]; [rewrite Hl; by eapply lookup_lt_Some|].
  rewrite Es. simpl. by rewrite (row_map_lookup cols cells i c s).
Qed.

(** The text of a number is no wildcard: the time that is loaded is the time of
    the test. *)
Lemma wildcard_number now (z : Z) : ParseTimeWildcard now (pretty z) = now.
Proof.
  assert (no_byte "_" (pretty z)) as Hz by (apply pretty_Z_no_byte; [not_decimal|done]).
  assert (forall w, ~ no_byte "_" w -> pretty z <> w) as Hw by (intros w Hw E; by rewrite E in Hz).
  unfold ParseTimeWildcard.
  rewrite !bool_decide_eq_false_2 by (apply Hw; intros Hn; by apply (bool_decide_eq_true_2 _) in Hn). lia.
Qed.

(** ** Loading the rows of one table

    The four tables are loaded the same way: a lens on the database, the row
    that is stored, and the constraint that tells two rows apart. *)

Lemma ForallOrdPairs_before {A} (P : A -> A -> Prop) (l l' : list A) x :
  ForallOrdPairs P (l ++ x :: l') -> Forall (fun y => P y x) l.
Proof.
  induction l as [|y l IH]; [constructor|]. intros Hp. inversion Hp as [|? ? Hy Hl]; subst.
  constructor; [|by apply IH]. rewrite Forall_app, Forall_cons in Hy. tauto.
Qed.

Lemma ForallOrdPairs_fmap {A B} (f : A -> B) (l : list A) :
  NoDup (f <$> l) -> ForallOrdPairs (fun x y => f x <> f y) l.
Proof.
  induction l as [|x l IH]; csimpl; [constructor|]. intros [Hx Hl]%NoDup_cons. constructor; [|by apply IH].
  apply Forall_forall. intros y Hy E. apply Hx. rewrite E. by apply list_elem_of_fmap_2.
Qed.

Lemma ForallOrdPairs_and {A} (P Q : A -> A -> Prop) (l : list A) :
  ForallOrdPairs P l -> ForallOrdPairs Q l -> ForallOrdPairs (fun x y => P x y /\ Q x y) l.
Proof.
  induction 1 as [|x l Hx Hl IH]; intros Hq; inversion Hq; subst; constructor; [by apply Forall_and|by apply IH].
Qed.

Section Load.
Context {R : Type} (now : Z) (present : list string) (name : string) (cols : list string).
Context (cells : R -> list (option string)) (ok : R -> Prop).
Context (view : database -> list R) (put : list R -> database -> database) (new : R -> R) (distinct : R -> R -> Prop).
Hypothesis view_put : forall l d, view (put l d) = l.
Hypothesis put_put : forall l l' d, put l (put l' d) = put l d.
Hypothesis put_view : forall d, put (view d) d = d.
Hypothesis insert_one : forall r d, ok r -> Forall (fun x => distinct x (new r)) (view d) ->
  exists vs, row_values now cols (row_map cols (cells r)) = Ok vs /\
    insert_into present name vs d = Ok (put (view d ++ [new r]) d).

Lemma load_rows_append rows d :
  Forall ok rows -> ForallOrdPairs distinct (view d ++ (new <$> rows)) ->
  load_rows now present name cols (row_map cols <$> (cells <$> rows)) d = Ok (put (view d ++ (new <$> rows)) d).
Proof.
  intros Hok. revert d. induction Hok as [|r rows Hr _ IH]; intros d Hd; [csimpl; by rewrite app_nil_r, put_view|].
  rewrite !fmap_cons. cbn [load_rows]. rewrite fmap_cons in Hd.
  destruct (insert_one r d Hr) as (vs & -> & Hi); [by eapply ForallOrdPairs_before|].
  unfold mbind at 1, result_bind at 1. rewrite Hi. unfold mbind, result_bind.
  rewrite IH; rewrite view_put, <- app_assoc; [by rewrite put_put|done].
Qed.
End Load.

(** The row of a user after the test loaded it. *)
Definition loaded_user (now : Z) (r : passwd_row) : passwd_row := set_last_online_auth (Unix now) r.

Definition put_passwd l d := Database l (t_groups d) (t_uid_gid d) (t_shadow d).
Definition put_groups l d := Database (t_passwd d) l (t_uid_gid d) (t_shadow d).
Definition put_uid_gid l d := Database (t_passwd d) (t_groups d) l (t_shadow d).
Definition put_shadow l d := Database (t_passwd d) (t_groups d) (t_uid_gid d) l.

Definition distinct_users (x y : passwd_row) : Prop := p_login x <> p_login y /\ p_uid x <> p_uid y.
Definition distinct_groups (x y : group_row) : Prop := g_name x <> g_name y /\ g_gid x <> g_gid y.
Definition distinct_shadows (x y : shadow_row) : Prop := s_uid x <> s_uid y.

Lemma unique_fmap {A B} `{EqDecision B} (f : A -> B) (l : list A) (b : B) :
  Forall (fun x => f x <> b) l -> unique b (f <$> l) = true.
Proof.
  intros Hl. apply bool_decide_eq_true_2. intros (x & -> & Hx)%list_elem_of_fmap.
  rewrite Forall_forall in Hl. by apply (Hl x).
Qed.

Lemma int_value_pretty (z : Z) : is_int64 z -> int_value (VText (pretty z)) = Some z.
Proof. intros Hz. unfold int_value. by rewrite Atoi_pretty. Qed.

Lemma insert_user now r d : passwd_ok r -> Forall (fun x => distinct_users x (loaded_user now r)) (t_passwd d) ->
  exists vs, row_values now passwd_cols (row_map passwd_cols (passwd_cells r)) = Ok vs /\
    insert_into passwd_tables "passwd" vs d = Ok (put_passwd (t_passwd d ++ [loaded_user now r]) d).
Proof.
  intros [Hl ((pw & Epw & _) & (ge & Ege & _) & (ho & Eho & _) & (sh & Esh & _)) [Hu Hg] [la Ela]] Hd.
  assert (passwd_cells r = Some <$> [p_login r; pw; pretty (p_uid r); pretty (p_gid r); ge; ho; sh; pretty la]) as ->.
  { unfold passwd_cells. by rewrite Epw, Ege, Eho, Esh, Ela. }
  rewrite row_values_cells; [|by apply (bool_decide_eq_true_1 _)|done]. eexists. split; [done|].
  cbn [zip_with passwd_cols]. unfold bound_value. simpl. rewrite wildcard_number. unfold insert_into. simpl.
  rewrite !Atoi_pretty by done. simpl. rewrite !unique_fmap.
  - simpl. unfold put_passwd, loaded_user, set_last_online_auth. by rewrite Epw, Ege, Eho, Esh.
  - eapply Forall_impl; [done|]. by intros x [_ ?].
  - eapply Forall_impl; [done|]. by intros x [? _].
Qed.

Lemma insert_group_row now r d : group_ok r -> Forall (fun x => distinct_groups x r) (t_groups d) ->
  exists vs, row_values now ["name"; "password"; "gid"] (row_map ["name"; "password"; "gid"] (group_cells r)) = Ok vs /\
    insert_into passwd_tables "groups" vs d = Ok (put_groups (t_groups d ++ [r]) d).
Proof.
  intros (Hn & (pw & Epw & _) & Hg) Hd.
  assert (group_cells r = Some <$> [g_name r; pw; pretty (g_gid r)]) as -> by (unfold group_cells; by rewrite Epw).
  rewrite row_values_cells; [|by apply (bool_decide_eq_true_1 _)|done]. eexists. split; [done|].
  cbn [zip_with]. unfold bound_value. simpl. unfold insert_into. simpl. rewrite !Atoi_pretty by done. simpl.
  rewrite !unique_fmap; [destruct r; simpl in *; by subst|eapply Forall_impl; [done|]..].
  - by intros x [_ ?].
  - by intros x [? _].
Qed.

Lemma insert_uid_gid_row now r d : uid_gid_ok r -> Forall (fun x => x <> r) (t_uid_gid d) ->
  exists vs, row_values now ["uid"; "gid"] (row_map ["uid"; "gid"] (uid_gid_cells r)) = Ok vs /\
    insert_into passwd_tables "uid_gid" vs d = Ok (put_uid_gid (t_uid_gid d ++ [r]) d).
Proof.
  intros [Hu Hg] Hd. change (uid_gid_cells r) with (Some <$> [pretty (ug_uid r); pretty (ug_gid r)]).
  rewrite row_values_cells; [|by apply (bool_decide_eq_true_1 _)|done]. eexists. split; [done|].
  cbn [zip_with]. unfold bound_value. simpl. unfold insert_into. simpl. rewrite !Atoi_pretty by done. simpl.
  destruct r as [u g]. simpl. pose proof (unique_fmap id (t_uid_gid d) (UidGidRow u g) Hd) as Hq.
  by rewrite list_fmap_id in Hq; rewrite Hq.
Qed.

Lemma insert_shadow_row now r d : shadow_ok r -> Forall (fun x => distinct_shadows x r) (t_shadow d) ->
  exists vs, row_values now shadow_cols (row_map shadow_cols (shadow_cells r)) = Ok vs /\
    insert_into shadow_tables "shadow" vs d = Ok (put_shadow (t_shadow d ++ [r]) d).
Proof.
  intros [Hp Hi] Hd. rewrite !Forall_cons in Hi. destruct Hi as (? & ? & ? & ? & ? & ? & ? & _).
  change (shadow_cells r) with (Some <$> [pretty (s_uid r); s_password r; pretty (s_last_pwd_change r);
    pretty (s_min_pwd_age r); pretty (s_max_pwd_age r); pretty (s_pwd_warn_period r); pretty (s_pwd_inactivity r);
    pretty (s_expiration_date r)]).
  rewrite row_values_cells; [|by apply (bool_decide_eq_true_1 _)|done]. eexists. split; [done|].
  cbn [zip_with shadow_cols]. unfold bound_value. simpl. unfold insert_into. simpl. rewrite !Atoi_pretty by done. simpl.
  rewrite unique_fmap; [by destruct r|done].
Qed.

(** Each table, on a database whose rows do not clash. *)
Section Tables.
Variable now : Z.

Lemma load_passwd rows d : Forall passwd_ok rows ->
  NoDup (p_login <$> t_passwd d ++ (loaded_user now <$> rows)) -> NoDup (p_uid <$> t_passwd d ++ (loaded_user now <$> rows)) ->
  load_rows now passwd_tables "passwd" passwd_cols (row_map passwd_cols <$> (passwd_cells <$> rows)) d
  = Ok (put_passwd (t_passwd d ++ (loaded_user now <$> rows)) d).
Proof.
  intros Hok Hl Hu. eapply (load_rows_append now passwd_tables "passwd" passwd_cols passwd_cells passwd_ok t_passwd put_passwd
    (loaded_user now) distinct_users); [done|done|by intros []|intros; by apply insert_user|done|].
  apply ForallOrdPairs_and; by apply ForallOrdPairs_fmap.
Qed.

Lemma load_groups rows d : Forall group_ok rows ->
  NoDup (g_name <$> t_groups d ++ rows) -> NoDup (g_gid <$> t_groups d ++ rows) ->
  load_rows now passwd_tables "groups" ["name"; "password"; "gid"] (row_map ["name"; "password"; "gid"] <$> (group_cells <$> rows)) d
  = Ok (put_groups (t_groups d ++ rows) d).
Proof.
  intros Hok Hn Hg. pose proof (load_rows_append now passwd_tables "groups" ["name"; "password"; "gid"] group_cells group_ok
    t_groups put_groups id distinct_groups) as Hload. setoid_rewrite list_fmap_id in Hload.
  apply Hload; [done|done|by intros []|intros; by apply insert_group_row|done|].
  apply ForallOrdPairs_and; by apply ForallOrdPairs_fmap.
Qed.

Lemma load_uid_gid rows d : Forall uid_gid_ok rows -> NoDup (t_uid_gid d ++ rows) ->
  load_rows now passwd_tables "uid_gid" ["uid"; "gid"] (row_map ["uid"; "gid"] <$> (uid_gid_cells <$> rows)) d
  = Ok (put_uid_gid (t_uid_gid d ++ rows) d).
Proof.
  intros Hok Hn. pose proof (load_rows_append now passwd_tables "uid_gid" ["uid"; "gid"] uid_gid_cells uid_gid_ok
    t_uid_gid put_uid_gid id (fun x y => x <> y)) as Hload. setoid_rewrite list_fmap_id in Hload.
  apply Hload; [done|done|by intros []|intros; by apply insert_uid_gid_row|done|].
  apply (ForallOrdPairs_fmap id). by rewrite list_fmap_id.
Qed.

Lemma load_shadow rows d : Forall shadow_ok rows -> NoDup (s_uid <$> t_shadow d ++ rows) ->
  load_rows now shadow_tables "shadow" shadow_cols (row_map shadow_cols <$> (shadow_cells <$> rows)) d
  = Ok (put_shadow (t_shadow d ++ rows) d).
Proof.
  intros Hok Hn. pose proof (load_rows_append now shadow_tables "shadow" shadow_cols shadow_cells shadow_ok
    t_shadow put_shadow id distinct_shadows) as Hload. setoid_rewrite list_fmap_id in Hload.
  apply Hload; [done|done|by intros []|intros; by apply insert_shadow_row|done|].
  by apply ForallOrdPairs_fmap.
Qed.
End Tables.

(** ** The two files *)

Section Files.
Variables (now : Z) (ps : list passwd_row) (gs : list group_row) (us : list uid_gid_row) (ss : list shadow_row).

Definition passwd_table : sql_table := SqlTable "passwd" passwd_cols (passwd_cells <$> ps).
Definition groups_table : sql_table := SqlTable "groups" ["name"; "password"; "gid"] (group_cells <$> gs).
Definition uid_gid_table : sql_table := SqlTable "uid_gid" ["uid"; "gid"] (uid_gid_cells <$> us).
Definition shadow_table : sql_table := SqlTable "shadow" shadow_cols (shadow_cells <$> ss).

Definition named (t : sql_table) : string * Table := (tbl_name t, table_of t).

Definition rows_ok : Prop := database_ok (Database ps gs us ss).
Hypothesis Hok : rows_ok.

Lemma dumpable_rows {A} (name : string) (cols : list string) (cells : A -> list (option string)) (ok : A -> Prop) (l : list A) :
  (name <> EmptyString /\ no_byte newline name) -> NoDup cols -> (2 <= length cols)%nat -> Forall cell_ok cols ->
  (forall r, ok r -> row_dumps (length cols) (cells r)) -> Forall ok l ->
  printable (SqlTable name cols (cells <$> l)).
Proof.
  intros Hn Hnd Hl Hc Hcells Hall. split; simpl; [done|by split_and!|].
  apply Forall_fmap. by eapply Forall_impl.
Qed.

Ltac names_ok := repeat (apply Forall_cons; split; [split; no_byte_closed|]); constructor.

Lemma passwd_file_printable : Forall printable [passwd_table; groups_table; uid_gid_table].
Proof.
  destruct Hok as [_ Hp Hg Hu _]. simpl in *. repeat (apply Forall_cons; split); [| | |constructor].
  - eapply dumpable_rows; [split; [done|no_byte_closed]|by apply (bool_decide_eq_true_1 _)|simpl; lia|names_ok|apply passwd_dumps|done].
  - eapply dumpable_rows; [split; [done|no_byte_closed]|by apply (bool_decide_eq_true_1 _)|simpl; lia|names_ok|apply group_dumps|done].
  - eapply dumpable_rows; [split; [done|no_byte_closed]|by apply (bool_decide_eq_true_1 _)|simpl; lia|names_ok|apply uid_gid_dumps|done].
Qed.

Lemma shadow_file_printable : Forall printable [shadow_table].
Proof.
  destruct Hok as [_ _ _ _ Hs]. apply Forall_cons; split; [|constructor].
  eapply dumpable_rows; [split; [done|no_byte_closed]|by apply (bool_decide_eq_true_1 _)|simpl; lia|names_ok|apply shadow_dumps|done].
Qed.

(** The tables of passwd.db may be loaded in any order: each one only looks at
    its own rows. *)
Lemma load_passwd_db l :
  l ≡ₚ [named passwd_table; named groups_table; named uid_gid_table] ->
  load_tables now passwd_tables l empty_db = Ok (Database (loaded_user now <$> ps) gs us []).
Proof.
  destruct Hok as [[Hl Hi Hn Hg Hu _] Okp Okg Oku _]. simpl in *.
  assert (NoDup (p_login <$> (loaded_user now <$> ps))) as Hl' by by rewrite <- list_fmap_compose.
  assert (NoDup (p_uid <$> (loaded_user now <$> ps))) as Hi' by by rewrite <- list_fmap_compose.
  intros Hperm. symmetry in Hperm. apply permutations_Permutation in Hperm. simpl in Hperm.
  unfold named, table_of in Hperm. simpl in Hperm.
  repeat (apply elem_of_cons in Hperm as [->|Hperm]; [cbn [load_tables Cols Rows]|]); [..|by apply elem_of_nil in Hperm].
  all: repeat (first [rewrite load_passwd by done | rewrite load_groups by done | rewrite load_uid_gid by done];
               unfold mbind at 1, result_bind at 1).
  all: done.
Qed.

Lemma load_shadow_db d l : t_shadow d = [] ->
  l ≡ₚ [named shadow_table] -> load_tables now shadow_tables l d = Ok (put_shadow ss d).
Proof.
  destruct Hok as [[_ _ _ _ _ Hs] _ _ _ Oks]. simpl in *. intros Hd ->%Permutation_singleton_r.
  cbn [load_tables named table_of Cols Rows tbl_cols tbl_rows tbl_name shadow_table].
  rewrite load_shadow by (by rewrite ?Hd). unfold mbind, result_bind. by rewrite Hd.
Qed.
End Files.

(** ** The round trip *)

Lemma map_of_named (ts : list sql_table) : NoDup (tbl_name <$> ts) ->
  map_to_list (foldl (fun m t => <[tbl_name t := table_of t]> m) (∅ : gmap string Table) ts) ≡ₚ named <$> ts.
Proof.
  assert (forall acc : gmap string Table, NoDup (tbl_name <$> ts) -> (forall t, t ∈ ts -> acc !! tbl_name t = None) ->
    map_to_list (foldl (fun m t => <[tbl_name t := table_of t]> m) acc ts) ≡ₚ (named <$> ts) ++ map_to_list acc) as Hm.
  { induction ts as [|t ts IH]; intros acc; csimpl; [done|]. intros [Ht Hts]%NoDup_cons Hacc.
    rewrite IH; [|done|].
    - rewrite map_to_list_insert by (apply Hacc; by constructor). symmetry. apply (Permutation_middle _ _ (named t)).
    - intros t' Ht'. rewrite lookup_insert_ne; [apply Hacc; by constructor|].
      intros E. apply Ht. rewrite E. by apply list_elem_of_fmap_2. }
  intros Hn. rewrite Hm; [by rewrite map_to_list_empty, app_nil_r|done|]. intros. apply lookup_empty.
Qed.

Lemma load_dump now order present ts d d' :
  (forall l, order l ≡ₚ l) -> Forall dumpable ts -> NoDup (tbl_name <$> ts) ->
  (forall l, l ≡ₚ named <$> ts -> load_tables now present l d = Ok d') ->
  exists dump, dbToCsv ts false = Ok dump /\ loadDumpIntoDB now order present dump d = Ok d'.
Proof.
  intros Ho Hts Hn Hload. destruct (ReadDump_read ts Hts) as (dump & Hd & Hr). exists dump. split; [done|].
  unfold loadDumpIntoDB. rewrite Hr. unfold mbind, result_bind. apply Hload. by rewrite Ho, map_of_named.
Qed.

Section RoundTrip.
Context `{RowOrder}.

Lemma row_order_fmap {A B} (f : A -> B) (l : list A) : exists l', row_order (f <$> l) = f <$> l' /\ l' ≡ₚ l.
Proof.
  destruct (Permutation_map_inv f l (row_order_perm (f <$> l))) as (l' & E & Hp). by exists l'.
Qed.

Lemma fmap_empty {A B} (f : A -> B) (l : list A) : f <$> l = [] <-> l = [].
Proof. by destruct l. Qed.

Lemma Permutation_empty {A} (l l' : list A) : l' ≡ₚ l -> l' = [] <-> l = [].
Proof. intros Hp. split; intros ->; apply Permutation_nil; [|symmetry]; done. Qed.

Lemma database_ok_perm ps gs us ss d : ps ≡ₚ t_passwd d -> gs ≡ₚ t_groups d -> us ≡ₚ t_uid_gid d -> ss ≡ₚ t_shadow d ->
  database_ok d -> database_ok (Database ps gs us ss).
Proof.
  intros Hp Hg Hu Hs [[] ? ? ? ?]. by split; simpl; [split; simpl|..]; rewrite ?Hp, ?Hg, ?Hu, ?Hs.
Qed.

(** A file whose tables can be printed is dumped; with a row in each table the
    dump is loaded, and else it is refused. *)
Lemma dump_file now order present ts d d' :
  (forall l, order l ≡ₚ l) -> Forall printable ts -> NoDup (tbl_name <$> ts) ->
  (forall l, l ≡ₚ named <$> ts -> load_tables now present l d = Ok d') ->
  exists dump, dbToCsv ts false = Ok dump /\
    (Forall (fun t => tbl_rows t <> []) ts -> loadDumpIntoDB now order present dump d = Ok d') /\
    (Exists (fun t => tbl_rows t = []) ts -> forall d0, loadDumpIntoDB now order present dump d0 = Err too_short).
Proof.
  intros Ho Hp Hn Hload. exists (concat_str (group_text <$> ts)). split; [by apply dbToCsv_lines|]. split.
  - intros Hf. destruct (load_dump now order present ts d d' Ho) as (dump & Hd & Hl); [|done|done|].
    { by apply Forall_and. }
    rewrite dbToCsv_lines in Hd by done. by injection Hd as <-.
  - intros He d0. unfold loadDumpIntoDB, ReadDumpAsTables. by rewrite read_tables_short.
Qed.

(** C40: a cache that is dumped and loaded again is the same cache: for rows
    without NULL, commas and ends of line, and a row at least in each of the four
    tables, the two texts that DumpDb writes give PrepareDBsForTests the rows of
    each table, in the order in which SQLite gave them, with the time of the test
    as the last online login of every user; the order of Go over the tables does
    not matter. When one of the tables has no row, such as in a new cache, the
    texts are written as well, and refused by their reader. *)
Theorem dump_load now order d :
  (forall l, order l ≡ₚ l) -> database_ok d ->
  exists passwd_dump shadow_dump,
    dbToCsv (passwd_file d) false = Ok passwd_dump /\ dbToCsv (shadow_file d) false = Ok shadow_dump /\
    (filled d -> exists d', PrepareDBsForTests now order passwd_dump shadow_dump = Ok d' /\
       t_passwd d' ≡ₚ loaded_user now <$> t_passwd d /\ t_groups d' ≡ₚ t_groups d /\
       t_uid_gid d' ≡ₚ t_uid_gid d /\ t_shadow d' ≡ₚ t_shadow d) /\
    (~ filled d -> PrepareDBsForTests now order passwd_dump shadow_dump = Err too_short).
Proof.
  intros Ho Hd. unfold passwd_file, shadow_file.
  destruct (row_order_fmap passwd_cells (t_passwd d)) as (ps & -> & Hp).
  destruct (row_order_fmap group_cells (t_groups d)) as (gs & -> & Hg).
  destruct (row_order_fmap uid_gid_cells (t_uid_gid d)) as (us & -> & Hu).
  destruct (row_order_fmap shadow_cells (t_shadow d)) as (ss & -> & Hs).
  assert (rows_ok ps gs us ss) as Hok by by apply (database_ok_perm _ _ _ _ d).
  destruct (dump_file now order passwd_tables [passwd_table ps; groups_table gs; uid_gid_table us] empty_db
    (Database (loaded_user now <$> ps) gs us []) Ho) as (pd & Hpd & Hlp & Hep);
    [by eapply passwd_file_printable|by apply (bool_decide_eq_true_1 _)|intros l Hl; by apply (load_passwd_db now ps gs us ss)|].
  destruct (dump_file now order shadow_tables [shadow_table ss] (Database (loaded_user now <$> ps) gs us [])
    (Database (loaded_user now <$> ps) gs us ss) Ho) as (sd & Hsd & Hls & Hes);
    [by eapply shadow_file_printable|by apply (bool_decide_eq_true_1 _)|intros l Hl; by apply (load_shadow_db now ps gs us ss)|].
  exists pd, sd. split; [done|]. split; [done|]. unfold filled, passwd_filled, PrepareDBsForTests.
  rewrite <- (Permutation_empty _ _ Hp), <- (Permutation_empty _ _ Hg), <- (Permutation_empty _ _ Hu), <- (Permutation_empty _ _ Hs).
  rewrite Forall_cons, Forall_cons, Forall_singleton in Hlp. rewrite Forall_singleton in Hls.
  rewrite !Exists_cons, Exists_nil in Hep. rewrite Exists_cons, Exists_nil in Hes. simpl in *.
  rewrite !fmap_empty in *.
  split.
  - intros (Hpf & Hsf). eexists. rewrite Hlp by done. unfold mbind, result_bind. rewrite Hls by done.
    split_and!; try done. simpl. by apply fmap_Permutation.
  - intros Hnf. destruct (decide (ps <> [] /\ gs <> [] /\ us <> [])) as [Hpf|Hpf].
    + rewrite Hlp by done. unfold mbind, result_bind. apply Hes. destruct ss; [by left|]. by destruct Hnf.
    + by rewrite Hep by (destruct ps, gs, us; auto; by destruct Hpf).
Qed.
End RoundTrip.

(** ** Golden files *)

Lemma dump_rows_ext name cols rows1 rows2 :
  Forall2 (fun r1 r2 => exists c1 c2, scan_strings r1 = Ok c1 /\ scan_strings r2 = Ok c2 /\
    predicatableFieldValues name c1 cols = predicatableFieldValues name c2 cols) rows1 rows2 ->
  dump_rows name cols rows1 true = dump_rows name cols rows2 true.
Proof.
  induction 1 as [|r1 r2 rows1 rows2 (c1 & c2 & E1 & E2 & Ec) _ IH]; [done|].
  cbn [dump_rows]. by rewrite E1, E2, IH; unfold mbind, result_bind; rewrite Ec.
Qed.

Lemma Forall2_fmap_both {A B} (P : B -> B -> Prop) (f g : A -> B) (l : list A) :
  (forall x, x ∈ l -> P (f x) (g x)) -> Forall2 P (f <$> l) (g <$> l).
Proof.
  induction l as [|x l IH]; intros Hp; [constructor|]. constructor; [apply Hp; constructor|].
  apply IH. intros y Hy. apply Hp. by constructor.
Qed.

(** With predictable values, the dump that a golden file keeps depends
    neither on the salts of the hashes nor on the times of the logins. *)
Theorem golden_dump_stable (ps : list passwd_row) (ss : list shadow_row) (hash : shadow_row -> string)
    (time : passwd_row -> Z) :
  Forall passwd_ok ps ->
  dumpTable (shadow_table ((fun r => set_shadow_password (hash r) r) <$> ss)) true = dumpTable (shadow_table ss) true /\
  dumpTable (passwd_table ((fun r => set_last_online_auth (time r) r) <$> ps)) true = dumpTable (passwd_table ps) true.
Proof.
  intros Hok. unfold dumpTable, shadow_table, passwd_table. simpl. split.
  - rewrite <- list_fmap_compose. erewrite dump_rows_ext; [done|]. apply Forall2_fmap_both. intros r _.
    unfold compose, shadow_cells, scan_strings. simpl. eexists _, _. by split_and!.
  - rewrite <- list_fmap_compose. erewrite dump_rows_ext; [done|]. apply Forall2_fmap_both. intros r Hr.
    rewrite Forall_forall in Hok. destruct (Hok r Hr) as [_ ((pw & Epw & _) & (ge & Ege & _) & (ho & Eho & _) & (sh & Esh & _)) _ [la Ela]].
    unfold compose, passwd_cells, scan_strings. simpl. rewrite Epw, Ege, Eho, Esh, Ela. simpl.
    eexists _, _. by split_and!.
Qed.

(** ** Concrete dumps *)

Import Concrete.

Definition one_user : database :=
  Database [PasswdRow "u@d.com" (Some "x") 1929326240 1929326240 (Some "My User") (Some "/home/u@d.com") (Some "/bin/bash") (Some 1700000000)]
    [GroupRow "u@d.com" (Some "x") 1929326240] [UidGidRow 1929326240 1929326240]
    [ShadowRow 1929326240 "$2a$10$hash" (-1) (-1) (-1) (-1) (-1) (-1)].

Lemma cell_ok_text s : no_byte newline s -> no_byte "," s -> text_ok (Some s).
Proof. by exists s. Qed.

Ltac text_closed := apply cell_ok_text; no_byte_closed.

Lemma one_user_ok : database_ok one_user.
Proof.
  split; simpl.
  - split; simpl; apply NoDup_singleton.
  - apply Forall_singleton. split; simpl; [split; no_byte_closed|split_and!; text_closed|unfold is_int64; lia|done].
  - apply Forall_singleton. split; simpl; [split; no_byte_closed|split; [text_closed|unfold is_int64; lia]].
  - apply Forall_singleton. unfold uid_gid_ok, is_int64. simpl. lia.
  - apply Forall_singleton. split; simpl; [split; no_byte_closed|].
    repeat (apply Forall_cons; split; [unfold is_int64; lia|]). constructor.
Qed.

Lemma dump_load_witness : exists passwd_dump shadow_dump d',
  dbToCsv (passwd_file one_user) false = Ok passwd_dump /\ dbToCsv (shadow_file one_user) false = Ok shadow_dump /\
  PrepareDBsForTests (1800000000 * Second) id passwd_dump shadow_dump = Ok d' /\
  t_passwd d' ≡ₚ loaded_user (1800000000 * Second) <$> t_passwd one_user /\ t_groups d' ≡ₚ t_groups one_user /\
  t_uid_gid d' ≡ₚ t_uid_gid one_user /\ t_shadow d' ≡ₚ t_shadow one_user.
Proof.
  destruct (dump_load (1800000000 * Second) id one_user (fun l => reflexivity l) one_user_ok)
    as (pd & sd & Hp & Hs & Hf & _).
  destruct Hf as (d' & Hd); [repeat split; discriminate|]. exists pd, sd, d'. split; [exact Hp|split; [exact Hs|exact Hd]].
Defined.

Lemma golden_dump_stable_witness :
  dumpTable (passwd_table ((fun r => set_last_online_auth 7 r) <$> t_passwd one_user)) true = dumpTable (passwd_table (t_passwd one_user)) true.
Proof.
  exact (proj2 (golden_dump_stable (t_passwd one_user) (t_shadow one_user) (fun _ => "other") (fun _ => 7)
    (dok_passwd _ one_user_ok))).
Defined.

(** The dump of a new cache cannot be read back: a table without rows has two
    lines only. *)
Example empty_cache_unreadable :
  (dump ← dbToCsv (passwd_file empty_db) false; ReadDumpAsTables dump)
  = Err (Opaque "%q should contain 3 lines at least: name/row names/data").
Proof. vm_compute. reflexivity. Qed.

(** cache_dumps/db_with_expired_users, with one of its users. *)
Definition expired_dump (wildcard : string) : string :=
  concat_str (line <$> ["passwd"; Join "," passwd_cols; Join "," ["u@d.com"; "x"; "80938656"; "80938656"; "U"; "/home/u"; "/bin/bash"; wildcard];
    ""; "groups"; "name,password,gid"; "u@d.com,x,80938656"; ""; "uid_gid"; "uid,gid"; "80938656,80938656"; ""]).

Definition logins_after_purge (wildcard : string) : result (list string) :=
  d ← loadDumpIntoDB (1800000000 * Second) id passwd_tables (expired_dump wildcard) empty_db;
  Ok (p_login <$> t_passwd (w_db (cleanUpDB (maxCacheEntryDuration 90) (World d [] (1800000000 * Second) 0)).2)).

Example purged_is_purged : logins_after_purge "PURGED_TIME" = Ok [].
Proof. vm_compute. reflexivity. Qed.
Example expired_stays : logins_after_purge "EXPIRED_TIME" = Ok ["u@d.com"].
Proof. vm_compute. reflexivity. Qed.

Lemma wildcards_sort_users_witness :
  let now := 1800000000 * Second in
  ~ recent_enough (new_cache default_options 2)
      (MkUserRecord "u" "" 1 1 "" "" "" (timeUnix (Unix (ParseTimeWildcard now "EXPIRED_TIME"))) "") now.
Proof.
  exact (proj1 (proj1 (proj2 (proj2 (wildcards_sort_users (new_cache default_options 2) (1800000000 * Second)
    (MkUserRecord "u" "" 1 1 "" "" "" (timeUnix (Unix (ParseTimeWildcard (1800000000 * Second) "EXPIRED_TIME"))) "")
    (PasswdRow "u" (Some "x") 1 1 None None None (Some (Unix (ParseTimeWildcard (1800000000 * Second) "EXPIRED_TIME"))))
    "EXPIRED_TIME" eq_refl ltac:(unfold Second; lia) eq_refl eq_refl))) eq_refl)).
Defined.
