(* ===== verification/FileKit.v ===== *)
(** * Files, as the tools of the repository see them

    The generators and the test helpers open, create, append to, rename and
    remove files, and run commands. The state is the files and directories by
    path, the outcomes of the next system calls (any of them can fail) and the
    lines that are logged; bufio.Scanner is a function on contents. *)

From S2P Require Import Prelude GoStrings CacheDB Logger.
Open Scope string_scope.
Open Scope list_scope.
Open Scope Z_scope.

Record file_system := FileSystem {
  files : gmap string string;
  dirs : gset string;
  faults : list (option string);
  logged : list string;
}.

Definition set_files (f : gmap string string) (s : file_system) : file_system := FileSystem f (dirs s) (faults s) (logged s).
Definition set_dirs (d : gset string) (s : file_system) : file_system := FileSystem (files s) d (faults s) (logged s).

Definition sys_call : M file_system unit := fun s =>
  match faults s with
  | [] => (Ok tt, s)
  | None :: rest => (Ok tt, FileSystem (files s) (dirs s) rest (logged s))
  | Some why :: rest => (Err (Opaque why), FileSystem (files s) (dirs s) rest (logged s))
  end.

Definition log_line (line : string) : M file_system unit := fun s =>
  (Ok tt, FileSystem (files s) (dirs s) (faults s) (logged s ++ [line])).

(** [log.Fatal]: the tool ends there. *)
Definition fatal {A} (why : string) : M file_system A := fail (Opaque why).

(** [os.Open] and reading: the content. *)
Definition os_Open (p : string) : M file_system string :=
  sys_call ;; s ← get;
  match files s !! p with Some c => mret c | None => fail (Sentinel OsErrNotExist) end.

(** [os.Create] truncates a file that exists. *)
Definition os_Create (p : string) : M file_system unit :=
  sys_call ;; step (fun s => (Ok tt, set_files (<[p := EmptyString]> (files s)) s)).

(** [os.OpenFile] with O_APPEND|O_WRONLY: the file must exist. *)
Definition os_OpenAppend (p : string) : M file_system unit :=
  sys_call ;; s ← get;
  match files s !! p with Some _ => mret tt | None => fail (Sentinel OsErrNotExist) end.

(** A write at the end of an open file. *)
Definition append (p text : string) : M file_system unit :=
  sys_call ;; step (fun s => (Ok tt, set_files (<[p := default EmptyString (files s !! p) +:+ text]> (files s)) s)).

Definition os_Rename (old new : string) : M file_system unit :=
  sys_call ;; step (fun s =>
    match files s !! old with
    | Some c => (Ok tt, set_files (<[new := c]> (delete old (files s))) s)
    | None => (Err (Sentinel OsErrNotExist), s)
    end).

(** [os.Stat]: whether there is a file or a directory. *)
Definition os_Stat (p : string) : M file_system unit :=
  sys_call ;; s ← get;
  if bool_decide (is_Some (files s !! p) \/ p ∈ dirs s) then mret tt else fail (Sentinel OsErrNotExist).

(** [os.MkdirAll] and [mkdir -p]: every prefix of the path. *)
Fixpoint parents (fuel : nat) (p : string) : list string :=
  match fuel with
  | O => [p]
  | S fuel => if bool_decide (p = "/" \/ p = ".") then [p] else p :: parents fuel (Dir_path p)
  end.

Definition make_dirs (p : string) (s : file_system) : file_system :=
  set_dirs (dirs s ∪ list_to_set (parents (String.length p) (Clean p))) s.

Definition os_MkdirAll (p : string) : M file_system unit :=
  sys_call ;; step (fun s => (Ok tt, make_dirs p s)).

(** [os.RemoveAll]: the path and all that is under it. *)
Definition under (p q : string) : bool := bool_decide (q = p) || HasPrefix q (p +:+ "/").

Definition remove_tree (p : string) (s : file_system) : file_system :=
  FileSystem (filter (fun kv => under p kv.1 = false) (files s)) (filter (fun q => under p q = false) (dirs s))
    (faults s) (logged s).

Definition os_RemoveAll (p : string) : M file_system unit :=
  sys_call ;; step (fun s => (Ok tt, remove_tree p s)).

(** [os.ReadDir]: the names of the entries of a directory, sorted. *)
Definition entries (dir : string) (s : file_system) : list string :=
  merge_sort string_le
    (Base_path <$> filter (fun p => Dir_path p = Clean dir /\ p <> "/")
                     (elements (dom (files s) ∪ dirs s))).

Definition os_ReadDir (dir : string) : M file_system (list string) :=
  sys_call ;; s ← get;
  if bool_decide (Clean dir ∈ dirs s \/ Clean dir = "." \/ Clean dir = "/") then mret (entries dir s)
  else fail (Sentinel OsErrNotExist).

(** ** bufio.Scanner with ScanLines *)

Definition carriage : ascii := chr 13.

Fixpoint drop_cr (l : string) : string :=
  match l with
  | EmptyString => EmptyString
  | String a s => match s with
                  | EmptyString => if bool_decide (a = carriage) then EmptyString else str1 a
                  | _ => String a (drop_cr s)
                  end
  end.

Definition MaxScanTokenSize : Z := 65536.

(** The lines and whether one was too long, which ends the scan. *)
Fixpoint scan_raw (raw : list string) : list string * bool :=
  match raw with
  | [] => ([], false)
  | l :: raw =>
      if MaxScanTokenSize <=? Z.of_nat (String.length l) then ([], true)
      else match raw, l with
           | [], EmptyString => ([], false)
           | _, _ => let '(ls, long) := scan_raw raw in (drop_cr l :: ls, long)
           end
  end.

Definition scan_lines (content : string) : list string * bool := scan_raw (Split newline content).

Example scan_1 : scan_lines ("a" +:+ String carriage eol +:+ eol +:+ "b") = (["a"; ""; "b"], false).
Proof. reflexivity. Qed.
Example scan_2 : scan_lines ("a" +:+ eol +:+ "b" +:+ eol) = (["a"; "b"], false).
Proof. reflexivity. Qed.
Example scan_3 : scan_lines "" = ([], false).
Proof. reflexivity. Qed.

(** ** Lines that were written are scanned again *)

Definition unlines (ls : list string) : string := concat_str ((fun l => l +:+ eol) <$> ls).

(** A line that a scanner gives back as it is. *)
Definition scannable (l : string) : Prop :=
  no_byte newline l /\ Z.of_nat (String.length l) < MaxScanTokenSize /\ drop_cr l = l.

Lemma drop_cr_no_cr l : no_byte carriage l -> drop_cr l = l.
Proof.
  induction l as [|a l IH]; [done|]. intros [Ha Hl]%no_byte_cons. simpl. destruct l as [|b l].
  - by rewrite bool_decide_eq_false_2.
  - by rewrite IH.
Qed.

Lemma scan_unlines ls : Forall scannable ls -> scan_lines (unlines ls) = (ls, false).
Proof.
  unfold scan_lines, unlines. induction 1 as [|l ls (Hn & Hl & Hc) _ IH]; [done|]. csimpl.
  change (l +:+ eol) with (l +:+ String newline EmptyString).
  rewrite append_assoc, append_cons, append_nil_l, Split_app by done. cbn [scan_raw].
  rewrite (proj2 (Z.leb_gt _ _)) by done. rewrite Hc.
  destruct (Split newline (concat_str ((fun l => l +:+ eol) <$> ls))) as [|x raw] eqn:E.
  - by destruct ls as [|[|a l'] ls]; simpl in E; repeat case_match.
  - rewrite IH. by destruct l.
Qed.

(** The lines of any content, when the scan ends well, are scannable. *)
Lemma no_byte_drop_cr c l : no_byte c l -> no_byte c (drop_cr l).
Proof.
  induction l as [|a l IH]; [done|]. intros [Ha Hl]%no_byte_cons. simpl. destruct l as [|b l].
  - case_bool_decide; [apply not_elem_of_nil|]. apply no_byte_cons. split; [done|apply not_elem_of_nil].
  - apply no_byte_cons. split; [done|by apply IH].
Qed.

Lemma length_drop_cr l : (String.length (drop_cr l) <= String.length l)%nat.
Proof.
  induction l as [|a l IH]; [done|]. simpl. destruct l as [|b l]; [by case_bool_decide; simpl; lia|].
  change (S (String.length (drop_cr (String b l))) <= S (String.length (String b l)))%nat. lia.
Qed.

(** ** What the calls do *)

Lemma sys_call_Ok s s' : sys_call s = (Ok tt, s') -> files s' = files s /\ dirs s' = dirs s /\ logged s' = logged s.
Proof. unfold sys_call. destruct (faults s) as [|[] ?]; by intros [= <-]. Qed.

Lemma sys_call_files s : files (sys_call s).2 = files s /\ dirs (sys_call s).2 = dirs s.
Proof. unfold sys_call. by destruct (faults s) as [|[] ?]. Qed.

Lemma sys_call_none s : faults s = [] -> sys_call s = (Ok tt, s).
Proof. unfold sys_call. by intros ->. Qed.

(** Calls that leave the files as they are. *)
Definition same_files (s s' : file_system) : Prop := files s' = files s.

#[export] Instance same_files_preorder : PreOrder same_files.
Proof. split; [by intros s|]. unfold same_files. intros s1 s2 s3. congruence. Qed.
#[export] Hint Resolve same_files_preorder : frames.

Lemma sys_call_same : frames same_files sys_call.
Proof. intros s. apply sys_call_files. Qed.
#[export] Hint Resolve sys_call_same : frames.

Lemma os_Open_same p : frames same_files (os_Open p).
Proof.
  unfold os_Open. apply frames_bind; [apply _|auto with frames|]. intros _. apply frames_bind; [apply _|auto with frames|].
  intros s. destruct (files s !! p); auto with frames.
Qed.
Lemma os_Stat_same p : frames same_files (os_Stat p).
Proof.
  unfold os_Stat. apply frames_bind; [apply _|auto with frames|]. intros _. apply frames_bind; [apply _|auto with frames|].
  intros s. auto with frames.
Qed.
Lemma os_MkdirAll_same p : frames same_files (os_MkdirAll p).
Proof. unfold os_MkdirAll. apply frames_bind; [apply _|auto with frames|]. by intros _ s. Qed.
Lemma os_ReadDir_same p : frames same_files (os_ReadDir p).
Proof.
  unfold os_ReadDir. apply frames_bind; [apply _|auto with frames|]. intros _. apply frames_bind; [apply _|auto with frames|].
  intros s. case_bool_decide; auto with frames.
Qed.
Lemma log_line_same l : frames same_files (log_line l).
Proof. by intros s. Qed.
#[export] Hint Resolve os_Open_same os_Stat_same os_MkdirAll_same os_ReadDir_same log_line_same : frames.
