(* ===== verification/Generators.v ===== *)
(** * The generators: translations, completions and manual pages

    internal/generators/common.go, internal/i18n/generate-locales.go and
    cmd/generate_completion_documentation.go. The gettext tools (msginit,
    xgettext, msgmerge, msgfmt) and the writers of cobra and mango are
    parameters: commands on the files. *)

From S2P Require Import Prelude GoStrings CacheDB Format Logger LoggerFacts FileKit.
Open Scope string_scope.
Open Scope list_scope.
Open Scope Z_scope.

(** ** internal/generators/common.go *)

(** The variables take the value of GENERATE_ONLY_INSTALL_TO_DESTDIR. *)
Definition InstallOnlyMode (env : string) : bool := negb (bool_decide (env = "")).
Definition DestDirectory (env p : string) : string := if bool_decide (env = "") then p else env.

(** mkdir -m perm -p dir *)
Definition CreateDirectory (dir : string) (perm : Z) : M file_system unit :=
  map_err (fun _ => Opaque "Couldn't create dest directory: %v") (os_MkdirAll dir).

Definition CleanDirectory (p : string) : M file_system unit :=
  errorf "couldn't delete %q: %w" (os_RemoveAll p) ;;
  errorf "couldn't create %q: %w" (CreateDirectory p 488).

(** ** internal/i18n/generate-locales.go *)

(** An error formatted with %v is not wrapped. *)
Definition errorf_v {A} (fmt : string) (m : M file_system A) : M file_system A := map_err (fun _ => Opaque fmt) m.

Definition potCreationDatePrefix : string := str1 dquote +:+ "POT-Creation-Date:".

Definition is_date (l : string) : bool := HasPrefix l potCreationDatePrefix.

Definition getPOTCreationDate (p : string) : M file_system string :=
  content ← errorf_v "couldn't open %q: %v" (os_Open p);
  errorf_v "error while reading %q: %v" sys_call ;;
  let '(lines, long) := scan_lines content in
  match List.find is_date lines with
  | Some t => mret t
  | None => if long : bool then fail (Opaque "error while reading %q: %v") else fail (Opaque "didn't find %q in %q")
  end.

Definition redate (potcreation t : string) : string := if is_date t then potcreation else t.

Fixpoint write_lines (p : string) (ls : list string) : M file_system unit :=
  match ls with
  | [] => mret tt
  | l :: ls => append p (l +:+ eol) ;; write_lines p ls
  end.

Definition new_name (p : string) : string := p +:+ ".new".

Definition rewritePOTCreationDate (potcreation p : string) : M file_system unit :=
  content ← errorf_v "couldn't open %q: %v" (os_Open p);
  errorf_v "couldn't open %q: %v" (os_Create (new_name p)) ;;
  errorf_v "error while reading %q: %v" sys_call ;;
  let '(lines, long) := scan_lines content in
  errorf_v "couldn't write to %q: %v" (write_lines (new_name p) (redate potcreation <$> lines)) ;;
  if long : bool then fail (Opaque "error while reading %q: %v")
  else errorf_v "couldn't rename %q to %q: %v" (os_Rename (new_name p) p).

(** The files under a directory, in the order of filepath.WalkDir: directories
    are entered in the order of their names. *)
Fixpoint components_leb (p q : list string) : bool :=
  match p, q with
  | [], _ => true
  | _, [] => false
  | a :: p, b :: q => if bool_decide (a = b) then components_leb p q else String.leb a b
  end.

Definition walk_le (p q : string) : Prop := components_leb (Split "/" p) (Split "/" q) = true.
#[export] Instance walk_le_dec p q : Decision (walk_le p q).
Proof. unfold walk_le. apply _. Defined.

Definition WalkDir_files (root : string) (s : file_system) : list string :=
  merge_sort walk_le (filter (fun p => under root p || bool_decide (root = ".") = true) (elements (dom (files s)))).

Definition TrimPrefix (s p : string) : string := if HasPrefix s p then String.substring (String.length p) (String.length s) s else s.
Definition TrimSuffix (s p : string) : string :=
  if HasSuffix s p then String.substring 0 (String.length s - String.length p) s else s.

Definition is_source (p : string) : bool := HasSuffix p ".go" || HasSuffix p ".go.template".

Section Locales.
(** The gettext tools, with the arguments that the program gives them. *)
Variable msginit : string -> string -> string -> M file_system unit.
Variable xgettext : string -> string -> string -> list string -> M file_system unit.
Variable msgmerge : string -> string -> M file_system unit.
Variable msgfmt : string -> string -> M file_system unit.

Definition createPo_one (potfile localeDir loc : string) : M file_system unit :=
  let pofile := Join_path [localeDir; loc +:+ ".po"] in
  r ← attempt (os_Stat pofile);
  match r with
  | inl _ => log_line "Skipping %q as already exists. Please use update-po to refresh it or delete it first."
  | inr _ => errorf_v "couldn't create %q: %v. Command output: %s" (msginit potfile (loc +:+ ".UTF-8") pofile)
  end.

Fixpoint createPo_all (potfile localeDir : string) (locs : list string) : M file_system unit :=
  match locs with
  | [] => mret tt
  | loc :: locs => createPo_one potfile localeDir loc ;; createPo_all potfile localeDir locs
  end.

Definition createPo (potfile localeDir : string) (locs : list string) : M file_system unit :=
  errorf_v "%q can't be read: %v" (os_Stat potfile) ;;
  createPo_all potfile localeDir locs.

(** One po file: its creation date is kept across msgmerge. *)
Definition refresh_po (potfile pofile : string) : M file_system unit :=
  potcreation ← getPOTCreationDate pofile;
  errorf_v "couldn't refresh %q: %v. Command output: %s" (msgmerge pofile potfile) ;;
  rewritePOTCreationDate potcreation pofile.

Fixpoint refresh_all (potfile localeDir : string) (names : list string) : M file_system unit :=
  match names with
  | [] => mret tt
  | name :: names =>
      (if HasSuffix name ".po" then refresh_po potfile (Join_path [localeDir; name]) else mret tt) ;;
      refresh_all potfile localeDir names
  end.

Definition updatePo (potfile localeDir : string) : M file_system unit :=
  errorf_v "couldn't create directory for %q: %v" (os_MkdirAll localeDir) ;;
  let root := Dir_path localeDir in
  errorf_v "fail to access %q: %v" sys_call ;;
  s ← get;
  let sources := (fun p => TrimPrefix p (root +:+ "/")) <$> filter (fun p => is_source p = true) (WalkDir_files root s) in
  present ← attempt (os_Stat potfile);
  potcreation ← match present with
                | inl _ => d ← getPOTCreationDate potfile; mret (Some d)
                | inr _ => mret None
                end;
  errorf_v "couldn't compile pot file: %v Command output: %s"
    (xgettext (TrimSuffix (Base_path potfile) ".pot") root potfile sources) ;;
  match potcreation with
  | Some d => if bool_decide (d = "") then mret tt else rewritePOTCreationDate d potfile
  | None => mret tt
  end ;;
  names ← os_ReadDir localeDir;
  refresh_all potfile localeDir names.

Fixpoint generate_all (domain input baseLocaleDir : string) (names : list string) : M file_system unit :=
  match names with
  | [] => mret tt
  | name :: names =>
      (if HasSuffix name ".po" then
         let candidate := Join_path [input; name] in
         let outDir := Join_path [baseLocaleDir; TrimSuffix name ".po"; "LC_MESSAGES"] in
         errorf_v "couldn't create %q: %v" (os_MkdirAll outDir) ;;
         errorf_v "couldn't compile mo file from %q: %v. Command output: %s"
           (msgfmt (Join_path [outDir; domain +:+ ".mo"]) candidate)
       else mret tt) ;;
      generate_all domain input baseLocaleDir names
  end.

Definition generateMo (domain input out : string) : M file_system unit :=
  let baseLocaleDir := Join_path [out; "locale"] in
  CleanDirectory baseLocaleDir ;;
  names ← os_ReadDir input;
  generate_all domain input baseLocaleDir names.

(** main: the arguments after the name of the program, and the value of the
    environment variable. *)
Definition locales_main (env : string) (args : list string) : M file_system unit :=
  match args with
  | "create-po" :: potfile :: dir :: _ :: _ =>
      if InstallOnlyMode env then mret tt
      else errorf_v "Error when creating po files: %v" (createPo potfile dir (drop 3 args))
  | ["update-po"; potfile; dir] =>
      if InstallOnlyMode env then mret tt else errorf_v "Error when updating po files: %v" (updatePo potfile dir)
  | ["generate-mo"; domain; podir; dir] =>
      errorf_v "Error when generating mo files: %v"
        (generateMo domain podir (Join_path [DestDirectory env dir; "usr"; "share"]))
  | _ => fatal "Usage of %s:"
  end.
End Locales.

(** ** cmd/generate_completion_documentation.go *)

Section Documentation.
(** The command: its name, and what cobra and mango write for it. *)
Variable name : string.
Variable bash_completion zsh_completion fish_completion man_page : string.
(* mcobra.NewManPage *)
Variable NewManPage : option gerror.

Definition write_file (p content : string) : M file_system unit := os_Create p ;; append p content.

Definition prepare_dir (d : string) : M file_system unit :=
  CleanDirectory (Dir_path d) ;;
  errorf_v "Couldn't create bash completion directory: %v" (CreateDirectory d 493).

Definition genCompletions (dir : string) : M file_system unit :=
  let bashCompDir := Join_path [dir; "bash-completion"; "completions"] in
  let zshCompDir := Join_path [dir; "zsh"; "vendor-completions"] in
  let fishCompDir := Join_path [dir; "fish"; "vendor_completions.d"] in
  prepare_dir bashCompDir ;; prepare_dir zshCompDir ;; prepare_dir fishCompDir ;;
  errorf_v "Couldn't create bash completion for %s: %v" (write_file (Join_path [bashCompDir; name]) bash_completion) ;;
  errorf_v "Couldn't create zsh completion for %s: %v" (write_file (Join_path [zshCompDir; "_" +:+ name]) zsh_completion) ;;
  errorf_v "Couldn't create fish completion for %s: %v"
    (write_file (Join_path [fishCompDir; name +:+ ".fish"]) fish_completion).

Definition genManPage (dir : string) : M file_system unit :=
  let manBaseDir := Join_path [dir; "man"] in
  CleanDirectory manBaseDir ;;
  let out := Join_path [manBaseDir; "man1"] in
  errorf_v "Couldn't create man pages directory: %v" (CreateDirectory out 493) ;;
  match NewManPage with
  | Some e => fatal "Couldn't generate man pages for %s: %v"
  | None =>
      errorf_v "Couldn't write man page content to file: %v" (write_file (Join_path [out; name +:+ ".1"]) man_page)
  end.

Definition documentation_main (env : string) (args : list string) : M file_system unit :=
  match args with
  | "completion" :: dir :: _ => genCompletions (Join_path [DestDirectory env dir; "usr"; "share"])
  | "man" :: dir :: _ => genManPage (Join_path [DestDirectory env dir; "usr"; "share"])
  | _ => fatal "Usage of %s:"
  end.
End Documentation.
