(* ===== verification/GeneratorsFacts.v ===== *)
(** * What the generators do to the files

    The rewriting of a creation date is atomic and keeps every other line; the
    refresh of the translations keeps the creation date of each of them,
    whatever msgmerge writes; in install mode the repository is not touched. *)

From S2P Require Import Prelude GoStrings CacheDB Format Logger LoggerFacts FileKit Generators.
Open Scope string_scope.
Open Scope list_scope.
Open Scope Z_scope.

(** ** Rewriting a date *)

Lemma length_new_name p : String.length (new_name p) = (String.length p + 4)%nat.
Proof. unfold new_name. by rewrite length_append. Qed.

Lemma new_name_neq p : new_name p <> p.
Proof. intros E. pose proof (length_new_name p) as Hl. rewrite E in Hl. lia. Qed.

(** Only [n] may have changed, and it is still there. *)
Definition touches (n : string) (s s' : file_system) : Prop :=
  exists c, files s' = <[n := c]> (files s).

Lemma append_spec p text s c : files s !! p = Some c ->
  match append p text s with
  | (Ok _, s') => files s' = <[p := c +:+ text]> (files s)
  | (_, s') => files s' = files s
  end.
Proof.
  intros Hc. unfold append, mbind, M_bind. pose proof (sys_call_files s) as [Hf _].
  destruct (sys_call s) as [[[]|e|why] s1]; simpl in *; [|done..]. by rewrite Hf, Hc.
Qed.

Lemma write_lines_spec n ls s c : files s !! n = Some c ->
  let '(r, s') := write_lines n ls s in
  (r = Ok tt -> files s' = <[n := c +:+ unlines ls]> (files s)) /\ touches n s s'.
Proof.
  revert s c. induction ls as [|l ls IH]; intros s c Hc; simpl.
  - split; [|exists c]; rewrite ?append_nil_r; by rewrite insert_id.
  - unfold mbind, M_bind. pose proof (append_spec n (l +:+ eol) s c Hc) as Ha.
    destruct (append n (l +:+ eol) s) as [[[]|e|why] s1].
    + specialize (IH s1 (c +:+ l +:+ eol)). rewrite Ha, lookup_insert_eq in IH. specialize (IH eq_refl).
      destruct (write_lines n ls s1) as [r s2]. destruct IH as [Hr [c' Ht]]. split.
      * intros Hok. rewrite (Hr Hok), insert_insert_eq. unfold unlines. csimpl. by rewrite !append_assoc.
      * exists c'. by rewrite Ht, Ha, insert_insert_eq.
    + split; [done|]. exists c. rewrite Ha. symmetry. by apply insert_id.
    + split; [done|]. exists c. rewrite Ha. symmetry. by apply insert_id.
Qed.

(** What a rewriting has done when it ends, well or not. *)
Definition rewritten (d p : string) (s s' : file_system) : Prop :=
  exists content lines, files s !! p = Some content /\ scan_lines content = (lines, false) /\
    files s' = <[p := unlines (redate d <$> lines)]> (delete (new_name p) (files s)).

Lemma errorf_v_run {A} fmt (m : M file_system A) s :
  errorf_v fmt m s = match m s with (Err _, s') => (Err (Opaque fmt), s') | r => r end.
Proof. done. Qed.

Lemma os_Open_run p s : exists r s', os_Open p s = (r, s') /\ files s' = files s /\
  (forall c, r = Ok c -> files s !! p = Some c).
Proof.
  unfold os_Open, mbind, M_bind. pose proof (sys_call_files s) as [Hf _].
  destruct (sys_call s) as [[[]|e|why] s1]; simpl in *; [|by eexists _, _..].
  destruct (files s1 !! p) eqn:E; eexists _, _; (split; [done|]); (split; [done|]); intros c' [= <-]; by rewrite <- Hf.
Qed.

Lemma rewrite_spec d p s r s' : rewritePOTCreationDate d p s = (r, s') ->
  (r = Ok tt /\ rewritten d p s s') \/ (r <> Ok tt /\ (files s' = files s \/ touches (new_name p) s s')).
Proof.
  unfold rewritePOTCreationDate. destruct (os_Open_run p s) as (r1 & s1 & E1 & F1 & Hc).
  unfold mbind at 1, M_bind at 1. rewrite errorf_v_run, E1.
  destruct r1 as [content|e|why]; [|intros [= <- <-]; right; split; [done|by left]..]. specialize (Hc _ eq_refl).
  unfold mbind at 1, M_bind at 1. rewrite errorf_v_run. unfold os_Create, mbind at 1, M_bind at 1.
  pose proof (sys_call_files s1) as [F2 _]. rewrite F1 in F2.
  destruct (sys_call s1) as [[[]|e|why] s2]; simpl in F2; [|intros [= <- <-]; right; split; [done|by left]..].
  unfold step. set (s3 := set_files _ _). assert (files s3 = <[new_name p := ""]> (files s)) as F3 by (simpl; by rewrite F2).
  unfold mbind at 1, M_bind at 1. rewrite errorf_v_run. pose proof (sys_call_files s3) as [F4 _]. rewrite F3 in F4.
  destruct (sys_call s3) as [[[]|e|why] s4]; simpl in F4;
    [|intros [= <- <-]; right; (split; [done|]); right; by exists ""..].
  destruct (scan_lines content) as [lines long] eqn:El.
  pose proof (write_lines_spec (new_name p) (redate d <$> lines) s4 "") as Hw. rewrite F4, lookup_insert_eq in Hw.
  specialize (Hw eq_refl). unfold mbind at 1, M_bind at 1. rewrite errorf_v_run.
  destruct (write_lines _ _ s4) as [r5 s5]. destruct Hw as [Hok [c Ht]]. rewrite F4, insert_insert_eq in Ht.
  destruct r5 as [[]|e|why]; [|intros [= <- <-]; right; (split; [done|]); right; by exists c..].
  specialize (Hok eq_refl). rewrite insert_insert_eq, append_nil_l in Hok.
  destruct long; [intros [= <- <-]; right; (split; [done|]); right; by exists c|].
  rewrite errorf_v_run. unfold os_Rename, mbind, M_bind. pose proof (sys_call_files s5) as [F6 _]. rewrite Hok in F6.
  destruct (sys_call s5) as [[[]|e|why] s6]; simpl in F6;
    [|intros [= <- <-]; right; (split; [done|]); right; by eexists..].
  unfold step. rewrite F6, lookup_insert_eq, delete_insert_eq. intros [= <- <-]. left. split; [done|].
  exists content, lines. by rewrite Hc.
Qed.

(** A creation date is rewritten in place or not at all: on success only the
    lines with the prefix have changed and the temporary file is gone; after
    any failure every file but the temporary one is what it was. *)
Theorem rewrite_atomic d p s r s' :
  rewritePOTCreationDate d p s = (r, s') ->
  (r = Ok tt -> rewritten d p s s') /\
  (r <> Ok tt -> forall q, q <> new_name p -> files s' !! q = files s !! q).
Proof.
  intros [[-> Hr]|[Hn Ht]]%rewrite_spec; (split; [done|]); [done|].
  intros _ q Hq. destruct Ht as [->|[c ->]]; [done|]. by apply lookup_insert_ne.
Qed.

(** ** The creation dates of the translations *)

(** A po file as the gettext tools write it, with its creation date. *)
Definition po_dated (s : file_system) (p d : string) : Prop :=
  exists ls, files s !! p = Some (unlines ls) /\ Forall scannable ls /\ List.find is_date ls = Some d.

Lemma find_redate d ls : is_date d = true -> is_Some (List.find is_date ls) ->
  List.find is_date (redate d <$> ls) = Some d.
Proof.
  intros Hd. induction ls as [|l ls IH]; [by intros []|]. rewrite fmap_cons. cbn [List.find]. unfold redate at 1 2.
  destruct (is_date l) eqn:El; [by rewrite Hd|]. by rewrite El.
Qed.

Lemma po_dated_read s p d : po_dated s p d -> forall r s', getPOTCreationDate p s = (r, s') ->
  files s' = files s /\ (forall x, r = Ok x -> x = d).
Proof.
  intros (ls & Hp & Hls & Hf) r s'. unfold getPOTCreationDate, mbind at 1, M_bind at 1. rewrite errorf_v_run.
  destruct (os_Open_run p s) as (r1 & s1 & -> & F1 & Hc). destruct r1 as [content|e|why]; [|by intros [= <- <-]..].
  specialize (Hc _ eq_refl). rewrite Hp in Hc. injection Hc as <-.
  unfold mbind, M_bind. rewrite errorf_v_run. pose proof (sys_call_files s1) as [F2 _]. rewrite F1 in F2.
  destruct (sys_call s1) as [[[]|e|why] s2]; simpl in F2; [|by intros [= <- <-]..].
  rewrite scan_unlines, Hf by done. intros [= <- <-]. split; [done|]. by intros x [= <-].
Qed.

Lemma rewritten_dated d p s s' : rewritten d p s s' -> is_date d = true -> scannable d ->
  (exists ls, files s !! p = Some (unlines ls) /\ Forall scannable ls /\ is_Some (List.find is_date ls)) ->
  po_dated s' p d.
Proof.
  intros (content & lines & Hc & Hs & Hf) Hd Hsd (ls & Hp & Hls & Hfind). rewrite Hp in Hc. injection Hc as <-.
  rewrite scan_unlines in Hs by done. injection Hs as <-. exists (redate d <$> ls). split_and!.
  - by rewrite Hf, lookup_insert_eq.
  - apply Forall_fmap. eapply Forall_impl; [done|]. intros l Hl. simpl. unfold redate. by case_match.
  - by apply find_redate.
Qed.

Lemma getPOTCreationDate_same p : frames same_files (getPOTCreationDate p).
Proof.
  unfold getPOTCreationDate, errorf_v. apply frames_bind; [apply _|auto with frames|]. intros c.
  apply frames_bind; [apply _|auto with frames|]. intros _. destruct (scan_lines c) as [lines long].
  destruct (List.find is_date lines); [auto with frames|]. destruct long; auto with frames.
Qed.
#[local] Hint Resolve getPOTCreationDate_same : frames.

Section Refresh.
Variable msgmerge : string -> string -> M file_system unit.
(** msgmerge --update writes a po file, with some creation date, and nothing
    else. *)
Hypothesis msgmerge_law : forall po pot s s', msgmerge po pot s = (Ok tt, s') ->
  (exists d, po_dated s' po d) /\ forall q, q <> po -> files s' !! q = files s !! q.

Lemma find_date ls d : List.find is_date ls = Some d -> Forall scannable ls -> is_date d = true /\ scannable d.
Proof.
  intros Hf Hls. apply List.find_some in Hf as [Hin Hd]. split; [done|].
  rewrite Forall_forall in Hls. apply Hls. by apply list_elem_of_In.
Qed.

Lemma refresh_po_dates pot q p d s s' :
  refresh_po msgmerge pot q s = (Ok tt, s') -> p <> new_name q -> po_dated s p d -> po_dated s' p d.
Proof.
  unfold refresh_po. intros (potcreation & s1 & Hg & Hrest)%bind_Ok Hp Hdated.
  apply bind_Ok in Hrest as ([] & s2 & Hm & Hr). apply map_err_Ok in Hm. apply msgmerge_law in Hm as [(d' & ls & Hq & Hls & Hf) Hm].
  destruct (rewrite_atomic _ _ _ _ _ Hr) as [Hw _]. specialize (Hw eq_refl).
  apply (frames_run _ _ _ _ _ (getPOTCreationDate_same q)) in Hg as F1. unfold same_files in F1.
  destruct (decide (p = q)) as [->|Hpq].
  - destruct (po_dated_read s q d Hdated _ _ Hg) as [_ Hd]. specialize (Hd _ eq_refl) as ->.
    destruct Hdated as (ls0 & _ & Hls0 & Hf0). destruct (find_date _ _ Hf0 Hls0).
    apply (rewritten_dated d q s2 s'); [done..|]. exists ls. by rewrite Hf.
  - destruct Hdated as (ls0 & Hp0 & Hls0 & Hf0). exists ls0. split; [|done].
    destruct Hw as (content & lines & _ & _ & ->). rewrite lookup_insert_ne, lookup_delete_ne by done.
    by rewrite Hm, F1 by done.
Qed.

Lemma po_not_new p q : HasSuffix p ".po" = true -> p <> new_name q.
Proof.
  intros (u & ->)%HasSuffix_inv E. unfold new_name in E.
  change (u +:+ ".po") with (u +:+ (".p" +:+ str1 "o")) in E. change (q +:+ ".new") with (q +:+ (".ne" +:+ str1 "w")) in E.
  rewrite <- !append_assoc in E. by apply last_byte in E.
Qed.

Lemma refresh_all_dates pot dir names p d s s' :
  refresh_all msgmerge pot dir names s = (Ok tt, s') -> HasSuffix p ".po" = true -> po_dated s p d -> po_dated s' p d.
Proof.
  intros Hr Hp. revert s Hr. induction names as [|name names IH]; intros s; cbn [refresh_all]; [by intros [= <-]|].
  intros ([] & s1 & H1 & H2)%bind_Ok Hd. apply (IH s1); [done|]. destruct (HasSuffix name ".po").
  - eapply refresh_po_dates; [done| |done]. by apply po_not_new.
  - by injection H1 as <-.
Qed.

(** The refresh of the translations keeps the creation date of each of them:
    msgmerge sets a new one, and it is put back. *)
Theorem updatePo_keeps_dates xgettext pot dir p d s s' :
  (forall pkg root out sources t t', xgettext pkg root out sources t = (Ok tt, t') ->
     forall q, q <> out -> files t' !! q = files t !! q) ->
  HasSuffix p ".po" = true -> p <> pot -> po_dated s p d ->
  updatePo xgettext msgmerge pot dir s = (Ok tt, s') -> po_dated s' p d.
Proof.
  intros Hx Hp Hpot Hd. unfold updatePo.
  assert (forall t t', files t' !! p = files t !! p -> po_dated t p d -> po_dated t' p d) as Hsame.
  { intros t t' Ht (ls & Hl & Hrest). exists ls. by rewrite Ht. }
  assert (forall A (m : M file_system A) t x t', frames same_files m -> m t = (Ok x, t') -> po_dated t p d -> po_dated t' p d)
    as Hkeep by (intros A m t x t' Hm E; apply Hsame; apply (frames_run _ _ _ _ _ Hm) in E; by rewrite E).
  intros ([] & s1 & H1 & Hr)%bind_Ok. apply Hkeep in H1; [|unfold errorf_v; auto with frames|done].
  apply bind_Ok in Hr as ([] & s2 & H2 & Hr). apply Hkeep in H2; [|unfold errorf_v; auto with frames|done].
  apply bind_Ok in Hr as (? & ? & [= <- <-] & Hr).
  apply bind_Ok in Hr as (present & s3 & H3 & Hr). apply Hkeep in H3; [|auto with frames|done].
  apply bind_Ok in Hr as (date & s4 & H4 & Hr).
  apply Hkeep in H4; [|destruct present; [apply frames_bind; auto with frames|auto with frames]|done].
  apply bind_Ok in Hr as ([] & s5 & H5%map_err_Ok & Hr). apply (Hsame s4 s5) in H4; [|by eapply Hx].
  apply bind_Ok in Hr as ([] & s6 & H6 & Hr).
  assert (po_dated s6 p d) as H7.
  { destruct date as [x|]; [destruct (bool_decide (x = ""))|]; [by injection H6 as <-| |by injection H6 as <-].
    destruct (rewrite_atomic _ _ _ _ _ H6) as [(c & lines & _ & _ & F) _]; [done|].
    apply (Hsame s5 s6); [|done]. rewrite F, lookup_insert_ne, lookup_delete_ne; [done| |done].
    intros E. by apply (po_not_new p pot). }
  apply bind_Ok in Hr as (names & s8 & H8 & Hr). apply Hkeep in H8; [|auto with frames|done].
  by apply (refresh_all_dates pot dir names p d s8 s').
Qed.
End Refresh.

(** ** Install mode *)

(** With GENERATE_ONLY_INSTALL_TO_DESTDIR set, the commands that write in the
    repository do nothing, and generate-mo writes under the value of the
    variable whatever the directory of its argument. *)
Theorem install_only msginit xgettext msgmerge msgfmt env args s :
  env <> "" ->
  (forall potfile dir loc locs, args = "create-po" :: potfile :: dir :: loc :: locs ->
     locales_main msginit xgettext msgmerge msgfmt env args s = (Ok tt, s)) /\
  (forall potfile dir, args = ["update-po"; potfile; dir] ->
     locales_main msginit xgettext msgmerge msgfmt env args s = (Ok tt, s)) /\
  (forall domain podir dir dir', args = ["generate-mo"; domain; podir; dir] ->
     locales_main msginit xgettext msgmerge msgfmt env args s
     = locales_main msginit xgettext msgmerge msgfmt env ["generate-mo"; domain; podir; dir'] s).
Proof.
  intros Henv. assert (InstallOnlyMode env = true) as Hi by (unfold InstallOnlyMode; by rewrite bool_decide_eq_false_2).
  assert (forall d, DestDirectory env d = env) as Hdest by (intros d; unfold DestDirectory; by rewrite bool_decide_eq_false_2).
  split_and!; intros; subst args; unfold locales_main; [by rewrite Hi..|]. by rewrite !Hdest.
Qed.

(** ** Concrete runs *)

Definition date_line (d : string) : string := potCreationDatePrefix +:+ " " +:+ d.

(** A msgmerge that only changes the date, and an xgettext that writes an empty
    catalogue. *)
Definition toy_msgmerge (po pot : string) : M file_system unit :=
  step (fun s => (Ok tt, set_files (<[po := unlines ["msgid"; date_line "today"]]> (files s)) s)).
Definition toy_xgettext (pkg root out : string) (sources : list string) : M file_system unit :=
  step (fun s => (Ok tt, set_files (<[out := unlines (date_line "today" :: sources)]> (files s)) s)).

Definition repository : file_system :=
  FileSystem {[ "po/fr.po" := unlines ["msgid"; date_line "2022"]; "pam/pam_c.go" := "package main" ]} ∅ [] [].

Example update_run : (updatePo toy_xgettext toy_msgmerge "po/aad-auth.pot" "po" repository).1 = Ok tt.
Proof. vm_compute. reflexivity. Qed.
Example update_pot :
  files (updatePo toy_xgettext toy_msgmerge "po/aad-auth.pot" "po" repository).2 !! "po/aad-auth.pot"
  = Some (unlines [date_line "today"; "pam/pam_c.go"]).
Proof. vm_compute. reflexivity. Qed.

Lemma scannable_closed l : bool_decide (no_byte newline l) && (Z.of_nat (String.length l) <? MaxScanTokenSize)
  && bool_decide (drop_cr l = l) = true -> scannable l.
Proof.
  intros [[Hn%bool_decide_eq_true Hl%Z.ltb_lt]%andb_true_iff Hc%bool_decide_eq_true]%andb_true_iff. done.
Qed.

Lemma dated_lines d ls : forallb (fun l => bool_decide (no_byte newline l) && (Z.of_nat (String.length l) <? MaxScanTokenSize)
  && bool_decide (drop_cr l = l)) ls = true -> List.find is_date ls = Some d -> forall s p,
  files s !! p = Some (unlines ls) -> po_dated s p d.
Proof.
  intros Hls Hf s p Hp. exists ls. split_and!; [done| |done]. apply Forall_forall. intros l Hl.
  apply scannable_closed. rewrite forallb_forall in Hls. apply Hls. by apply list_elem_of_In.
Qed.

Lemma toy_msgmerge_law po pot s s' : toy_msgmerge po pot s = (Ok tt, s') ->
  (exists d, po_dated s' po d) /\ forall q, q <> po -> files s' !! q = files s !! q.
Proof.
  intros [= <-]. split; [|intros q Hq; by apply lookup_insert_ne].
  exists (date_line "today"). apply (dated_lines _ ["msgid"; date_line "today"]); [vm_compute; reflexivity|vm_compute; reflexivity|]. apply lookup_insert_eq.
Qed.

Definition refreshed : file_system := (updatePo toy_xgettext toy_msgmerge "po/aad-auth.pot" "po" repository).2.

Lemma refreshed_run : updatePo toy_xgettext toy_msgmerge "po/aad-auth.pot" "po" repository = (Ok tt, refreshed).
Proof. vm_compute. reflexivity. Qed.

Lemma repository_dated : po_dated repository "po/fr.po" (date_line "2022").
Proof. apply (dated_lines _ ["msgid"; date_line "2022"]); vm_compute; reflexivity. Qed.

Lemma updatePo_keeps_dates_witness : po_dated refreshed "po/fr.po" (date_line "2022").
Proof.
  apply (updatePo_keeps_dates toy_msgmerge toy_msgmerge_law toy_xgettext "po/aad-auth.pot" "po" "po/fr.po" (date_line "2022")
    repository refreshed).
  - intros pkg root out sources t t' [= <-] q Hq. by apply lookup_insert_ne.
  - reflexivity.
  - discriminate.
  - exact repository_dated.
  - exact refreshed_run.
Defined.

Lemma rewrite_atomic_witness :
  let s := repository in
  rewritten (date_line "2021") "po/fr.po" s (rewritePOTCreationDate (date_line "2021") "po/fr.po" s).2.
Proof.
  assert (rewritePOTCreationDate (date_line "2021") "po/fr.po" repository
    = (Ok tt, (rewritePOTCreationDate (date_line "2021") "po/fr.po" repository).2)) as E by (vm_compute; reflexivity).
  exact (proj1 (rewrite_atomic _ _ _ _ _ E) eq_refl).
Defined.

Lemma install_only_witness :
  locales_main (fun _ _ _ => mret tt) toy_xgettext toy_msgmerge (fun _ _ => mret tt) "/tmp/dest" ["update-po"; "po/x.pot"; "po"] repository
  = (Ok tt, repository).
Proof.
  exact (proj1 (proj2 (install_only (fun _ _ _ => mret tt) toy_xgettext toy_msgmerge (fun _ _ => mret tt) "/tmp/dest"
    ["update-po"; "po/x.pot"; "po"] repository ltac:(discriminate))) "po/x.pot" "po" eq_refl).
Defined.
