(* ===== verification/I18n.v ===== *)
(** * internal/i18n/i18n.go: the catalogue of translations

    The locale of the process and the file of translations that is loaded for
    it. The catalogue itself is of the go-gettext package: a parameter. *)

From S2P Require Import Prelude GoStrings.
Open Scope string_scope.
Open Scope list_scope.
Open Scope Z_scope.

(** gettext.TextDomain *)
Record TextDomain := MkTextDomain {
  td_Name : string;
  td_LocaleDir : string;
  td_PathResolver : string -> string -> string -> string;
}.

Section I18n.
(* os.Stat succeeds *)
Variable exists_ : string -> bool.
(* gettext.Catalog with its two methods, and (TextDomain).Locale *)
Variable Catalog : Type.
Variable Gettext : Catalog -> string -> string.
Variable NGettext : Catalog -> string -> string -> Z -> string.
Variable Locale : TextDomain -> string -> Catalog.

(** The files that langpackResolver tries, in their order. *)
Definition candidates (root locale domain : string) : list string :=
  locale ← [locale; (Cut "_" locale).1.1];
  dir ← [Join_path [root; ".."; "locale-langpack"]; root];
  [Join_path [dir; Join_path [locale; "LC_MESSAGES"; domain +:+ ".mo"]]].

Fixpoint first_existing (l : list string) : string :=
  match l with
  | [] => ""
  | candidateMo :: l => if exists_ candidateMo then candidateMo else first_existing l
  end.

Definition langpackResolver (root locale domain : string) : string := first_existing (candidates root locale domain).

(** type i18n, before the catalogue is set *)
Record i18n := MkI18n { domain : string; localeDir : string; loc : string }.

Definition bindTextDomain (domain dir : string) : TextDomain := MkTextDomain domain dir langpackResolver.

(** The name of the locale that setLocale asks for, with the values of the
    environment. *)
Definition locale_name (LC_MESSAGES LANG loc : string) : string :=
  let loc := if bool_decide (loc = "") then (if bool_decide (LC_MESSAGES = "") then LANG else LC_MESSAGES) else loc in
  let loc := (Cut "@" loc).1.1 in
  (Cut "." loc).1.1.

Definition setLocale (translations : TextDomain) (LC_MESSAGES LANG loc : string) : Catalog :=
  Locale translations (locale_name LC_MESSAGES LANG loc).

(** The functions of the package, which the others call. *)
Record translator := Translator { call_G : string -> string; call_NG : string -> string -> Z -> string }.

(** InitI18nDomain: the functions that it installs. *)
Definition InitI18nDomain (LC_MESSAGES LANG : string) (domain_ : string) (options : list (i18n -> i18n)) : translator :=
  let locale := fold_left (fun l option => option l) options (MkI18n domain_ "/usr/share/locale" "") in
  let translations := bindTextDomain (domain locale) (localeDir locale) in
  let catalog := setLocale translations LC_MESSAGES LANG (loc locale) in
  Translator (Gettext catalog) (NGettext catalog).

(** G and NG before any initialisation *)
Definition G (msgid : string) : string := msgid.
Definition NG (msgid msgidPlural : string) (n : Z) : string := msgid.

(** ** The resolver *)

(** The file of translations is the first that exists among the language
    pack and the system directory for the full locale, then the same two for
    its language alone; without any there is none. *)
Theorem langpackResolver_first root locale domain :
  let lang := (Cut "_" locale).1.1 in
  let mo l := Join_path [l; "LC_MESSAGES"; domain +:+ ".mo"] in
  let pack l := Join_path [Join_path [root; ".."; "locale-langpack"]; mo l] in
  let system l := Join_path [root; mo l] in
  langpackResolver root locale domain =
    if exists_ (pack locale) then pack locale
    else if exists_ (system locale) then system locale
    else if exists_ (pack lang) then pack lang
    else if exists_ (system lang) then system lang
    else "".
Proof. reflexivity. Qed.
End I18n.

(** ** The name of the locale *)

Lemma no_byte_Cut c d s : no_byte d s -> no_byte d (Cut c s).1.1.
Proof.
  induction s as [|a s IH]; [done|]. intros [Ha Hs]%no_byte_cons. simpl.
  case_bool_decide; [apply not_elem_of_nil|]. specialize (IH Hs). destruct (Cut c s) as [[b t] f].
  by apply no_byte_cons.
Qed.

Lemma Cut_before c s : no_byte c (Cut c s).1.1.
Proof.
  induction s as [|a s IH]; [apply not_elem_of_nil|]. simpl. case_bool_decide; [apply not_elem_of_nil|].
  destruct (Cut c s) as [[b t] f]. by apply no_byte_cons.
Qed.

(** The name of the locale has lost its charset and its modifier, and comes
    from the argument, LC_MESSAGES or LANG, the first that is not empty. *)
Theorem locale_name_simplified LC_MESSAGES LANG loc :
  let name := locale_name LC_MESSAGES LANG loc in
  no_byte "@" name /\ no_byte "." name /\
  (loc <> "" -> name = locale_name "" "" loc) /\
  (loc = "" -> LC_MESSAGES <> "" -> name = locale_name "" "" LC_MESSAGES) /\
  (loc = "" -> LC_MESSAGES = "" -> name = locale_name "" LANG "").
Proof.
  simpl. split_and!; [apply no_byte_Cut, Cut_before|apply Cut_before|..]; unfold locale_name.
  - intros Hl. by rewrite !bool_decide_eq_false_2.
  - intros -> Hm. by rewrite bool_decide_eq_true_2, !bool_decide_eq_false_2.
  - by intros -> ->.
Qed.

Lemma locale_name_simplified_witness : locale_name "fr_FR.UTF-8" "C" "" = locale_name "" "" "fr_FR.UTF-8".
Proof. exact (proj1 (proj2 (proj2 (proj2 (locale_name_simplified "fr_FR.UTF-8" "C" "")))) eq_refl ltac:(discriminate)). Defined.

Example locale_1 : locale_name "" "de_DE.UTF-8@euro" "" = "de_DE".
Proof. reflexivity. Qed.
Example resolver_1 :
  langpackResolver (fun p => bool_decide (p = "/usr/share/locale-langpack/de/LC_MESSAGES/aad-auth.mo")) "/usr/share/locale" "de_DE" "aad-auth"
  = "/usr/share/locale-langpack/de/LC_MESSAGES/aad-auth.mo".
Proof. reflexivity. Qed.
