(* ===== verification/TestCoverage.v ===== *)
(** * internal/testutils: coverage profiles and golden files

    coverage.go (the profiles of the tests, merged in the main one), rust.go
    (the report of grcov turned into such a profile) and goldens.go. *)

From S2P Require Import Prelude GoStrings CacheDB Format Logger LoggerFacts FileKit.
Open Scope string_scope.
Open Scope list_scope.
Open Scope Z_scope.

(** ** coverage.go *)

(** The global variables of the package, with the files. *)
Record coverage := Coverage {
  c_fs : file_system;
  goMainCoverProfile : string;
  goMainCoverProfileOnce : bool;
  coveragesToMerge : list string;
}.

Definition on_files {A} (m : M file_system A) : M coverage A :=
  zoom c_fs (fun f c => Coverage f (goMainCoverProfile c) (goMainCoverProfileOnce c) (coveragesToMerge c)) m.

Definition coverprofile_flag : string := "-test.coverprofile=".

(** [strings.TrimPrefix] *)
Fixpoint drop_prefix (p s : string) : option string :=
  match p, s with
  | EmptyString, _ => Some s
  | String a p, String b s => if bool_decide (a = b) then drop_prefix p s else None
  | String _ _, EmptyString => None
  end.
Definition TrimPrefix (s p : string) : string := default s (drop_prefix p s).

(** The last argument that names a profile. *)
Definition profile_of (Args : list string) (current : string) : string :=
  fold_left (fun cur arg => match drop_prefix coverprofile_flag arg with Some p => p | None => cur end) Args current.

Definition WantCoverage (Args : list string) : bool := existsb (fun arg => HasPrefix arg coverprofile_flag) Args.

(** [filepath.Abs], in the directory [cwd] *)
Definition Abs (cwd path : string) : string :=
  if starts slash path then Clean path else Join_path [cwd; path].

(** [strings.ReplaceAll] of one byte by another *)
Fixpoint replace_byte (a b : ascii) (s : string) : string :=
  match s with
  | EmptyString => EmptyString
  | String c s => String (if bool_decide (c = a) then b else c) (replace_byte a b s)
  end.

Definition test_file (cwd profile name : string) : string :=
  Abs cwd profile +:+ "." +:+ replace_byte backslash "_" (replace_byte "/" "_" name).

(** TrackTestCoverage, for the test [name] of a process with the arguments
    [Args] *)
Definition TrackTestCoverage (cwd : string) (Args : list string) (name : string) : M coverage string := fun c =>
  let profile := if goMainCoverProfileOnce c then goMainCoverProfile c else profile_of Args (goMainCoverProfile c) in
  let c := Coverage (c_fs c) profile true (coveragesToMerge c) in
  if bool_decide (profile = "") then (Ok "", c)
  else
    let testCoverFile := test_file cwd profile name in
    if bool_decide (testCoverFile ∈ coveragesToMerge c) then
      (Err (Opaque "Trying to adding a second time %q to the list of file to cover."), c)
    else (Ok testCoverFile, Coverage (c_fs c) profile true (coveragesToMerge c ++ [testCoverFile])).

Definition is_mode (l : string) : bool := HasPrefix l "mode: ".

Fixpoint copy_lines (dst : string) (ls : list string) : M file_system unit :=
  match ls with
  | [] => mret tt
  | l :: ls =>
      (if is_mode l then mret tt
       else errorf "can't write to golang cover profile file: %w" (append dst (l +:+ eol))) ;;
      copy_lines dst ls
  end.

Definition appendToFile (src dst : string) : M file_system unit :=
  content ← errorf "can't open coverage file: %w" (os_Open (Clean src));
  errorf "can't open golang cover profile file: %w" (os_OpenAppend dst) ;;
  let '(lines, long) := scan_lines content in
  copy_lines dst lines ;;
  if long : bool then fail (Wrapped "error while scanning golang cover profile file: %w" (Opaque "token too long"))
  else mret tt.

(** The loop of MergeCoverages: every file is tried, and errors.Join keeps the
    errors that are not nil. *)
Fixpoint merge_each (covs : list string) (dst : string) (errs : list gerror) : M file_system (list gerror) :=
  match covs with
  | [] => mret errs
  | cov :: covs =>
      r ← attempt (appendToFile cov dst);
      merge_each covs dst (match r with inl _ => errs | inr e => errs ++ [e] end)
  end.

(** What it returns: no error, or all of them. *)
Definition MergeCoverages : M coverage (list gerror) := fun c =>
  match on_files (merge_each (coveragesToMerge c) (goMainCoverProfile c) []) c with
  | (Ok errs, c') => (Ok errs, Coverage (c_fs c') (goMainCoverProfile c') (goMainCoverProfileOnce c') [])
  | r => r
  end.

(** The first line of a file, with its end of line. *)
Definition first_line (content : string) : option string :=
  match Cut newline content with (l, _, true) => Some (l +:+ eol) | _ => None end.

(** The loop of fqdnToPath, from the directory [d] up. *)
Fixpoint find_module (fuel : nat) (srcPath d : string) : M file_system string :=
  match fuel with
  | O => fatal "out of fuel"
  | S fuel =>
      if bool_decide (d = "/") then fatal "failed to find go.mod"
      else
        r ← attempt (os_Open (Clean (Join_path [d; "go.mod"])));
        match r with
        | inr _ => find_module fuel srcPath (Dir_path d)
        | inl content =>
            match first_line content with
            | None => fatal "can't read go.mod first line"
            | Some l =>
                if negb (HasPrefix l "module ") then fatal "Setup: failed to find module line in go.mod"
                else mret (Join_path [TrimSpace (TrimPrefix l "module "); TrimPrefix srcPath d])
            end
        end
  end.

Definition fqdnToPath (cwd path : string) : M file_system string :=
  let srcPath := Abs cwd path in
  find_module (S (String.length srcPath)) srcPath srcPath.

(** ** rust.go *)

(** What encoding/json decodes into an interface: the keys of an object are
    distinct, and grcov writes whole numbers. *)
Inductive json :=
  | JNull
  | JNumber (z : Z)
  | JArray (l : list json)
  | JObject (fields : list (string * json))
  | JOther.

Definition field (k : string) (fields : list (string * json)) : json :=
  match List.find (fun f => bool_decide (f.1 = k)) fields with Some (_, v) => v | None => JNull end.

Section Scan.
Context `{UnicodePrint}.
Variable other_verb : string + Z -> spec -> Z -> string.
(** The order in which Go ranges over the children of a directory. *)
Variable order : list string -> list string.

(** What is written so far in the coverage file. *)
Definition write (text : string) : M string unit := fun w => (Ok tt, w +:+ text).

Definition writeGoCoverageLine (file : string) (lineNum lineLength : Z) (covered : string) : M string unit :=
  write (Sprintf ("%s:%d.1,%d.%d 1 %s" +:+ eol)
    [str other_verb file; int other_verb lineNum; int other_verb lineNum; int other_verb lineLength; str other_verb covered]).

(** convertRustFileResult, from the line [l] on *)
Fixpoint convert_from (l : Z) (results : list json) (p : string) : M string unit :=
  match results with
  | [] => mret tt
  | JNumber v :: results =>
      (if v =? -1 then mret tt else writeGoCoverageLine p (l + 1) 9999 (if v =? 0 then "0" else "1")) ;;
      convert_from (l + 1) results p
  | _ :: _ => fail (Opaque "%v for coverage report is not a float")
  end.

Definition convertRustFileResult (results : list json) (p : string) : M string unit := convert_from 0 results p.

Fixpoint run_all (l : list (M string unit)) : M string unit :=
  match l with [] => mret tt | m :: l => m ;; run_all l end.

(** scan: a file has its coverage, a directory its children, by name. *)
Fixpoint scan (results : json) (p : string) {struct results} : M string unit :=
  match results with
  | JObject fields =>
      match field "coverage" fields with
      | JArray res => convertRustFileResult res p
      | JNull =>
          (fix find_children (fs : list (string * json)) : M string unit :=
             match fs with
             | [] => mret tt
             | (k, v) :: fs =>
                 if bool_decide (k = "children") then
                   match v with
                   | JNull => mret tt
                   | JObject children =>
                       let scans :=
                         (fix each (cs : list (string * json)) : list (string * M string unit) :=
                            match cs with
                            | [] => []
                            | (elem, sub) :: cs =>
                                match sub with
                                | JObject _ => if bool_decide (elem = "/") then each cs
                                               else (elem, scan sub (Join_path [p; elem])) :: each cs
                                | _ => each cs
                                end
                            end) children in
                       run_all ((fun elem => default (mret tt) (snd <$> List.find (fun o => bool_decide (o.1 = elem)) scans))
                                  <$> order scans.*1)
                   | _ => fail (Opaque "children %v is not a map of data")
                   end
                 else find_children fs
             end) fields
      | _ => fail (Opaque "%v for coverage report is not a slice of floats in interface")
      end
  | _ => mret tt
  end.
End Scan.

(** CanRunRustTests: cargo and grcov are commands, whose outcomes are given. *)
Definition CanRunRustTests (cargo : string + gerror) (has_nightly : string -> bool) (coverageWanted : bool)
    (MkdirTemp grcov : option gerror) : option gerror :=
  match cargo with
  | inr e => Some (Wrapped "cargo can't be executed: %w" e)
  | inl d =>
      if negb coverageWanted then None
      else if negb (has_nightly d) then
        Some (Opaque "coverage is requested but your cargo/rust version does not support it (needs nightly)")
      else match MkdirTemp with
           | Some e => Some (Wrapped "can't create temporary directory to test grcov: %w" e)
           | None => match grcov with
                     | Some e => Some (Wrapped "grcov is needed for coverage report and can't be executed: %w" e)
                     | None => None
                     end
           end
  end.

(** ** goldens.go *)

(** LoadWithUpdateFromGolden for the test [name], with the flag [update] *)
Definition golden_path (name : string) : string := Join_path ["testdata"; "golden"; name].

Definition write_golden (p data : string) : M file_system unit :=
  os_MkdirAll (Dir_path p) ;; os_Create p ;; append p data.

Definition LoadWithUpdateFromGolden (update : bool) (name data : string) : M file_system string :=
  let goldPath := golden_path name in
  (if update then write_golden goldPath data else mret tt) ;;
  os_Open goldPath.

(** The path of a golden file, and the option that changes it *)
Record goldenOption := GoldenOption { goldPath : string }.
Definition OptionGolden : Type := goldenOption -> goldenOption.

Definition WithGoldPath (path : string) : OptionGolden := fun o =>
  if bool_decide (path = "") then o else GoldenOption path.

(** [strings.ReplaceAll], for a text that is not empty: [skip] bytes of an
    occurrence are still to be passed. *)
Fixpoint replace_from (old new : string) (skip : nat) (s : string) : string :=
  match s with
  | EmptyString => EmptyString
  | String c s' =>
      match skip with
      | S skip => replace_from old new skip s'
      | O => if String.prefix old s then new +:+ replace_from old new (String.length old - 1) s'
             else String c (replace_from old new 0 s')
      end
  end.

(** TimestampToWildcard, of a time that is written as [RFC3339] *)
Definition TimestampToWildcard (s RFC3339 : string) : string := replace_from RFC3339 "SOME_TIME" 0 s.

Example two_timestamps :
  TimestampToWildcard "a=2022-10-12T10:00:00Z b=2022-10-12T10:00:00Z" "2022-10-12T10:00:00Z" = "a=SOME_TIME b=SOME_TIME".
Proof. vm_compute. done. Qed.

Section Yaml.
(* yaml.Marshal and yaml.Unmarshal *)
Context {E : Type} (Marshal : E -> result string) (Unmarshal : string -> result E).

Definition LoadYAMLWithUpdateFromGolden (update : bool) (name : string) (ref : E) (opts : list OptionGolden)
    : M file_system E :=
  let p := goldPath (fold_left (fun o opt => opt o) opts (GoldenOption (golden_path name))) in
  (if update then
     os_MkdirAll (Dir_path p) ;;
     data ← lift (Marshal ref);
     os_Create p ;; append p data
   else mret tt) ;;
  data ← os_Open p;
  lift (Unmarshal data).
End Yaml.
