(* ===== verification/CoverageFacts.v ===== *)
(** * What the coverage and golden helpers do

    The merge of the profiles, whatever is missing; the search of go.mod ends;
    the lines written for a Rust file; golden files give back what they were
    updated with. *)

From S2P Require Import Prelude GoStrings CacheDB Decimal Format Logger LoggerFacts FileKit TestCoverage.
Open Scope string_scope.
Open Scope list_scope.
Open Scope Z_scope.

(** ** Paths get shorter *)

(** The length that a list of components takes, with their separators. *)
Fixpoint width (l : list string) : nat :=
  match l with [] => O | c :: l => (S (String.length c) + width l)%nat end.

(** Components that are not empty. *)
Fixpoint full_width (l : list string) : nat :=
  match l with
  | [] => O
  | c :: l => ((if bool_decide (c = "") then O else S (String.length c)) + full_width l)%nat
  end.

Lemma width_app l1 l2 : width (l1 ++ l2) = (width l1 + width l2)%nat.
Proof. induction l1 as [|c l1 IH]; simpl; [done|]. rewrite IH. lia. Qed.

Lemma width_rev l : width (rev l) = width l.
Proof. induction l as [|c l IH]; [done|]. simpl. rewrite width_app, IH. simpl. lia. Qed.

Lemma length_Join_slash l : (String.length (Join "/" l) <= width l - 1)%nat.
Proof.
  induction l as [|c [|c' l] IH]; [simpl; lia|simpl; lia|].
  change (Join "/" (c :: c' :: l)) with (c +:+ "/" +:+ Join "/" (c' :: l)). rewrite !length_append.
  simpl in *. lia.
Qed.

Lemma clean_step_width rooted stack c :
  (width (clean_step rooted stack c) <= width stack + (if bool_decide (c = "") then O else S (String.length c)))%nat.
Proof.
  unfold clean_step. destruct (decide (c = "")) as [->|Hc].
  - rewrite bool_decide_eq_true_2 by auto. simpl. lia.
  - rewrite (bool_decide_eq_false_2 (c = "")) by done. destruct (bool_decide (c = "" \/ c = ".")); [lia|].
    destruct (bool_decide (c = "..")); [|simpl; lia]. destruct stack as [|t st]; [destruct rooted; simpl; lia|].
    destruct (bool_decide (t = "..")); simpl; lia.
Qed.

Lemma clean_fold_width rooted cs stack :
  (width (fold_left (clean_step rooted) cs stack) <= width stack + full_width cs)%nat.
Proof.
  revert stack. induction cs as [|c cs IH]; intros stack; simpl; [lia|].
  specialize (IH (clean_step rooted stack c)). pose proof (clean_step_width rooted stack c). lia.
Qed.

Lemma length_Clean_abs s : (String.length (Clean (String slash s)) <= Nat.max 1 (full_width (Split slash s)))%nat.
Proof.
  unfold Clean. rewrite bool_decide_eq_true_2 by done.
  change (Split slash (String slash s)) with ("" :: Split slash s). cbn [fold_left].
  change (clean_step true [] "") with (@nil string).
  pose proof (clean_fold_width true (Split slash s) []) as Hw. simpl in Hw.
  set (st := fold_left _ _ _) in *. pose proof (length_Join_slash (rev st)) as Hj. rewrite width_rev in Hj.
  change (str1 slash) with "/". simpl. lia.
Qed.

Lemma Split_not_nil c s : Split c s <> [].
Proof. destruct s as [|a s]; simpl; [done|]. by repeat case_match. Qed.

Lemma width_Split s : width (Split slash s) = S (String.length s).
Proof.
  induction s as [|a s IH]; [done|]. cbn [Split]. case_bool_decide; [simpl; by rewrite IH|].
  destruct (Split slash s) as [|x l] eqn:E; [by apply Split_not_nil in E|]. simpl in *. lia.
Qed.

Lemma full_width_le l : (full_width l <= width l)%nat.
Proof. induction l as [|c l IH]; simpl; [done|]. case_bool_decide; lia. Qed.

Lemma full_width_app l1 l2 : full_width (l1 ++ l2) = (full_width l1 + full_width l2)%nat.
Proof. induction l1 as [|c l1 IH]; simpl; [done|]. rewrite IH. lia. Qed.

Lemma Split_snoc s : Split slash (s +:+ "/") = Split slash s ++ [""].
Proof.
  induction s as [|a s IH]; [done|]. rewrite append_cons. cbn [Split]. rewrite IH.
  case_bool_decide; [done|]. destruct (Split slash s) as [|x l] eqn:E; [by apply Split_not_nil in E|done].
Qed.

(** The directory of an absolute path that is not the root is shorter, and
    absolute. *)
Lemma last_slash_split s d f : last_slash s = Some (d, f) -> s = d +:+ f /\ exists d', d = d' +:+ "/".
Proof.
  revert d f. induction s as [|a s IH]; intros d f; [done|]. simpl.
  destruct (last_slash s) as [[d0 f0]|] eqn:E.
  - intros [= <- <-]. destruct (IH _ _ eq_refl) as (-> & d' & ->). rewrite append_cons. split; [done|].
    exists (String a d'). by rewrite append_cons.
  - case_bool_decide; [|done]. intros [= <- <-]. subst. split; [done|]. by exists "".
Qed.

Lemma last_slash_abs s : is_Some (last_slash (String slash s)).
Proof. simpl. destruct (last_slash s) as [[]|]; by eexists. Qed.

Lemma Clean_abs s : exists t, Clean (String slash s) = String slash t.
Proof. unfold Clean. rewrite bool_decide_eq_true_2 by done. by eexists. Qed.

Lemma full_width_trailing s : (full_width (Split slash (s +:+ "/")) <= String.length (s +:+ "/"))%nat.
Proof.
  rewrite Split_snoc, full_width_app, length_append. pose proof (full_width_le (Split slash s)) as Hf.
  rewrite width_Split in Hf. simpl. lia.
Qed.

Lemma Dir_path_shorter s : s <> "" ->
  exists t, Dir_path (String slash s) = String slash t /\ (String.length t < String.length s)%nat.
Proof.
  intros Hs. unfold Dir_path. destruct (last_slash_abs s) as [[d f] E]. rewrite E.
  apply last_slash_split in E as (E & d' & ->). destruct d' as [|a d'].
  - rewrite append_nil_l. exists "". split; [done|]. destruct s; [done|simpl; lia].
  - rewrite !append_cons in E. injection E as <- ->. rewrite append_cons.
    destruct (Clean_abs (d' +:+ "/")) as [t Et]. exists t. split; [done|].
    pose proof (length_Clean_abs (d' +:+ "/")) as Hl. pose proof (full_width_trailing d') as Hw. rewrite Et in Hl.
    rewrite !length_append in *. simpl in *. lia.
Qed.

(** ** The search of go.mod *)

Lemma Abs_abs cwd path : starts slash cwd = true -> exists t, Abs cwd path = String slash t.
Proof.
  unfold Abs. intros Hc. destruct (starts slash path) eqn:Hp.
  - destruct path as [|a path]; [done|]. simpl in Hp. apply bool_decide_eq_true in Hp as ->. apply Clean_abs.
  - destruct cwd as [|a cwd]; [done|]. simpl in Hc. apply bool_decide_eq_true in Hc as ->.
    unfold Join_path. rewrite filter_cons, decide_True by done. destruct (decide (path = "")) as [->|Hn].
    + rewrite filter_cons, decide_False, filter_nil by (by intros []). apply Clean_abs.
    + rewrite filter_cons, decide_True, filter_nil by done.
      change (Join (str1 slash) [String slash cwd; path]) with (String slash cwd +:+ "/" +:+ path). rewrite append_cons.
      apply Clean_abs.
Qed.

Lemma find_module_ends fuel src t s : (String.length t < fuel)%nat ->
  (find_module fuel src (String slash t) s).1 <> Err (Opaque "out of fuel").
Proof.
  revert t s. induction fuel as [|fuel IH]; intros t s Hl; [lia|]. cbn [find_module].
  destruct (decide (t = "")) as [->|Ht]; [by rewrite bool_decide_eq_true_2|].
  rewrite bool_decide_eq_false_2 by (intros [=]; by subst).
  unfold mbind at 1, M_bind at 1, attempt.
  destruct (os_Open _ s) as [[content|e|why] s1]; [|destruct (Dir_path_shorter t Ht) as (u & -> & Hu); apply IH; lia|done].
  destruct (first_line content) as [l|]; [|done]. by destruct (negb (HasPrefix l "module ")).
Qed.

(** The search of go.mod ends: the directory gets shorter at each turn, down
    to the root, so that the length of the path is enough fuel. *)
Theorem fqdnToPath_ends cwd path s :
  starts slash cwd = true -> (fqdnToPath cwd path s).1 <> Err (Opaque "out of fuel").
Proof.
  intros Hc. unfold fqdnToPath. destruct (Abs_abs cwd path Hc) as [t ->]. apply find_module_ends. simpl. lia.
Qed.

(** ** Merging the profiles *)

(** What one profile adds. *)
Definition profile_lines (s : file_system) (cov : string) : list string :=
  match files s !! Clean cov with
  | Some content => filter (fun l => is_mode l = false) (scan_lines content).1
  | None => []
  end.

(** A profile that is not read to its end is reported. *)
Definition bad_profile (s : file_system) (cov : string) : bool :=
  match files s !! Clean cov with Some content => (scan_lines content).2 | None => true end.

Lemma append_run p text s : faults s = [] ->
  append p text s = (Ok tt, set_files (<[p := default "" (files s !! p) +:+ text]> (files s)) s).
Proof. intros Hf. unfold append, mbind, M_bind. by rewrite sys_call_none. Qed.

Lemma copy_lines_run dst ls s c : faults s = [] -> files s !! dst = Some c ->
  copy_lines dst ls s = (Ok tt, set_files (<[dst := c +:+ unlines (filter (fun l => is_mode l = false) ls)]> (files s)) s).
Proof.
  revert s c. induction ls as [|l ls IH]; intros s c Hf Hc.
  - simpl. rewrite append_nil_r, insert_id by done. by destruct s.
  - cbn [copy_lines]. rewrite filter_cons. unfold mbind, M_bind. destruct (is_mode l); simpl.
    + by rewrite (IH s c).
    + unfold errorf, map_err. rewrite append_run, Hc by done. simpl.
      rewrite (IH _ (c +:+ l +:+ eol)); [|done|simpl; by rewrite lookup_insert_eq].
      unfold set_files. simpl. rewrite insert_insert_eq. unfold unlines. csimpl. by rewrite !append_assoc.
Qed.

Lemma os_Open_none p s : faults s = [] ->
  os_Open p s = (match files s !! p with Some c => Ok c | None => Err (Sentinel OsErrNotExist) end, s).
Proof. intros Hf. unfold os_Open, mbind, M_bind. rewrite sys_call_none by done. simpl. by destruct (files s !! p). Qed.

Lemma appendToFile_run cov dst s c : faults s = [] -> files s !! dst = Some c ->
  exists r, appendToFile cov dst s
    = (r, set_files (<[dst := c +:+ unlines (profile_lines s cov)]> (files s)) s) /\
    (forall why, r <> Panic why) /\ is_ok r = negb (bad_profile s cov).
Proof.
  intros Hf Hc. unfold appendToFile, profile_lines, bad_profile. unfold mbind at 1, M_bind at 1, errorf at 1, map_err.
  rewrite os_Open_none by done. destruct (files s !! Clean cov) as [content|] eqn:E.
  - unfold mbind at 1, M_bind at 1, errorf, map_err, os_OpenAppend, mbind at 1, M_bind at 1.
    rewrite sys_call_none by done. unfold mbind at 1, M_bind at 1, get. rewrite Hc. unfold mret at 1, M_ret at 1.
    destruct (scan_lines content) as [lines long]. unfold mbind, M_bind. rewrite (copy_lines_run dst lines s c) by done.
    destruct long; eexists; (split; [done|]); by split.
  - eexists. split.
    + simpl. rewrite append_nil_r, insert_id by done. by destruct s.
    + by split.
Qed.

(** Another file of the system makes no difference. *)
Lemma profiles_same s s1 covs : Forall (fun cov => files s1 !! Clean cov = files s !! Clean cov) covs ->
  covs ≫= profile_lines s1 = covs ≫= profile_lines s /\
  filter (fun cov => bad_profile s1 cov = true) covs = filter (fun cov => bad_profile s cov = true) covs.
Proof.
  induction 1 as [|cov covs Hcov _ [IH1 IH2]]; [done|]. rewrite !bind_cons, !filter_cons, IH1, IH2.
  assert (profile_lines s1 cov = profile_lines s cov) as -> by (unfold profile_lines; by rewrite Hcov).
  assert (bad_profile s1 cov = bad_profile s cov) as -> by (unfold bad_profile; by rewrite Hcov). done.
Qed.

Lemma merge_each_run covs dst s c errs : faults s = [] -> files s !! dst = Some c ->
  Forall (fun cov => Clean cov <> dst) covs ->
  exists new, merge_each covs dst errs s
    = (Ok (errs ++ new), set_files (<[dst := c +:+ unlines (covs ≫= profile_lines s)]> (files s)) s) /\
    length new = length (filter (fun cov => bad_profile s cov = true) covs).
Proof.
  revert s c errs. induction covs as [|cov covs IH]; intros s c errs Hf Hc Hd.
  - exists []. simpl. rewrite app_nil_r, append_nil_r, insert_id by done. split; [by destruct s|done].
  - apply Forall_cons in Hd as [Hcov Hd]. cbn [merge_each]. unfold mbind at 1, M_bind at 1, attempt.
    destruct (appendToFile_run cov dst s c Hf Hc) as (r & -> & Hp & Hok). set (s1 := set_files _ s).
    assert (Forall (fun cov => files s1 !! Clean cov = files s !! Clean cov) covs) as Hsame.
    { eapply Forall_impl; [done|]. intros x Hx. simpl. apply lookup_insert_ne. congruence. }
    destruct (profiles_same s s1 covs Hsame) as [El Eb].
    set (errs' := match r with Err e => errs ++ [e] | _ => errs end).
    destruct (IH s1 (c +:+ unlines (profile_lines s cov)) errs') as (new & Hr & Hn);
      [done|by simpl; rewrite lookup_insert_eq|done|]. rewrite El in Hr. rewrite Eb in Hn.
    exists (drop (length errs) errs' ++ new).
    assert (set_files (<[dst:=(c +:+ unlines (profile_lines s cov)) +:+ unlines (covs ≫= profile_lines s)]> (files s1)) s1
      = set_files (<[dst:=c +:+ unlines ((cov :: covs) ≫= profile_lines s)]> (files s)) s) as Es.
    { rewrite bind_cons. unfold unlines. rewrite fmap_app, concat_str_app, append_assoc. unfold s1, set_files.
      cbn [files dirs faults logged]. by rewrite insert_insert_eq. }
    rewrite <- Es, filter_cons. unfold errs' in *. destruct r as [[]|e|why]; simpl in Hok; [| |by destruct (Hp why)].
    + destruct (bad_profile s cov); [done|]. rewrite Hr, drop_all, decide_False by done. done.
    + destruct (bad_profile s cov); [|done]. rewrite Hr, drop_app_length, decide_True, <- app_assoc by done.
      split; [done|]. simpl. by rewrite Hn.
Qed.

(** Merging adds to the main profile every line of every profile that can
    be read, in the order in which they were tracked, the lines of mode apart;
    a profile that is missing or cut is reported and does not stop the others;
    the list is then empty, whatever happened. *)
Theorem MergeCoverages_effect c old :
  faults (c_fs c) = [] -> files (c_fs c) !! goMainCoverProfile c = Some old ->
  Forall (fun cov => Clean cov <> goMainCoverProfile c) (coveragesToMerge c) ->
  exists errs c', MergeCoverages c = (Ok errs, c') /\
    files (c_fs c') = <[goMainCoverProfile c := old +:+ unlines (coveragesToMerge c ≫= profile_lines (c_fs c))]> (files (c_fs c)) /\
    length errs = length (filter (fun cov => bad_profile (c_fs c) cov = true) (coveragesToMerge c)) /\
    coveragesToMerge c' = [].
Proof.
  intros Hf Hc Hd. destruct (merge_each_run _ _ _ _ [] Hf Hc Hd) as (new & Hr & Hn).
  unfold MergeCoverages, on_files, zoom. rewrite Hr. do 2 eexists. by split_and!.
Qed.

(** ** Tracking *)

(** The files that are tracked are distinct. *)
Lemma TrackTestCoverage_NoDup cwd Args name c :
  NoDup (coveragesToMerge c) -> NoDup (coveragesToMerge (TrackTestCoverage cwd Args name c).2).
Proof.
  intros Hn. unfold TrackTestCoverage. simpl. case_bool_decide; [done|]. case_bool_decide; [done|]. simpl.
  apply NoDup_app. split; [done|]. split; [|apply NoDup_singleton]. by intros x Hx ->%list_elem_of_singleton.
Qed.

(** The flag is read once: what changes in the arguments later is ignored. *)
Lemma TrackTestCoverage_once cwd Args Args' name c :
  goMainCoverProfileOnce c = true -> TrackTestCoverage cwd Args name c = TrackTestCoverage cwd Args' name c.
Proof. intros Ho. unfold TrackTestCoverage. by rewrite Ho. Qed.

(** ** Rust coverage *)

Section Rust.
Context `{UnicodePrint}.
Variable other_verb : string + Z -> spec -> Z -> string.

(** The line of a Go profile for the line [l] of a file. *)
Definition go_line (p : string) (l : Z) (covered : string) : string :=
  p +:+ ":" +:+ pretty l +:+ ".1," +:+ pretty l +:+ ".9999 1 " +:+ covered +:+ eol.

(** The lines of a file whose counts are [counts], from the line [l] on: -1 is
    a line without code. *)
Fixpoint go_lines (p : string) (l : Z) (counts : list Z) : string :=
  match counts with
  | [] => ""
  | v :: counts =>
      (if v =? -1 then "" else go_line p l (if v =? 0 then "0" else "1")) +:+ go_lines p (l + 1) counts
  end.

(** %d of an integer. *)
Lemma render_int n : render "d" (int other_verb n) = pretty n.
Proof.
  change (render "d" (int other_verb n)) with (fmtInteger clearflags n). unfold fmtInteger, spaces. simpl.
  replace (Z.to_nat _) with O by lia. destruct (pretty_Z_cases n) as [[Hn ->]|[Hn ->]].
  - rewrite (proj2 (Z.ltb_ge _ _)), Z.abs_eq by done. done.
  - rewrite (proj2 (Z.ltb_lt _ _)), Z.abs_neq by lia. done.
Qed.

Lemma writeGoCoverageLine_text p l covered w :
  writeGoCoverageLine other_verb p l 9999 covered w = (Ok tt, w +:+ go_line p l covered).
Proof.
  unfold writeGoCoverageLine, write, go_line.
  pose proof (Sprintf_format [("", "s"%char); (":", "d"%char); (".1,", "d"%char); (".", "d"%char); (" 1 ", "s"%char)] eol
    [str other_verb p; int other_verb l; int other_verb l; int other_verb 9999; str other_verb covered]) as Hs.
  change (format_of _ _) with ("%s:%d.1,%d.%d 1 %s" +:+ eol) in Hs.
  rewrite Hs; [|repeat constructor; no_byte_closed|no_byte_closed|done]. clear Hs. cbn [zip_with fst snd].
  rewrite !render_int. change (render "s" (str other_verb ?x)) with x. 
  change (pretty 9999) with "9999". cbn [concat_str foldr]. f_equal. f_equal. by rewrite ?append_assoc, ?append_nil_r.
Qed.

Lemma convert_from_numbers counts rest l p w :
  convert_from other_verb l ((JNumber <$> counts) ++ rest) p w
  = convert_from other_verb (l + Z.of_nat (length counts)) rest p (w +:+ go_lines p (l + 1) counts).
Proof.
  revert l w. induction counts as [|v counts IH]; intros l w; csimpl.
  - by rewrite Z.add_0_r, append_nil_r.
  - unfold mbind, M_bind. destruct (v =? -1).
    + unfold mret at 1, M_ret at 1. rewrite IH, append_nil_l. by replace (l + 1 + Z.of_nat (length counts))
        with (l + Z.of_nat (S (length counts))) by lia.
    + rewrite writeGoCoverageLine_text, IH, append_assoc. by replace (l + 1 + Z.of_nat (length counts))
        with (l + Z.of_nat (S (length counts))) by lia.
Qed.

(** The coverage of a Rust file gives one line of a Go profile for each
    line with code, whether it was run, and nothing for the others; a value
    that is not a number ends the test after the lines before it. *)
Theorem convertRustFileResult_lines counts bad rest p w :
  convertRustFileResult other_verb (JNumber <$> counts) p w = (Ok tt, w +:+ go_lines p 1 counts) /\
  ((forall z, bad <> JNumber z) ->
   exists e, convertRustFileResult other_verb ((JNumber <$> counts) ++ bad :: rest) p w = (Err e, w +:+ go_lines p 1 counts)).
Proof.
  unfold convertRustFileResult. split.
  - pose proof (convert_from_numbers counts [] 0 p w) as Hc. by rewrite app_nil_r in Hc.
  - intros Hb. rewrite convert_from_numbers. destruct bad as [|z| | |]; [|by destruct (Hb z)|..]; by eexists.
Qed.
End Rust.

(** ** Golden files *)

Lemma sys_call_step {A} (f : file_system -> result A * file_system) (r : A) s s' :
  (mbind (fun _ : unit => step f) sys_call : M file_system A) s = (Ok r, s') ->
  exists s1, files s1 = files s /\ f s1 = (Ok r, s').
Proof.
  intros ([] & s1 & E & Hf)%bind_Ok. exists s1. split; [by apply sys_call_Ok in E as (? & _)|done].
Qed.

(** What was written is the content. *)
Lemma write_golden_Ok p data s s' : write_golden p data s = (Ok tt, s') -> files s' !! p = Some data.
Proof.
  unfold write_golden.
  intros ([] & s1 & _ & ([] & s2 & (s2' & _ & [= <-])%sys_call_step & (s3 & E & [= <-])%sys_call_step)%bind_Ok)%bind_Ok.
  simpl. rewrite lookup_insert_eq, E. simpl. by rewrite lookup_insert_eq.
Qed.

(** A golden file that was updated is what is loaded next, and loading alone
    gives the file that is there. *)
Lemma golden_roundtrip name data other s d s' :
  LoadWithUpdateFromGolden true name data s = (Ok d, s') -> faults s' = [] ->
  d = data /\ (LoadWithUpdateFromGolden false name other s').1 = Ok data.
Proof.
  unfold LoadWithUpdateFromGolden. intros ([] & s1 & Hw%write_golden_Ok & Ho)%bind_Ok Hf.
  assert (files s' !! golden_path name = Some data) as Hs
    by (by rewrite (frames_run _ _ _ _ _ (os_Open_same _) Ho)).
  split.
  - revert Ho. unfold os_Open. intros ([] & s2 & (E & _)%sys_call_Ok & (s3 & s4 & [= -> ->] & Hl)%bind_Ok)%bind_Ok.
    rewrite E, Hw in Hl. by injection Hl as <-.
  - change ((os_Open (golden_path name) s').1 = Ok data). rewrite os_Open_none by done. by rewrite Hs.
Qed.

(** ** Concrete runs *)

Import ConcreteFormat.

Definition two_profiles : coverage :=
  Coverage (FileSystem (<["/p" := "mode: set" +:+ eol]> (<["/p.A" := "mode: set" +:+ eol +:+ "a.go:1.1,1.9 1 1" +:+ eol]> ∅))
              ∅ [] []) "/p" true ["/p.B"; "/p.A"].

(** The profile of a test is missing: the other one is merged all the same. *)
Lemma MergeCoverages_effect_witness : exists errs c', MergeCoverages two_profiles = (Ok errs, c') /\
  files (c_fs c') !! "/p" = Some ("mode: set" +:+ eol +:+ "a.go:1.1,1.9 1 1" +:+ eol) /\ length errs = 1%nat.
Proof.
  assert (Forall (fun cov => Clean cov <> "/p") ["/p.B"; "/p.A"]) as Hd by (repeat constructor; vm_compute; discriminate).
  destruct (MergeCoverages_effect two_profiles ("mode: set" +:+ eol) eq_refl ltac:(vm_compute; reflexivity)
    Hd) as (errs & c' & Hr & Hf & Hn & _).
  exists errs, c'. split; [exact Hr|]. rewrite Hf, Hn. vm_compute. by split.
Defined.

Lemma fqdnToPath_ends_witness :
  (fqdnToPath "/root/src" "../src/a/b.go" (FileSystem ∅ ∅ [] [])).1 <> Err (Opaque "out of fuel").
Proof. exact (fqdnToPath_ends "/root/src" "../src/a/b.go" (FileSystem ∅ ∅ [] []) eq_refl). Defined.

Lemma convertRustFileResult_lines_witness :
  (convertRustFileResult no_other (JNumber <$> [-1; 0; 3]) "m/f.rs" "").2
  = "m/f.rs:2.1,2.9999 1 0" +:+ eol +:+ "m/f.rs:3.1,3.9999 1 1" +:+ eol.
Proof.
  pose proof (proj1 (convertRustFileResult_lines no_other [-1; 0; 3] JNull [] "m/f.rs" "")) as E. by rewrite E.
Defined.

Example module_found :
  (fqdnToPath "/root" "/root/m/nss/src"
     (FileSystem (<["/root/m/go.mod" := "module github.com/ubuntu/aad-auth" +:+ eol]> ∅) ∅ [] [])).1
  = Ok "github.com/ubuntu/aad-auth/nss/src".
Proof. vm_compute. reflexivity. Qed.

Example rust_tree :
  (scan no_other (fun l => l) (JObject [("children", JObject [("/", JObject []); ("lib.rs", JObject [("coverage", JArray [JNumber 2])]); ("name", JOther)])])
     "m" "").2 = "m/lib.rs:1.1,1.9999 1 1" +:+ eol.
Proof. vm_compute. reflexivity. Qed.
