(* ===== verification/TestHarness.v ===== *)
(** * The helpers that the test suites start from

    internal/testutils: the cache of a test, the golden dumps of a database and
    the environment of a Rust test; pam/pam_c.go: the program that fills a cache
    for manual tests. *)

From S2P Require Import Prelude GoStrings Interfaces Tables CacheDB CacheFacts CacheAuth CacheOpen CacheLife Clients.
From S2P Require Import Format Logger LoggerFacts TestDump FileKit TestCoverage CoverageFacts.
Open Scope string_scope.
Open Scope list_scope.
Open Scope Z_scope.

(** ** db.go *)

Section Caches.
Context `{Decorator} `{Bcrypt} `{RowOrder}.
Variables euid egid : Z.
Variable groups : list Z.
Variable LookupGroup : string -> result string.
Variable passwd_first : nat -> bool.

(** GetCurrentUIDGID, of the numbers that os/user gives as texts *)
Definition GetCurrentUIDGID (current : result (string * string)) : result (Z * Z) :=
  match current with
  | Ok (Uid, Gid) =>
      match Atoi Uid, Atoi Gid with
      | Ok uid, Ok gid => Ok (uid, gid)
      | Ok _, Err e | Err e, _ => Err e
      | Ok _, Panic p | Panic p, _ => Panic p
      end
  | Err e => Err e
  | Panic p => Panic p
  end.

(** The options of the cache of a test, for the current user [uid] and group
    [gid]: those of the test come last. *)
Definition test_options (uid gid : Z) (cacheDir : string) (options : list Option) : list Option :=
  [WithCacheDir cacheDir; WithRootUID uid; WithRootGID gid; WithShadowGID gid; WithTeardownDuration 0] ++ options.

Definition NewCacheForTests (uid gid : Z) (cacheDir : string) (options : list Option) : M sys nat :=
  New euid egid groups LookupGroup passwd_first (test_options uid gid cacheDir options).

(** ** main of pam_c.go *)

Definition mock_users : list (string * string) :=
  [("alice", "alice pass"); ("bob@example.com", "bob pass"); ("carol@example.com", "carol pass")].

Fixpoint update_users (h : nat) (users : list (string * string)) : M sys unit :=
  match users with
  | [] => mret tt
  | (u, pass) :: users =>
      on_handle h (method (fun c => Update c u pass "" "")) ;;
      update_users h users
  end.

(** [order] is the order in which Go ranges over the map of the users. An error
    ends the process. *)
Definition pam_main (order : list (string * string) -> list (string * string)) : M sys unit :=
  h ← New euid egid groups LookupGroup passwd_first
        [WithCacheDir "../cache"; WithRootUID 1000; WithRootGID 1000; WithShadowGID 1000];
  update_users h (order mock_users) ;;
  Close h.
End Caches.

(** DumpDb, of the tables of a database file *)
Definition DumpDb (ts : list sql_table) (usePredicatableFieldValues : bool) : result string :=
  dbToCsv ts usePredicatableFieldValues.

Definition dump_path (name ref : string) : string :=
  Join_path [Join_path ["testdata"; name]; Base_path ref +:+ ".dump"].

(** The update of a golden dump *)
Definition write_golden_dump (wantPath : string) (ts : list sql_table) : M file_system unit :=
  os_MkdirAll (Dir_path wantPath) ;;
  os_Create wantPath ;;
  data ← lift (DumpDb ts true);
  append wantPath data.

(** LoadAndUpdateFromGoldenDump in the test [name], for the database file [ref]
    whose tables are [ts]. *)
Definition LoadAndUpdateFromGoldenDump (update : bool) (name ref : string) (ts : list sql_table)
    : M file_system (gmap string Table) :=
  let wantPath := dump_path name ref in
  (if update then write_golden_dump wantPath ts else mret tt) ;;
  content ← os_Open wantPath;
  lift (ReadDumpAsTables content).

(** ** rust.go *)

(** TrackRustCoverage: the environment and the target directory of the commands
    of a Rust test. *)
Definition TrackRustCoverage (cwd : string) (Args : list string) (name TEST_RUST_TARGET TempDir : string)
    : M coverage (list string * string) :=
  let target := if bool_decide (TEST_RUST_TARGET = "") then TempDir else TEST_RUST_TARGET in
  testGoCoverage ← TrackTestCoverage cwd Args name;
  if bool_decide (testGoCoverage = "") then mret ([], target)
  else
    let coverDir := Dir_path testGoCoverage in
    mret (["RUSTFLAGS=-Cinstrument-coverage";
           "LLVM_PROFILE_FILE=" +:+ Join_path [coverDir; "rust-%p-%m.profraw"]], target).

Section Rust.
Context `{UnicodePrint}.
Variable other_verb : string + Z -> spec -> Z -> string.
Variable order : list string -> list string.
(* the command grcov, with the arguments that vary; json.Unmarshal *)
Variable grcov : string -> string -> string -> string -> M file_system unit.
Variable Unmarshal : string -> result json.

(** What TrackRustCoverage registers for the end of the test. The lines of the
    file are one write here. *)
Definition convert_coverage (cwd src target testGoCoverage : string) : M file_system unit :=
  let rustJSONCoverage := testGoCoverage +:+ ".json" in
  grcov (Dir_path testGoCoverage) (Join_path [target; "debug"]) src rustJSONCoverage ;;
  d ← os_Open rustJSONCoverage;
  results ← lift (Unmarshal d);
  os_Create testGoCoverage ;;
  p ← fqdnToPath cwd src;
  let '(r, text) := scan other_verb order results p "" in
  append testGoCoverage text ;;
  lift r.
End Rust.

(** ** cli.go *)

(** ChangeAppArgs: the arguments that the application is given. *)
Definition ChangeAppArgs (args : list string) : list string := "-vv" :: args.

(** ** A golden dump is read back *)

(** What is dumped of a table with predictable values. *)
Definition predictable (t : sql_table) : sql_table :=
  SqlTable (tbl_name t) (tbl_cols t)
    ((fun row => Some <$> predicatableFieldValues (tbl_name t) (default "" <$> row) (tbl_cols t)) <$> tbl_rows t).

Lemma dump_rows_predictable name cols rows :
  Forall (fun row => exists cells : list string, row = Some <$> cells) rows ->
  dump_rows name cols rows true
  = dump_rows name cols ((fun row => Some <$> predicatableFieldValues name (default "" <$> row) cols) <$> rows) false.
Proof.
  induction 1 as [|row rows [cells ->] _ IH]; [done|]. csimpl. unfold scan_strings.
  by rewrite !mapM_id_Some, default_Some, IH.
Qed.

Definition complete (t : sql_table) : Prop := Forall (fun row => exists cells : list string, row = Some <$> cells) (tbl_rows t).

Lemma dumpable_complete t : dumpable t -> complete t.
Proof. intros Ht. eapply Forall_impl; [apply (print_cells _ (proj1 Ht))|]. intros row (cells & -> & _). by exists cells. Qed.

Lemma dbToCsv_predictable ts : Forall complete ts -> dbToCsv ts true = dbToCsv (predictable <$> ts) false.
Proof.
  induction 1 as [|t ts Ht _ IH]; [done|]. csimpl. unfold dumpTable. simpl.
  by rewrite dump_rows_predictable, IH.
Qed.

Lemma replace_col_ok col value cols data : cell_ok value -> Forall cell_ok data ->
  Forall cell_ok (replace_col col value cols data) /\ length (replace_col col value cols data) = length data.
Proof.
  intros Hv. revert cols. induction data as [|d data IH]; intros cols; [by destruct cols|].
  intros [Hd Hdata]%Forall_cons. destruct cols as [|c cols]; simpl; [by split; [constructor|]|].
  case_bool_decide; simpl; [by split; [constructor|]|]. destruct (IH cols Hdata) as [H1 ->]. by split; [constructor|].
Qed.

Lemma predictable_ok name data cols : Forall cell_ok data ->
  Forall cell_ok (predicatableFieldValues name data cols) /\ length (predicatableFieldValues name data cols) = length data.
Proof.
  intros Hd. unfold predicatableFieldValues. repeat case_bool_decide; [..|done]; apply replace_col_ok; try done;
    split; no_byte_closed.
Qed.

Lemma dumpable_predictable t : dumpable t -> dumpable (predictable t).
Proof.
  intros [[Hn Hc Hr] Hs]. split; [split; [done..|]|by simpl; destruct (tbl_rows t)]. simpl.
  rewrite Forall_fmap. eapply Forall_impl; [done|]. intros row (cells & -> & Hl & Hok). simpl. eexists.
  split; [done|]. rewrite default_Some. destruct (predictable_ok (tbl_name t) cells (tbl_cols t) Hok) as [Hok' ->]. done.
Qed.

(** What a golden dump says of the tables of a database. *)
Definition golden_tables (ts : list sql_table) : gmap string Table :=
  foldl (fun m t => <[tbl_name t := table_of t]> m) ∅ (predictable <$> ts).

Lemma golden_read ts : Forall dumpable ts -> exists dump, DumpDb ts true = Ok dump /\ ReadDumpAsTables dump = Ok (golden_tables ts).
Proof.
  intros Hts. destruct (ReadDump_read (predictable <$> ts)) as (dump & Hd & Hr).
  { rewrite Forall_fmap. eapply Forall_impl; [done|]. apply dumpable_predictable. }
  exists dump. split; [|done]. unfold DumpDb. rewrite dbToCsv_predictable; [done|].
  eapply Forall_impl; [done|]. apply dumpable_complete.
Qed.

(** Updating a golden dump and loading it gives the tables of the database with
    the predictable values, and so does loading it later: the comparison of a
    test with its own golden dump succeeds, whatever the hashes and the
    times. *)
Theorem golden_dump_load name ref ts s tables s' other :
  Forall dumpable ts -> LoadAndUpdateFromGoldenDump true name ref ts s = (Ok tables, s') -> faults s' = [] ->
  tables = golden_tables ts /\ (LoadAndUpdateFromGoldenDump false name ref other s').1 = Ok (golden_tables ts).
Proof.
  intros Hts. destruct (golden_read ts Hts) as (dump & Hd & Hr).
  unfold LoadAndUpdateFromGoldenDump. intros ([] & s1 & Hw & (content & s2 & Ho & [= Hc <-])%bind_Ok)%bind_Ok Hf.
  assert (files s1 !! dump_path name ref = Some dump) as Hs1.
  { revert Hw. unfold write_golden_dump. rewrite Hd.
    intros ([] & t1 & _ & ([] & t2 & (t2' & _ & [= <-])%sys_call_step & (data & t3 & [= <- <-] & (t4 & E & [= <-])%sys_call_step)%bind_Ok)%bind_Ok)%bind_Ok.
    simpl. rewrite lookup_insert_eq, E. simpl. by rewrite lookup_insert_eq. }
  assert (files s2 !! dump_path name ref = Some dump) as Hs2
    by (by rewrite (frames_run _ _ _ _ _ (os_Open_same _) Ho)).
  assert (content = dump) as ->.
  { revert Ho. unfold os_Open. intros ([] & t & (E & _)%sys_call_Ok & (t3 & t4 & [= -> ->] & Hl)%bind_Ok)%bind_Ok.
    rewrite E, Hs1 in Hl. by injection Hl as <-. }
  rewrite Hr in Hc. injection Hc as <-. split; [done|].
  unfold mbind at 1, M_bind at 1, mret, M_ret, mbind, M_bind. rewrite os_Open_none, Hs2 by done. unfold lift. by rewrite Hr.
Qed.

(** ** Concrete runs *)

Import Concrete.

Definition small_shadow : sql_table := SqlTable "shadow" ["uid"; "password"] [[Some "4242"; Some "$2a$10$salted"]].

Lemma small_dumpable : Forall dumpable [small_shadow].
Proof.
  apply Forall_singleton. split; [split; simpl|done].
  - split; [done|no_byte_closed].
  - split_and!; [apply (bool_decide_eq_true_1 _); vm_compute; reflexivity|lia|repeat constructor; no_byte_closed].
  - apply Forall_singleton. exists ["4242"; "$2a$10$salted"]. split_and!; [done..|repeat constructor; no_byte_closed].
Qed.

Definition no_files : file_system := FileSystem ∅ ∅ [] [].
Definition dumped : file_system := (LoadAndUpdateFromGoldenDump true "TestUpdate" "/tmp/shadow.db" [small_shadow] no_files).2.

Lemma golden_dump_load_witness :
  (LoadAndUpdateFromGoldenDump false "TestUpdate" "/tmp/shadow.db" [] dumped).1 = Ok (golden_tables [small_shadow]).
Proof.
  assert (LoadAndUpdateFromGoldenDump true "TestUpdate" "/tmp/shadow.db" [small_shadow] no_files
    = (Ok (golden_tables [small_shadow]), dumped)) as E by (vm_compute; reflexivity).
  exact (proj2 (golden_dump_load "TestUpdate" "/tmp/shadow.db" [small_shadow] no_files _ dumped [] small_dumpable E eq_refl)).
Defined.

Example golden_file : files dumped !! "testdata/TestUpdate/shadow.db.dump"
  = Some (concat_str (line <$> ["shadow"; "uid,password"; "4242,HASHED_PASSWORD"; ""])).
Proof. vm_compute. reflexivity. Qed.

Example rust_environment :
  (TrackRustCoverage "/src" ["test"; "-test.coverprofile=/out/cover"] "TestNss/ok" "" "/tmp/T"
     (Coverage no_files "" false [])).1
  = Ok (["RUSTFLAGS=-Cinstrument-coverage"; "LLVM_PROFILE_FILE=/out/rust-%p-%m.profraw"], "/tmp/T").
Proof. vm_compute. reflexivity. Qed.

(** The cache of the manual tests: its users, and the teardown that is due. *)
Example mock_cache :
  let '(r, s) := pam_main 1000 1000 [1000] shadow_group in_order (fun l => l) (fresh_sys []) in
  r = Ok tt /\ p_login <$> t_passwd (tables_at "../cache" s) = ["alice"; "bob@example.com"; "carol@example.com"] /\
  s_timers s = [0%nat].
Proof. vm_compute. done. Qed.
